(* ===== verification/_CoqProject ===== *)
-Q . S2P
Prelude.v
Mem.v
Riscv.v
State.v
Spinlock.v
SpinConc.v
Kalloc.v
Vm.v
Proc.v
Console.v
Sleeplock.v
Bio.v
Virtio.v
Log.v
Fs.v
Pipe.v
File.v
ProcLife.v
Exec.v
Sysargs.v
Sysfile.v
Trap.v
Buddy.v
BuddyProofs.v
BuddyHeap.v
BuddyTree.v
BuddyAlloc.v
BuddyRun.v
BuddySpec.v
PageTable.v
VmProofs.v
UserCopy.v
UvmProofs.v
ProcProofs.v
SleeplockProofs.v
BioProofs.v
BioSpec.v
LogProofs.v
LogCrash.v
Txn.v
LogLimits.v
PipeProofs.v
SleepConc.v
FsProofs.v
BallocProofs.v
InodeProofs.v
BmapProofs.v
FileIO.v
FileProofs.v
DirProofs.v
Mkfs.v
MkfsProofs.v
MkfsBoot.v
ConsoleProofs.v
Ulib.v
Uprintf.v
Usys.v
Utils.v
UtilsProofs.v
Grep.v
GrepProofs.v
Sh.v
ShProofs.v
ShRun.v
Nsh.v
NshProofs.v
Umalloc.v
UmallocProofs.v
