(* ===== verification/Prelude.v ===== *)
(** * xv6-riscv: a model of the operating system and proofs about it

    ** The program

    xv6 (src/os) is a small Unix for RISC-V: a kernel in C (kernel/), a few lines
    of assembly, user programs (user/) and a program that builds the disk image
    (mkfs/).  The development translates the C functions, one definition for one
    function and with the same names, and proves properties of the definitions.

    ** How the code is modelled

    - [Prelude] (this file): machine-width integers as [Z] with their wrap-around
      ([u8] ... [u64], [s32]), little-endian bytes, list slices, tactics.
    - [Mem]: byte-addressed memory and kernel/string.c.
    - [Riscv]: kernel/riscv.h, memlayout.h, param.h: constants and macros.
    - [State]: the structs and global tables of the kernel as records, all in one
      [kstate], and the monad [M] that kernel code runs in.  A computation takes a
      state and a schedule.  A schedule is a list of steps of the rest of the
      machine (other harts, devices); one is taken where the code can wait or be
      interrupted: spinning for a lock, sleeping, waiting for a device.  The
      result is a value, a state and the rest of the schedule, or a halt: a panic,
      undefined behaviour (a null pointer, an index out of range), a wait that the
      schedule does not end, fuel that ran out, or a thread that never returns.
      [runs c s v s'] says that [c] goes from [s] to [s'] and returns [v] without
      waiting; [quiet] that it also leaves the locks as they were, up to their
      statistics; [hquiet l c] is the same for code inside the critical section of
      the lock [l]; [panics_with msg c s] that [c] ends in that panic.
    - [Spinlock] (spinlock.c), [SpinConc] (acquire and release as interleaved steps
      of any number of harts), [Kalloc] (kalloc.c), [Vm] (vm.c), [Proc],
      [ProcLife] (proc.c), [SleepConc] (sleep and wakeup as interleaved steps),
      [Console] (console.c, uart.c, printf.c), [Sleeplock], [Bio] (bio.c), [Virtio]
      (virtio_disk.c), [Log] (log.c), [Fs] (fs.c), [Pipe], [File], [Exec], [Sysargs]
      (syscall.c, sysproc.c), [Sysfile] (sysfile.c), [Trap] (trap.c, plic.c,
      start.c, main.c), [Buddy] (list.c, buddy.c): the operations, each file for the
      sources of its name.
    - [Ulib], [Uprintf], [Usys]: the user library; a user program is the tree of
      the system calls it makes, and [trace] what it and the processes it forks do
      over a table of descriptors.  [Umalloc] (umalloc.c): malloc and free over
      byte memory.  [Grep] (grep.c), [Sh] (sh.c), [Nsh] (nsh.c), [Utils] (cat, wc,
      ls, find, primes and other programs).
    - [Mkfs] (mkfs/mkfs.c): the program that writes the disk image, in a monad of
      its own: it returns, exits, fails an assertion, or has run out of fuel.

    ** Interfaces

    [Linker] gives the address at which the kernel ends, [BuddySyms] those of the
    static variables of buddy.c.  [DiskDriver] is what the
    buffer cache uses of the disk driver, [DiskLaws] what it relies on; [Virtio]
    implements it over [VirtioEnv], the answers of the device.  [Sink] and [Source]
    are the two kinds of addresses that file reads and writes copy to and from.
    Witnesses instantiate them ([linker0], [ideal], [local_sink], [user_sink]).

    ** Loops and fuel

    Loops over an array or a list are recursion over it.  Where the code has no
    such bound the definition takes fuel, chosen from the data so that it is enough
    (pages of a range, blocks of a file, characters of a line), and the theorems
    prove that the result is reached, not only that it is right if it is reached.
    Loops that wait for the rest of the machine recurse over the schedule.

    ** The theorems

    - Locks: mutual exclusion for any number of harts, what holding answers, that
      acquire and release restore the interrupt state, misuse panics
      ([SpinConc], [Spinlock]); no wakeup is lost and one that is sent is received
      ([SleepConc], [ProcProofs]).
    - Memory: the page allocator hands out each free page of RAM to one owner
      ([Kalloc]); mappages maps exactly the range asked for ([PageTable],
      [VmProofs]); copyout, copyin and copyinstr across pages, with the failures
      ([UserCopy]); uvmcopy copies an address space page for page, undoes a partial
      copy when memory runs out, and panics when it does so at the first page
      ([UvmProofs]).
    - The buddy allocator: its lists and bit vectors ([BuddyProofs]) stand for a tree
      of blocks in which no two buddies are free ([BuddyHeap], [BuddyTree]); every
      pass of a loop is a step on the tree ([BuddyAlloc], [BuddyRun]); bd_malloc is a
      best fit that overlaps nothing in use, bd_free merges, and undoes it
      ([BuddySpec]).
    - Disk: the buffer cache is invisible: reads see the last write ([BioProofs],
      [BioSpec]); a transaction is on the disk after end_op ([LogProofs], [Txn]);
      after a crash at any point, in recovery too, it is there completely or not at
      all, each block write being atomic ([LogCrash]); what the log's limits do not
      protect from ([LogLimits]).
    - Files: block allocation ([BallocProofs]), inodes ([InodeProofs]), the blocks of
      a file ([BmapProofs]), reading what was written, for direct and indirect
      blocks and growing files ([FileIO], [FileProofs]), directories and the inode
      cache ([DirProofs]), path elements ([FsProofs]).
    - The disk image: mkfs ends with a disk that satisfies what the theorems on the
      kernel's file system assume (layout, bitmap, whole files, and a whole root
      directory unless its entries fill its last block), with the names and the
      bytes of the host's files in it ([MkfsProofs]); a kernel with that disk finds
      the files by name and reads their bytes ([MkfsBoot]).
    - Pipes as bounded queues ([PipeProofs]), printing of numbers ([ConsoleProofs]).
    - User programs: grep's matcher decides the language of its pattern and grep
      prints the lines that match ([GrepProofs]); the shell accepts exactly the
      grammar of its command lines ([ShProofs]) and runs a line as it is written:
      processes, descriptors and waits ([ShRun]); wc counts what its definition says and cat copies, in whatever
      pieces the input comes, primes prints the primes ([UtilsProofs]); lines that
      nsh runs, and does not ([NshProofs]); malloc hands out blocks that nothing else uses, free merges
      neighbours and undoes it, and requests that do not fit an int wrap
      ([UmallocProofs]).

    ** Not modelled

    The assembly (entry.S, kernelvec.S, trampoline.S, swtch.S, initcode.S): saving
    and restoring registers; a context switch gives the hart to the schedule.  The
    TLB and the fences: memory is sequentially consistent and page tables take
    effect at once.  Other harts run only at the points where the code waits, except
    in [SpinConc] and [SleepConc], which interleave single steps.  ramdisk.c, which
    is not linked; of the user programs, xargs.c (it passes to exec pointers that it
    has not set), uthread.c (it switches stacks in assembly) and call.c; the test
    programs (usertests.c and the like), whose subject is the kernel itself. *)
From stdpp Require Export base tactics list gmap strings numbers option.
From Stdlib Require Export ZArith Lia ZifyBool.

Declare Scope xv6_scope.
Delimit Scope xv6_scope with xv6.
Global Open Scope xv6_scope.
Global Open Scope Z_scope.

(** ** Machine-width integers

    A [w]-bit unsigned C integer is a [Z] reduced modulo [2^w]; a signed one
    is the representative in [[-2^(w-1), 2^(w-1))].  On RISC-V plain [char] is
    unsigned, so a [char] is a [u8]. *)
Definition u8 (z : Z) : Z := z mod 2 ^ 8.
Definition u16 (z : Z) : Z := z mod 2 ^ 16.
Definition u32 (z : Z) : Z := z mod 2 ^ 32.
Definition u64 (z : Z) : Z := z mod 2 ^ 64.

Definition swrap (w z : Z) : Z :=
  let u := z mod 2 ^ w in if u <? 2 ^ (w - 1) then u else u - 2 ^ w.
Definition s16 (z : Z) : Z := swrap 16 z.
Definition s32 (z : Z) : Z := swrap 32 z.

(** C truth values. *)
Definition b2z (b : bool) : Z := if b then 1 else 0.
Definition ctrue (z : Z) : bool := negb (z =? 0).

Ltac Zify.zify_post_hook ::= Z.to_euclidean_division_equations.

(** [sz] simplifies machine-width goals to plain arithmetic and calls [lia]. *)
Ltac sz :=
  unfold u8, u16, u32, u64 in *;
  change (2 ^ 8) with 256 in *; change (2 ^ 16) with 65536 in *;
  change (2 ^ 32) with 4294967296 in *;
  change (2 ^ 64) with 18446744073709551616 in *; lia.

(** [bdestr b] case-splits a boolean comparison, leaving the proposition. *)
Ltac bdestr b :=
  let E := fresh "E" in
  destruct b eqn:E;
  rewrite ?Z.eqb_eq, ?Z.eqb_neq, ?Z.ltb_lt, ?Z.ltb_ge, ?Z.leb_le, ?Z.leb_gt in E.

Ltac case_if :=
  match goal with
  | |- context [if ?b then _ else _] => bdestr b
  | H : context [if ?b then _ else _] |- _ => bdestr b
  end.

(** [if_lia] resolves a conditional whose test follows from linear arithmetic. *)
Ltac if_lia :=
  match goal with
  | |- context [if ?c then _ else _] =>
      first [replace c with true by lia | replace c with false by lia]
  end; cbv iota.

Lemma s32_small z : 0 <= z < 2 ^ 31 -> s32 z = z.
Proof.
  intros H. unfold s32, swrap. change (2 ^ 32) with 4294967296. change (2 ^ (32 - 1)) with 2147483648.
  rewrite Z.mod_small by lia. by if_lia.
Qed.

Create HintDb xv6.

(** ** Bit-mask arithmetic *)
Lemma land_mask_mod (a n : Z) :
  0 <= n -> Z.land a (Z.lnot (2 ^ n - 1)) = a - a mod 2 ^ n.
Proof.
  intros Hn.
  replace (2 ^ n - 1) with (Z.ones n) by (rewrite Z.ones_equiv; lia).
  rewrite <- Z.ldiff_land, Z.ldiff_ones_r by lia.
  rewrite Z.shiftr_div_pow2, Z.shiftl_mul_pow2 by lia.
  assert (0 < 2 ^ n) by (apply Z.pow_pos_nonneg; lia).
  pose proof (Z.div_mod a (2 ^ n)). lia.
Qed.

Lemma land_ones_mod (a n : Z) : 0 <= n -> Z.land a (2 ^ n - 1) = a mod 2 ^ n.
Proof.
  intros Hn. replace (2 ^ n - 1) with (Z.ones n) by (rewrite Z.ones_equiv; lia).
  by apply Z.land_ones.
Qed.

(** Oring in bits that lie below the alignment of [a] is an addition. *)
Lemma lor_low_add (a b n : Z) :
  0 <= n -> a mod 2 ^ n = 0 -> 0 <= b < 2 ^ n -> Z.lor a b = a + b.
Proof.
  intros Hn Ha Hb.
  assert (Z.land a b = 0) as Hd.
  { apply Z.bits_inj'. intros i Hi. rewrite Z.land_spec, Z.bits_0.
    destruct (Z.lt_ge_cases i n).
    - rewrite <- (Z.mod_pow2_bits_low a n i) by lia. by rewrite Ha, Z.bits_0.
    - assert (Z.testbit b i = false) as ->; [| by rewrite andb_false_r].
      rewrite <- (Z.mod_small b (2 ^ n)) by lia. by apply Z.mod_pow2_bits_high; lia. }
  by rewrite <- Z.lxor_lor, Z.add_nocarry_lxor.
Qed.

(** ** Little-endian byte strings: how multi-byte objects sit in memory and
    in disk blocks. *)
Fixpoint le_to_Z (l : list Z) : Z :=
  match l with [] => 0 | b :: t => b + 256 * le_to_Z t end.
Fixpoint Z_to_le (n : nat) (v : Z) : list Z :=
  match n with O => [] | S n' => u8 v :: Z_to_le n' (v / 256) end.

Definition is_byte (b : Z) : Prop := 0 <= b < 256.

Lemma length_Z_to_le n v : length (Z_to_le n v) = n.
Proof. revert v. induction n; intros; simpl; auto. Qed.

Lemma Z_to_le_bytes n v : Forall is_byte (Z_to_le n v).
Proof.
  revert v. induction n; intros; simpl; constructor; auto.
  unfold is_byte, u8. apply Z.mod_pos_bound. lia.
Qed.

Lemma le_to_Z_to_le n v : le_to_Z (Z_to_le n v) = v mod 2 ^ (8 * Z.of_nat n).
Proof.
  revert v. induction n as [|n IH]; intros v.
  { simpl. by rewrite Z.mod_1_r. }
  replace (8 * Z.of_nat (S n)) with (8 + 8 * Z.of_nat n) by lia.
  rewrite Z.pow_add_r by lia. simpl. rewrite IH. unfold u8.
  change (2 ^ 8) with 256.
  assert (0 < 2 ^ (8 * Z.of_nat n)) by (apply Z.pow_pos_nonneg; lia).
  rewrite (Z.rem_mul_r v 256) by lia. lia.
Qed.

Lemma Z_to_le_to_Z l n :
  Forall is_byte l -> length l = n -> Z_to_le n (le_to_Z l) = l.
Proof.
  intros Hl <-. induction Hl as [|b l Hb Hl IH]; simpl; [done|].
  unfold is_byte in Hb.
  assert ((b + 256 * le_to_Z l) / 256 = le_to_Z l) as -> by lia.
  rewrite IH. f_equal. unfold u8. change (2 ^ 8) with 256. lia.
Qed.

Lemma le_to_Z_bound l :
  Forall is_byte l -> 0 <= le_to_Z l < 2 ^ (8 * Z.of_nat (length l)).
Proof.
  induction 1 as [|b l Hb Hl IH]; [simpl; lia|].
  replace (8 * Z.of_nat (length (b :: l))) with (8 + 8 * Z.of_nat (length l))
    by (simpl length; lia).
  rewrite Z.pow_add_r by lia. unfold is_byte in Hb. cbn [le_to_Z].
  change (2 ^ 8) with 256. lia.
Qed.

Lemma Forall_in {A} (P : A -> Prop) (l : list A) x : Forall P l -> x ∈ l -> P x.
Proof. rewrite list_elem_of_In, List.Forall_forall. auto. Qed.

(** ** Arrays: reading with the C default for an array of zeroes. *)
Definition nthZ (l : list Z) (i : Z) : Z := nth (Z.to_nat i) l 0.

Lemma nthZ_lookup l i x : l !! i = Some x -> nthZ l (Z.of_nat i) = x.
Proof. intros H. unfold nthZ. rewrite Nat2Z.id. by apply nth_lookup_Some. Qed.

(** [slice l i n]: [n] elements of [l] from index [i]; [splice l i l']: [l]
    with [l'] written over it from index [i]. *)
Definition slice {A} (l : list A) (i n : nat) : list A := take n (drop i l).
Definition splice {A} (l : list A) (i : nat) (l' : list A) : list A :=
  take i l ++ l' ++ drop (i + length l') l.

Lemma length_slice {A} (l : list A) i n :
  (i + n <= length l)%nat -> length (slice l i n) = n.
Proof. intros. unfold slice. rewrite length_take, length_drop. lia. Qed.

Lemma length_splice {A} (l : list A) i l' :
  (i + length l' <= length l)%nat -> length (splice l i l') = length l.
Proof.
  intros. unfold splice. rewrite !length_app, length_take, length_drop. lia.
Qed.

Lemma slice_splice {A} (l : list A) i l' :
  (i <= length l)%nat -> slice (splice l i l') i (length l') = l'.
Proof.
  intros. unfold slice, splice.
  rewrite drop_app_length' by (rewrite length_take; lia).
  by rewrite take_app_length.
Qed.

Lemma slice_splice_disjoint {A} (l : list A) i l' j n :
  (i + length l' <= length l)%nat ->
  (j + n <= i \/ i + length l' <= j)%nat ->
  slice (splice l i l') j n = slice l j n.
Proof.
  intros Hlen Hd. apply list_eq. intros k. unfold slice, splice.
  destruct (decide (k < n)%nat); [| by rewrite !lookup_take_ge by lia].
  rewrite !lookup_take_lt, !lookup_drop by lia.
  destruct Hd.
  - rewrite lookup_app_l by (rewrite length_take; lia).
    by rewrite lookup_take_lt by lia.
  - rewrite lookup_app_r by (rewrite length_take; lia).
    rewrite lookup_app_r by (rewrite length_take; lia).
    rewrite lookup_drop, length_take. f_equal. lia.
Qed.

(** ** C string literals as byte lists *)
Fixpoint zs (s : string) : list Z :=
  match s with
  | EmptyString => []
  | String a s' => Z.of_N (Ascii.N_of_ascii a) :: zs s'
  end.
