(* ===== verification/Mem.v ===== *)
(** * Physical memory and the kernel's string library (kernel/string.c)

    Memory is a finite map from byte addresses to bytes; an address that was
    never written reads as zero.  [memset], [memcmp] and [memmove] work on
    addresses and follow the loops of the source, the overlap test of
    [memmove] included.  The NUL-terminated string functions work on the bytes
    a [char *] points at: a list, with NUL after its end. *)
From S2P Require Import Prelude.

(** ** Bytes of memory *)
Abbreviation mem := (gmap Z Z).
Definition getb (m : mem) (a : Z) : Z := default 0 (m !! a).
Definition setb (m : mem) (a v : Z) : mem := <[a := u8 v]> m.

(** Memories that no load can tell apart. *)
Definition mem_eq (m1 m2 : mem) : Prop := forall a, getb m1 a = getb m2 a.
Infix "≡ₘ" := mem_eq (at level 70) : xv6_scope.
#[export] Instance mem_eq_equivalence : Equivalence mem_eq.
Proof.
  split; unfold mem_eq; intros x; [done| |].
  - intros y H a. by rewrite H.
  - intros y z H1 H2 a. by rewrite H1.
Qed.

Fixpoint load_bytes (m : mem) (a : Z) (n : nat) : list Z :=
  match n with O => [] | S n' => getb m a :: load_bytes m (a + 1) n' end.
Fixpoint store_bytes (m : mem) (a : Z) (l : list Z) : mem :=
  match l with [] => m | b :: t => store_bytes (setb m a b) (a + 1) t end.

(** Little-endian loads and stores of [n]-byte objects. *)
Definition load (n : nat) (m : mem) (a : Z) : Z := le_to_Z (load_bytes m a n).
Definition store (n : nat) (m : mem) (a v : Z) : mem := store_bytes m a (Z_to_le n v).
Abbreviation load32 := (load 4).
Abbreviation load64 := (load 8).
Abbreviation store32 := (store 4).
Abbreviation store64 := (store 8).

(** ** kernel/string.c on memory *)
Fixpoint memset_loop (m : mem) (cdst c : Z) (n : nat) : mem :=
  match n with O => m | S n' => memset_loop (setb m cdst c) (cdst + 1) c n' end.
(** [for(i = 0; i < n; i++) cdst[i] = c;] *)
Definition memset (m : mem) (dst c n : Z) : mem := memset_loop m dst c (Z.to_nat n).

Fixpoint memcmp_loop (m : mem) (s1 s2 : Z) (n : nat) : Z :=
  match n with
  | O => 0
  | S n' => if negb (getb m s1 =? getb m s2) then getb m s1 - getb m s2
            else memcmp_loop m (s1 + 1) (s2 + 1) n'
  end.
Definition memcmp (m : mem) (v1 v2 n : Z) : Z := memcmp_loop m v1 v2 (Z.to_nat n).

(** [while(n-- > 0) *d++ = *s++;] *)
Fixpoint copy_fwd (m : mem) (d s : Z) (n : nat) : mem :=
  match n with O => m | S n' => copy_fwd (setb m d (getb m s)) (d + 1) (s + 1) n' end.
(** [while(n-- > 0) *--d = *--s;] *)
Fixpoint copy_bwd (m : mem) (d s : Z) (n : nat) : mem :=
  match n with
  | O => m
  | S n' => copy_bwd (setb m (d - 1) (getb m (s - 1))) (d - 1) (s - 1) n'
  end.
Definition memmove (m : mem) (dst src n : Z) : mem :=
  if (src <? dst) && (dst <? src + n)
  then copy_bwd m (dst + n) (src + n) (Z.to_nat n)
  else copy_fwd m dst src (Z.to_nat n).
Definition memcpy (m : mem) (dst src n : Z) : mem := memmove m dst src n.

(** ** kernel/string.c on NUL-terminated strings *)
Definition chr (s : list Z) : Z := match s with [] => 0 | c :: _ => c end.

Fixpoint strncmp (p q : list Z) (n : nat) : Z :=
  match n with
  | O => 0
  | S n' => if ctrue (chr p) && (chr p =? chr q) then strncmp (tail p) (tail q) n'
            else u8 (chr p) - u8 (chr q)
  end.

(** [strncpy] overwrites exactly the first [n] bytes of the array [s]. *)
Fixpoint strncpy_pad (s : list Z) (n : nat) : list Z :=
  match n, s with S n', _ :: s' => 0 :: strncpy_pad s' n' | _, _ => s end.
Fixpoint strncpy (s t : list Z) (n : nat) : list Z :=
  match n, s with
  | S n', _ :: s' => chr t :: (if ctrue (chr t) then strncpy s' (tail t) n'
                               else strncpy_pad s' n')
  | _, _ => s
  end.

(** [while(--n > 0 && ( *s++ = *t++ ) != 0); *s = 0;], [n] already positive. *)
Fixpoint safestrcpy_loop (s t : list Z) (n : nat) : list Z :=
  match s with
  | [] => []
  | _ :: s' =>
      match n with
      | O | 1%nat => 0 :: s'
      | S n' => if ctrue (chr t) then chr t :: safestrcpy_loop s' (tail t) n'
                else match s' with [] => [0] | _ :: s'' => 0 :: 0 :: s'' end
      end
  end.
Definition safestrcpy (s t : list Z) (n : Z) : list Z :=
  if n <=? 0 then s else safestrcpy_loop s t (Z.to_nat n).

Fixpoint strlen (s : list Z) : nat :=
  match s with [] => O | c :: t => if ctrue c then S (strlen t) else O end.
(** The characters before the NUL. *)
Definition cstr (s : list Z) : list Z := take (strlen s) s.

Arguments load : simpl never.
Arguments store : simpl never.
Arguments memset : simpl never.
Arguments memmove : simpl never.
Arguments getb : simpl never.
Arguments setb : simpl never.

(** ** Lemmas: byte memory *)
Lemma getb_setb m a v b : getb (setb m a v) b = if a =? b then u8 v else getb m b.
Proof.
  unfold getb, setb. bdestr (a =? b).
  - subst. by rewrite lookup_insert_eq.
  - by rewrite lookup_insert_ne by lia.
Qed.

#[export] Instance getb_proper : Proper (mem_eq ==> (=) ==> (=)) getb.
Proof. intros m1 m2 H a ? <-. apply H. Qed.
#[export] Instance setb_proper : Proper (mem_eq ==> (=) ==> (=) ==> mem_eq) setb.
Proof.
  intros m1 m2 H a ? <- v ? <- b. rewrite !getb_setb. by case_if; [|apply H].
Qed.
#[export] Instance load_bytes_proper : Proper (mem_eq ==> (=) ==> (=) ==> (=)) load_bytes.
Proof.
  intros m1 m2 H a ? <- n ? <-. revert a. induction n; intros; simpl; [done|].
  by rewrite H, IHn.
Qed.

Lemma length_load_bytes m a n : length (load_bytes m a n) = n.
Proof. revert a. induction n; intros; simpl; auto. Qed.

Lemma lookup_load_bytes m a n i :
  (i < n)%nat -> load_bytes m a n !! i = Some (getb m (a + Z.of_nat i)).
Proof.
  revert a i. induction n as [|n IH]; intros a i Hi; [lia|].
  destruct i; simpl.
  - do 2 f_equal. lia.
  - rewrite IH by lia. do 2 f_equal. lia.
Qed.

Lemma getb_store_bytes m a l b :
  getb (store_bytes m a l) b =
    if (a <=? b) && (b <? a + Z.of_nat (length l)) then u8 (nthZ l (b - a)) else getb m b.
Proof.
  revert m a. induction l as [|x l IH]; intros m a; simpl.
  { by if_lia. }
  rewrite IH, getb_setb.
  bdestr (a =? b).
  - subst b.
    do 2 if_lia. unfold nthZ. by rewrite Z.sub_diag.
  - replace ((a <=? b) && (b <? a + Z.of_nat (S (length l))))
      with ((a + 1 <=? b) && (b <? a + 1 + Z.of_nat (length l))) by lia.
    destruct ((a + 1 <=? b) && _) eqn:E2; [|done].
    unfold nthZ. replace (Z.to_nat (b - a)) with (S (Z.to_nat (b - (a + 1)))) by lia.
    done.
Qed.

Lemma load_bytes_ext m1 m2 a n :
  (forall i, a <= i < a + Z.of_nat n -> getb m1 i = getb m2 i) ->
  load_bytes m1 a n = load_bytes m2 a n.
Proof.
  revert a. induction n as [|n IH]; intros a H; simpl; [done|].
  rewrite H by lia. f_equal. apply IH. intros. apply H. lia.
Qed.

Lemma load_store_bytes m a l :
  load_bytes (store_bytes m a l) a (length l) = u8 <$> l.
Proof.
  apply list_eq. intros i. destruct (decide (i < length l)%nat).
  - rewrite lookup_load_bytes, list_lookup_fmap by lia.
    rewrite getb_store_bytes.
    if_lia.
    destruct (lookup_lt_is_Some_2 l i) as [x Hx]; [lia|]. rewrite Hx. simpl.
    do 2 f_equal. replace (a + Z.of_nat i - a) with (Z.of_nat i) by lia.
    by apply nthZ_lookup.
  - rewrite !lookup_ge_None_2; [done| |];
      rewrite ?length_fmap, ?length_load_bytes; lia.
Qed.

Lemma u8_bytes l : Forall is_byte l -> u8 <$> l = l.
Proof.
  induction 1 as [|b l Hb Hl IH]; [done|].
  rewrite fmap_cons, IH. f_equal. unfold is_byte in Hb. sz.
Qed.

Lemma load_store_same n m a v : load n (store n m a v) a = v mod 2 ^ (8 * Z.of_nat n).
Proof.
  unfold load, store.
  pose proof (load_store_bytes m a (Z_to_le n v)) as H.
  rewrite length_Z_to_le in H. rewrite H.
  rewrite u8_bytes by apply Z_to_le_bytes. apply le_to_Z_to_le.
Qed.

Lemma load_ext n m1 m2 a :
  (forall i, a <= i < a + Z.of_nat n -> getb m1 i = getb m2 i) -> load n m1 a = load n m2 a.
Proof. intros. unfold load. by rewrite (load_bytes_ext m1 m2). Qed.

Lemma getb_store_out n m a v b :
  b < a \/ a + Z.of_nat n <= b -> getb (store n m a v) b = getb m b.
Proof.
  intros H. unfold store. rewrite getb_store_bytes, length_Z_to_le.
  by if_lia.
Qed.

Lemma load_store_other n n' m a v b :
  b + Z.of_nat n <= a \/ a + Z.of_nat n' <= b -> load n (store n' m a v) b = load n m b.
Proof. intros. apply load_ext. intros. apply getb_store_out. lia. Qed.

Lemma getb_byte_store_range m a l b :
  (forall x, is_byte (getb m x)) -> is_byte (getb (store_bytes m a l) b).
Proof.
  intros H. rewrite getb_store_bytes. case_if; [|apply H].
  unfold is_byte. sz.
Qed.

(** ** Lemmas: kernel/string.c *)
Lemma getb_memset_loop m d c n a :
  getb (memset_loop m d c n) a =
    if (d <=? a) && (a <? d + Z.of_nat n) then u8 c else getb m a.
Proof.
  revert m d. induction n as [|n IH]; intros m d; simpl.
  { by if_lia. }
  rewrite IH, getb_setb. bdestr (d =? a).
  - subst. by do 2 if_lia.
  - by replace ((d <=? a) && (a <? d + Z.of_nat (S n)))
      with ((d + 1 <=? a) && (a <? d + 1 + Z.of_nat n)) by lia.
Qed.

Lemma getb_memset m d c n a :
  0 <= n -> getb (memset m d c n) a = if (d <=? a) && (a <? d + n) then u8 c else getb m a.
Proof. intros. unfold memset. rewrite getb_memset_loop. by rewrite Z2Nat.id by lia. Qed.

Lemma getb_copy_fwd m d s n a :
  (d <= s \/ s + Z.of_nat n <= d) ->
  getb (copy_fwd m d s n) a =
    if (d <=? a) && (a <? d + Z.of_nat n) then u8 (getb m (s + (a - d))) else getb m a.
Proof.
  revert m d s. induction n as [|n IH]; intros m d s H; simpl.
  { by if_lia. }
  rewrite IH by lia. rewrite !getb_setb.
  bdestr (d =? a).
  - subst. do 2 if_lia. do 2 f_equal. lia.
  - replace ((d <=? a) && (a <? d + Z.of_nat (S n)))
      with ((d + 1 <=? a) && (a <? d + 1 + Z.of_nat n)) by lia.
    destruct ((d + 1 <=? a) && _) eqn:E2; [|done].
    replace (d =? s + 1 + (a - (d + 1))) with false by lia. do 2 f_equal. lia.
Qed.

Lemma getb_copy_bwd m d s n a :
  s <= d ->
  getb (copy_bwd m d s n) a =
    if (d - Z.of_nat n <=? a) && (a <? d) then u8 (getb m (s + (a - d))) else getb m a.
Proof.
  revert m d s. induction n as [|n IH]; intros m d s H; simpl.
  { by if_lia. }
  rewrite IH by lia. rewrite !getb_setb.
  bdestr (d - 1 =? a).
  - subst. do 2 if_lia. do 2 f_equal. lia.
  - replace ((d - Z.of_nat (S n) <=? a) && (a <? d))
      with ((d - 1 - Z.of_nat n <=? a) && (a <? d - 1)) by lia.
    destruct ((d - 1 - Z.of_nat n <=? a) && _) eqn:E2; [|done].
    replace (d - 1 =? s - 1 + (a - (d - 1))) with false by lia. do 2 f_equal. lia.
Qed.

Lemma getb_memmove m dst src n a :
  0 <= n ->
  getb (memmove m dst src n) a =
    if (dst <=? a) && (a <? dst + n) then u8 (getb m (src + (a - dst))) else getb m a.
Proof.
  intros Hn. unfold memmove.
  destruct ((src <? dst) && (dst <? src + n)) eqn:E.
  - rewrite getb_copy_bwd by lia. rewrite Z2Nat.id by lia.
    replace (dst + n - n) with dst by lia.
    replace (src + n + (a - (dst + n))) with (src + (a - dst)) by lia. done.
  - rewrite getb_copy_fwd by lia. by rewrite Z2Nat.id by lia.
Qed.

Lemma strncmp_eq0 n : forall p q,
  Forall is_byte p -> Forall is_byte q ->
  strncmp p q n = 0 <-> take n (cstr p) = take n (cstr q).
Proof.
  unfold cstr.
  induction n as [|n IH]; intros p q Hp Hq; [done|].
  assert (forall l, Forall is_byte l -> is_byte (chr l)) as Hb.
  { intros [|b l] Hl; cbn; [unfold is_byte; lia|by apply list.Forall_cons in Hl as [Hl _]]. }
  pose proof (Hb p Hp) as Bp. pose proof (Hb q Hq) as Bq. cbn [strncmp].
  unfold is_byte, ctrue in *.
  destruct p as [|a p], q as [|b q]; cbn [chr tail strlen take]; unfold ctrue; cbn in Bp, Bq.
  - done.
  - cbn. bdestr (b =? 0); cbn; [subst; done|]. split; [sz|done].
  - cbn. bdestr (a =? 0); cbn; [subst; done|].
    replace (a =? 0) with false by lia. split; [sz|done].
  - apply list.Forall_cons in Hp as [_ Hp]. apply list.Forall_cons in Hq as [_ Hq].
    bdestr (a =? 0); cbn.
    + subst. bdestr (b =? 0); cbn; [subst; done|]. split; [sz|done].
    + bdestr (a =? b); cbn.
      * subst. replace (b =? 0) with false by lia. cbn. rewrite (IH p q Hp Hq).
        split; [by intros ->|by intros [= ->]].
      * split; [sz|]. bdestr (b =? 0); cbn; [done|]. by intros [= ->].
Qed.

Lemma strlen_nonzero l i b : l !! i = Some b -> (i < strlen l)%nat -> b <> 0.
Proof.
  revert i. induction l as [|c l IH]; intros i H Hi; [done|]. cbn in Hi. unfold ctrue in Hi.
  bdestr (c =? 0); cbn in Hi; [lia|]. destruct i; cbn in H; [congruence|]. apply (IH i); [done|lia].
Qed.

Lemma length_safestrcpy_loop s t n : length (safestrcpy_loop s t n) = length s.
Proof.
  revert t n. induction s as [|x s IH]; intros t n; [done|]. destruct n as [|[|n]]; [done..|].
  cbn. destruct (ctrue _); cbn; [by rewrite IH|]. by destruct s.
Qed.
Lemma safestrcpy_loop_cstr n : forall s t,
  (0 < n <= length s)%nat -> cstr (safestrcpy_loop s t n) = take (n - 1) (cstr t) /\
  drop n (safestrcpy_loop s t n) = drop n s.
Proof.
  unfold cstr.
  induction n as [|n IH]; intros s t Hn; [lia|]. destruct s as [|x s]; cbn in Hn; [lia|].
  destruct n as [|n]; [done|]. cbn [safestrcpy_loop].
  replace (S (S n) - 1)%nat with (S n) by lia.
  destruct t as [|c t]; cbn [chr tail].
  { cbn. destruct s as [|y s]; [cbn in Hn; lia|]. done. }
  unfold ctrue. cbn [strlen]. unfold ctrue. bdestr (c =? 0); cbn [negb].
  - cbn. subst. destruct s as [|y s]; [cbn in Hn; lia|]. done.
  - cbn [strlen]. unfold ctrue. replace (c =? 0) with false by lia. cbn.
    destruct (IH s t) as [H1 H2]; [lia|]. rewrite H1.
    replace (S n - 1)%nat with n by lia. done.
Qed.

(** ** Properties *)
(** memmove copies: for overlapping and disjoint ranges alike, the
    destination holds what the source held before the call, and every byte
    outside the destination is unchanged. *)
Lemma memmove_copies m dst src n :
  0 <= n -> (forall a, is_byte (getb m a)) ->
  load_bytes (memmove m dst src n) dst (Z.to_nat n) = load_bytes m src (Z.to_nat n) /\
  forall a, a < dst \/ dst + n <= a -> getb (memmove m dst src n) a = getb m a.
Proof.
  intros Hn Hb. split.
  - apply list_eq. intros i. destruct (decide (i < Z.to_nat n)%nat).
    + rewrite !lookup_load_bytes by done. rewrite getb_memmove by done. if_lia.
      replace (src + (dst + Z.of_nat i - dst)) with (src + Z.of_nat i) by lia.
      pose proof (Hb (src + Z.of_nat i)). unfold is_byte in *. f_equal. sz.
    + rewrite !lookup_ge_None_2 by (rewrite length_load_bytes; lia). done.
  - intros a Ha. rewrite getb_memmove by done. by if_lia.
Qed.

Lemma memmove_copies_witness :
  load_bytes (memmove (store_bytes ∅ 100 [1; 2; 3; 4]) 102 100 4) 102 4 = [1; 2; 3; 4].
Proof.
  destruct (memmove_copies (store_bytes ∅ 100 [1; 2; 3; 4]) 102 100 4) as [H _].
  - lia.
  - intros a. apply getb_byte_store_range. intros x. vm_compute. split; [discriminate|reflexivity].
  - exact H.
Defined.

(** safestrcpy always leaves a NUL-terminated string: the first n-1
    characters of [t], or all of [t] when it is shorter; it stays within the
    first [n] bytes of the destination. *)
Lemma safestrcpy_terminates s t n :
  0 < n <= Z.of_nat (length s) ->
  cstr (safestrcpy s t n) = take (Z.to_nat n - 1) (cstr t) /\
  (length (cstr (safestrcpy s t n)) < Z.to_nat n)%nat /\
  length (safestrcpy s t n) = length s /\
  drop (Z.to_nat n) (safestrcpy s t n) = drop (Z.to_nat n) s.
Proof.
  intros Hn. unfold safestrcpy. if_lia.
  destruct (safestrcpy_loop_cstr (Z.to_nat n) s t) as [H1 H2]; [lia|].
  split_and!; [done| |by apply length_safestrcpy_loop|done].
  rewrite H1, length_take. lia.
Qed.

Lemma safestrcpy_terminates_witness :
  cstr (safestrcpy [9; 9; 9; 9] [65; 66; 67; 68; 69] 3) = [65; 66].
Proof.
  destruct (safestrcpy_terminates [9; 9; 9; 9] [65; 66; 67; 68; 69] 3) as [H _].
  - split; [lia|]. vm_compute. discriminate.
  - exact H.
Defined.

(** The loops are never unfolded by conversion: proofs use the lemmas above. *)
#[global] Opaque memset memmove memcmp load store getb setb load_bytes store_bytes.
