(* ===== verification/Riscv.v ===== *)
(** * Constants and address arithmetic (kernel/riscv.h, kernel/memlayout.h)

    The macros of the two headers, with the facts about page rounding, page
    table indices and page table entries that the virtual memory code relies
    on. *)
From S2P Require Import Prelude.

(** ** Status bits *)
Definition SSTATUS_SPP : Z := Z.shiftl 1 8.
Definition SSTATUS_SPIE : Z := Z.shiftl 1 5.
Definition SSTATUS_SIE : Z := Z.shiftl 1 1.
Definition SIE_SEIE : Z := Z.shiftl 1 9.
Definition SIE_STIE : Z := Z.shiftl 1 5.
Definition SIE_SSIE : Z := Z.shiftl 1 1.
Definition MSTATUS_MPP_MASK : Z := Z.shiftl 3 11.
Definition MSTATUS_MPP_S : Z := Z.shiftl 1 11.
Definition MSTATUS_MIE : Z := Z.shiftl 1 3.
Definition MIE_MTIE : Z := Z.shiftl 1 7.

(** ** Pages *)
Definition PGSIZE : Z := 4096.
Definition PGSHIFT : Z := 12.
Definition PGROUNDUP (sz : Z) : Z := Z.land (u64 (sz + PGSIZE - 1)) (Z.lnot (PGSIZE - 1)).
Definition PGROUNDDOWN (a : Z) : Z := Z.land a (Z.lnot (PGSIZE - 1)).

(** ** Page table entries (Sv39) *)
Definition PTE_V : Z := Z.shiftl 1 0.
Definition PTE_R : Z := Z.shiftl 1 1.
Definition PTE_W : Z := Z.shiftl 1 2.
Definition PTE_X : Z := Z.shiftl 1 3.
Definition PTE_U : Z := Z.shiftl 1 4.
Definition PA2PTE (pa : Z) : Z := u64 (Z.shiftl (Z.shiftr pa 12) 10).
Definition PTE2PA (pte : Z) : Z := u64 (Z.shiftl (Z.shiftr pte 10) 12).
Definition PTE_FLAGS (pte : Z) : Z := Z.land pte 0x3FF.
Definition PXMASK : Z := 0x1FF.
Definition PXSHIFT (level : Z) : Z := PGSHIFT + 9 * level.
Definition PX (level va : Z) : Z := Z.land (Z.shiftr va (PXSHIFT level)) PXMASK.
Definition MAXVA : Z := Z.shiftl 1 (9 + 9 + 9 + 12 - 1).
Definition SATP_SV39 : Z := Z.shiftl 8 60.
Definition MAKE_SATP (pagetable : Z) : Z := Z.lor SATP_SV39 (Z.shiftr pagetable 12).

(** ** Physical memory layout *)
Definition UART0 : Z := 0x10000000.
Definition UART0_IRQ : Z := 10.
Definition VIRTION (n : Z) : Z := 0x10000000 + (n + 1) * 0x1000.
Definition VIRTIO0_IRQ : Z := 1.
Definition VIRTIO1_IRQ : Z := 2.
Definition CLINT : Z := 0x2000000.
Definition CLINT_MTIMECMP (hartid : Z) : Z := CLINT + 0x4000 + 8 * hartid.
Definition CLINT_MTIME : Z := CLINT + 0xBFF8.
Definition PLIC : Z := 0x0c000000.
Definition PLIC_SENABLE (hart : Z) : Z := PLIC + 0x2080 + hart * 0x100.
Definition PLIC_SPRIORITY (hart : Z) : Z := PLIC + 0x201000 + hart * 0x2000.
Definition PLIC_SCLAIM (hart : Z) : Z := PLIC + 0x201004 + hart * 0x2000.
Definition KERNBASE : Z := 0x80000000.
Definition PHYSTOP : Z := KERNBASE + 128 * 1024 * 1024.
Definition TRAMPOLINE : Z := MAXVA - PGSIZE.
Definition KSTACK (p : Z) : Z := TRAMPOLINE - (p + 1) * 2 * PGSIZE.
Definition TRAPFRAME : Z := TRAMPOLINE - PGSIZE.

(** ** Lemmas *)
Definition page_aligned (a : Z) : Prop := a mod PGSIZE = 0.

Lemma PGROUNDDOWN_eq a : PGROUNDDOWN a = a - a mod PGSIZE.
Proof. exact (land_mask_mod a 12 ltac:(lia)). Qed.

Lemma PGROUNDUP_eq a :
  0 <= a -> a + PGSIZE <= 2 ^ 64 ->
  PGROUNDUP a = (a + PGSIZE - 1) - (a + PGSIZE - 1) mod PGSIZE.
Proof.
  unfold PGSIZE. intros. unfold PGROUNDUP, PGSIZE. unfold u64. rewrite Z.mod_small by lia.
  exact (land_mask_mod _ 12 ltac:(lia)).
Qed.

Lemma PGROUNDDOWN_aligned a : page_aligned (PGROUNDDOWN a).
Proof. unfold page_aligned. rewrite PGROUNDDOWN_eq. unfold PGSIZE. lia. Qed.
Lemma PGROUNDDOWN_range a : PGROUNDDOWN a <= a < PGROUNDDOWN a + PGSIZE.
Proof. rewrite PGROUNDDOWN_eq. unfold PGSIZE. lia. Qed.
Lemma PGROUNDDOWN_id a : page_aligned a -> PGROUNDDOWN a = a.
Proof. unfold page_aligned. rewrite PGROUNDDOWN_eq. lia. Qed.
Lemma PGROUNDUP_spec a :
  0 <= a -> a + PGSIZE <= 2 ^ 64 ->
  page_aligned (PGROUNDUP a) /\ a <= PGROUNDUP a < a + PGSIZE.
Proof.
  intros. rewrite PGROUNDUP_eq by lia. unfold page_aligned, PGSIZE in *. lia.
Qed.

(** Addresses in different pages are different. *)
Lemma page_disjoint p q a b :
  page_aligned p -> page_aligned q -> p <> q ->
  p <= a < p + PGSIZE -> q <= b < q + PGSIZE -> a <> b.
Proof. unfold page_aligned, PGSIZE. lia. Qed.

Lemma PX_eq level va : 0 <= level -> PX level va = va / 2 ^ (12 + 9 * level) mod 512.
Proof.
  intros. unfold PX, PXSHIFT, PGSHIFT, PXMASK. rewrite Z.shiftr_div_pow2 by lia.
  exact (land_ones_mod _ 9 ltac:(lia)).
Qed.
Lemma PX_range level va : 0 <= level -> 0 <= PX level va < 512.
Proof. intros. rewrite PX_eq by lia. apply Z.mod_pos_bound. lia. Qed.

(** The three indices determine the page of a virtual address. *)
Lemma PX_page va va' :
  0 <= va < MAXVA -> 0 <= va' < MAXVA ->
  PX 2 va = PX 2 va' -> PX 1 va = PX 1 va' -> PX 0 va = PX 0 va' ->
  PGROUNDDOWN va = PGROUNDDOWN va'.
Proof.
  unfold MAXVA. change (Z.shiftl 1 (9 + 9 + 9 + 12 - 1)) with 274877906944.
  intros Ha Hb. rewrite !PX_eq, !PGROUNDDOWN_eq by lia. unfold PGSIZE.
  change (2 ^ (12 + 9 * 2)) with (4096 * 512 * 512).
  change (2 ^ (12 + 9 * 1)) with (4096 * 512). change (2 ^ (12 + 9 * 0)) with 4096.
  rewrite <- !Z.div_div by lia. lia.
Qed.
Lemma PX_of_page level va :
  0 <= level -> PX level (PGROUNDDOWN va) = PX level va.
Proof.
  intros. rewrite !PX_eq, PGROUNDDOWN_eq by lia. unfold PGSIZE.
  replace (2 ^ (12 + 9 * level)) with (4096 * 2 ^ (9 * level))
    by (rewrite Z.pow_add_r by lia; done).
  assert (0 < 2 ^ (9 * level)) by (apply Z.pow_pos_nonneg; lia).
  rewrite <- !Z.div_div by lia. do 2 f_equal. lia.
Qed.

Lemma PTE2PA_eq pte : 0 <= pte < 2 ^ 54 -> PTE2PA pte = pte / 1024 * 4096.
Proof.
  intros. unfold PTE2PA. rewrite Z.shiftr_div_pow2, Z.shiftl_mul_pow2 by lia.
  change (2 ^ 10) with 1024. change (2 ^ 12) with 4096. sz.
Qed.
Lemma PA2PTE_eq pa : 0 <= pa < 2 ^ 56 -> PA2PTE pa = pa / 4096 * 1024.
Proof.
  intros. unfold PA2PTE. rewrite Z.shiftr_div_pow2, Z.shiftl_mul_pow2 by lia.
  change (2 ^ 10) with 1024. change (2 ^ 12) with 4096. sz.
Qed.
(** A PTE made from a page and 10 flag bits gives both back. *)
Lemma PTE2PA_mk pa perm :
  page_aligned pa -> 0 <= pa < 2 ^ 56 -> 0 <= perm < 1024 ->
  PTE2PA (Z.lor (PA2PTE pa) perm) = pa.
Proof.
  unfold page_aligned, PGSIZE. intros Ha Hr Hp. rewrite PA2PTE_eq by lia.
  rewrite (lor_low_add _ _ 10) by lia. rewrite PTE2PA_eq by lia. lia.
Qed.
Lemma PTE_FLAGS_mk pa perm :
  0 <= pa < 2 ^ 56 -> 0 <= perm < 1024 -> PTE_FLAGS (Z.lor (PA2PTE pa) perm) = perm.
Proof.
  intros Hr Hp. rewrite PA2PTE_eq by lia. rewrite (lor_low_add _ _ 10) by lia.
  unfold PTE_FLAGS. change 0x3FF with (2 ^ 10 - 1). rewrite land_ones_mod by lia. lia.
Qed.
Lemma PTE_mk_range pa perm :
  0 <= pa < 2 ^ 56 -> 0 <= perm < 1024 -> 0 <= Z.lor (PA2PTE pa) perm < 2 ^ 54.
Proof.
  intros Hr Hp. rewrite PA2PTE_eq by lia. rewrite (lor_low_add _ _ 10) by lia. lia.
Qed.
Lemma PTE2PA_aligned pte : page_aligned (PTE2PA pte).
Proof.
  unfold page_aligned, PTE2PA, u64, PGSIZE. rewrite Z.shiftl_mul_pow2 by lia.
  change (2 ^ 12) with 4096. lia.
Qed.
