(* ===== verification/State.v ===== *)
(** * The kernel's data and the monad its functions run in

    Every structure of the kernel is a record with the fields of the C struct;
    the global variables are the fields of [kstate].  A pointer into a static
    table (proc[], cpus[], bcache.buf[], icache.inode[], ftable.file[]) is the
    index of the entry, [None] for the null pointer; a pointer to a page of
    physical memory is its address, 0 for null.

    A kernel function is a value of [M A]: it is run by one hart from a state
    and a schedule.  The schedule is the list of what the rest of the machine
    (other harts, interrupts, other processes) does while this thread waits: a
    failed attempt to take a spinlock, and each call of swtch that gives up the
    hart, consume one element.  A thread that waits when the schedule is
    exhausted is [HBlocked].  A panic, undefined behaviour of C, an exhausted
    fuel and a thread that never returns are the other ways not to return. *)
From S2P Require Import Prelude Mem.

(** ** kernel/param.h *)
Definition NPROC : nat := 10.
Definition NCPU : nat := 8.
Definition NOFILE : nat := 16.
Definition NFILE : nat := 100.
Definition NINODE : nat := 50.
Definition NDEV : nat := 10.
Definition ROOTDEV : Z := 0.
Definition MAXARG : nat := 32.
Definition MAXOPBLOCKS : Z := 10.
Definition LOGSIZE : Z := MAXOPBLOCKS * 3.
Definition NBUF : nat := 30.
Definition FSSIZE : Z := 2000.
Definition MAXPATH : Z := 128.
Definition NDISK : nat := 2.
Arguments NPROC : simpl never.
Arguments NCPU : simpl never.
Arguments NOFILE : simpl never.
Arguments NFILE : simpl never.
Arguments NINODE : simpl never.
Arguments NDEV : simpl never.
Arguments MAXARG : simpl never.
Arguments NBUF : simpl never.
Arguments NDISK : simpl never.

(** ** Locks, harts and the interrupt state *)
(** struct spinlock; [lk_cpu] is the index in cpus[]. *)
#[projections(primitive)] Record spinlock := mk_spinlock {
  lk_locked : Z;
  lk_name : string;
  lk_cpu : option nat;
  lk_n : Z;
  lk_nts : Z;
}.
Definition set_lk_locked (v : Z) (x : spinlock) : spinlock :=
  mk_spinlock v (lk_name x) (lk_cpu x) (lk_n x) (lk_nts x).
Definition set_lk_name (v : string) (x : spinlock) : spinlock :=
  mk_spinlock (lk_locked x) v (lk_cpu x) (lk_n x) (lk_nts x).
Definition set_lk_cpu (v : option nat) (x : spinlock) : spinlock :=
  mk_spinlock (lk_locked x) (lk_name x) v (lk_n x) (lk_nts x).
Definition set_lk_n (v : Z) (x : spinlock) : spinlock :=
  mk_spinlock (lk_locked x) (lk_name x) (lk_cpu x) v (lk_nts x).
Definition set_lk_nts (v : Z) (x : spinlock) : spinlock :=
  mk_spinlock (lk_locked x) (lk_name x) (lk_cpu x) (lk_n x) v.
Definition spinlock0 : spinlock := mk_spinlock 0 EmptyString None 0 0.

(** The spinlocks of the kernel, by the object they protect. *)
Inductive lockid :=
  | Lkmem | Lpid | Lproc (i : nat) | Lbcache | Lbuf (i : nat) | Licache
  | Linode (i : nat) | Lftable | Llog (dev : nat) | Lcons | Lpr | Lticks
  | Lvdisk (n : nat) | Lpipe (pa : Z) | Lbuddy.

Definition lockid_code (l : lockid) : nat * Z :=
  match l with
  | Lkmem => (0%nat, 0) | Lpid => (1%nat, 0) | Lproc i => (2%nat, Z.of_nat i)
  | Lbcache => (3%nat, 0) | Lbuf i => (4%nat, Z.of_nat i) | Licache => (5%nat, 0)
  | Linode i => (6%nat, Z.of_nat i) | Lftable => (7%nat, 0)
  | Llog d => (8%nat, Z.of_nat d) | Lcons => (9%nat, 0) | Lpr => (10%nat, 0)
  | Lticks => (11%nat, 0) | Lvdisk n => (12%nat, Z.of_nat n) | Lpipe pa => (13%nat, pa)
  | Lbuddy => (14%nat, 0)
  end.
Definition lockid_decode (c : nat * Z) : lockid :=
  let i := Z.to_nat c.2 in
  match c.1 with
  | 0 => Lkmem | 1 => Lpid | 2 => Lproc i | 3 => Lbcache | 4 => Lbuf i | 5 => Licache
  | 6 => Linode i | 7 => Lftable | 8 => Llog i | 9 => Lcons | 10 => Lpr | 11 => Lticks
  | 12 => Lvdisk i | 13 => Lpipe c.2 | _ => Lbuddy
  end%nat.
#[export] Instance lockid_eq_dec : EqDecision lockid.
Proof. solve_decision. Defined.
#[export] Instance lockid_countable : Countable lockid.
Proof.
  apply (inj_countable' lockid_code lockid_decode).
  by intros []; simpl; unfold lockid_decode; simpl; rewrite ?Nat2Z.id.
Defined.

(** struct cpu; the saved scheduler context is only used by swtch.S. *)
#[projections(primitive)] Record cpu := mk_cpu {
  c_proc : option nat;
  c_noff : Z;
  c_intena : Z;
}.
Definition set_c_proc (v : option nat) (x : cpu) : cpu :=
  mk_cpu v (c_noff x) (c_intena x).
Definition set_c_noff (v : Z) (x : cpu) : cpu :=
  mk_cpu (c_proc x) v (c_intena x).
Definition set_c_intena (v : Z) (x : cpu) : cpu :=
  mk_cpu (c_proc x) (c_noff x) v.
(** The locks, locks[0..nlock) of spinlock.c, cpus[] and each hart's sstatus. *)
#[projections(primitive)] Record lkstate := mk_lkstate {
  l_locks : gmap lockid spinlock;
  l_tab : list lockid;
  l_cpus : list cpu;
  l_sstatus : list Z;
}.
Definition set_l_locks (v : gmap lockid spinlock) (x : lkstate) : lkstate :=
  mk_lkstate v (l_tab x) (l_cpus x) (l_sstatus x).
Definition set_l_tab (v : list lockid) (x : lkstate) : lkstate :=
  mk_lkstate (l_locks x) v (l_cpus x) (l_sstatus x).
Definition set_l_cpus (v : list cpu) (x : lkstate) : lkstate :=
  mk_lkstate (l_locks x) (l_tab x) v (l_sstatus x).
Definition set_l_sstatus (v : list Z) (x : lkstate) : lkstate :=
  mk_lkstate (l_locks x) (l_tab x) (l_cpus x) v.
Definition lock_of (lk : lkstate) (l : lockid) : spinlock := default spinlock0 (l_locks lk !! l).
Definition upd_lock (l : lockid) (f : spinlock -> spinlock) (lk : lkstate) : lkstate :=
  set_l_locks (<[l := f (lock_of lk l)]> (l_locks lk)) lk.

(** Supervisor and machine control registers of a hart, sstatus excepted. *)
#[projections(primitive)] Record csrs := mk_csrs {
  r_sie : Z;
  r_sip : Z;
  r_stvec : Z;
  r_sepc : Z;
  r_scause : Z;
  r_stval : Z;
  r_satp : Z;
  r_mstatus : Z;
  r_mepc : Z;
  r_medeleg : Z;
  r_mideleg : Z;
  r_mie : Z;
  r_mtvec : Z;
  r_mscratch : Z;
}.
Definition set_r_sie (v : Z) (x : csrs) : csrs :=
  mk_csrs v (r_sip x) (r_stvec x) (r_sepc x) (r_scause x) (r_stval x) (r_satp x) (r_mstatus x)
    (r_mepc x) (r_medeleg x) (r_mideleg x) (r_mie x) (r_mtvec x) (r_mscratch x).
Definition set_r_sip (v : Z) (x : csrs) : csrs :=
  mk_csrs (r_sie x) v (r_stvec x) (r_sepc x) (r_scause x) (r_stval x) (r_satp x) (r_mstatus x)
    (r_mepc x) (r_medeleg x) (r_mideleg x) (r_mie x) (r_mtvec x) (r_mscratch x).
Definition set_r_stvec (v : Z) (x : csrs) : csrs :=
  mk_csrs (r_sie x) (r_sip x) v (r_sepc x) (r_scause x) (r_stval x) (r_satp x) (r_mstatus x)
    (r_mepc x) (r_medeleg x) (r_mideleg x) (r_mie x) (r_mtvec x) (r_mscratch x).
Definition set_r_sepc (v : Z) (x : csrs) : csrs :=
  mk_csrs (r_sie x) (r_sip x) (r_stvec x) v (r_scause x) (r_stval x) (r_satp x) (r_mstatus x)
    (r_mepc x) (r_medeleg x) (r_mideleg x) (r_mie x) (r_mtvec x) (r_mscratch x).
Definition set_r_scause (v : Z) (x : csrs) : csrs :=
  mk_csrs (r_sie x) (r_sip x) (r_stvec x) (r_sepc x) v (r_stval x) (r_satp x) (r_mstatus x)
    (r_mepc x) (r_medeleg x) (r_mideleg x) (r_mie x) (r_mtvec x) (r_mscratch x).
Definition set_r_stval (v : Z) (x : csrs) : csrs :=
  mk_csrs (r_sie x) (r_sip x) (r_stvec x) (r_sepc x) (r_scause x) v (r_satp x) (r_mstatus x)
    (r_mepc x) (r_medeleg x) (r_mideleg x) (r_mie x) (r_mtvec x) (r_mscratch x).
Definition set_r_satp (v : Z) (x : csrs) : csrs :=
  mk_csrs (r_sie x) (r_sip x) (r_stvec x) (r_sepc x) (r_scause x) (r_stval x) v (r_mstatus x)
    (r_mepc x) (r_medeleg x) (r_mideleg x) (r_mie x) (r_mtvec x) (r_mscratch x).
Definition set_r_mstatus (v : Z) (x : csrs) : csrs :=
  mk_csrs (r_sie x) (r_sip x) (r_stvec x) (r_sepc x) (r_scause x) (r_stval x) (r_satp x) v
    (r_mepc x) (r_medeleg x) (r_mideleg x) (r_mie x) (r_mtvec x) (r_mscratch x).
Definition set_r_mepc (v : Z) (x : csrs) : csrs :=
  mk_csrs (r_sie x) (r_sip x) (r_stvec x) (r_sepc x) (r_scause x) (r_stval x) (r_satp x)
    (r_mstatus x) v (r_medeleg x) (r_mideleg x) (r_mie x) (r_mtvec x) (r_mscratch x).
Definition set_r_medeleg (v : Z) (x : csrs) : csrs :=
  mk_csrs (r_sie x) (r_sip x) (r_stvec x) (r_sepc x) (r_scause x) (r_stval x) (r_satp x)
    (r_mstatus x) (r_mepc x) v (r_mideleg x) (r_mie x) (r_mtvec x) (r_mscratch x).
Definition set_r_mideleg (v : Z) (x : csrs) : csrs :=
  mk_csrs (r_sie x) (r_sip x) (r_stvec x) (r_sepc x) (r_scause x) (r_stval x) (r_satp x)
    (r_mstatus x) (r_mepc x) (r_medeleg x) v (r_mie x) (r_mtvec x) (r_mscratch x).
Definition set_r_mie (v : Z) (x : csrs) : csrs :=
  mk_csrs (r_sie x) (r_sip x) (r_stvec x) (r_sepc x) (r_scause x) (r_stval x) (r_satp x)
    (r_mstatus x) (r_mepc x) (r_medeleg x) (r_mideleg x) v (r_mtvec x) (r_mscratch x).
Definition set_r_mtvec (v : Z) (x : csrs) : csrs :=
  mk_csrs (r_sie x) (r_sip x) (r_stvec x) (r_sepc x) (r_scause x) (r_stval x) (r_satp x)
    (r_mstatus x) (r_mepc x) (r_medeleg x) (r_mideleg x) (r_mie x) v (r_mscratch x).
Definition set_r_mscratch (v : Z) (x : csrs) : csrs :=
  mk_csrs (r_sie x) (r_sip x) (r_stvec x) (r_sepc x) (r_scause x) (r_stval x) (r_satp x)
    (r_mstatus x) (r_mepc x) (r_medeleg x) (r_mideleg x) (r_mie x) (r_mtvec x) v.

(** ** Processes (kernel/proc.h) *)
Inductive procstate := UNUSED | SLEEPING | RUNNABLE | RUNNING | ZOMBIE.
#[export] Instance procstate_eq_dec : EqDecision procstate.
Proof. solve_decision. Defined.

(** The objects whose address is used as a sleep channel. *)
Inductive chan :=
  | CNull | CProc (i : nat) | CBufLock (i : nat) | CInodeLock (i : nat)
  | CPipeR (pa : Z) | CPipeW (pa : Z) | CLog | CTicks | CCons
  | CDiskFree (n : nat) | CBuf (i : nat).
#[export] Instance chan_eq_dec : EqDecision chan.
Proof. solve_decision. Defined.

(** The callee-saved registers s0..s11 are only touched by swtch.S. *)
#[projections(primitive)] Record context := mk_context {
  ctx_ra : Z;
  ctx_sp : Z;
}.
Definition set_ctx_ra (v : Z) (x : context) : context :=
  mk_context v (ctx_sp x).
Definition set_ctx_sp (v : Z) (x : context) : context :=
  mk_context (ctx_ra x) v.
#[projections(primitive)] Record proc := mk_proc {
  p_state : procstate;
  p_parent : option nat;
  p_chan : chan;
  p_killed : Z;
  p_xstate : Z;
  p_pid : Z;
  p_kstack : Z;
  p_sz : Z;
  p_pagetable : Z;
  p_tf : Z;
  p_context : context;
  p_ofile : list (option nat);
  p_cwd : option nat;
  p_name : list Z;
}.
Definition set_p_state (v : procstate) (x : proc) : proc :=
  mk_proc v (p_parent x) (p_chan x) (p_killed x) (p_xstate x) (p_pid x) (p_kstack x) (p_sz x)
    (p_pagetable x) (p_tf x) (p_context x) (p_ofile x) (p_cwd x) (p_name x).
Definition set_p_parent (v : option nat) (x : proc) : proc :=
  mk_proc (p_state x) v (p_chan x) (p_killed x) (p_xstate x) (p_pid x) (p_kstack x) (p_sz x)
    (p_pagetable x) (p_tf x) (p_context x) (p_ofile x) (p_cwd x) (p_name x).
Definition set_p_chan (v : chan) (x : proc) : proc :=
  mk_proc (p_state x) (p_parent x) v (p_killed x) (p_xstate x) (p_pid x) (p_kstack x) (p_sz x)
    (p_pagetable x) (p_tf x) (p_context x) (p_ofile x) (p_cwd x) (p_name x).
Definition set_p_killed (v : Z) (x : proc) : proc :=
  mk_proc (p_state x) (p_parent x) (p_chan x) v (p_xstate x) (p_pid x) (p_kstack x) (p_sz x)
    (p_pagetable x) (p_tf x) (p_context x) (p_ofile x) (p_cwd x) (p_name x).
Definition set_p_xstate (v : Z) (x : proc) : proc :=
  mk_proc (p_state x) (p_parent x) (p_chan x) (p_killed x) v (p_pid x) (p_kstack x) (p_sz x)
    (p_pagetable x) (p_tf x) (p_context x) (p_ofile x) (p_cwd x) (p_name x).
Definition set_p_pid (v : Z) (x : proc) : proc :=
  mk_proc (p_state x) (p_parent x) (p_chan x) (p_killed x) (p_xstate x) v (p_kstack x) (p_sz x)
    (p_pagetable x) (p_tf x) (p_context x) (p_ofile x) (p_cwd x) (p_name x).
Definition set_p_kstack (v : Z) (x : proc) : proc :=
  mk_proc (p_state x) (p_parent x) (p_chan x) (p_killed x) (p_xstate x) (p_pid x) v (p_sz x)
    (p_pagetable x) (p_tf x) (p_context x) (p_ofile x) (p_cwd x) (p_name x).
Definition set_p_sz (v : Z) (x : proc) : proc :=
  mk_proc (p_state x) (p_parent x) (p_chan x) (p_killed x) (p_xstate x) (p_pid x) (p_kstack x)
    v (p_pagetable x) (p_tf x) (p_context x) (p_ofile x) (p_cwd x) (p_name x).
Definition set_p_pagetable (v : Z) (x : proc) : proc :=
  mk_proc (p_state x) (p_parent x) (p_chan x) (p_killed x) (p_xstate x) (p_pid x) (p_kstack x)
    (p_sz x) v (p_tf x) (p_context x) (p_ofile x) (p_cwd x) (p_name x).
Definition set_p_tf (v : Z) (x : proc) : proc :=
  mk_proc (p_state x) (p_parent x) (p_chan x) (p_killed x) (p_xstate x) (p_pid x) (p_kstack x)
    (p_sz x) (p_pagetable x) v (p_context x) (p_ofile x) (p_cwd x) (p_name x).
Definition set_p_context (v : context) (x : proc) : proc :=
  mk_proc (p_state x) (p_parent x) (p_chan x) (p_killed x) (p_xstate x) (p_pid x) (p_kstack x)
    (p_sz x) (p_pagetable x) (p_tf x) v (p_ofile x) (p_cwd x) (p_name x).
Definition set_p_ofile (v : list (option nat)) (x : proc) : proc :=
  mk_proc (p_state x) (p_parent x) (p_chan x) (p_killed x) (p_xstate x) (p_pid x) (p_kstack x)
    (p_sz x) (p_pagetable x) (p_tf x) (p_context x) v (p_cwd x) (p_name x).
Definition set_p_cwd (v : option nat) (x : proc) : proc :=
  mk_proc (p_state x) (p_parent x) (p_chan x) (p_killed x) (p_xstate x) (p_pid x) (p_kstack x)
    (p_sz x) (p_pagetable x) (p_tf x) (p_context x) (p_ofile x) v (p_name x).
Definition set_p_name (v : list Z) (x : proc) : proc :=
  mk_proc (p_state x) (p_parent x) (p_chan x) (p_killed x) (p_xstate x) (p_pid x) (p_kstack x)
    (p_sz x) (p_pagetable x) (p_tf x) (p_context x) (p_ofile x) (p_cwd x) v.

(** ** File system structures (kernel/fs.h, buf.h, file.h, log.c) *)
#[projections(primitive)] Record sleeplock := mk_sleeplock {
  sl_locked : Z;
  sl_pid : Z;
}.
Definition set_sl_locked (v : Z) (x : sleeplock) : sleeplock :=
  mk_sleeplock v (sl_pid x).
Definition set_sl_pid (v : Z) (x : sleeplock) : sleeplock :=
  mk_sleeplock (sl_locked x) v.
(** struct buf; bcache.head is entry [NBUF]. *)
#[projections(primitive)] Record buf := mk_buf {
  b_valid : Z;
  b_disk : Z;
  b_dev : Z;
  b_blockno : Z;
  b_lock : sleeplock;
  b_refcnt : Z;
  b_prev : nat;
  b_next : nat;
  b_data : list Z;
}.
Definition set_b_valid (v : Z) (x : buf) : buf :=
  mk_buf v (b_disk x) (b_dev x) (b_blockno x) (b_lock x) (b_refcnt x) (b_prev x) (b_next x)
    (b_data x).
Definition set_b_disk (v : Z) (x : buf) : buf :=
  mk_buf (b_valid x) v (b_dev x) (b_blockno x) (b_lock x) (b_refcnt x) (b_prev x) (b_next x)
    (b_data x).
Definition set_b_dev (v : Z) (x : buf) : buf :=
  mk_buf (b_valid x) (b_disk x) v (b_blockno x) (b_lock x) (b_refcnt x) (b_prev x) (b_next x)
    (b_data x).
Definition set_b_blockno (v : Z) (x : buf) : buf :=
  mk_buf (b_valid x) (b_disk x) (b_dev x) v (b_lock x) (b_refcnt x) (b_prev x) (b_next x)
    (b_data x).
Definition set_b_lock (v : sleeplock) (x : buf) : buf :=
  mk_buf (b_valid x) (b_disk x) (b_dev x) (b_blockno x) v (b_refcnt x) (b_prev x) (b_next x)
    (b_data x).
Definition set_b_refcnt (v : Z) (x : buf) : buf :=
  mk_buf (b_valid x) (b_disk x) (b_dev x) (b_blockno x) (b_lock x) v (b_prev x) (b_next x)
    (b_data x).
Definition set_b_prev (v : nat) (x : buf) : buf :=
  mk_buf (b_valid x) (b_disk x) (b_dev x) (b_blockno x) (b_lock x) (b_refcnt x) v (b_next x)
    (b_data x).
Definition set_b_next (v : nat) (x : buf) : buf :=
  mk_buf (b_valid x) (b_disk x) (b_dev x) (b_blockno x) (b_lock x) (b_refcnt x) (b_prev x) v
    (b_data x).
Definition set_b_data (v : list Z) (x : buf) : buf :=
  mk_buf (b_valid x) (b_disk x) (b_dev x) (b_blockno x) (b_lock x) (b_refcnt x) (b_prev x)
    (b_next x) v.
#[projections(primitive)] Record superblock := mk_superblock {
  sb_magic : Z;
  sb_size : Z;
  sb_nblocks : Z;
  sb_ninodes : Z;
  sb_nlog : Z;
  sb_logstart : Z;
  sb_inodestart : Z;
  sb_bmapstart : Z;
}.
Definition set_sb_magic (v : Z) (x : superblock) : superblock :=
  mk_superblock v (sb_size x) (sb_nblocks x) (sb_ninodes x) (sb_nlog x) (sb_logstart x)
    (sb_inodestart x) (sb_bmapstart x).
Definition set_sb_size (v : Z) (x : superblock) : superblock :=
  mk_superblock (sb_magic x) v (sb_nblocks x) (sb_ninodes x) (sb_nlog x) (sb_logstart x)
    (sb_inodestart x) (sb_bmapstart x).
Definition set_sb_nblocks (v : Z) (x : superblock) : superblock :=
  mk_superblock (sb_magic x) (sb_size x) v (sb_ninodes x) (sb_nlog x) (sb_logstart x)
    (sb_inodestart x) (sb_bmapstart x).
Definition set_sb_ninodes (v : Z) (x : superblock) : superblock :=
  mk_superblock (sb_magic x) (sb_size x) (sb_nblocks x) v (sb_nlog x) (sb_logstart x)
    (sb_inodestart x) (sb_bmapstart x).
Definition set_sb_nlog (v : Z) (x : superblock) : superblock :=
  mk_superblock (sb_magic x) (sb_size x) (sb_nblocks x) (sb_ninodes x) v (sb_logstart x)
    (sb_inodestart x) (sb_bmapstart x).
Definition set_sb_logstart (v : Z) (x : superblock) : superblock :=
  mk_superblock (sb_magic x) (sb_size x) (sb_nblocks x) (sb_ninodes x) (sb_nlog x) v
    (sb_inodestart x) (sb_bmapstart x).
Definition set_sb_inodestart (v : Z) (x : superblock) : superblock :=
  mk_superblock (sb_magic x) (sb_size x) (sb_nblocks x) (sb_ninodes x) (sb_nlog x) (sb_logstart
    x) v (sb_bmapstart x).
Definition set_sb_bmapstart (v : Z) (x : superblock) : superblock :=
  mk_superblock (sb_magic x) (sb_size x) (sb_nblocks x) (sb_ninodes x) (sb_nlog x) (sb_logstart
    x) (sb_inodestart x) v.
#[projections(primitive)] Record inode := mk_inode {
  i_dev : Z;
  i_inum : Z;
  i_ref : Z;
  i_lock : sleeplock;
  i_valid : Z;
  i_type : Z;
  i_major : Z;
  i_minor : Z;
  i_nlink : Z;
  i_size : Z;
  i_addrs : list Z;
}.
Definition set_i_dev (v : Z) (x : inode) : inode :=
  mk_inode v (i_inum x) (i_ref x) (i_lock x) (i_valid x) (i_type x) (i_major x) (i_minor x)
    (i_nlink x) (i_size x) (i_addrs x).
Definition set_i_inum (v : Z) (x : inode) : inode :=
  mk_inode (i_dev x) v (i_ref x) (i_lock x) (i_valid x) (i_type x) (i_major x) (i_minor x)
    (i_nlink x) (i_size x) (i_addrs x).
Definition set_i_ref (v : Z) (x : inode) : inode :=
  mk_inode (i_dev x) (i_inum x) v (i_lock x) (i_valid x) (i_type x) (i_major x) (i_minor x)
    (i_nlink x) (i_size x) (i_addrs x).
Definition set_i_lock (v : sleeplock) (x : inode) : inode :=
  mk_inode (i_dev x) (i_inum x) (i_ref x) v (i_valid x) (i_type x) (i_major x) (i_minor x)
    (i_nlink x) (i_size x) (i_addrs x).
Definition set_i_valid (v : Z) (x : inode) : inode :=
  mk_inode (i_dev x) (i_inum x) (i_ref x) (i_lock x) v (i_type x) (i_major x) (i_minor x)
    (i_nlink x) (i_size x) (i_addrs x).
Definition set_i_type (v : Z) (x : inode) : inode :=
  mk_inode (i_dev x) (i_inum x) (i_ref x) (i_lock x) (i_valid x) v (i_major x) (i_minor x)
    (i_nlink x) (i_size x) (i_addrs x).
Definition set_i_major (v : Z) (x : inode) : inode :=
  mk_inode (i_dev x) (i_inum x) (i_ref x) (i_lock x) (i_valid x) (i_type x) v (i_minor x)
    (i_nlink x) (i_size x) (i_addrs x).
Definition set_i_minor (v : Z) (x : inode) : inode :=
  mk_inode (i_dev x) (i_inum x) (i_ref x) (i_lock x) (i_valid x) (i_type x) (i_major x) v
    (i_nlink x) (i_size x) (i_addrs x).
Definition set_i_nlink (v : Z) (x : inode) : inode :=
  mk_inode (i_dev x) (i_inum x) (i_ref x) (i_lock x) (i_valid x) (i_type x) (i_major x)
    (i_minor x) v (i_size x) (i_addrs x).
Definition set_i_size (v : Z) (x : inode) : inode :=
  mk_inode (i_dev x) (i_inum x) (i_ref x) (i_lock x) (i_valid x) (i_type x) (i_major x)
    (i_minor x) (i_nlink x) v (i_addrs x).
Definition set_i_addrs (v : list Z) (x : inode) : inode :=
  mk_inode (i_dev x) (i_inum x) (i_ref x) (i_lock x) (i_valid x) (i_type x) (i_major x)
    (i_minor x) (i_nlink x) (i_size x) v.
(** struct log; [lg_n] and [lg_block] are lh.n and lh.block. *)
#[projections(primitive)] Record log := mk_log {
  lg_start : Z;
  lg_size : Z;
  lg_outstanding : Z;
  lg_committing : Z;
  lg_dev : Z;
  lg_n : Z;
  lg_block : list Z;
}.
Definition set_lg_start (v : Z) (x : log) : log :=
  mk_log v (lg_size x) (lg_outstanding x) (lg_committing x) (lg_dev x) (lg_n x) (lg_block x).
Definition set_lg_size (v : Z) (x : log) : log :=
  mk_log (lg_start x) v (lg_outstanding x) (lg_committing x) (lg_dev x) (lg_n x) (lg_block x).
Definition set_lg_outstanding (v : Z) (x : log) : log :=
  mk_log (lg_start x) (lg_size x) v (lg_committing x) (lg_dev x) (lg_n x) (lg_block x).
Definition set_lg_committing (v : Z) (x : log) : log :=
  mk_log (lg_start x) (lg_size x) (lg_outstanding x) v (lg_dev x) (lg_n x) (lg_block x).
Definition set_lg_dev (v : Z) (x : log) : log :=
  mk_log (lg_start x) (lg_size x) (lg_outstanding x) (lg_committing x) v (lg_n x) (lg_block x).
Definition set_lg_n (v : Z) (x : log) : log :=
  mk_log (lg_start x) (lg_size x) (lg_outstanding x) (lg_committing x) (lg_dev x) v (lg_block
    x).
Definition set_lg_block (v : list Z) (x : log) : log :=
  mk_log (lg_start x) (lg_size x) (lg_outstanding x) (lg_committing x) (lg_dev x) (lg_n x) v.
Inductive filetype := FD_NONE | FD_PIPE | FD_INODE | FD_DEVICE.
#[export] Instance filetype_eq_dec : EqDecision filetype.
Proof. solve_decision. Defined.
#[projections(primitive)] Record file := mk_file {
  f_type : filetype;
  f_ref : Z;
  f_readable : Z;
  f_writable : Z;
  f_pipe : Z;
  f_ip : option nat;
  f_off : Z;
  f_major : Z;
  f_minor : Z;
}.
Definition set_f_type (v : filetype) (x : file) : file :=
  mk_file v (f_ref x) (f_readable x) (f_writable x) (f_pipe x) (f_ip x) (f_off x) (f_major x)
    (f_minor x).
Definition set_f_ref (v : Z) (x : file) : file :=
  mk_file (f_type x) v (f_readable x) (f_writable x) (f_pipe x) (f_ip x) (f_off x) (f_major x)
    (f_minor x).
Definition set_f_readable (v : Z) (x : file) : file :=
  mk_file (f_type x) (f_ref x) v (f_writable x) (f_pipe x) (f_ip x) (f_off x) (f_major x)
    (f_minor x).
Definition set_f_writable (v : Z) (x : file) : file :=
  mk_file (f_type x) (f_ref x) (f_readable x) v (f_pipe x) (f_ip x) (f_off x) (f_major x)
    (f_minor x).
Definition set_f_pipe (v : Z) (x : file) : file :=
  mk_file (f_type x) (f_ref x) (f_readable x) (f_writable x) v (f_ip x) (f_off x) (f_major x)
    (f_minor x).
Definition set_f_ip (v : option nat) (x : file) : file :=
  mk_file (f_type x) (f_ref x) (f_readable x) (f_writable x) (f_pipe x) v (f_off x) (f_major x)
    (f_minor x).
Definition set_f_off (v : Z) (x : file) : file :=
  mk_file (f_type x) (f_ref x) (f_readable x) (f_writable x) (f_pipe x) (f_ip x) v (f_major x)
    (f_minor x).
Definition set_f_major (v : Z) (x : file) : file :=
  mk_file (f_type x) (f_ref x) (f_readable x) (f_writable x) (f_pipe x) (f_ip x) (f_off x) v
    (f_minor x).
Definition set_f_minor (v : Z) (x : file) : file :=
  mk_file (f_type x) (f_ref x) (f_readable x) (f_writable x) (f_pipe x) (f_ip x) (f_off x)
    (f_major x) v.
(** The functions a devsw entry can point to. *)
Inductive devfn := DevNull | DevConsole.
(** struct pipe (kernel/pipe.c); it sits in a page from kalloc. *)
#[projections(primitive)] Record pipe := mk_pipe {
  pi_data : list Z;
  pi_nread : Z;
  pi_nwrite : Z;
  pi_readopen : Z;
  pi_writeopen : Z;
}.
Definition set_pi_data (v : list Z) (x : pipe) : pipe :=
  mk_pipe v (pi_nread x) (pi_nwrite x) (pi_readopen x) (pi_writeopen x).
Definition set_pi_nread (v : Z) (x : pipe) : pipe :=
  mk_pipe (pi_data x) v (pi_nwrite x) (pi_readopen x) (pi_writeopen x).
Definition set_pi_nwrite (v : Z) (x : pipe) : pipe :=
  mk_pipe (pi_data x) (pi_nread x) v (pi_readopen x) (pi_writeopen x).
Definition set_pi_readopen (v : Z) (x : pipe) : pipe :=
  mk_pipe (pi_data x) (pi_nread x) (pi_nwrite x) v (pi_writeopen x).
Definition set_pi_writeopen (v : Z) (x : pipe) : pipe :=
  mk_pipe (pi_data x) (pi_nread x) (pi_nwrite x) (pi_readopen x) v.

(** ** Devices *)
(** cons of kernel/console.c. *)
#[projections(primitive)] Record console := mk_console {
  co_buf : list Z;
  co_r : Z;
  co_w : Z;
  co_e : Z;
}.
Definition set_co_buf (v : list Z) (x : console) : console :=
  mk_console v (co_r x) (co_w x) (co_e x).
Definition set_co_r (v : Z) (x : console) : console :=
  mk_console (co_buf x) v (co_w x) (co_e x).
Definition set_co_w (v : Z) (x : console) : console :=
  mk_console (co_buf x) (co_r x) v (co_e x).
Definition set_co_e (v : Z) (x : console) : console :=
  mk_console (co_buf x) (co_r x) (co_w x) v.
(** The 16550a as the driver sees it: line status bits other than
    data-ready, the received bytes, the bytes transmitted (in order), and the
    other register writes. *)
#[projections(primitive)] Record uart := mk_uart {
  u_lsr : Z;
  u_rx : list Z;
  u_out : list Z;
  u_cfg : list (Z * Z);
}.
Definition set_u_lsr (v : Z) (x : uart) : uart :=
  mk_uart v (u_rx x) (u_out x) (u_cfg x).
Definition set_u_rx (v : list Z) (x : uart) : uart :=
  mk_uart (u_lsr x) v (u_out x) (u_cfg x).
Definition set_u_out (v : list Z) (x : uart) : uart :=
  mk_uart (u_lsr x) (u_rx x) v (u_cfg x).
Definition set_u_cfg (v : list (Z * Z)) (x : uart) : uart :=
  mk_uart (u_lsr x) (u_rx x) (u_out x) v.
(** struct VRingDesc. *)
#[projections(primitive)] Record vdesc := mk_vdesc {
  vd_addr : Z;
  vd_len : Z;
  vd_flags : Z;
  vd_next : Z;
}.
Definition set_vd_addr (v : Z) (x : vdesc) : vdesc :=
  mk_vdesc v (vd_len x) (vd_flags x) (vd_next x).
Definition set_vd_len (v : Z) (x : vdesc) : vdesc :=
  mk_vdesc (vd_addr x) v (vd_flags x) (vd_next x).
Definition set_vd_flags (v : Z) (x : vdesc) : vdesc :=
  mk_vdesc (vd_addr x) (vd_len x) v (vd_next x).
Definition set_vd_next (v : Z) (x : vdesc) : vdesc :=
  mk_vdesc (vd_addr x) (vd_len x) (vd_flags x) v.
(** struct disk of kernel/virtio_disk.c. *)
#[projections(primitive)] Record vdisk := mk_vdisk {
  v_desc : list vdesc;
  v_avail : list Z;
  v_used_id : Z;
  v_used_elems : list Z;
  v_free : list Z;
  v_used_idx : Z;
  v_info_b : list (option nat);
  v_info_status : list Z;
  v_init : Z;
}.
Definition set_v_desc (v : list vdesc) (x : vdisk) : vdisk :=
  mk_vdisk v (v_avail x) (v_used_id x) (v_used_elems x) (v_free x) (v_used_idx x) (v_info_b x)
    (v_info_status x) (v_init x).
Definition set_v_avail (v : list Z) (x : vdisk) : vdisk :=
  mk_vdisk (v_desc x) v (v_used_id x) (v_used_elems x) (v_free x) (v_used_idx x) (v_info_b x)
    (v_info_status x) (v_init x).
Definition set_v_used_id (v : Z) (x : vdisk) : vdisk :=
  mk_vdisk (v_desc x) (v_avail x) v (v_used_elems x) (v_free x) (v_used_idx x) (v_info_b x)
    (v_info_status x) (v_init x).
Definition set_v_used_elems (v : list Z) (x : vdisk) : vdisk :=
  mk_vdisk (v_desc x) (v_avail x) (v_used_id x) v (v_free x) (v_used_idx x) (v_info_b x)
    (v_info_status x) (v_init x).
Definition set_v_free (v : list Z) (x : vdisk) : vdisk :=
  mk_vdisk (v_desc x) (v_avail x) (v_used_id x) (v_used_elems x) v (v_used_idx x) (v_info_b x)
    (v_info_status x) (v_init x).
Definition set_v_used_idx (v : Z) (x : vdisk) : vdisk :=
  mk_vdisk (v_desc x) (v_avail x) (v_used_id x) (v_used_elems x) (v_free x) v (v_info_b x)
    (v_info_status x) (v_init x).
Definition set_v_info_b (v : list (option nat)) (x : vdisk) : vdisk :=
  mk_vdisk (v_desc x) (v_avail x) (v_used_id x) (v_used_elems x) (v_free x) (v_used_idx x) v
    (v_info_status x) (v_init x).
Definition set_v_info_status (v : list Z) (x : vdisk) : vdisk :=
  mk_vdisk (v_desc x) (v_avail x) (v_used_id x) (v_used_elems x) (v_free x) (v_used_idx x)
    (v_info_b x) v (v_init x).
Definition set_v_init (v : Z) (x : vdisk) : vdisk :=
  mk_vdisk (v_desc x) (v_avail x) (v_used_id x) (v_used_elems x) (v_free x) (v_used_idx x)
    (v_info_b x) (v_info_status x) v.

(** ** The whole kernel state *)
(** [k_disk] is the contents of the disks by (device, block) and [k_dwrites] the
    blocks written to them so far, in order. *)
#[projections(primitive)] Record kstate := mk_kstate {
  k_lk : lkstate;
  k_hart : nat;
  k_csr : list csrs;
  k_mmio : list (Z * Z);
  k_mem : mem;
  k_freelist : Z;
  k_kpgtbl : Z;
  k_procs : list proc;
  k_initproc : option nat;
  k_nextpid : Z;
  k_first : Z;
  k_started : Z;
  k_bufs : list buf;
  k_sb : superblock;
  k_inodes : list inode;
  k_logs : list log;
  k_files : list file;
  k_devsw : list (devfn * devfn);
  k_pipes : gmap Z pipe;
  k_cons : console;
  k_uart : uart;
  k_pr_locking : Z;
  k_panicked : Z;
  k_ticks : Z;
  k_disk : gmap (Z * Z) (list Z);
  k_dwrites : list (Z * Z * list Z);
  k_vdisk : list vdisk;
}.
Definition set_k_lk (v : lkstate) (x : kstate) : kstate :=
  mk_kstate v (k_hart x) (k_csr x) (k_mmio x) (k_mem x) (k_freelist x) (k_kpgtbl x) (k_procs x)
    (k_initproc x) (k_nextpid x) (k_first x) (k_started x) (k_bufs x) (k_sb x) (k_inodes x)
    (k_logs x) (k_files x) (k_devsw x) (k_pipes x) (k_cons x) (k_uart x) (k_pr_locking x)
    (k_panicked x) (k_ticks x) (k_disk x) (k_dwrites x) (k_vdisk x).
Definition set_k_hart (v : nat) (x : kstate) : kstate :=
  mk_kstate (k_lk x) v (k_csr x) (k_mmio x) (k_mem x) (k_freelist x) (k_kpgtbl x) (k_procs x)
    (k_initproc x) (k_nextpid x) (k_first x) (k_started x) (k_bufs x) (k_sb x) (k_inodes x)
    (k_logs x) (k_files x) (k_devsw x) (k_pipes x) (k_cons x) (k_uart x) (k_pr_locking x)
    (k_panicked x) (k_ticks x) (k_disk x) (k_dwrites x) (k_vdisk x).
Definition set_k_csr (v : list csrs) (x : kstate) : kstate :=
  mk_kstate (k_lk x) (k_hart x) v (k_mmio x) (k_mem x) (k_freelist x) (k_kpgtbl x) (k_procs x)
    (k_initproc x) (k_nextpid x) (k_first x) (k_started x) (k_bufs x) (k_sb x) (k_inodes x)
    (k_logs x) (k_files x) (k_devsw x) (k_pipes x) (k_cons x) (k_uart x) (k_pr_locking x)
    (k_panicked x) (k_ticks x) (k_disk x) (k_dwrites x) (k_vdisk x).
Definition set_k_mmio (v : list (Z * Z)) (x : kstate) : kstate :=
  mk_kstate (k_lk x) (k_hart x) (k_csr x) v (k_mem x) (k_freelist x) (k_kpgtbl x) (k_procs x)
    (k_initproc x) (k_nextpid x) (k_first x) (k_started x) (k_bufs x) (k_sb x) (k_inodes x)
    (k_logs x) (k_files x) (k_devsw x) (k_pipes x) (k_cons x) (k_uart x) (k_pr_locking x)
    (k_panicked x) (k_ticks x) (k_disk x) (k_dwrites x) (k_vdisk x).
Definition set_k_mem (v : mem) (x : kstate) : kstate :=
  mk_kstate (k_lk x) (k_hart x) (k_csr x) (k_mmio x) v (k_freelist x) (k_kpgtbl x) (k_procs x)
    (k_initproc x) (k_nextpid x) (k_first x) (k_started x) (k_bufs x) (k_sb x) (k_inodes x)
    (k_logs x) (k_files x) (k_devsw x) (k_pipes x) (k_cons x) (k_uart x) (k_pr_locking x)
    (k_panicked x) (k_ticks x) (k_disk x) (k_dwrites x) (k_vdisk x).
Definition set_k_freelist (v : Z) (x : kstate) : kstate :=
  mk_kstate (k_lk x) (k_hart x) (k_csr x) (k_mmio x) (k_mem x) v (k_kpgtbl x) (k_procs x)
    (k_initproc x) (k_nextpid x) (k_first x) (k_started x) (k_bufs x) (k_sb x) (k_inodes x)
    (k_logs x) (k_files x) (k_devsw x) (k_pipes x) (k_cons x) (k_uart x) (k_pr_locking x)
    (k_panicked x) (k_ticks x) (k_disk x) (k_dwrites x) (k_vdisk x).
Definition set_k_kpgtbl (v : Z) (x : kstate) : kstate :=
  mk_kstate (k_lk x) (k_hart x) (k_csr x) (k_mmio x) (k_mem x) (k_freelist x) v (k_procs x)
    (k_initproc x) (k_nextpid x) (k_first x) (k_started x) (k_bufs x) (k_sb x) (k_inodes x)
    (k_logs x) (k_files x) (k_devsw x) (k_pipes x) (k_cons x) (k_uart x) (k_pr_locking x)
    (k_panicked x) (k_ticks x) (k_disk x) (k_dwrites x) (k_vdisk x).
Definition set_k_procs (v : list proc) (x : kstate) : kstate :=
  mk_kstate (k_lk x) (k_hart x) (k_csr x) (k_mmio x) (k_mem x) (k_freelist x) (k_kpgtbl x) v
    (k_initproc x) (k_nextpid x) (k_first x) (k_started x) (k_bufs x) (k_sb x) (k_inodes x)
    (k_logs x) (k_files x) (k_devsw x) (k_pipes x) (k_cons x) (k_uart x) (k_pr_locking x)
    (k_panicked x) (k_ticks x) (k_disk x) (k_dwrites x) (k_vdisk x).
Definition set_k_initproc (v : option nat) (x : kstate) : kstate :=
  mk_kstate (k_lk x) (k_hart x) (k_csr x) (k_mmio x) (k_mem x) (k_freelist x) (k_kpgtbl x)
    (k_procs x) v (k_nextpid x) (k_first x) (k_started x) (k_bufs x) (k_sb x) (k_inodes x)
    (k_logs x) (k_files x) (k_devsw x) (k_pipes x) (k_cons x) (k_uart x) (k_pr_locking x)
    (k_panicked x) (k_ticks x) (k_disk x) (k_dwrites x) (k_vdisk x).
Definition set_k_nextpid (v : Z) (x : kstate) : kstate :=
  mk_kstate (k_lk x) (k_hart x) (k_csr x) (k_mmio x) (k_mem x) (k_freelist x) (k_kpgtbl x)
    (k_procs x) (k_initproc x) v (k_first x) (k_started x) (k_bufs x) (k_sb x) (k_inodes x)
    (k_logs x) (k_files x) (k_devsw x) (k_pipes x) (k_cons x) (k_uart x) (k_pr_locking x)
    (k_panicked x) (k_ticks x) (k_disk x) (k_dwrites x) (k_vdisk x).
Definition set_k_first (v : Z) (x : kstate) : kstate :=
  mk_kstate (k_lk x) (k_hart x) (k_csr x) (k_mmio x) (k_mem x) (k_freelist x) (k_kpgtbl x)
    (k_procs x) (k_initproc x) (k_nextpid x) v (k_started x) (k_bufs x) (k_sb x) (k_inodes x)
    (k_logs x) (k_files x) (k_devsw x) (k_pipes x) (k_cons x) (k_uart x) (k_pr_locking x)
    (k_panicked x) (k_ticks x) (k_disk x) (k_dwrites x) (k_vdisk x).
Definition set_k_started (v : Z) (x : kstate) : kstate :=
  mk_kstate (k_lk x) (k_hart x) (k_csr x) (k_mmio x) (k_mem x) (k_freelist x) (k_kpgtbl x)
    (k_procs x) (k_initproc x) (k_nextpid x) (k_first x) v (k_bufs x) (k_sb x) (k_inodes x)
    (k_logs x) (k_files x) (k_devsw x) (k_pipes x) (k_cons x) (k_uart x) (k_pr_locking x)
    (k_panicked x) (k_ticks x) (k_disk x) (k_dwrites x) (k_vdisk x).
Definition set_k_bufs (v : list buf) (x : kstate) : kstate :=
  mk_kstate (k_lk x) (k_hart x) (k_csr x) (k_mmio x) (k_mem x) (k_freelist x) (k_kpgtbl x)
    (k_procs x) (k_initproc x) (k_nextpid x) (k_first x) (k_started x) v (k_sb x) (k_inodes x)
    (k_logs x) (k_files x) (k_devsw x) (k_pipes x) (k_cons x) (k_uart x) (k_pr_locking x)
    (k_panicked x) (k_ticks x) (k_disk x) (k_dwrites x) (k_vdisk x).
Definition set_k_sb (v : superblock) (x : kstate) : kstate :=
  mk_kstate (k_lk x) (k_hart x) (k_csr x) (k_mmio x) (k_mem x) (k_freelist x) (k_kpgtbl x)
    (k_procs x) (k_initproc x) (k_nextpid x) (k_first x) (k_started x) (k_bufs x) v (k_inodes
    x) (k_logs x) (k_files x) (k_devsw x) (k_pipes x) (k_cons x) (k_uart x) (k_pr_locking x)
    (k_panicked x) (k_ticks x) (k_disk x) (k_dwrites x) (k_vdisk x).
Definition set_k_inodes (v : list inode) (x : kstate) : kstate :=
  mk_kstate (k_lk x) (k_hart x) (k_csr x) (k_mmio x) (k_mem x) (k_freelist x) (k_kpgtbl x)
    (k_procs x) (k_initproc x) (k_nextpid x) (k_first x) (k_started x) (k_bufs x) (k_sb x) v
    (k_logs x) (k_files x) (k_devsw x) (k_pipes x) (k_cons x) (k_uart x) (k_pr_locking x)
    (k_panicked x) (k_ticks x) (k_disk x) (k_dwrites x) (k_vdisk x).
Definition set_k_logs (v : list log) (x : kstate) : kstate :=
  mk_kstate (k_lk x) (k_hart x) (k_csr x) (k_mmio x) (k_mem x) (k_freelist x) (k_kpgtbl x)
    (k_procs x) (k_initproc x) (k_nextpid x) (k_first x) (k_started x) (k_bufs x) (k_sb x)
    (k_inodes x) v (k_files x) (k_devsw x) (k_pipes x) (k_cons x) (k_uart x) (k_pr_locking x)
    (k_panicked x) (k_ticks x) (k_disk x) (k_dwrites x) (k_vdisk x).
Definition set_k_files (v : list file) (x : kstate) : kstate :=
  mk_kstate (k_lk x) (k_hart x) (k_csr x) (k_mmio x) (k_mem x) (k_freelist x) (k_kpgtbl x)
    (k_procs x) (k_initproc x) (k_nextpid x) (k_first x) (k_started x) (k_bufs x) (k_sb x)
    (k_inodes x) (k_logs x) v (k_devsw x) (k_pipes x) (k_cons x) (k_uart x) (k_pr_locking x)
    (k_panicked x) (k_ticks x) (k_disk x) (k_dwrites x) (k_vdisk x).
Definition set_k_devsw (v : list (devfn * devfn)) (x : kstate) : kstate :=
  mk_kstate (k_lk x) (k_hart x) (k_csr x) (k_mmio x) (k_mem x) (k_freelist x) (k_kpgtbl x)
    (k_procs x) (k_initproc x) (k_nextpid x) (k_first x) (k_started x) (k_bufs x) (k_sb x)
    (k_inodes x) (k_logs x) (k_files x) v (k_pipes x) (k_cons x) (k_uart x) (k_pr_locking x)
    (k_panicked x) (k_ticks x) (k_disk x) (k_dwrites x) (k_vdisk x).
Definition set_k_pipes (v : gmap Z pipe) (x : kstate) : kstate :=
  mk_kstate (k_lk x) (k_hart x) (k_csr x) (k_mmio x) (k_mem x) (k_freelist x) (k_kpgtbl x)
    (k_procs x) (k_initproc x) (k_nextpid x) (k_first x) (k_started x) (k_bufs x) (k_sb x)
    (k_inodes x) (k_logs x) (k_files x) (k_devsw x) v (k_cons x) (k_uart x) (k_pr_locking x)
    (k_panicked x) (k_ticks x) (k_disk x) (k_dwrites x) (k_vdisk x).
Definition set_k_cons (v : console) (x : kstate) : kstate :=
  mk_kstate (k_lk x) (k_hart x) (k_csr x) (k_mmio x) (k_mem x) (k_freelist x) (k_kpgtbl x)
    (k_procs x) (k_initproc x) (k_nextpid x) (k_first x) (k_started x) (k_bufs x) (k_sb x)
    (k_inodes x) (k_logs x) (k_files x) (k_devsw x) (k_pipes x) v (k_uart x) (k_pr_locking x)
    (k_panicked x) (k_ticks x) (k_disk x) (k_dwrites x) (k_vdisk x).
Definition set_k_uart (v : uart) (x : kstate) : kstate :=
  mk_kstate (k_lk x) (k_hart x) (k_csr x) (k_mmio x) (k_mem x) (k_freelist x) (k_kpgtbl x)
    (k_procs x) (k_initproc x) (k_nextpid x) (k_first x) (k_started x) (k_bufs x) (k_sb x)
    (k_inodes x) (k_logs x) (k_files x) (k_devsw x) (k_pipes x) (k_cons x) v (k_pr_locking x)
    (k_panicked x) (k_ticks x) (k_disk x) (k_dwrites x) (k_vdisk x).
Definition set_k_pr_locking (v : Z) (x : kstate) : kstate :=
  mk_kstate (k_lk x) (k_hart x) (k_csr x) (k_mmio x) (k_mem x) (k_freelist x) (k_kpgtbl x)
    (k_procs x) (k_initproc x) (k_nextpid x) (k_first x) (k_started x) (k_bufs x) (k_sb x)
    (k_inodes x) (k_logs x) (k_files x) (k_devsw x) (k_pipes x) (k_cons x) (k_uart x) v
    (k_panicked x) (k_ticks x) (k_disk x) (k_dwrites x) (k_vdisk x).
Definition set_k_panicked (v : Z) (x : kstate) : kstate :=
  mk_kstate (k_lk x) (k_hart x) (k_csr x) (k_mmio x) (k_mem x) (k_freelist x) (k_kpgtbl x)
    (k_procs x) (k_initproc x) (k_nextpid x) (k_first x) (k_started x) (k_bufs x) (k_sb x)
    (k_inodes x) (k_logs x) (k_files x) (k_devsw x) (k_pipes x) (k_cons x) (k_uart x)
    (k_pr_locking x) v (k_ticks x) (k_disk x) (k_dwrites x) (k_vdisk x).
Definition set_k_ticks (v : Z) (x : kstate) : kstate :=
  mk_kstate (k_lk x) (k_hart x) (k_csr x) (k_mmio x) (k_mem x) (k_freelist x) (k_kpgtbl x)
    (k_procs x) (k_initproc x) (k_nextpid x) (k_first x) (k_started x) (k_bufs x) (k_sb x)
    (k_inodes x) (k_logs x) (k_files x) (k_devsw x) (k_pipes x) (k_cons x) (k_uart x)
    (k_pr_locking x) (k_panicked x) v (k_disk x) (k_dwrites x) (k_vdisk x).
Definition set_k_disk (v : gmap (Z * Z) (list Z)) (x : kstate) : kstate :=
  mk_kstate (k_lk x) (k_hart x) (k_csr x) (k_mmio x) (k_mem x) (k_freelist x) (k_kpgtbl x)
    (k_procs x) (k_initproc x) (k_nextpid x) (k_first x) (k_started x) (k_bufs x) (k_sb x)
    (k_inodes x) (k_logs x) (k_files x) (k_devsw x) (k_pipes x) (k_cons x) (k_uart x)
    (k_pr_locking x) (k_panicked x) (k_ticks x) v (k_dwrites x) (k_vdisk x).
Definition set_k_dwrites (v : list (Z * Z * list Z)) (x : kstate) : kstate :=
  mk_kstate (k_lk x) (k_hart x) (k_csr x) (k_mmio x) (k_mem x) (k_freelist x) (k_kpgtbl x)
    (k_procs x) (k_initproc x) (k_nextpid x) (k_first x) (k_started x) (k_bufs x) (k_sb x)
    (k_inodes x) (k_logs x) (k_files x) (k_devsw x) (k_pipes x) (k_cons x) (k_uart x)
    (k_pr_locking x) (k_panicked x) (k_ticks x) (k_disk x) v (k_vdisk x).
Definition set_k_vdisk (v : list vdisk) (x : kstate) : kstate :=
  mk_kstate (k_lk x) (k_hart x) (k_csr x) (k_mmio x) (k_mem x) (k_freelist x) (k_kpgtbl x)
    (k_procs x) (k_initproc x) (k_nextpid x) (k_first x) (k_started x) (k_bufs x) (k_sb x)
    (k_inodes x) (k_logs x) (k_files x) (k_devsw x) (k_pipes x) (k_cons x) (k_uart x)
    (k_pr_locking x) (k_panicked x) (k_ticks x) (k_disk x) (k_dwrites x) v.

(** ** The kernel as it is loaded: every global zero (bss), except the
    initialised ones (nextpid, forkret's [first]). *)
Definition sleeplock0 : sleeplock := mk_sleeplock 0 0.
Definition cpu0 : cpu := mk_cpu None 0 0.
Definition csrs0 : csrs := mk_csrs 0 0 0 0 0 0 0 0 0 0 0 0 0 0.
Definition proc0 : proc :=
  mk_proc UNUSED None CNull 0 0 0 0 0 0 0 (mk_context 0 0) (replicate NOFILE None) None
    (replicate 16 0).
Definition buf0 : buf := mk_buf 0 0 0 0 sleeplock0 0 0 0 (replicate 1024 0).
Definition inode0 : inode := mk_inode 0 0 0 sleeplock0 0 0 0 0 0 0 (replicate 13 0).
Definition log0 : log := mk_log 0 0 0 0 0 0 (replicate (Z.to_nat LOGSIZE) 0).
Definition file0 : file := mk_file FD_NONE 0 0 0 0 None 0 0 0.
Definition vdisk0 : vdisk :=
  mk_vdisk (replicate 8 (mk_vdesc 0 0 0 0)) (replicate 10 0) 0 (replicate 8 0)
    (replicate 8 0) 0 (replicate 8 None) (replicate 8 0) 0.
Definition lkstate0 : lkstate := mk_lkstate ∅ [] (replicate NCPU cpu0) (replicate NCPU 0).
Definition kstate0 : kstate := {|
  k_lk := lkstate0; k_hart := 0; k_csr := replicate NCPU csrs0; k_mmio := [];
  k_mem := ∅; k_freelist := 0; k_kpgtbl := 0;
  k_procs := replicate NPROC proc0; k_initproc := None; k_nextpid := 1; k_first := 1; k_started := 0;
  k_bufs := replicate (NBUF + 1) buf0; k_sb := mk_superblock 0 0 0 0 0 0 0 0;
  k_inodes := replicate NINODE inode0; k_logs := replicate NDISK log0;
  k_files := replicate NFILE file0; k_devsw := replicate NDEV (DevNull, DevNull);
  k_pipes := ∅; k_cons := mk_console (replicate 128 0) 0 0 0;
  k_uart := mk_uart 32 [] [] []; k_pr_locking := 0; k_panicked := 0; k_ticks := 0;
  k_disk := ∅; k_dwrites := []; k_vdisk := replicate NDISK vdisk0;
|}.

(** ** The monad *)
Inductive halt :=
  | HPanic (msg : string)   (** panic(msg) *)
  | HUndef (what : string)  (** undefined behaviour: null or wild pointer, index out of range *)
  | HBlocked                (** waiting, and the schedule is exhausted *)
  | HFuel                   (** a loop ran out of the fuel it was given *)
  | HExit.                  (** the thread of control never comes back *)

Definition step := kstate -> kstate.
Inductive outcome (A : Type) :=
  | Done (a : A) (s : kstate) (env : list step)
  | Halt (h : halt) (s : kstate).
Arguments Done {A} a s env.
Arguments Halt {A} h s.

Definition M (A : Type) : Type := kstate -> list step -> outcome A.

#[export] Instance M_ret : MRet M := fun A a s env => Done a s env.
#[export] Instance M_bind : MBind M := fun A B k m s env =>
  match m s env with
  | Done a s' env' => k a s' env'
  | Halt h s' => Halt h s'
  end.

Definition reads {A} (f : kstate -> A) : M A := fun s env => Done (f s) s env.
(** [gets field] reads a field of the state. *)
Abbreviation gets f := (reads (fun s => f s)) (only parsing).
Definition modify (f : kstate -> kstate) : M unit := fun s env => Done tt (f s) env.
Definition halt_with {A} (h : halt) : M A := fun s env => Halt h s.
Definition panic {A} (msg : string) : M A := halt_with (HPanic msg).
Definition undef {A} (what : string) : M A := halt_with (HUndef what).
(** Give up the hart: the rest of the machine runs until this thread is
    resumed. *)
Definition env_step : M unit := fun s env =>
  match env with [] => Halt HBlocked s | e :: env' => Done tt (e s) env' end.

Definition of_option {A} (what : string) (o : option A) : M A :=
  match o with Some a => mret a | None => undef what end.
Definition when (b : bool) (m : M unit) : M unit := if b then m else mret tt.

(** [for(i = lo; i < lo + n; i++) body(i)] *)
Fixpoint for_loop (lo : nat) (n : nat) (body : nat -> M unit) : M unit :=
  match n with O => mret tt | S n' => body lo ;; for_loop (S lo) n' body end.

(** Entries of the static tables. *)
Definition get_proc (i : nat) : M proc := ps ← gets k_procs; of_option "proc[]" (ps !! i).
Definition upd_proc (i : nat) (f : proc -> proc) : M unit :=
  modify (fun s => set_k_procs (alter f i (k_procs s)) s).
Definition get_buf (i : nat) : M buf := bs ← gets k_bufs; of_option "bcache.buf[]" (bs !! i).
Definition upd_buf (i : nat) (f : buf -> buf) : M unit :=
  modify (fun s => set_k_bufs (alter f i (k_bufs s)) s).
Definition get_inode (i : nat) : M inode :=
  ips ← gets k_inodes; of_option "icache.inode[]" (ips !! i).
Definition upd_inode (i : nat) (f : inode -> inode) : M unit :=
  modify (fun s => set_k_inodes (alter f i (k_inodes s)) s).
Definition get_file (i : nat) : M file := fs ← gets k_files; of_option "ftable.file[]" (fs !! i).
Definition upd_file (i : nat) (f : file -> file) : M unit :=
  modify (fun s => set_k_files (alter f i (k_files s)) s).
Definition get_log (d : nat) : M log := ls ← gets k_logs; of_option "log[]" (ls !! d).
Definition upd_log (d : nat) (f : log -> log) : M unit :=
  modify (fun s => set_k_logs (alter f d (k_logs s)) s).

(** Control registers of the running hart. *)
Definition get_csr : M csrs :=
  h ← gets k_hart; cs ← gets k_csr; of_option "hart" (cs !! h).
Definition upd_csr (f : csrs -> csrs) : M unit :=
  h ← gets k_hart; modify (fun s => set_k_csr (alter f h (k_csr s)) s).

(** Memory accesses. *)
Definition mem_read (f : mem -> Z) : M Z := reads (fun s => f (k_mem s)).
Definition mem_write (f : mem -> mem) : M unit := modify (fun s => set_k_mem (f (k_mem s)) s).

(** ** Reasoning about runs

    [runs m s a s']: from [s], whatever the schedule, [m] returns [a] in [s']
    without waiting. *)
Definition runs {A} (m : M A) (s : kstate) (a : A) (s' : kstate) : Prop :=
  forall env, m s env = Done a s' env.

(** Two lock states that differ only in the statistics counters and in what
    [intena] remembers of a hart that holds no lock. *)
Definition same_lock (x y : spinlock) : Prop :=
  lk_locked x = lk_locked y /\ lk_cpu x = lk_cpu y.
Definition same_cpu (x y : cpu) : Prop :=
  c_proc x = c_proc y /\ c_noff x = c_noff y /\ (c_noff x <> 0 -> c_intena x = c_intena y).
Record steady (lk lk' : lkstate) : Prop := {
  steady_lock : forall l, same_lock (lock_of lk l) (lock_of lk' l);
  steady_cpus : Forall2 same_cpu (l_cpus lk) (l_cpus lk');
  steady_sst : l_sstatus lk = l_sstatus lk';
}.

#[export] Instance same_lock_equivalence : Equivalence same_lock.
Proof.
  split; unfold same_lock.
  - done.
  - by intros x y [-> ->].
  - by intros x y z [-> ->].
Qed.
#[export] Instance same_cpu_equivalence : Equivalence same_cpu.
Proof.
  split; unfold same_cpu.
  - done.
  - intros x y (Ha & Hb & Hc). rewrite Hb in Hc. repeat split; auto. intros. by rewrite Hc.
  - intros x y z (Ha & Hb & Hc) (Ha' & Hb' & Hc').
    repeat split; try congruence. intros Hn. rewrite Hc by done. apply Hc'. congruence.
Qed.
#[export] Instance steady_equivalence : Equivalence steady.
Proof.
  split.
  - intros x. by split.
  - intros x y [H1 H2 H3]. split; [by symmetry|by symmetry|done].
  - intros x y z [H1 H2 H3] [H1' H2' H3']. split; [intros l; transitivity (lock_of y l); auto|..].
    + by transitivity (l_cpus y).
    + congruence.
Qed.

(** [quiet m s a s']: [m] runs from [s] to [s'] without waiting, and leaves the
    locks as it found them, up to statistics; and it does so from every lock
    state that differs from that of [s] only by statistics. *)
Definition quiet {A} (m : M A) (s : kstate) (a : A) (s' : kstate) : Prop :=
  steady (k_lk s) (k_lk s') /\
  forall lk, steady (k_lk s) lk ->
  exists lk', steady (k_lk s) lk' /\ runs m (set_k_lk lk s) a (set_k_lk lk' s').

Lemma runs_ret {A} (a : A) s : runs (mret a) s a s.
Proof. done. Qed.
Lemma runs_bind {A B} (m : M A) (k : A -> M B) s a s1 b s2 :
  runs m s a s1 -> runs (k a) s1 b s2 -> runs (m ≫= k) s b s2.
Proof. intros H1 H2 env. unfold mbind, M_bind. rewrite H1. apply H2. Qed.
Lemma runs_reads {A} (f : kstate -> A) s : runs (reads f) s (f s) s.
Proof. done. Qed.
Lemma runs_modify f s : runs (modify f) s tt (f s).
Proof. done. Qed.
Lemma runs_det {A} (m : M A) s a a' s1 s1' : runs m s a s1 -> runs m s a' s1' -> a = a' /\ s1 = s1'.
Proof. intros H H'. specialize (H []). specialize (H' []). rewrite H in H'. by injection H' as -> ->. Qed.

Lemma quiet_ret {A} (a : A) s : quiet (mret a) s a s.
Proof. split; [reflexivity|]. intros lk Hlk. exists lk. done. Qed.
Lemma quiet_bind {A B} (m : M A) (k : A -> M B) s a s1 b s2 :
  quiet m s a s1 -> quiet (k a) s1 b s2 -> quiet (m ≫= k) s b s2.
Proof.
  intros [Hs1 H1] [Hs2 H2]. split; [by transitivity (k_lk s1)|]. intros lk Hlk.
  destruct (H1 lk Hlk) as (lk1 & Hlk1 & Hr1).
  destruct (H2 lk1) as (lk2 & Hlk2 & Hr2); [by transitivity (k_lk s)|].
  exists lk2. split; [by transitivity (k_lk s1)|]. eapply runs_bind; eauto.
Qed.

(** Runs that end in a panic, whatever the environment answers: one with the
    message [msg], or with some message. *)
Definition panics_with {A} (msg : string) (c : M A) (s : kstate) : Prop :=
  forall lk, steady (k_lk s) lk -> forall env, exists s', c (set_k_lk lk s) env = Halt (HPanic msg) s'.
Definition panics {A} (c : M A) (s : kstate) : Prop :=
  forall lk, steady (k_lk s) lk -> forall env, exists msg s', c (set_k_lk lk s) env = Halt (HPanic msg) s'.
Lemma panics_with_bind {A B} msg (m : M A) (k : A -> M B) s a s1 :
  quiet m s a s1 -> panics_with msg (k a) s1 -> panics_with msg (m ≫= k) s.
Proof.
  intros [Hs Hm] Hp lk Hlk env. destruct (Hm lk Hlk) as (lk1 & Hlk1 & Hr).
  destruct (Hp lk1 ltac:(by transitivity (k_lk s)) env) as (s' & E). exists s'. unfold mbind, M_bind. by rewrite Hr.
Qed.
Lemma panics_with_panic {A} msg s : panics_with msg (panic (A := A) msg) s.
Proof. intros lk _ env. by eexists. Qed.
Lemma panics_with_halt {A B} msg (m : M A) (k : A -> M B) s : panics_with msg m s -> panics_with msg (m ≫= k) s.
Proof. intros Hp lk Hlk env. destruct (Hp lk Hlk env) as (s' & E). exists s'. unfold mbind, M_bind. by rewrite E. Qed.

(** Functions of the state that do not look at, or touch, the locks. *)
Class LockFree {A} (f : kstate -> A) : Prop :=
  lock_free : forall lk s, f (set_k_lk lk s) = f s.
Class LockFreeUpd (f : kstate -> kstate) : Prop :=
  lock_free_upd : forall lk s, f (set_k_lk lk s) = set_k_lk lk (f s).

Lemma set_k_lk_same s : set_k_lk (k_lk s) s = s.
Proof. by destruct s. Qed.

Lemma quiet_reads {A} (f : kstate -> A) `{!LockFree f} s : quiet (reads f) s (f s) s.
Proof.
  split; [reflexivity|]. intros lk Hlk. exists lk. split; [done|].
  intros env. unfold reads. by rewrite (lock_free (f := f)).
Qed.
Lemma quiet_modify f `{!LockFreeUpd f} s : quiet (modify f) s tt (f s).
Proof.
  split.
  - pose proof (lock_free_upd (f := f) (k_lk s) s) as H. rewrite set_k_lk_same in H.
    rewrite H. reflexivity.
  - intros lk Hlk. exists lk. split; [done|]. intros env. unfold modify.
    by rewrite (lock_free_upd (f := f)).
Qed.
(** A quiet run is in particular a run. *)
Lemma quiet_runs {A} (m : M A) s a s' :
  quiet m s a s' -> exists lk, steady (k_lk s) lk /\ runs m s a (set_k_lk lk s').
Proof.
  intros [_ H]. destruct (H (k_lk s)) as (lk & Hlk & Hr); [reflexivity|].
  rewrite set_k_lk_same in Hr. eauto.
Qed.

(** [kred] computes the fields of states built with the setters, and
    [by_fields] proves an equation between such states. *)
Ltac kred := cbv beta iota delta
  [ k_lk k_hart k_csr k_mmio k_mem k_freelist k_kpgtbl k_procs k_initproc k_nextpid k_first k_started
    k_bufs k_sb k_inodes k_logs k_files k_devsw k_pipes k_cons k_uart k_pr_locking k_panicked
    k_ticks k_disk k_dwrites k_vdisk set_k_lk set_k_hart set_k_csr set_k_mmio set_k_mem
    set_k_freelist set_k_kpgtbl set_k_procs set_k_initproc set_k_nextpid set_k_first set_k_started set_k_bufs
    set_k_sb set_k_inodes set_k_logs set_k_files set_k_devsw set_k_pipes set_k_cons set_k_uart
    set_k_pr_locking set_k_panicked set_k_ticks set_k_disk set_k_dwrites set_k_vdisk ].
Ltac by_fields :=
  intros; repeat match goal with s : kstate |- _ => destruct s end; kred; reflexivity.
#[export] Hint Extern 0 (LockFree _) => (unfold LockFree; by_fields) : typeclass_instances.
#[export] Hint Extern 0 (LockFreeUpd _) => (unfold LockFreeUpd; by_fields) : typeclass_instances.
