(* ===== verification/Spinlock.v ===== *)
(** * Spinlocks and interrupt nesting (kernel/spinlock.c)

    [acquire] and [release] as the source has them: interrupts off, the
    re-entrance check, the test-and-set loop (each failed attempt lets the rest
    of the machine run, from the schedule), the owner.  The second half gives
    the rules that let a theorem about a kernel function forget its locks:
    [quiet] runs leave every lock as it was. *)
From S2P Require Import Prelude Riscv State.

Definition NLOCK : nat := 1000.
Arguments NLOCK : simpl never.

(** ** cpuid, mycpu (kernel/proc.c), intr_on/off/get (kernel/riscv.h) *)
Definition cpuid : M nat := gets k_hart.
Definition mycpu : M cpu :=
  id ← cpuid; lk ← gets k_lk; of_option "cpus[]" (l_cpus lk !! id).
Definition upd_cpu (f : cpu -> cpu) : M unit :=
  id ← cpuid; modify (fun s => set_k_lk (set_l_cpus (alter f id (l_cpus (k_lk s))) (k_lk s)) s).

Definition r_sstatus : M Z :=
  id ← cpuid; lk ← gets k_lk; of_option "hart" (l_sstatus lk !! id).
Definition w_sstatus (x : Z) : M unit :=
  id ← cpuid;
  modify (fun s => set_k_lk (set_l_sstatus (<[id := x]> (l_sstatus (k_lk s))) (k_lk s)) s).

Definition intr_on : M unit := x ← r_sstatus; w_sstatus (Z.lor x SSTATUS_SIE).
Definition intr_off : M unit := x ← r_sstatus; w_sstatus (Z.land x (Z.lnot SSTATUS_SIE)).
Definition intr_get : M Z := x ← r_sstatus; mret (b2z (ctrue (Z.land x SSTATUS_SIE))).

(** ** push_off, pop_off *)
Definition push_off : M unit :=
  old ← intr_get;
  when (ctrue old) intr_off ;;
  c ← mycpu;
  when (c_noff c =? 0) (upd_cpu (set_c_intena old)) ;;
  upd_cpu (fun c => set_c_noff (c_noff c + 1) c).

Definition pop_off : M unit :=
  i ← intr_get;
  if ctrue i then panic "pop_off - interruptible" else
  c ← mycpu;
  if c_noff c <? 1 then panic "pop_off" else
  upd_cpu (fun c => set_c_noff (c_noff c - 1) c) ;;
  c ← mycpu;
  when ((c_noff c =? 0) && ctrue (c_intena c)) intr_on.

(** ** The lock operations *)
Definition get_lock (l : lockid) : M spinlock := lk ← gets k_lk; mret (lock_of lk l).
Definition mod_lock (l : lockid) (f : spinlock -> spinlock) : M unit :=
  modify (fun s => set_k_lk (upd_lock l f (k_lk s)) s).

Definition holding (l : lockid) : M Z :=
  lk ← get_lock l;
  id ← cpuid;
  mret (b2z (ctrue (lk_locked lk) && bool_decide (lk_cpu lk = Some id))).

(** [while(__sync_lock_test_and_set(&lk->locked, 1) != 0) nts++;] *)
Fixpoint spin_loop (l : lockid) (s : kstate) (env : list step) {struct env} : outcome unit :=
  let old := lk_locked (lock_of (k_lk s) l) in
  let s1 := set_k_lk (upd_lock l (set_lk_locked 1) (k_lk s)) s in
  if old =? 0 then Done tt s1 env
  else
    let s2 := set_k_lk (upd_lock l (fun k => set_lk_nts (u32 (lk_nts k + 1)) k) (k_lk s1)) s1 in
    match env with
    | [] => Halt HBlocked s2
    | e :: env' => spin_loop l (e s2) env'
    end.
Definition test_and_set_loop (l : lockid) : M unit := spin_loop l.

Definition acquire (l : lockid) : M unit :=
  push_off ;;
  h ← holding l;
  if ctrue h then panic "acquire" else
  mod_lock l (fun k => set_lk_n (u32 (lk_n k + 1)) k) ;;
  test_and_set_loop l ;;
  id ← cpuid;
  mod_lock l (set_lk_cpu (Some id)).

Definition release (l : lockid) : M unit :=
  h ← holding l;
  if negb (ctrue h) then panic "release" else
  mod_lock l (set_lk_cpu None) ;;
  mod_lock l (set_lk_locked 0) ;;
  pop_off.

Definition initlock (l : lockid) (name : string) : M unit :=
  mod_lock l (fun _ => mk_spinlock 0 name None 0 0) ;;
  lk ← gets k_lk;
  if (NLOCK <=? length (l_tab lk))%nat then panic "initlock" else
  modify (fun s => set_k_lk (set_l_tab (l_tab (k_lk s) ++ [l]) (k_lk s)) s).

(** ** myproc (kernel/proc.c) *)
Definition myproc_opt : M (option nat) :=
  push_off ;; c ← mycpu; pop_off ;; mret (c_proc c).
(** [myproc()] where the caller dereferences the result. *)
Definition myproc : M nat := p ← myproc_opt; of_option "myproc() is null" p.

(** ** What acquiring and releasing do to the lock state *)
Definition sie (x : Z) : bool := ctrue (Z.land x SSTATUS_SIE).
Definition push_cpu (old : bool) (c : cpu) : cpu :=
  mk_cpu (c_proc c) (c_noff c + 1) (if c_noff c =? 0 then b2z old else c_intena c).
Definition push_lk (h : nat) (lk : lkstate) : lkstate :=
  let x := default 0 (l_sstatus lk !! h) in
  set_l_cpus (alter (push_cpu (sie x)) h (l_cpus lk))
    (if sie x then set_l_sstatus (<[h := Z.land x (Z.lnot SSTATUS_SIE)]> (l_sstatus lk)) lk
     else lk).
Definition pop_lk (h : nat) (lk : lkstate) : lkstate :=
  let lk1 := set_l_cpus (alter (fun c => set_c_noff (c_noff c - 1) c) h (l_cpus lk)) lk in
  match l_cpus lk1 !! h with
  | Some c => if (c_noff c =? 0) && ctrue (c_intena c)
              then set_l_sstatus (alter (fun x => Z.lor x SSTATUS_SIE) h (l_sstatus lk1)) lk1
              else lk1
  | None => lk1
  end.
Definition acq_lk (h : nat) (l : lockid) (lk : lkstate) : lkstate :=
  upd_lock l (fun k => mk_spinlock 1 (lk_name k) (Some h) (u32 (lk_n k + 1)) (lk_nts k))
    (push_lk h lk).
Definition rel_lk (h : nat) (l : lockid) (lk : lkstate) : lkstate :=
  pop_lk h (upd_lock l (fun k => set_lk_locked 0 (set_lk_cpu None k)) lk).
Arguments push_lk : simpl never.
Arguments pop_lk : simpl never.
Arguments acq_lk : simpl never.
Arguments rel_lk : simpl never.

(** A hart that can take locks: while it holds one, its interrupts are off. *)
Definition hart_ok (lk : lkstate) (h : nat) : Prop :=
  exists c x, l_cpus lk !! h = Some c /\ l_sstatus lk !! h = Some x /\
  0 <= c_noff c /\ (c_noff c <> 0 -> sie x = false).
Definition unlocked (lk : lkstate) (l : lockid) : Prop :=
  lk_locked (lock_of lk l) = 0 /\ lk_cpu (lock_of lk l) = None.
(** The current hart can take lock [l] at once. *)
Definition ready (s : kstate) (l : lockid) : Prop :=
  hart_ok (k_lk s) (k_hart s) /\ unlocked (k_lk s) l.

(** ** Lemmas *)
Lemma lock_of_upd l f lk l' :
  lock_of (upd_lock l f lk) l' = if decide (l = l') then f (lock_of lk l) else lock_of lk l'.
Proof.
  unfold lock_of at 1, upd_lock. simpl. case_decide as E.
  - subst. by rewrite lookup_insert_eq.
  - by rewrite lookup_insert_ne.
Qed.

Lemma lock_of_push h lk l : lock_of (push_lk h lk) l = lock_of lk l.
Proof. unfold push_lk. by destruct (sie _). Qed.
Lemma lock_of_pop h lk l : lock_of (pop_lk h lk) l = lock_of lk l.
Proof. unfold pop_lk. destruct (_ !! h); [|done]. by destruct (_ && _). Qed.

Lemma upd_lock_twice l f g lk :
  upd_lock l f (upd_lock l g lk) = upd_lock l (fun k => f (g k)) lk.
Proof.
  unfold upd_lock at 1. rewrite lock_of_upd. rewrite decide_True by done.
  unfold upd_lock, set_l_locks. simpl. f_equal. apply insert_insert_eq.
Qed.
Lemma upd_lock_ext l f g lk : f (lock_of lk l) = g (lock_of lk l) -> upd_lock l f lk = upd_lock l g lk.
Proof. unfold upd_lock. by intros ->. Qed.

Lemma sie_off x : sie (Z.land x (Z.lnot SSTATUS_SIE)) = false.
Proof.
  unfold sie. rewrite <- Z.land_assoc. rewrite (Z.land_comm (Z.lnot _)).
  by rewrite Z.land_lnot_diag, Z.land_0_r.
Qed.
Lemma sie_restore x : sie x = true -> Z.lor (Z.land x (Z.lnot SSTATUS_SIE)) SSTATUS_SIE = x.
Proof.
  intros H. apply Z.bits_inj'. intros i Hi.
  rewrite Z.lor_spec, Z.land_spec, Z.lnot_spec by done.
  unfold SSTATUS_SIE. change (Z.shiftl 1 1) with (2 ^ 1).
  rewrite Z.pow2_bits_eqb by lia.
  bdestr (1 =? i); simpl; [|by rewrite andb_true_r, orb_false_r].
  subst i. rewrite andb_false_r. simpl. symmetry.
  unfold sie, SSTATUS_SIE in H. change (Z.shiftl 1 1) with (2 ^ 1) in H.
  destruct (Z.testbit x 1) eqn:E; [done|].
  assert (Z.land x (2 ^ 1) = 0) as E2; [|by rewrite E2 in H].
  apply Z.bits_inj'. intros j Hj. rewrite Z.land_spec, Z.pow2_bits_eqb, Z.bits_0 by lia.
  bdestr (1 =? j); [subst; by rewrite E|apply andb_false_r].
Qed.

Lemma list_alter_insert {A} (f : A -> A) (l : list A) i x :
  l !! i = Some x -> alter f i l = <[i := f x]> l.
Proof.
  intros H. apply list_eq. intros j. destruct (decide (i = j)) as [<-|].
  - rewrite list_lookup_alter_eq, H. simpl. symmetry.
    apply list_lookup_insert_eq. by eapply lookup_lt_Some.
  - by rewrite list_lookup_alter_ne, list_lookup_insert_ne.
Qed.

(** [run_m] unfolds the monad at the head of a goal about [m s env]. *)
Ltac run_m :=
  unfold mbind, M_bind, mret, M_ret, reads, modify, panic, undef, halt_with; cbn.

Lemma runs_push_off s :
  hart_ok (k_lk s) (k_hart s) -> runs push_off s tt (set_k_lk (push_lk (k_hart s) (k_lk s)) s).
Proof.
  intros (c & x & Hc & Hx & H0 & Hoff) env.
  destruct s as [lk h ?]; destruct lk as [lks tab cpus sst]; cbn in *.
  unfold push_off, intr_get, intr_off, mycpu, upd_cpu, r_sstatus, w_sstatus, cpuid,
    of_option, when, push_lk.
  run_m. rewrite Hx. cbn. fold (sie x).
  destruct (sie x) eqn:Hs; cbn; rewrite ?Hx; cbn; rewrite Hc; cbn.
  - bdestr (c_noff c =? 0); [|by specialize (Hoff E)].
    cbn. unfold set_k_lk, set_l_cpus; cbn. do 3 f_equal.
    rewrite !(list_alter_insert _ _ _ _ Hc). rewrite list_alter_insert with (x := set_c_intena 1 c).
    + rewrite list_insert_insert_eq. unfold push_cpu. cbn. by rewrite E.
    + apply list_lookup_insert_eq. by eapply lookup_lt_Some.
  - bdestr (c_noff c =? 0); cbn; unfold set_k_lk, set_l_cpus; cbn; do 3 f_equal.
    + rewrite !(list_alter_insert _ _ _ _ Hc). rewrite list_alter_insert with (x := set_c_intena 0 c).
      * rewrite list_insert_insert_eq. unfold push_cpu. cbn. by rewrite E.
      * apply list_lookup_insert_eq. by eapply lookup_lt_Some.
    + rewrite !(list_alter_insert _ _ _ _ Hc). unfold push_cpu.
      replace (c_noff c =? 0) with false by lia. by destruct c.
Qed.

Lemma runs_pop_off s c x :
  l_cpus (k_lk s) !! k_hart s = Some c -> l_sstatus (k_lk s) !! k_hart s = Some x ->
  1 <= c_noff c -> sie x = false ->
  runs pop_off s tt (set_k_lk (pop_lk (k_hart s) (k_lk s)) s).
Proof.
  intros Hc Hx Hn Hs env.
  destruct s as [lk h ?]; destruct lk as [lks tab cpus sst]; cbn in *.
  unfold pop_off, intr_get, intr_on, mycpu, upd_cpu, r_sstatus, w_sstatus, cpuid,
    of_option, when, pop_lk.
  run_m. rewrite Hx. cbn. fold (sie x). rewrite Hs. cbn. rewrite Hc. cbn.
  if_lia. cbn. rewrite list_lookup_alter_eq, Hc. cbn.
  destruct (_ && _); cbn; [|done]. rewrite Hx. cbn.
  by rewrite (list_alter_insert _ _ _ _ Hx).
Qed.

Lemma spin_loop_free l s env :
  lk_locked (lock_of (k_lk s) l) = 0 ->
  spin_loop l s env = Done tt (set_k_lk (upd_lock l (set_lk_locked 1) (k_lk s)) s) env.
Proof. intros H. destruct env; simpl; by rewrite H. Qed.

Lemma runs_acquire s l :
  ready s l -> runs (acquire l) s tt (set_k_lk (acq_lk (k_hart s) l (k_lk s)) s).
Proof.
  intros [Hh Hu]. unfold acquire.
  eapply runs_bind; [by apply runs_push_off|]. intros env.
  destruct s as [lk h ?]; cbn in *.
  unfold holding, get_lock, cpuid, mod_lock, test_and_set_loop. run_m.
  rewrite lock_of_push. destruct Hu as [Hu _]. rewrite Hu. cbn.
  rewrite spin_loop_free.
  - cbn. unfold set_k_lk; cbn. f_equal. f_equal. rewrite !upd_lock_twice. done.
  - cbn. rewrite lock_of_upd. rewrite decide_True by done. cbn.
    by rewrite lock_of_push.
Qed.

(** Lock [l] is held by hart [h]. *)
Definition held (lk : lkstate) (h : nat) (l : lockid) : Prop :=
  lk_locked (lock_of lk l) = 1 /\ lk_cpu (lock_of lk l) = Some h /\
  exists c x, l_cpus lk !! h = Some c /\ l_sstatus lk !! h = Some x /\
  1 <= c_noff c /\ sie x = false.

Lemma runs_release s l :
  held (k_lk s) (k_hart s) l ->
  runs (release l) s tt (set_k_lk (rel_lk (k_hart s) l (k_lk s)) s).
Proof.
  intros (Hl & Hc & c & x & Hcpu & Hx & Hn & Hs) env.
  unfold release, holding, get_lock, cpuid, mod_lock.
  unfold rel_lk. destruct s as [lk h ?]; cbn in *.
  run_m. rewrite Hl, Hc. rewrite bool_decide_eq_true_2 by done. cbn.
  rewrite (runs_pop_off _ c x); cbn; try done.
  rewrite !upd_lock_twice. done.
Qed.

Lemma acq_held h l lk : hart_ok lk h -> held (acq_lk h l lk) h l.
Proof.
  intros (c & x & Hc & Hx & H0 & Hoff). unfold held, acq_lk.
  rewrite lock_of_upd, decide_True by done. cbn. split_and!; [done..|].
  exists (push_cpu (sie x) c).
  exists (if sie x then Z.land x (Z.lnot SSTATUS_SIE) else x).
  unfold push_lk. rewrite Hx. cbn.
  destruct (sie x) eqn:Hs; cbn; rewrite list_lookup_alter_eq, Hc; cbn;
    (split_and!; [done| |lia|]).
  - apply list_lookup_insert_eq. by eapply lookup_lt_Some.
  - apply sie_off.
  - done.
  - done.
Qed.

Lemma acq_hart_ok h l lk : hart_ok lk h -> hart_ok (acq_lk h l lk) h.
Proof.
  intros H. destruct (acq_held h l lk H) as (_ & _ & c & x & Hc & Hx & Hn & Hs).
  exists c, x. split_and!; [done|done|lia|done].
Qed.

Lemma acq_unlocked h l lk l' :
  l <> l' -> unlocked lk l' -> unlocked (acq_lk h l lk) l'.
Proof.
  intros Hne Hu. unfold unlocked, acq_lk. rewrite lock_of_upd, decide_False by done.
  by rewrite lock_of_push.
Qed.

(** ** Steady lock states *)
Lemma steady_hart_ok lk lk' h : steady lk lk' -> hart_ok lk h -> hart_ok lk' h.
Proof.
  intros [_ Hc Hs] (c & x & H1 & H2 & H3 & H4).
  destruct (Forall2_lookup_l _ _ _ _ _ Hc H1) as (c' & Hc' & Hp & Hn & _).
  exists c', x. rewrite <- Hs, <- Hn. done.
Qed.
Lemma steady_unlocked lk lk' l : steady lk lk' -> unlocked lk l -> unlocked lk' l.
Proof. intros [H _ _]. unfold unlocked. by destruct (H l) as [-> ->]. Qed.
Lemma steady_held lk lk' h l : steady lk lk' -> held lk h l -> held lk' h l.
Proof.
  intros [Hl Hc Hs] (H1 & H2 & c & x & H3 & H4 & H5 & H6).
  destruct (Hl l) as [E1 E2].
  destruct (Forall2_lookup_l _ _ _ _ _ Hc H3) as (c' & Hc' & Hp & Hn & _).
  unfold held. rewrite <- E1, <- E2. split_and!; [done..|].
  exists c', x. rewrite <- Hs, <- Hn. done.
Qed.

Lemma Forall2_alter {A} (R : A -> A -> Prop) (f : A -> A) l l' i :
  Forall2 R l l' -> (forall x y, l !! i = Some x -> l' !! i = Some y -> R x y -> R (f x) (f y)) ->
  Forall2 R (alter f i l) (alter f i l').
Proof.
  intros H Hf. apply Forall2_same_length_lookup. rewrite !length_alter.
  apply Forall2_same_length_lookup in H as [Hlen H]. split; [done|].
  intros j x y. destruct (decide (i = j)) as [<-|].
  - rewrite !list_lookup_alter_eq.
    intros (x' & Hx & ->)%fmap_Some (y' & Hy & ->)%fmap_Some. eauto.
  - rewrite !list_lookup_alter_ne by done. apply H.
Qed.

Lemma steady_acq h l lk lk' : steady lk lk' -> steady (acq_lk h l lk) (acq_lk h l lk').
Proof.
  intros [Hl Hc Hs]. unfold acq_lk. split.
  - intros l'. rewrite !lock_of_upd, !lock_of_push. case_decide; [done|apply Hl].
  - unfold upd_lock, push_lk. rewrite Hs. destruct (sie _); cbn;
      (apply Forall2_alter; [done|]); intros x y _ _ (Hp & Hn & Hi);
      unfold push_cpu; rewrite Hn in Hi |- *; (split_and!; cbn; [done|done|]);
      intros _; bdestr (c_noff y =? 0); auto.
  - unfold upd_lock, push_lk. rewrite Hs. by destruct (sie _).
Qed.

Lemma rel_acq_cpus h l lk lk1 :
  hart_ok lk h -> steady (acq_lk h l lk) lk1 ->
  Forall2 same_cpu (l_cpus lk) (l_cpus (rel_lk h l lk1)) /\
  l_sstatus lk = l_sstatus (rel_lk h l lk1).
Proof.
  intros (c & x & Hc & Hx & H0 & Hoff) [_ Hcs Hs].
  apply Forall2_same_length_lookup in Hcs as [Hlen Hcs].
  assert (l_cpus (acq_lk h l lk) = alter (push_cpu (sie x)) h (l_cpus lk)) as Ecpus.
  { unfold acq_lk, push_lk. rewrite Hx. cbn. by destruct (sie x). }
  assert (l_sstatus (acq_lk h l lk) =
    if sie x then <[h := Z.land x (Z.lnot SSTATUS_SIE)]> (l_sstatus lk) else l_sstatus lk) as Esst.
  { unfold acq_lk, push_lk. rewrite Hx. cbn. by destruct (sie x). }
  rewrite Ecpus in *. rewrite length_alter in Hlen.
  assert (h < length (l_cpus lk))%nat as Hlt by by eapply lookup_lt_Some.
  destruct (lookup_lt_is_Some_2 (l_cpus lk1) h) as [c1 Hc1]; [lia|].
  destruct (Hcs h (push_cpu (sie x) c) c1) as (Hp1 & Hn1 & Hi1); [|done|].
  { by rewrite list_lookup_alter_eq, Hc. }
  cbn in Hp1, Hn1, Hi1.
  unfold rel_lk, pop_lk. cbn. rewrite list_lookup_alter_eq, Hc1. cbn.
  assert (Forall2 same_cpu (l_cpus lk)
    (alter (fun c => set_c_noff (c_noff c - 1) c) h (l_cpus lk1))) as HF.
  { apply Forall2_same_length_lookup. rewrite length_alter. split; [done|].
    intros j a b Ha Hb. destruct (decide (h = j)) as [<-|Hne].
    - rewrite list_lookup_alter_eq, Hc1 in Hb. simplify_eq/=.
      split_and!; cbn; [done|lia|]. intros Hn. specialize (Hi1 ltac:(lia)).
      by replace (c_noff c =? 0) with false in Hi1 by lia.
    - rewrite list_lookup_alter_ne in Hb by done. apply (Hcs j); [|done].
      by rewrite list_lookup_alter_ne. }
  rewrite <- Hn1, <- Hi1 by lia.
  bdestr (c_noff c =? 0).
  - replace (c_noff c + 1 - 1 =? 0) with true by lia. cbn.
    rewrite <- Hs, Esst. destruct (sie x) eqn:Hsx; cbn; rewrite <- ?Hs, ?Esst; [|done].
    split; [done|]. apply list_eq. intros j. destruct (decide (h = j)) as [<-|].
    + rewrite list_lookup_alter_eq, list_lookup_insert_eq by by eapply lookup_lt_Some.
      cbn. by rewrite sie_restore.
    + by rewrite list_lookup_alter_ne, list_lookup_insert_ne.
  - replace (c_noff c + 1 - 1 =? 0) with false by lia. cbn. split; [done|].
    rewrite <- Hs, Esst. by rewrite Hoff.
Qed.

(** Releasing undoes acquiring, up to statistics. *)
Lemma steady_rel_acq h l lk lk1 :
  hart_ok lk h -> unlocked lk l ->
  steady (acq_lk h l lk) lk1 -> steady lk (rel_lk h l lk1).
Proof.
  intros Hh [Hu Hcpu] Hst. destruct (rel_acq_cpus h l lk lk1 Hh Hst) as [Hc Hs].
  destruct Hst as [Hl _ _]. split; [|done|done].
  intros l'. unfold rel_lk. rewrite lock_of_pop, lock_of_upd. case_decide.
  - subst l'. by split; cbn.
  - specialize (Hl l'). unfold acq_lk in Hl.
    by rewrite lock_of_upd, !lock_of_push, decide_False in Hl.
Qed.

(** ** Rules for critical sections

    [hquiet l m s a s']: [m] starts with lock [l] taken from the lock state of
    [s], releases it, and ends in [s']. *)
Definition hquiet {A} (l : lockid) (m : M A) (s : kstate) (a : A) (s' : kstate) : Prop :=
  steady (k_lk s) (k_lk s') /\
  forall lk1, steady (acq_lk (k_hart s) l (k_lk s)) lk1 ->
  exists lk', steady (k_lk s) lk' /\ runs m (set_k_lk lk1 s) a (set_k_lk lk' s').

(** The state of [s] once the current hart has taken [l]. *)
Definition taken (l : lockid) (s : kstate) : kstate :=
  set_k_lk (acq_lk (k_hart s) l (k_lk s)) s.

Lemma panics_acquire {A} msg l (m : M A) s : ready s l ->
  panics_with msg m (taken l s) -> panics_with msg (acquire l ;; m) s.
Proof.
  intros [Hh Hu] Hp lk Hlk env. destruct (Hp (acq_lk (k_hart s) l lk) ltac:(by apply steady_acq) env) as (s' & E).
  exists s'. unfold mbind, M_bind. rewrite (runs_acquire (set_k_lk lk s)); [exact E|]. split; cbn.
  - by eapply steady_hart_ok.
  - by eapply steady_unlocked.
Qed.
Lemma quiet_acquire {A} l (m : M A) s a s' :
  ready s l -> hquiet l m s a s' -> quiet (acquire l ;; m) s a s'.
Proof.
  intros [Hh Hu] [Hs H]. split; [done|]. intros lk Hlk.
  destruct (H (acq_lk (k_hart s) l lk)) as (lk' & Hlk' & Hr); [by apply steady_acq|].
  exists lk'. split; [done|]. eapply runs_bind; [|exact Hr].
  apply (runs_acquire (set_k_lk lk s)). split; cbn.
  - by eapply steady_hart_ok.
  - by eapply steady_unlocked.
Qed.

Lemma hquiet_release {A} l (m : M A) s a s' :
  ready s l -> quiet m s a s' -> hquiet l (release l ;; m) s a s'.
Proof.
  intros [Hh Hu] [Hs H]. split; [done|]. intros lk1 Hlk1.
  destruct (H (rel_lk (k_hart s) l lk1)) as (lk' & Hlk' & Hr).
  { by apply steady_rel_acq. }
  exists lk'. split; [done|]. eapply runs_bind; [|exact Hr].
  apply (runs_release (set_k_lk lk1 s)). cbn.
  eapply steady_held; [done|]. by apply acq_held.
Qed.

Lemma hquiet_end l s : ready s l -> hquiet l (release l) s tt s.
Proof.
  intros [Hh Hu]. split; [reflexivity|]. intros lk1 Hlk1.
  exists (rel_lk (k_hart s) l lk1). split; [by apply steady_rel_acq|].
  apply (runs_release (set_k_lk lk1 s)). cbn.
  eapply steady_held; [done|]. by apply acq_held.
Qed.

(** A step inside the critical section. *)
Lemma hquiet_bind {A B} l (m : M A) (k : A -> M B) s a s1 b s2 :
  k_lk s1 = k_lk s -> k_hart s1 = k_hart s ->
  quiet m (taken l s) a (taken l s1) -> hquiet l (k a) s1 b s2 ->
  hquiet l (m ≫= k) s b s2.
Proof.
  intros El Eh [_ H1] [Hs2 H2]. rewrite El in Hs2, H2. rewrite Eh in H2.
  split; [done|]. intros lk1 Hlk1.
  destruct (H1 lk1) as (lk2 & Hlk2 & Hr1); [done|].
  destruct (H2 lk2) as (lk3 & Hlk3 & Hr2); [done|].
  exists lk3. split; [done|]. by eapply runs_bind; [exact Hr1|].
Qed.

Lemma hquiet_reads {A B} l (f : kstate -> A) `{!LockFree f} (k : A -> M B) s b s2 :
  hquiet l (k (f s)) s b s2 -> hquiet l (reads f ≫= k) s b s2.
Proof.
  intros H. eapply hquiet_bind; [done|done| |exact H].
  pose proof (quiet_reads f (taken l s)) as Hq. unfold taken in Hq at 2.
  by rewrite (lock_free (f := f)) in Hq.
Qed.

Lemma hquiet_modify {B} l f `{!LockFreeUpd f} (k : unit -> M B) s b s2 :
  k_hart (f s) = k_hart s ->
  hquiet l (k tt) (f s) b s2 -> hquiet l (modify f ≫= k) s b s2.
Proof.
  intros Eh H.
  assert (k_lk (f s) = k_lk s) as El.
  { pose proof (lock_free_upd (f := f) (k_lk s) s) as E. rewrite set_k_lk_same in E.
    by rewrite E. }
  eapply hquiet_bind; [done|done| |exact H].
  pose proof (quiet_modify f (taken l s)) as Hq. unfold taken in Hq at 2.
  rewrite (lock_free_upd (f := f)) in Hq. unfold taken at 2. by rewrite Eh, El.
Qed.

Lemma ready_taken l l' s : l <> l' -> ready s l' -> ready (taken l s) l'.
Proof. intros Hne [Hh Hu]. split; [by apply acq_hart_ok|by apply acq_unlocked]. Qed.

(** ** push_off/pop_off sections *)
Lemma pop_upd_lock h l f lk : pop_lk h (upd_lock l f lk) = upd_lock l f (pop_lk h lk).
Proof.
  unfold pop_lk. cbn. destruct (alter _ h (l_cpus lk) !! h); [|done].
  by destruct (_ && _).
Qed.

Lemma steady_pop_push h lk : hart_ok lk h -> steady lk (pop_lk h (push_lk h lk)).
Proof.
  intros Hh. destruct (rel_acq_cpus h Lpr lk _ Hh (reflexivity _)) as [HF HS].
  unfold rel_lk, acq_lk in HF, HS. rewrite !pop_upd_lock in HF, HS.
  split; [|done|done]. intros l. by rewrite lock_of_pop, lock_of_push.
Qed.

Lemma push_lk_off h lk :
  hart_ok lk h ->
  exists (c : cpu) (x : Z), l_cpus (push_lk h lk) !! h = Some c /\
  l_sstatus (push_lk h lk) !! h = Some x /\
  1 <= c_noff c /\ sie x = false /\ (exists c0, l_cpus lk !! h = Some c0 /\ c_proc c0 = c_proc c).
Proof.
  intros Hh. destruct (acq_held h Lpr lk Hh) as (_ & _ & c & x & Hc & Hx & Hn & Hs).
  exists c, x. split_and!; [done..|]. destruct Hh as (c0 & x0 & Hc0 & _).
  unfold acq_lk, push_lk in Hc. cbn in Hc. rewrite list_lookup_alter_eq, Hc0 in Hc.
  exists c0. by simplify_eq/=.
Qed.

Lemma quiet_myproc_opt s c :
  hart_ok (k_lk s) (k_hart s) -> l_cpus (k_lk s) !! k_hart s = Some c ->
  quiet myproc_opt s (c_proc c) s.
Proof.
  intros Hh Hc. split; [reflexivity|]. intros lk Hlk.
  pose proof (steady_hart_ok _ _ _ Hlk Hh) as Hh'.
  destruct (Forall2_lookup_l _ _ _ _ _ (steady_cpus _ _ Hlk) Hc) as (c' & Hc' & Hp & _).
  destruct (push_lk_off _ _ Hh') as (c1 & x1 & Hc1 & Hx1 & Hn1 & Hs1 & c0 & Hc0 & Hp1).
  rewrite Hc' in Hc0. injection Hc0 as <-.
  exists (pop_lk (k_hart s) (push_lk (k_hart s) lk)). split.
  { transitivity lk; [done|]. by apply steady_pop_push. }
  unfold myproc_opt. eapply runs_bind; [by apply (runs_push_off (set_k_lk lk s))|].
  cbn. eapply (runs_bind mycpu _ _ c1).
  { intros env. unfold mycpu, cpuid. run_m. by rewrite Hc1. }
  eapply runs_bind; [by eapply (runs_pop_off (set_k_lk _ s))|].
  assert (c_proc c1 = c_proc c) as -> by congruence. done.
Qed.

Lemma quiet_of_option {A} what (a : A) s : quiet (of_option what (Some a)) s a s.
Proof. apply quiet_ret. Qed.

(** The process running on the current hart. *)
Definition current (s : kstate) (i : nat) : Prop :=
  hart_ok (k_lk s) (k_hart s) /\
  exists c, l_cpus (k_lk s) !! k_hart s = Some c /\ c_proc c = Some i.

Lemma quiet_myproc s i : current s i -> quiet myproc s i s.
Proof.
  intros (Hh & c & Hc & Hp). eapply quiet_bind; [by eapply quiet_myproc_opt|].
  rewrite Hp. apply quiet_of_option.
Qed.

Lemma runs_initlock s l name :
  (length (l_tab (k_lk s)) < NLOCK)%nat ->
  runs (initlock l name) s tt
    (set_k_lk (set_l_tab (l_tab (k_lk s) ++ [l])
      (upd_lock l (fun _ => mk_spinlock 0 name None 0 0) (k_lk s))) s).
Proof.
  intros H env. unfold initlock, mod_lock. run_m.
  replace (NLOCK <=? length (l_tab (k_lk s)))%nat with false; [done|].
  symmetry. by apply Nat.leb_gt.
Qed.
Lemma init_ready s l name tab :
  hart_ok (k_lk s) (k_hart s) ->
  ready (set_k_lk (set_l_tab tab (upd_lock l (fun _ => mk_spinlock 0 name None 0 0) (k_lk s))) s) l.
Proof.
  intros H. split; [done|]. split.
  - change (lk_locked (lock_of (upd_lock l (fun _ => mk_spinlock 0 name None 0 0) (k_lk s)) l) = 0).
    by rewrite lock_of_upd, decide_True.
  - change (lk_cpu (lock_of (upd_lock l (fun _ => mk_spinlock 0 name None 0 0) (k_lk s)) l) = None).
    by rewrite lock_of_upd, decide_True.
Qed.

(** ** Properties *)
(** What the interrupt enable bit and the lock look like from hart [h]. *)
Definition interrupts_off (s : kstate) : Prop :=
  exists x, l_sstatus (k_lk s) !! k_hart s = Some x /\ sie x = false.

Lemma taken_off l s : hart_ok (k_lk s) (k_hart s) -> interrupts_off (taken l s).
Proof.
  intros H. destruct (acq_held _ l _ H) as (_ & _ & c & x & Hc & Hx & Hn & Hs). by exists x.
Qed.

(** On a hart whose interrupt nesting is well formed, acquire of a free lock
    returns without waiting with the lock marked as held by this hart and
    interrupts disabled; the matching release then puts every lock, the
    nesting depth and the interrupt enable bit back as they were. *)
Lemma acquire_release_restores s l :
  ready s l ->
  runs (acquire l) s tt (taken l s) /\
  held (k_lk (taken l s)) (k_hart s) l /\ interrupts_off (taken l s) /\
  exists lk, runs (release l) (taken l s) tt (set_k_lk lk s) /\ steady (k_lk s) lk.
Proof.
  intros [Hh Hu]. pose proof (acq_held _ l _ Hh) as Hheld. split_and!.
  - by apply runs_acquire.
  - done.
  - by apply taken_off.
  - exists (rel_lk (k_hart s) l (acq_lk (k_hart s) l (k_lk s))). split.
    + by apply (runs_release (taken l s)).
    + by apply steady_rel_acq.
Qed.

Lemma ready_boot l : ready kstate0 l.
Proof.
  split; [|done]. exists cpu0, 0. split_and!; [done..|].
  intros []. done.
Qed.

Lemma acquire_release_restores_witness :
  ready kstate0 Lkmem /\ runs (acquire Lkmem) kstate0 tt (taken Lkmem kstate0).
Proof.
  split; [apply ready_boot|].
  destruct (acquire_release_restores kstate0 Lkmem (ready_boot _)) as [H _]. exact H.
Defined.

(** [n] nested push_off()s, and as many pop_off()s. *)
Fixpoint push_offs (n : nat) : M unit :=
  match n with O => mret tt | S n' => push_off ;; push_offs n' end.
Fixpoint pop_offs (n : nat) : M unit :=
  match n with O => mret tt | S n' => pop_offs n' ;; pop_off end.

Lemma push_lk_hart_ok h lk : hart_ok lk h -> hart_ok (push_lk h lk) h.
Proof.
  intros H. destruct (push_lk_off h lk H) as (c & x & Hc & Hx & Hn & Hs & _).
  exists c, x. split_and!; [done|done|lia|done].
Qed.

(** [steady_pop_push] with other work, leaving the locks alone, in between. *)
Lemma steady_pop_push_gen h lk lk1 :
  hart_ok lk h -> steady (push_lk h lk) lk1 -> steady lk (pop_lk h lk1).
Proof.
  intros Hh [Hl Hc Hs].
  destruct (rel_acq_cpus h Lpr lk (upd_lock Lpr (fun k => mk_spinlock 1 (lk_name k) (Some h)
    (u32 (lk_n k + 1)) (lk_nts k)) lk1) Hh) as [HF HS].
  { unfold acq_lk. split; [|done|done]. intros l. rewrite !lock_of_upd. by case_decide. }
  unfold rel_lk in HF, HS. rewrite !pop_upd_lock in HF, HS. split; [|done|done].
  intros l. rewrite lock_of_pop. specialize (Hl l). by rewrite lock_of_push in Hl.
Qed.

Lemma runs_pop_off_steady s s1 :
  hart_ok (k_lk s) (k_hart s) -> k_hart s1 = k_hart s ->
  steady (push_lk (k_hart s) (k_lk s)) (k_lk s1) ->
  runs pop_off s1 tt (set_k_lk (pop_lk (k_hart s) (k_lk s1)) s1).
Proof.
  intros Hh Eh Hst. destruct (push_lk_off _ _ Hh) as (c & x & Hc & Hx & Hn & Hs & _).
  destruct Hst as [_ Hcs Hss].
  destruct (Forall2_lookup_l _ _ _ _ _ Hcs Hc) as (c1 & Hc1 & _ & En & _).
  rewrite <- Eh. eapply (runs_pop_off s1 c1 x); rewrite ?Eh; [done| |lia|done].
  by rewrite <- Hss.
Qed.

(** The nesting level [n] below [s]: [n] push_off()s on, and how the
    pop_off()s come back. *)
Lemma push_pop_nest n : forall s,
  hart_ok (k_lk s) (k_hart s) ->
  exists s1, runs (push_offs n) s tt s1 /\
  (forall k, (k < n)%nat -> exists s2, runs (pop_offs k) s1 tt s2 /\ interrupts_off s2) /\
  exists lk, runs (pop_offs n) s1 tt (set_k_lk lk s) /\ steady (k_lk s) lk.
Proof.
  induction n as [|n IH]; intros s Hh.
  { exists s. split_and!; [done|lia|]. exists (k_lk s). rewrite set_k_lk_same. done. }
  set (s0 := set_k_lk (push_lk (k_hart s) (k_lk s)) s).
  destruct (IH s0) as (s1 & Hpush & Hoff & lk & Hpop & Hst); [by apply push_lk_hart_ok|].
  destruct (push_lk_off _ _ Hh) as (c & x & Hc & Hx & Hn & Hsx & _).
  assert (Hend : runs pop_off (set_k_lk lk s) tt (set_k_lk (pop_lk (k_hart s) lk) s)).
  { by apply (runs_pop_off_steady s (set_k_lk lk s)). }
  exists s1. split_and!.
  - eapply runs_bind; [by apply runs_push_off|done].
  - intros k Hk. destruct (decide (k = n)) as [->|]; [|apply Hoff; lia].
    exists (set_k_lk lk s). split; [exact Hpop|]. exists x. split; [|done].
    cbn. by rewrite <- (steady_sst _ _ Hst).
  - exists (pop_lk (k_hart s) lk). split; [by eapply runs_bind|].
    by apply steady_pop_push_gen.
Qed.

(** push_off and pop_off are matched: after [n] push_off()s it takes [n]
    pop_off()s to get back the interrupt state the hart had, interrupts stay
    off after fewer than [n], and none of the calls panics or waits. *)
Lemma push_off_pop_off_matched n s :
  hart_ok (k_lk s) (k_hart s) ->
  exists s1, runs (push_offs n) s tt s1 /\
  (forall k, (k < n)%nat -> exists s2, runs (pop_offs k) s1 tt s2 /\ interrupts_off s2) /\
  exists lk, runs (pop_offs n) s1 tt (set_k_lk lk s) /\ steady (k_lk s) lk.
Proof. intros H. by apply push_pop_nest. Qed.

Lemma push_off_pop_off_matched_witness :
  exists s1, runs (push_offs 3) kstate0 tt s1 /\
  exists s2, runs (pop_offs 2) s1 tt s2 /\ interrupts_off s2.
Proof.
  destruct (push_off_pop_off_matched 3 kstate0) as (s1 & H1 & H2 & _).
  - destruct (ready_boot Lpr) as [H _]. exact H.
  - exists s1. split; [exact H1|]. apply (H2 2%nat). lia.
Defined.

(** The misuse checks fire whatever else the machine does: acquiring a lock
    this hart already holds and releasing one it does not hold both panic. *)
Lemma lock_misuse_panics s l :
  (held (k_lk s) (k_hart s) l ->
     forall env, exists s', acquire l s env = Halt (HPanic "acquire") s') /\
  (lk_locked (lock_of (k_lk s) l) = 0 \/ lk_cpu (lock_of (k_lk s) l) <> Some (k_hart s) ->
     forall env, release l s env = Halt (HPanic "release") s).
Proof.
  split.
  - intros (Hl & Hc & c & x & H1 & H2 & H3 & H4) env. unfold acquire, mbind at 1, M_bind at 1.
    rewrite runs_push_off by (exists c, x; split_and!; [done|done|lia|done]).
    unfold holding, get_lock, cpuid. run_m. rewrite lock_of_push, Hl, Hc.
    rewrite bool_decide_eq_true_2 by done. cbn. eauto.
  - intros H env. unfold release, holding, get_lock, cpuid. run_m.
    destruct H as [->|H]; [done|].
    rewrite bool_decide_eq_false_2 by done. by rewrite andb_false_r.
Qed.

Lemma lock_misuse_panics_witness :
  (exists s', acquire Lkmem (taken Lkmem kstate0) [] = Halt (HPanic "acquire") s') /\
  release Lkmem kstate0 [] = Halt (HPanic "release") kstate0.
Proof.
  split.
  - apply (lock_misuse_panics (taken Lkmem kstate0) Lkmem). apply acq_held.
    destruct (ready_boot Lkmem) as [H _]. exact H.
  - apply (lock_misuse_panics kstate0 Lkmem). left. reflexivity.
Defined.
