(* ===== verification/SpinConc.v ===== *)
(** * Spinlocks under contention

    [Spinlock] gives acquire and release as one hart runs them.  Here every hart
    runs them at once, one memory access at a time: the check in holding(), the
    atomic swap of __sync_lock_test_and_set, the store to lk->cpu, and in
    release the check, the store to lk->cpu and __sync_lock_release are separate
    steps that interleave in any order.  The steps update the lock with the
    same functions as [Spinlock.acquire] and [Spinlock.release]. *)
From S2P Require Import Prelude Riscv State Spinlock.

(** Where a hart is in its use of the lock. *)
Inductive lpc :=
  | Out        (** outside acquire/release, not holding the lock *)
  | Spin       (** in acquire, past holding(), about to swap *)
  | Got        (** swap returned 0, lk->cpu not yet written *)
  | In         (** acquire returned: the critical section *)
  | Rel        (** in release, past holding() *)
  | Clr        (** lk->cpu cleared, lk->locked still 1 *)
  | Panicked.  (** holding() made acquire or release panic *)
#[export] Instance lpc_eq_dec : EqDecision lpc.
Proof. solve_decision. Defined.

Record machine := mk_machine { m_lk : lkstate; m_pc : list lpc }.

(** The value holding(lk) returns on hart [h]. *)
Definition holds (l : lockid) (lk : lkstate) (h : nat) : bool :=
  ctrue (lk_locked (lock_of lk l)) && bool_decide (lk_cpu (lock_of lk l) = Some h).

Lemma holding_holds l s env :
  holding l s env = Done (b2z (holds l (k_lk s) (k_hart s))) s env.
Proof. done. Qed.

(** The memory accesses of acquire and release, one each. *)
Definition set_pc (h : nat) (p : lpc) (x : machine) : machine :=
  mk_machine (m_lk x) (<[h := p]> (m_pc x)).
Definition access (l : lockid) (f : spinlock -> spinlock) (x : machine) : machine :=
  mk_machine (upd_lock l f (m_lk x)) (m_pc x).

Inductive lstep (l : lockid) : machine -> machine -> Prop :=
  | step_check x h :
      m_pc x !! h = Some Out ->
      lstep l x (set_pc h (if holds l (m_lk x) h then Panicked else Spin) x)
  | step_swap_fail x h :
      m_pc x !! h = Some Spin -> lk_locked (lock_of (m_lk x) l) <> 0 ->
      lstep l x (access l (fun k => set_lk_nts (u32 (lk_nts k + 1)) (set_lk_locked 1 k)) x)
  | step_swap_ok x h :
      m_pc x !! h = Some Spin -> lk_locked (lock_of (m_lk x) l) = 0 ->
      lstep l x (set_pc h Got (access l (set_lk_locked 1) x))
  | step_owner x h :
      m_pc x !! h = Some Got ->
      lstep l x (set_pc h In (access l (set_lk_cpu (Some h)) x))
  | step_rel x h :
      m_pc x !! h = Some In ->
      lstep l x (set_pc h (if holds l (m_lk x) h then Rel else Panicked) x)
  | step_clear x h :
      m_pc x !! h = Some Rel ->
      lstep l x (set_pc h Clr (access l (set_lk_cpu None) x))
  | step_unlock x h :
      m_pc x !! h = Some Clr ->
      lstep l x (set_pc h Out (access l (set_lk_locked 0) x)).

(** After initlock, with every hart outside. *)
Definition linit (l : lockid) (x : machine) : Prop :=
  lk_locked (lock_of (m_lk x) l) = 0 /\ lk_cpu (lock_of (m_lk x) l) = None /\
  Forall (fun p => p = Out) (m_pc x).

Definition lreach (l : lockid) (x y : machine) : Prop := rtc (lstep l) x y.

(** ** The invariant *)
(** A hart in one of these places owns the lock. *)
Definition owns (p : lpc) : bool :=
  match p with Got | In | Rel | Clr => true | _ => false end.
Definition owner_field (p : lpc) : bool := match p with In | Rel => true | _ => false end.

Record linv (l : lockid) (x : machine) : Prop := {
  linv_panic : forall h, m_pc x !! h <> Some Panicked;
  linv_unique : forall h h' p p', m_pc x !! h = Some p -> m_pc x !! h' = Some p' ->
                owns p = true -> owns p' = true -> h = h';
  linv_locked : forall h p, m_pc x !! h = Some p -> owns p = true ->
                lk_locked (lock_of (m_lk x) l) = 1;
  linv_free : lk_locked (lock_of (m_lk x) l) <> 0 ->
                exists h p, m_pc x !! h = Some p /\ owns p = true;
  linv_cpu : forall h p, m_pc x !! h = Some p ->
                (lk_cpu (lock_of (m_lk x) l) = Some h <-> owner_field p = true);
  linv_dom : forall h, lk_cpu (lock_of (m_lk x) l) = Some h -> is_Some (m_pc x !! h);
}.

Lemma linv_holds l x h p :
  linv l x -> m_pc x !! h = Some p -> holds l (m_lk x) h = owner_field p.
Proof.
  intros I Hp. unfold holds. destruct (owner_field p) eqn:E.
  - rewrite (linv_locked _ _ I h p Hp) by by destruct p.
    rewrite bool_decide_eq_true_2; [done|]. by apply (linv_cpu _ _ I h p).
  - rewrite bool_decide_eq_false_2; [apply andb_false_r|].
    intros Hc. apply (linv_cpu _ _ I h p Hp) in Hc. congruence.
Qed.

Lemma linit_inv l x : linit l x -> linv l x.
Proof.
  intros (Hl & Hc & Hp).
  assert (forall h p, m_pc x !! h = Some p -> p = Out) as Hout.
  { intros h p H. eapply (list.Forall_lookup_1 _ _ _ _ Hp H). }
  split.
  - intros h H. by apply Hout in H.
  - intros h h' p p' H H' Ho. apply Hout in H. by subst.
  - intros h p H Ho. apply Hout in H. by subst.
  - intros H. lia.
  - intros h p H. apply Hout in H. subst. rewrite Hc. done.
  - intros h. by rewrite Hc.
Qed.

Lemma pc_set h p x h' q :
  m_pc (set_pc h p x) !! h' = Some q ->
  (h' = h /\ q = p /\ is_Some (m_pc x !! h)) \/ (h' <> h /\ m_pc x !! h' = Some q).
Proof.
  cbn. intros H. destruct (decide (h = h')) as [<-|].
  - left. assert (h < length (m_pc x))%nat.
    { rewrite <- (length_insert (m_pc x) h p). by eapply lookup_lt_Some. }
    rewrite list_lookup_insert_eq in H by done. simplify_eq.
    split_and!; [done..|]. by apply lookup_lt_is_Some_2.
  - rewrite list_lookup_insert_ne in H by done. auto.
Qed.
Lemma pc_set_ne h p x h' : h <> h' -> m_pc (set_pc h p x) !! h' = m_pc x !! h'.
Proof. intros. cbn. by rewrite list_lookup_insert_ne. Qed.
Lemma pc_set_eq h p x q : m_pc x !! h = Some q -> m_pc (set_pc h p x) !! h = Some p.
Proof. intros H. cbn. rewrite list_lookup_insert_eq; [done|]. by eapply lookup_lt_Some. Qed.
Lemma lock_access l f x : lock_of (m_lk (access l f x)) l = f (lock_of (m_lk x) l).
Proof. cbn. by rewrite lock_of_upd, decide_True. Qed.

(** One hart moves from [p] to [p'] and leaves the lock as [p'] requires. *)
Lemma linv_move l x y h p p' :
  linv l x -> m_pc x !! h = Some p -> m_pc y = <[h := p']> (m_pc x) ->
  p' <> Panicked ->
  (owns p' = true -> owns p = true \/ lk_locked (lock_of (m_lk x) l) = 0) ->
  lk_locked (lock_of (m_lk y) l) =
    (if owns p' then 1 else if owns p then 0 else lk_locked (lock_of (m_lk x) l)) ->
  lk_cpu (lock_of (m_lk y) l) =
    (if owner_field p' then Some h else if owner_field p then None
     else lk_cpu (lock_of (m_lk x) l)) ->
  linv l y.
Proof.
  intros I Hp Ey Hnp Hown Hlk Hcpu.
  assert (Hset : forall h' q, m_pc y !! h' = Some q ->
    (h' = h /\ q = p') \/ (h' <> h /\ m_pc x !! h' = Some q)).
  { intros h' q H. rewrite Ey in H. destruct (pc_set h p' x h' q H) as [(? & ? & _)|?]; auto. }
  assert (Hself : m_pc y !! h = Some p') by (rewrite Ey; by eapply pc_set_eq).
  assert (Hoth : forall h' q, owns p' = true -> h' <> h -> m_pc x !! h' = Some q -> owns q = false).
  { intros h' q Ho Hne Hq. destruct (owns q) eqn:E; [|done]. destruct (Hown Ho) as [Hp1|H0].
    - by destruct (Hne (linv_unique _ _ I _ _ _ _ Hq Hp E Hp1)).
    - pose proof (linv_locked _ _ I _ _ Hq E). lia. }
  split.
  - intros h' H. destruct (Hset _ _ H) as [[_ E]|[_ H']]; [by subst|by apply (linv_panic _ _ I h')].
  - intros h1 h2 q1 q2 H1 H2 O1 O2.
    destruct (Hset _ _ H1) as [[-> ->]|[N1 H1']], (Hset _ _ H2) as [[-> ->]|[N2 H2']].
    + done.
    + by rewrite (Hoth h2 q2) in O2.
    + by rewrite (Hoth h1 q1) in O1.
    + by apply (linv_unique _ _ I h1 h2 q1 q2).
  - intros h' q H Ho. rewrite Hlk. destruct (Hset _ _ H) as [[-> ->]|[Hne H']].
    + by rewrite Ho.
    + destruct (owns p') eqn:E; [done|]. destruct (owns p) eqn:E2.
      * by destruct (Hne (linv_unique _ _ I _ _ _ _ H' Hp Ho E2)).
      * by apply (linv_locked _ _ I h' q).
  - rewrite Hlk. intros Hn0. destruct (owns p') eqn:E; [by exists h, p'|].
    destruct (owns p) eqn:E2; [done|]. destruct (linv_free _ _ I Hn0) as (h' & q & Hq & Ho).
    exists h', q. split; [|done]. rewrite Ey, list_lookup_insert_ne; [done|].
    intros <-. simplify_eq. congruence.
  - intros h' q H. rewrite Hcpu. destruct (Hset _ _ H) as [[-> ->]|[Hne H']].
    + destruct (owner_field p') eqn:E; [done|]. destruct (owner_field p) eqn:E2; [done|].
      split; [|done]. intros Hc. apply (linv_cpu _ _ I h p Hp) in Hc. congruence.
    + assert (owner_field q = true -> owner_field p' = false /\ owner_field p = false) as Hq.
      { intros Ho. assert (owns q = true) by by destruct q. split.
        - destruct (owner_field p') eqn:E; [|done]. rewrite (Hoth h' q) in *; try done.
          by destruct p'.
        - destruct (owner_field p) eqn:E; [|done]. destruct Hne.
          eapply (linv_unique _ _ I); [exact H'|exact Hp|done|by destruct p]. }
      rewrite <- (linv_cpu _ _ I h' q H') in Hq |- *.
      destruct (owner_field p'); [split; [congruence|naive_solver]|].
      destruct (owner_field p); [split; [done|naive_solver]|done].
  - intros h' Hc. rewrite Ey. rewrite Hcpu in Hc.
    assert (is_Some (m_pc x !! h')) as Hx.
    { destruct (owner_field p'); [simplify_eq; by eexists|].
      destruct (owner_field p); [done|]. by apply (linv_dom _ _ I). }
    apply lookup_lt_is_Some. rewrite length_insert. by apply lookup_lt_is_Some.
Qed.

Lemma linv_step l x y : linv l x -> lstep l x y -> linv l y.
Proof.
  intros I H. destruct H as [x h Hp|x h Hp Hl|x h Hp Hl|x h Hp|x h Hp|x h Hp|x h Hp].
  - rewrite (linv_holds l x h Out I Hp). cbn. eapply (linv_move l x _ h Out Spin); done.
  - eapply (linv_move l x _ h Spin Spin); [done|done| |done|done| |].
    + cbn. by rewrite list_insert_id.
    + rewrite lock_access. cbn. destruct (linv_free _ _ I Hl) as (h' & q & Hq & Ho).
      by rewrite (linv_locked _ _ I h' q).
    + by rewrite lock_access.
  - eapply (linv_move l x _ h Spin Got); try done; try (by right);
      cbn [m_lk set_pc]; by rewrite lock_access.
  - eapply (linv_move l x _ h Got In); try done; try (by left);
      cbn [m_lk set_pc]; rewrite lock_access; cbn; [|done].
    by apply (linv_locked _ _ I h Got).
  - rewrite (linv_holds l x h In I Hp). cbn.
    eapply (linv_move l x _ h In Rel); try done; try (by left); cbn.
    + by apply (linv_locked _ _ I h In).
    + by apply (linv_cpu _ _ I h In).
  - eapply (linv_move l x _ h Rel Clr); try done; try (by left);
      cbn [m_lk set_pc]; rewrite lock_access; cbn; [|done].
    by apply (linv_locked _ _ I h Rel).
  - eapply (linv_move l x _ h Clr Out); try done;
      cbn [m_lk set_pc]; by rewrite lock_access.
Qed.

Lemma linv_reach l x y : linit l x -> lreach l x y -> linv l y.
Proof.
  intros H0 H. apply linit_inv in H0. induction H as [x|x y z Hs _ IH]; [done|].
  apply IH. by eapply linv_step.
Qed.

Lemma crit_owns p : p ∈ [In; Rel; Clr] -> owns p = true.
Proof. rewrite list_elem_of_In. cbn. by intros [<-|[<-|[<-|[]]]]. Qed.

(** ** Properties *)
(** C2. Mutual exclusion: however the memory accesses of any number of harts
    interleave, two harts are never both between the return of acquire and
    the unlocking store of release. *)
Theorem spinlock_mutual_exclusion l x y h h' p p' :
  linit l x -> lreach l x y ->
  m_pc y !! h = Some p -> m_pc y !! h' = Some p' ->
  p ∈ [In; Rel; Clr] -> p' ∈ [In; Rel; Clr] -> h = h'.
Proof.
  intros H0 Hr Hh Hh' Hp Hp'. pose proof (linv_reach _ _ _ H0 Hr) as I.
  eapply (linv_unique _ _ I); [exact Hh|exact Hh'| |].
  - by apply crit_owns.
  - by apply crit_owns.
Qed.

(** Two harts on a fresh lock. *)
Definition machine0 : machine := mk_machine lkstate0 [Out; Out].
Lemma machine0_init : linit Lpid machine0.
Proof. repeat constructor. Qed.
Lemma machine0_run :
  exists y, lreach Lpid machine0 y /\ m_pc y = [In; Spin].
Proof.
  eexists. split.
  - eapply rtc_l; [by apply (step_check _ _ 0)|].
    eapply rtc_l; [by apply (step_check _ _ 1)|].
    eapply rtc_l; [by apply (step_swap_ok _ _ 0)|].
    eapply rtc_l; [by apply (step_swap_fail _ _ 1)|].
    eapply rtc_l; [by apply (step_owner _ _ 0)|]. apply rtc_refl.
  - done.
Qed.
Lemma spinlock_mutual_exclusion_witness :
  exists y, m_pc y !! 0%nat = Some In /\
    forall h', m_pc y !! h' = Some In -> h' = 0%nat.
Proof.
  destruct machine0_run as (y & Hr & Hpc). exists y. rewrite Hpc. split; [reflexivity|].
  intros h' H'. eapply (spinlock_mutual_exclusion Lpid machine0 y h' 0 In In).
  - apply machine0_init.
  - exact Hr.
  - rewrite Hpc. exact H'.
  - rewrite Hpc. reflexivity.
  - left.
  - left.
Defined.

(** holding() is exact although it reads the lock without owning it: on
    every reachable machine it is true on a hart exactly when that hart is in
    its critical section, so the panics in acquire and release never fire for
    harts that pair them. *)
Lemma holding_exact l x y h p :
  linit l x -> lreach l x y -> m_pc y !! h = Some p ->
  p <> Panicked /\ (holds l (m_lk y) h = true <-> p = In \/ p = Rel).
Proof.
  intros H0 Hr Hp. pose proof (linv_reach _ _ _ H0 Hr) as I. split.
  - intros ->. by apply (linv_panic _ _ I h).
  - rewrite (linv_holds l y h p I Hp). destruct p; cbn; naive_solver.
Qed.

Lemma holding_exact_witness :
  exists y, holds Lpid (m_lk y) 0 = true /\ holds Lpid (m_lk y) 1 = false.
Proof.
  destruct machine0_run as (y & Hr & Hpc). exists y.
  assert (H0 : m_pc y !! 0%nat = Some In) by (rewrite Hpc; reflexivity).
  assert (H1 : m_pc y !! 1%nat = Some Spin) by (rewrite Hpc; reflexivity).
  split.
  - apply (holding_exact Lpid machine0 y 0 In machine0_init Hr H0). left. reflexivity.
  - destruct (holds Lpid (m_lk y) 1) eqn:E; [|reflexivity].
    apply (holding_exact Lpid machine0 y 1 Spin machine0_init Hr H1) in E.
    destruct E; discriminate.
Defined.
