(* ===== verification/Kalloc.v ===== *)
(** * The physical page allocator (kernel/kalloc.c)

    The free list is threaded through the free pages themselves: [kmem.freelist]
    is the address of the first free page, the first eight bytes of a free page
    the address of the next.  [free_pages s l] relates that representation to
    the list [l] of free pages; [kalloc] pops it and [kfree] pushes on it. *)
From S2P Require Import Prelude Mem Riscv State Spinlock.

(** Symbols the linker script and the assembly files define. *)
Class Linker := {
  kend : Z;         (** [end], first address after the kernel *)
  etext : Z;        (** end of the kernel text *)
  trampoline : Z;   (** page of trampoline.S *)
  uservec : Z; userret : Z;     (** in trampoline.S *)
  kernelvec : Z; timervec : Z;  (** in kernelvec.S *)
  forkret_pc : Z; usertrap_pc : Z; main_pc : Z;  (** addresses of C functions *)
}.

Section Kalloc.
Context `{LD : Linker}.

Definition kfree (pa : Z) : M unit :=
  if negb (pa mod PGSIZE =? 0) || (pa <? kend) || (PHYSTOP <=? pa) then panic "kfree" else
  modify (fun s => set_k_mem (memset (k_mem s) pa 1 PGSIZE) s) ;;
  acquire Lkmem ;;
  modify (fun s => set_k_mem (store64 (k_mem s) pa (k_freelist s)) s) ;;
  modify (set_k_freelist pa) ;;
  release Lkmem.

Definition kalloc : M Z :=
  acquire Lkmem ;;
  r ← gets k_freelist;
  when (ctrue r) (modify (fun s => set_k_freelist (load64 (k_mem s) r) s)) ;;
  release Lkmem ;;
  when (ctrue r) (modify (fun s => set_k_mem (memset (k_mem s) r 5 PGSIZE) s)) ;;
  mret r.

(** [for(; p + PGSIZE <= pa_end; p += PGSIZE) kfree(p);] *)
Fixpoint freerange_loop (fuel : nat) (p pa_end : Z) : M unit :=
  match fuel with
  | O => halt_with HFuel
  | S fuel' =>
      if p + PGSIZE <=? pa_end then kfree p ;; freerange_loop fuel' (p + PGSIZE) pa_end
      else mret tt
  end.
Definition freerange_fuel (p pa_end : Z) : nat := S (Z.to_nat ((pa_end - p) / PGSIZE)).
Definition freerange (pa_start pa_end : Z) : M unit :=
  let p := PGROUNDUP pa_start in freerange_loop (freerange_fuel p pa_end) p pa_end.

Definition kinit : M unit :=
  initlock Lkmem "kmem" ;;
  freerange kend PHYSTOP.

(** ** The free list *)
Fixpoint chain (m : mem) (p : Z) (l : list Z) : Prop :=
  match l with
  | [] => p = 0
  | q :: l' => p = q /\ chain m (load64 m q) l'
  end.

Definition ram_page (p : Z) : Prop := page_aligned p /\ kend <= p < PHYSTOP /\ 0 < p.

Record free_pages (s : kstate) (l : list Z) : Prop := {
  fp_chain : chain (k_mem s) (k_freelist s) l;
  fp_ram : Forall ram_page l;
  fp_nodup : NoDup l;
}.

Lemma chain_ext m m' p l :
  (forall q, q ∈ l -> load64 m q = load64 m' q) -> chain m p l -> chain m' p l.
Proof.
  revert p. induction l as [|q l IH]; intros p H; [done|].
  intros [-> Hc]. split; [done|]. rewrite <- (H q) by set_solver.
  apply IH; [|done]. intros. apply H. set_solver.
Qed.

(** The contents of other pages do not matter to the chain. *)
Lemma chain_frame m m' p l pg :
  Forall ram_page l -> page_aligned pg -> pg ∉ l ->
  (forall a, ~ (pg <= a < pg + PGSIZE) -> getb m a = getb m' a) ->
  chain m p l -> chain m' p l.
Proof.
  intros Hl Hpg Hnin Hm. apply chain_ext. intros q Hq. apply load_ext. intros i Hi. apply Hm.
  intros Hin. eapply (page_disjoint pg q i i); [done| | |done| |done].
  - by destruct (Forall_in _ _ _ Hl Hq).
  - by intros ->.
  - unfold PGSIZE. lia.
Qed.

Lemma ram_page_bound p : ram_page p -> 0 < p < 2 ^ 56.
Proof. intros (_ & [_ H] & H0). unfold PHYSTOP, KERNBASE in H. lia. Qed.

(** What kalloc and kfree leave behind. *)
Definition kalloc_post (r : Z) (s : kstate) : kstate :=
  set_k_mem (memset (k_mem s) r 5 PGSIZE) (set_k_freelist (load64 (k_mem s) r) s).
Definition kfree_post (pa : Z) (s : kstate) : kstate :=
  set_k_freelist pa
    (set_k_mem (store64 (memset (k_mem s) pa 1 PGSIZE) pa (k_freelist s)) s).

Lemma quiet_kalloc_some s r l :
  free_pages s (r :: l) -> ready s Lkmem -> quiet kalloc s r (kalloc_post r s).
Proof.
  intros [[Hh _] Hr _] Hrd. apply list.Forall_cons in Hr as [Hr0 _].
  pose proof (ram_page_bound _ Hr0).
  unfold kalloc. apply quiet_acquire; [done|].
  apply hquiet_reads; [apply _|]. rewrite Hh. unfold ctrue.
  replace (negb (r =? 0)) with true by lia. cbn [when].
  apply hquiet_modify; [apply _|done|]. apply hquiet_release; [done|].
  eapply quiet_bind; [apply quiet_modify, _|]. apply quiet_ret.
Qed.

Lemma quiet_kalloc_none s : free_pages s [] -> ready s Lkmem -> quiet kalloc s 0 s.
Proof.
  intros [Hc _ _] Hrd. cbn in Hc. unfold kalloc. apply quiet_acquire; [done|].
  apply hquiet_reads; [apply _|]. rewrite Hc. cbn [when ctrue Z.eqb negb].
  eapply hquiet_bind; [done|done|apply quiet_ret|]. apply hquiet_release; [done|].
  eapply quiet_bind; apply quiet_ret.
Qed.

Lemma quiet_kfree s pa :
  ram_page pa -> ready s Lkmem -> quiet (kfree pa) s tt (kfree_post pa s).
Proof.
  intros (Ha & Hr & H0) Hrd. unfold kfree. unfold page_aligned in Ha.
  replace (negb (pa mod PGSIZE =? 0) || (pa <? kend) || (PHYSTOP <=? pa))
    with false by (rewrite Ha; lia).
  eapply quiet_bind; [apply quiet_modify, _|].
  apply quiet_acquire; [done|].
  apply hquiet_modify; [apply _|done|]. apply hquiet_modify; [apply _|done|].
  by apply hquiet_end.
Qed.

Lemma kfree_bad s pa env :
  pa mod PGSIZE <> 0 \/ pa < kend \/ PHYSTOP <= pa -> kfree pa s env = Halt (HPanic "kfree") s.
Proof.
  intros H. unfold kfree.
  replace (negb (pa mod PGSIZE =? 0) || (pa <? kend) || (PHYSTOP <=? pa)) with true; [done|].
  bdestr (pa mod PGSIZE =? 0); simpl; lia.
Qed.

Lemma kalloc_post_mem r s a :
  ~ (r <= a < r + PGSIZE) -> getb (k_mem (kalloc_post r s)) a = getb (k_mem s) a.
Proof. intros. cbn. rewrite getb_memset by (unfold PGSIZE; lia). by if_lia. Qed.
Lemma kfree_post_mem pa s a :
  ~ (pa <= a < pa + PGSIZE) -> getb (k_mem (kfree_post pa s)) a = getb (k_mem s) a.
Proof.
  intros. cbn. rewrite getb_store_out by (unfold PGSIZE in *; lia).
  rewrite getb_memset by (unfold PGSIZE; lia). by if_lia.
Qed.

(** kalloc takes the first free page. *)
Lemma free_pages_kalloc s r l : free_pages s (r :: l) -> free_pages (kalloc_post r s) l.
Proof.
  intros [[Hh Hc] Hr Hn]. apply list.Forall_cons in Hr as [Hr0 Hr]. apply list.NoDup_cons in Hn as [Hnin Hn].
  split; [|done|done]. cbn.
  eapply (chain_frame (k_mem s) _ _ _ r); [done|apply Hr0|done| |done].
  intros a Ha. symmetry. by apply (kalloc_post_mem r s).
Qed.
(** kfree puts the page first. *)
Lemma free_pages_kfree s pa l :
  ram_page pa -> pa ∉ l -> k_freelist s < 2 ^ 64 -> 0 <= k_freelist s ->
  free_pages s l -> free_pages (kfree_post pa s) (pa :: l).
Proof.
  intros Hp Hnin Hb Hb0 [Hc Hr Hn]. split; [|by constructor|by constructor].
  cbn. split; [done|]. rewrite load_store_same. change (8 * Z.of_nat 8) with 64.
  rewrite Z.mod_small by lia.
  eapply (chain_frame (k_mem s) _ _ _ pa); [done|apply Hp|done| |done].
  intros a Ha. symmetry. by apply (kfree_post_mem pa s).
Qed.

Lemma free_pages_head s l : free_pages s l -> 0 <= k_freelist s < 2 ^ 64.
Proof.
  intros [Hc Hr _]. destruct l as [|q l]; cbn in Hc; [lia|]. destruct Hc as [-> _].
  apply list.Forall_cons in Hr as [Hr _]. apply ram_page_bound in Hr. lia.
Qed.

(** The pages [p], [p + PGSIZE], ... ([n] of them). *)
Definition page_range (p : Z) (n : nat) : list Z :=
  (fun i => p + Z.of_nat i * PGSIZE) <$> seq 0 n.

Lemma page_range_S p n : page_range p (S n) = p :: page_range (p + PGSIZE) n.
Proof.
  unfold page_range. cbn. f_equal; [lia|]. rewrite <- fmap_S_seq, <- list_fmap_compose.
  apply list_fmap_ext. intros i x _. cbn. lia.
Qed.
Lemma elem_page_range p n q :
  q ∈ page_range p n <-> exists i, (i < n)%nat /\ q = p + Z.of_nat i * PGSIZE.
Proof.
  unfold page_range. rewrite list_elem_of_fmap. split.
  - intros (i & -> & Hi%elem_of_seq). exists i. split; [lia|done].
  - intros (i & Hi & ->). exists i. split; [done|]. apply elem_of_seq. lia.
Qed.

Lemma quiet_freerange_loop n : forall fuel p pa_end s l,
  (n < fuel)%nat ->
  p + Z.of_nat n * PGSIZE <= pa_end < p + Z.of_nat n * PGSIZE + PGSIZE ->
  page_aligned p -> 0 < p -> kend <= p -> pa_end <= PHYSTOP ->
  Forall (fun q => q < p \/ pa_end <= q) l ->
  ready s Lkmem -> free_pages s l ->
  exists s', quiet (freerange_loop fuel p pa_end) s tt s' /\
    free_pages s' (rev (page_range p n) ++ l).
Proof.
  induction n as [|n IH]; intros [|fuel] p pa_end s l Hf Hr Ha H0 Hk Hp Hl Hrd Hfp; try lia;
    cbn [freerange_loop].
  - if_lia. exists s. split; [apply quiet_ret|done].
  - replace (p + PGSIZE <=? pa_end) with true by (unfold PGSIZE in *; lia).
    assert (ram_page p) as Hram.
    { split; [done|]. unfold PGSIZE in *. lia. }
    assert (p ∉ l) as Hnin.
    { intros Hin. pose proof (Forall_in _ _ _ Hl Hin). unfold PGSIZE in *. cbn in *. lia. }
    pose proof (free_pages_head _ _ Hfp).
    destruct (IH fuel (p + PGSIZE) pa_end (kfree_post p s) (p :: l)) as (s' & Hq & Hfp').
    + lia.
    + unfold PGSIZE in *. lia.
    + unfold page_aligned, PGSIZE in *. lia.
    + unfold PGSIZE in *. lia.
    + unfold PGSIZE in *. lia.
    + done.
    + constructor; [unfold PGSIZE in *; lia|]. eapply list.Forall_impl; [exact Hl|].
      cbn. unfold PGSIZE. lia.
    + done.
    + apply free_pages_kfree; [done|done|lia|lia|done].
    + exists s'. split.
      * eapply quiet_bind; [by apply quiet_kfree|done].
      * rewrite page_range_S. cbn [rev]. rewrite <- app_assoc. done.
Qed.

Lemma quiet_freerange pa_start pa_end s l :
  0 < pa_start -> kend <= pa_start -> pa_start <= pa_end -> pa_end <= PHYSTOP ->
  PGROUNDUP pa_start <= pa_end ->
  Forall (fun q => q < PGROUNDUP pa_start \/ pa_end <= q) l ->
  ready s Lkmem -> free_pages s l ->
  exists s', quiet (freerange pa_start pa_end) s tt s' /\
    free_pages s' (rev (page_range (PGROUNDUP pa_start)
      (Z.to_nat ((pa_end - PGROUNDUP pa_start) / PGSIZE))) ++ l).
Proof.
  intros H0 H1 H2 H3 H4 H5 H6 H7.
  destruct (PGROUNDUP_spec pa_start) as [Ha Hr]; [lia|unfold PGSIZE, PHYSTOP, KERNBASE in *; lia|].
  apply quiet_freerange_loop; try done; unfold freerange_fuel, PGSIZE in *; lia.
Qed.

(** ** Clients of the allocator

    [client s h s' h']: a sequence of kalloc()s and of kfree()s of pages it
    holds takes the kernel from [s] to [s'], and the pages held from [h] to
    [h']. *)
Inductive client : kstate -> list Z -> kstate -> list Z -> Prop :=
  | client_nil s h : client s h s h
  | client_alloc s h r s1 s' h' :
      runs kalloc s r s1 ->
      client s1 (if r =? 0 then h else r :: h) s' h' -> client s h s' h'
  | client_free s h1 pa h2 s1 s' h' :
      runs (kfree pa) s tt s1 ->
      client s1 (h1 ++ h2) s' h' -> client s (h1 ++ pa :: h2) s' h'.

Lemma free_pages_lk s lk l : free_pages s l -> free_pages (set_k_lk lk s) l.
Proof. intros [H1 H2 H3]. by split. Qed.

Lemma steady_ready s lk l : steady (k_lk s) lk -> ready s l -> ready (set_k_lk lk s) l.
Proof. intros Hs [H1 H2]. split; [by eapply steady_hart_ok|by eapply steady_unlocked]. Qed.

(** What one call does, whatever the length of the free list. *)
Lemma kalloc_runs s l :
  free_pages s l -> ready s Lkmem ->
  exists s1, runs kalloc s (default 0 (head l)) s1 /\ free_pages s1 (tail l) /\ ready s1 Lkmem /\
  (l = [] -> k_mem s1 = k_mem s).
Proof.
  intros Hf Hr. destruct l as [|r l].
  - destruct (quiet_runs _ _ _ _ (quiet_kalloc_none s Hf Hr)) as (lk & Hlk & Hrun).
    eexists. split_and!; [exact Hrun|by apply free_pages_lk|by apply steady_ready|done].
  - destruct (quiet_runs _ _ _ _ (quiet_kalloc_some s r l Hf Hr)) as (lk & Hlk & Hrun).
    eexists. split_and!; [exact Hrun| |by apply (steady_ready (kalloc_post r s))|done].
    apply free_pages_lk. by apply free_pages_kalloc.
Qed.
Lemma kfree_runs s l pa :
  free_pages s l -> ready s Lkmem -> ram_page pa -> pa ∉ l ->
  exists s1, runs (kfree pa) s tt s1 /\ free_pages s1 (pa :: l) /\ ready s1 Lkmem.
Proof.
  intros Hf Hr Hp Hn. pose proof (free_pages_head _ _ Hf).
  destruct (quiet_runs _ _ _ _ (quiet_kfree s pa Hp Hr)) as (lk & Hlk & Hrun).
  eexists. split_and!; [exact Hrun| |by apply (steady_ready (kfree_post pa s))].
  apply free_pages_lk. apply free_pages_kfree; [done|done|lia|lia|done].
Qed.

(** The pages of RAM are shared out between the client and the free list. *)
Lemma client_partition s h s' h' l :
  client s h s' h' -> free_pages s l -> ready s Lkmem ->
  NoDup (h ++ l) -> Forall ram_page h ->
  exists l', free_pages s' l' /\ ready s' Lkmem /\ h' ++ l' ≡ₚ h ++ l /\ Forall ram_page h'.
Proof.
  intros Hc. revert l.
  induction Hc as [s h|s h r s1 s' h' Hrun _ IH|s h1 pa h2 s1 s' h' Hrun _ IH];
    intros l Hf Hr Hnd Hram.
  - eauto.
  - destruct (kalloc_runs s l Hf Hr) as (s1' & Hrun' & Hf' & Hr' & _).
    destruct (runs_det _ _ _ _ _ _ Hrun Hrun') as [-> ->]. destruct l as [|q l]; cbn in *.
    + apply IH; done.
    + destruct Hf as [_ Hq _]. apply list.Forall_cons in Hq as [Hq _].
      pose proof (ram_page_bound _ Hq). replace (q =? 0) with false in IH by lia.
      assert ((q :: h) ++ l ≡ₚ h ++ q :: l) as HP by (cbn; by rewrite Permutation_middle).
      destruct (IH l) as (l' & H1 & H2 & H3 & H4); [done|done|by rewrite HP|by constructor|].
      exists l'. split_and!; [done|done| |done]. by rewrite H3, HP.
  - assert (HP : (h1 ++ h2) ++ pa :: l ≡ₚ (h1 ++ pa :: h2) ++ l).
    { rewrite <- !app_assoc. cbn. by rewrite !Permutation_middle. }
    apply list.Forall_app in Hram as [Hra Hrb]. apply list.Forall_cons in Hrb as [Hrp Hrb].
    destruct (kfree_runs s l pa) as (s1' & Hrun' & Hf' & Hr'); [done|done|done| |].
    { rewrite <- HP in Hnd. apply list.NoDup_app in Hnd as (_ & _ & Hnd).
      by apply list.NoDup_cons in Hnd as [Hnd _]. }
    destruct (runs_det _ _ _ _ _ _ Hrun Hrun') as [_ ->].
    destruct (IH (pa :: l)) as (l' & H1 & H2 & H3 & H4); [done|done|by rewrite HP| |].
    { by apply list.Forall_app. }
    exists l'. split_and!; [done|done| |done]. by rewrite H3, HP.
Qed.

(** ** Properties *)
(** C10. Page ownership: starting from a well-formed free list and holding
    nothing, a client that only frees pages it holds never holds a page
    twice, never holds a free page, and its pages together with the free list
    are always exactly the pages that were free at the start: no page is
    lost, duplicated or invented. *)
Theorem kalloc_kfree_ownership s l s' held_pages :
  free_pages s l -> ready s Lkmem -> client s [] s' held_pages ->
  NoDup held_pages /\
  exists l', free_pages s' l' /\ held_pages ++ l' ≡ₚ l.
Proof.
  intros Hf Hr Hc.
  destruct (client_partition s [] s' held_pages l Hc Hf Hr) as (l' & H1 & _ & H2 & _);
    [apply Hf|done|]. cbn in H2. split; [|by eauto].
  assert (NoDup (held_pages ++ l')) as Hn by (rewrite H2; apply Hf).
  by apply list.NoDup_app in Hn as [Hn _].
Qed.

(** kalloc and kfree on every branch: kalloc returns the head of the free
    list with the whole page filled with 5, or 0 and changes nothing when
    memory is exhausted; kfree of a page kalloc could have given out pushes
    it, and the next kalloc returns that page; kfree of anything else
    panics. *)
Lemma kalloc_kfree_behaviour s l :
  free_pages s l -> ready s Lkmem ->
  (forall r l', l = r :: l' -> exists lk, steady (k_lk s) lk /\
     runs kalloc s r (set_k_lk lk (kalloc_post r s)) /\
     free_pages (set_k_lk lk (kalloc_post r s)) l' /\
     forall a, getb (k_mem (kalloc_post r s)) a =
       if (r <=? a) && (a <? r + PGSIZE) then 5 else getb (k_mem s) a) /\
  (l = [] -> exists lk, steady (k_lk s) lk /\ runs kalloc s 0 (set_k_lk lk s)) /\
  (forall pa, ram_page pa -> pa ∉ l -> exists s1 s2,
     runs (kfree pa) s tt s1 /\ free_pages s1 (pa :: l) /\
     runs kalloc s1 pa s2 /\ free_pages s2 l) /\
  (forall pa env, pa mod PGSIZE <> 0 \/ pa < kend \/ PHYSTOP <= pa ->
     kfree pa s env = Halt (HPanic "kfree") s).
Proof.
  intros Hf Hr. split_and!.
  - intros r l' ->. destruct (quiet_runs _ _ _ _ (quiet_kalloc_some s r l' Hf Hr)) as (lk & Hlk & H).
    exists lk. split_and!; [done|done|by apply free_pages_lk, free_pages_kalloc|].
    intros a. cbn. by rewrite getb_memset.
  - intros ->. apply quiet_runs. by apply quiet_kalloc_none.
  - intros pa Hp Hn. destruct (kfree_runs s l pa) as (s1 & H1 & H2 & H3); [done..|].
    destruct (kalloc_runs s1 (pa :: l)) as (s2 & H4 & H5 & _); [done..|]. by exists s1, s2.
  - intros pa env. apply kfree_bad.
Qed.

Lemma free_pages_empty s : k_freelist s = 0 -> free_pages s [].
Proof. intros H. split; [done|constructor|constructor]. Qed.

(** kinit hands every whole page between the end of the kernel and PHYSTOP
    to the allocator, once, and nothing else. *)
Lemma kinit_frees_all_ram s :
  hart_ok (k_lk s) (k_hart s) -> (length (l_tab (k_lk s)) < NLOCK)%nat -> k_freelist s = 0 ->
  0 < kend <= PHYSTOP ->
  exists s' l, runs kinit s tt s' /\ free_pages s' l /\
  forall p, p ∈ l <-> page_aligned p /\ kend <= p < PHYSTOP.
Proof.
  intros Hh Ht Hl Hk.
  assert (Hb : PHYSTOP = 557056 * PGSIZE) by done.
  destruct (PGROUNDUP_spec kend) as [Ha Hu]; [lia|unfold PGSIZE in *; lia|].
  pose proof (runs_initlock s Lkmem "kmem" Ht) as Hinit.
  match type of Hinit with runs _ _ _ ?s1 =>
    destruct (quiet_freerange kend PHYSTOP s1 []) as (s' & Hq & Hf);
      [lia|lia|lia|lia|unfold page_aligned, PGSIZE in *; lia|constructor
      |by apply init_ready|by apply free_pages_empty|] end.
  destruct (quiet_runs _ _ _ _ Hq) as (lk & _ & Hrun).
  eexists. eexists. split_and!; [by eapply runs_bind|by apply free_pages_lk|].
  intros p. rewrite app_nil_r, list_elem_of_In, <- in_rev, <- list_elem_of_In, elem_page_range. unfold page_aligned, PGSIZE in *.
  split.
  - intros (i & Hi & ->). lia.
  - intros [Hp Hr]. exists (Z.to_nat ((p - PGROUNDUP kend) / 4096)). lia.
Qed.
End Kalloc.

(** ** Witnesses: a kernel that ends at 0x80024000 *)
Definition linker0 : Linker :=
  {| kend := 0x80024000; etext := 0x80008000; trampoline := 0x80007000;
     uservec := 0x80007000; userret := 0x80007090; kernelvec := 0x80006000;
     timervec := 0x80006100; forkret_pc := 0x80002000; usertrap_pc := 0x80003000;
     main_pc := 0x80001000 |}.
#[local] Existing Instance linker0.

Definition page0 : Z := 0x80025000.
Definition page1 : Z := 0x80026000.
(** The boot state with two free pages. *)
Definition kstate2 : kstate :=
  set_k_freelist page0 (set_k_mem (store64 ∅ page0 page1) kstate0).
Lemma kstate2_free : @free_pages linker0 kstate2 [page0; page1].
Proof.
  split.
  - vm_compute. done.
  - repeat constructor; vm_compute; congruence.
  - repeat constructor; set_solver.
Qed.
Lemma kstate2_ready : ready kstate2 Lkmem.
Proof. exact (ready_boot Lkmem). Qed.

Lemma kalloc_kfree_ownership_witness :
  exists s' l', @free_pages linker0 s' l' /\ [page1; page0] ++ l' ≡ₚ [page0; page1].
Proof.
  destruct (kalloc_runs kstate2 _ kstate2_free kstate2_ready) as (s1 & H1 & F1 & R1 & _).
  destruct (kalloc_runs s1 _ F1 R1) as (s2 & H2 & F2 & R2 & _).
  exists s2. apply (kalloc_kfree_ownership kstate2 [page0; page1] s2 [page1; page0]).
  - exact kstate2_free.
  - exact kstate2_ready.
  - apply (client_alloc _ _ _ _ _ _ H1). apply (client_alloc _ _ _ _ _ _ H2).
    apply client_nil.
Defined.

Lemma kalloc_kfree_behaviour_witness :
  (exists lk, runs kalloc kstate2 page0 (set_k_lk lk (kalloc_post page0 kstate2))) /\
  kfree 0x80025001 kstate2 [] = Halt (HPanic "kfree") kstate2.
Proof.
  destruct (kalloc_kfree_behaviour kstate2 [page0; page1] kstate2_free kstate2_ready)
    as (H1 & _ & _ & H4). split.
  - destruct (H1 page0 [page1] eq_refl) as (lk & _ & H & _). exists lk. exact H.
  - apply H4. left. vm_compute. discriminate.
Defined.

Lemma kinit_frees_all_ram_witness :
  exists s' l, runs kinit kstate0 tt s' /\ @free_pages linker0 s' l /\ page0 ∈ l.
Proof.
  destruct (kinit_frees_all_ram kstate0) as (s' & l & H1 & H2 & H3).
  - destruct (ready_boot Lkmem) as [H _]. exact H.
  - vm_compute. lia.
  - reflexivity.
  - vm_compute. split; [reflexivity|discriminate].
  - exists s', l. split; [exact H1|]. split; [exact H2|]. apply H3.
    split; [reflexivity|]. vm_compute. split; [discriminate|reflexivity].
Defined.
