(* ===== verification/Vm.v ===== *)
(** * Virtual memory (kernel/vm.c)

    The Sv39 page tables live in physical memory, in pages from the page
    allocator; every function of vm.c is here, on that representation. *)
From S2P Require Import Prelude Mem Riscv State Spinlock Kalloc.

Section Vm.
Context `{LD : Linker}.

(** ** walk *)
(** [for(int level = 2; level > 0; level--) ...], over the levels still to go. *)
Fixpoint walk_loop (levels : list Z) (pagetable va : Z) (alloc : bool) : M Z :=
  match levels with
  | [] => mret (pagetable + 8 * PX 0 va)
  | level :: levels' =>
      let pte := pagetable + 8 * PX level va in
      v ← mem_read (fun m => load64 m pte);
      if ctrue (Z.land v PTE_V) then walk_loop levels' (PTE2PA v) va alloc
      else if negb alloc then mret 0 else
      q ← kalloc;
      if q =? 0 then mret 0 else
      mem_write (fun m => memset m q 0 PGSIZE) ;;
      mem_write (fun m => store64 m pte (Z.lor (PA2PTE q) PTE_V)) ;;
      walk_loop levels' q va alloc
  end.
Definition walk (pagetable va : Z) (alloc : bool) : M Z :=
  if MAXVA <=? va then panic "walk" else walk_loop [2; 1] pagetable va alloc.

Definition walkaddr (pagetable va : Z) : M Z :=
  if MAXVA <=? va then mret 0 else
  pte ← walk pagetable va false;
  if pte =? 0 then mret 0 else
  v ← mem_read (fun m => load64 m pte);
  if Z.land v PTE_V =? 0 then mret 0 else
  if Z.land v PTE_U =? 0 then mret 0 else
  mret (PTE2PA v).

(** ** Mapping and unmapping *)
Fixpoint mappages_loop (fuel : nat) (pagetable a last pa perm : Z) : M Z :=
  match fuel with
  | O => halt_with HFuel
  | S fuel' =>
      pte ← walk pagetable a true;
      if pte =? 0 then mret (-1) else
      v ← mem_read (fun m => load64 m pte);
      if ctrue (Z.land v PTE_V) then panic "remap" else
      mem_write (fun m => store64 m pte (Z.lor (Z.lor (PA2PTE pa) perm) PTE_V)) ;;
      if a =? last then mret 0
      else mappages_loop fuel' pagetable (u64 (a + PGSIZE)) last (u64 (pa + PGSIZE)) perm
  end.
(** The loops end at [last] or, past MAXVA, with the panic in walk. *)
Definition pages_fuel (a last : Z) : nat :=
  S (Z.to_nat (Z.min (u64 (last - a) / PGSIZE) (MAXVA / PGSIZE))).
Definition mappages (pagetable va size pa perm : Z) : M Z :=
  let a := PGROUNDDOWN va in
  let last := PGROUNDDOWN (u64 (va + size - 1)) in
  mappages_loop (pages_fuel a last) pagetable a last pa perm.

Definition kvmmap (va pa sz perm : Z) : M unit :=
  pt ← gets k_kpgtbl;
  r ← mappages pt va sz pa perm;
  if negb (r =? 0) then panic "kvmmap" else mret tt.

Definition kvmpa (va : Z) : M Z :=
  let off := va mod PGSIZE in
  pt ← gets k_kpgtbl;
  pte ← walk pt va false;
  if pte =? 0 then panic "kvmpa" else
  v ← mem_read (fun m => load64 m pte);
  if Z.land v PTE_V =? 0 then panic "kvmpa" else
  mret (u64 (PTE2PA v + off)).

(** The message printed before the second panic is left out. *)
Fixpoint uvmunmap_loop (fuel : nat) (pagetable a last : Z) (do_free : bool) : M unit :=
  match fuel with
  | O => halt_with HFuel
  | S fuel' =>
      pte ← walk pagetable a false;
      if pte =? 0 then panic "uvmunmap: walk" else
      v ← mem_read (fun m => load64 m pte);
      if Z.land v PTE_V =? 0 then panic "uvmunmap: not mapped" else
      if PTE_FLAGS v =? PTE_V then panic "uvmunmap: not a leaf" else
      when do_free (kfree (PTE2PA v)) ;;
      mem_write (fun m => store64 m pte 0) ;;
      if a =? last then mret tt
      else uvmunmap_loop fuel' pagetable (u64 (a + PGSIZE)) last do_free
  end.
Definition uvmunmap (pagetable va size : Z) (do_free : bool) : M unit :=
  let a := PGROUNDDOWN va in
  let last := PGROUNDDOWN (u64 (va + size - 1)) in
  uvmunmap_loop (pages_fuel a last) pagetable a last do_free.

(** ** User address spaces *)
Definition uvmcreate : M Z :=
  pagetable ← kalloc;
  if pagetable =? 0 then panic "uvmcreate: out of memory" else
  mem_write (fun m => memset m pagetable 0 PGSIZE) ;;
  mret pagetable.

Definition PTE_WRXU : Z := Z.lor (Z.lor (Z.lor PTE_W PTE_R) PTE_X) PTE_U.

(** [src] is the array the kernel copies from. *)
Definition uvminit (pagetable : Z) (src : list Z) (sz : Z) : M unit :=
  if PGSIZE <=? sz then panic "inituvm: more than a page" else
  mem ← kalloc;
  mem_write (fun m => memset m mem 0 PGSIZE) ;;
  mappages pagetable 0 PGSIZE mem PTE_WRXU ;;
  mem_write (fun m => store_bytes m mem (take (Z.to_nat sz) src)).

Definition uvmdealloc (pagetable oldsz newsz : Z) : M Z :=
  if oldsz <=? newsz then mret oldsz else
  let newup := PGROUNDUP newsz in
  when (newup <? PGROUNDUP oldsz) (uvmunmap pagetable newup (u64 (oldsz - newup)) true) ;;
  mret newsz.

Fixpoint uvmalloc_loop (fuel : nat) (pagetable a oldsz newsz : Z) : M Z :=
  match fuel with
  | O => halt_with HFuel
  | S fuel' =>
      if negb (a <? newsz) then mret newsz else
      mem ← kalloc;
      if mem =? 0 then uvmdealloc pagetable a oldsz ;; mret 0 else
      mem_write (fun m => memset m mem 0 PGSIZE) ;;
      r ← mappages pagetable a PGSIZE mem PTE_WRXU;
      if negb (r =? 0) then kfree mem ;; uvmdealloc pagetable a oldsz ;; mret 0 else
      uvmalloc_loop fuel' pagetable (u64 (a + PGSIZE)) oldsz newsz
  end.
Definition uvmalloc (pagetable oldsz newsz : Z) : M Z :=
  if newsz <? oldsz then mret oldsz else
  let oldsz := PGROUNDUP oldsz in
  uvmalloc_loop (S (S (Z.to_nat (Z.min ((newsz - oldsz) / PGSIZE) (MAXVA / PGSIZE)))))
    pagetable oldsz oldsz newsz.

(** [levels] bounds the depth of the tree: a page table has three levels. *)
Fixpoint freewalk (levels : nat) (pagetable : Z) : M unit :=
  match levels with
  | O => halt_with HFuel
  | S levels' =>
      for_loop 0 512 (fun i =>
        let slot := pagetable + 8 * Z.of_nat i in
        pte ← mem_read (fun m => load64 m slot);
        if ctrue (Z.land pte PTE_V) &&
           (Z.land pte (Z.lor (Z.lor PTE_R PTE_W) PTE_X) =? 0)
        then freewalk levels' (PTE2PA pte) ;; mem_write (fun m => store64 m slot 0)
        else if ctrue (Z.land pte PTE_V) then panic "freewalk: leaf" else mret tt) ;;
      kfree pagetable
  end.

Definition uvmfree (pagetable sz : Z) : M unit :=
  uvmunmap pagetable 0 sz true ;;
  freewalk 3 pagetable.

Fixpoint uvmcopy_loop (fuel : nat) (old new sz i : Z) : M Z :=
  match fuel with
  | O => halt_with HFuel
  | S fuel' =>
      if negb (i <? sz) then mret 0 else
      let err := uvmunmap new 0 i true ;; mret (-1) in
      pte ← walk old i false;
      if pte =? 0 then panic "uvmcopy: pte should exist" else
      v ← mem_read (fun m => load64 m pte);
      if Z.land v PTE_V =? 0 then panic "uvmcopy: page not present" else
      let pa := PTE2PA v in
      let flags := PTE_FLAGS v in
      mem ← kalloc;
      if mem =? 0 then err else
      mem_write (fun m => memmove m mem pa PGSIZE) ;;
      r ← mappages new i PGSIZE mem flags;
      if negb (r =? 0) then kfree mem ;; err else
      uvmcopy_loop fuel' old new sz (u64 (i + PGSIZE))
  end.
Definition uvmcopy (old new sz : Z) : M Z :=
  uvmcopy_loop (S (S (Z.to_nat (Z.min (sz / PGSIZE) (MAXVA / PGSIZE))))) old new sz 0.

Definition uvmclear (pagetable va : Z) : M unit :=
  pte ← walk pagetable va false;
  if pte =? 0 then panic "uvmclear" else
  mem_write (fun m => store64 m pte (Z.land (load64 m pte) (Z.lnot PTE_U))).

(** ** Copying between kernel and user memory *)
(** One iteration per page touched, and the last test of [len]. *)
Definition copy_fuel (len : Z) : nat :=
  S (S (S (Z.to_nat (Z.min (len / PGSIZE) (MAXVA / PGSIZE))))).

(** [src] holds the bytes at the kernel address the source passes. *)
Fixpoint copyout_loop (fuel : nat) (pagetable dstva : Z) (src : list Z) (len : Z) : M Z :=
  match fuel with
  | O => halt_with HFuel
  | S fuel' =>
      if negb (0 <? len) then mret 0 else
      let va0 := PGROUNDDOWN dstva in
      pa0 ← walkaddr pagetable va0;
      if pa0 =? 0 then mret (-1) else
      let n := Z.min (PGSIZE - (dstva - va0)) len in
      mem_write (fun m => store_bytes m (pa0 + (dstva - va0)) (take (Z.to_nat n) src)) ;;
      copyout_loop fuel' pagetable (u64 (va0 + PGSIZE)) (drop (Z.to_nat n) src) (len - n)
  end.
Definition copyout (pagetable dstva : Z) (src : list Z) (len : Z) : M Z :=
  copyout_loop (copy_fuel len) pagetable dstva src len.

(** The bytes copied to the kernel's [dst] are returned with the status. *)
Fixpoint copyin_loop (fuel : nat) (pagetable srcva len : Z) (acc : list Z) : M (Z * list Z) :=
  match fuel with
  | O => halt_with HFuel
  | S fuel' =>
      if negb (0 <? len) then mret (0, acc) else
      let va0 := PGROUNDDOWN srcva in
      pa0 ← walkaddr pagetable va0;
      if pa0 =? 0 then mret (-1, acc) else
      let n := Z.min (PGSIZE - (srcva - va0)) len in
      bs ← reads (fun s => load_bytes (k_mem s) (pa0 + (srcva - va0)) (Z.to_nat n));
      copyin_loop fuel' pagetable (u64 (va0 + PGSIZE)) (len - n) (acc ++ bs)
  end.
Definition copyin (pagetable srcva len : Z) : M (Z * list Z) :=
  copyin_loop (copy_fuel len) pagetable srcva len [].

(** The inner loop of copyinstr over the bytes of one page: whether the NUL
    was found, and the bytes stored in [dst]. *)
Fixpoint copyinstr_page (bs acc : list Z) : bool * list Z :=
  match bs with
  | [] => (false, acc)
  | b :: bs' => if b =? 0 then (true, acc ++ [0]) else copyinstr_page bs' (acc ++ [b])
  end.
Fixpoint copyinstr_loop (fuel : nat) (pagetable srcva max : Z) (acc : list Z) : M (Z * list Z) :=
  match fuel with
  | O => halt_with HFuel
  | S fuel' =>
      if negb (0 <? max) then mret (-1, acc) else
      let va0 := PGROUNDDOWN srcva in
      pa0 ← walkaddr pagetable va0;
      if pa0 =? 0 then mret (-1, acc) else
      let n := Z.min (PGSIZE - (srcva - va0)) max in
      bs ← reads (fun s => load_bytes (k_mem s) (pa0 + (srcva - va0)) (Z.to_nat n));
      let '(got_null, acc') := copyinstr_page bs acc in
      if got_null then mret (0, acc')
      else copyinstr_loop fuel' pagetable (u64 (va0 + PGSIZE)) (max - n) acc'
  end.
Definition copyinstr (pagetable srcva max : Z) : M (Z * list Z) :=
  copyinstr_loop (copy_fuel max) pagetable srcva max [].

(** ** The kernel page table *)
Definition kvminit : M unit :=
  pt ← kalloc;
  modify (set_k_kpgtbl pt) ;;
  mem_write (fun m => memset m pt 0 PGSIZE) ;;
  kvmmap UART0 UART0 PGSIZE (Z.lor PTE_R PTE_W) ;;
  kvmmap (VIRTION 0) (VIRTION 0) PGSIZE (Z.lor PTE_R PTE_W) ;;
  kvmmap (VIRTION 1) (VIRTION 1) PGSIZE (Z.lor PTE_R PTE_W) ;;
  kvmmap CLINT CLINT 0x10000 (Z.lor PTE_R PTE_W) ;;
  kvmmap PLIC PLIC 0x400000 (Z.lor PTE_R PTE_W) ;;
  kvmmap KERNBASE KERNBASE (etext - KERNBASE) (Z.lor PTE_R PTE_X) ;;
  kvmmap etext etext (PHYSTOP - etext) (Z.lor PTE_R PTE_W) ;;
  kvmmap TRAMPOLINE trampoline PGSIZE (Z.lor PTE_R PTE_X).

(** The model has no TLB, so sfence_vma() does nothing. *)
Definition kvminithart : M unit :=
  pt ← gets k_kpgtbl; upd_csr (set_r_satp (MAKE_SATP pt)).

End Vm.
