(* ===== verification/Proc.v ===== *)
(** * Processes and scheduling (kernel/proc.c)

    The process table, sleep and wakeup, the scheduler, and the operations on
    one process that need no file system; [ProcLife] has fork and exit.  swtch()
    away from a thread is one step of the schedule: everything that happens
    until the thread is switched back to. *)
From S2P Require Import Prelude Mem Riscv State Spinlock Kalloc Vm.

Section Proc.
Context `{LD : Linker}.

(** A loop each of whose iterations waits at least once cannot go round more
    often than the schedule is long: the number of iterations [loop] is given
    is enough for every schedule. *)
Definition waiting {A} (loop : nat -> M A) : M A := fun s env => loop (S (length env)) s env.

(** Offsets in struct trapframe (kernel/proc.h). *)
Definition tf_kernel_satp : Z := 0.
Definition tf_kernel_sp : Z := 8.
Definition tf_kernel_trap : Z := 16.
Definition tf_epc : Z := 24.
Definition tf_kernel_hartid : Z := 32.
Definition tf_sp : Z := 48.
Definition tf_a (n : Z) : Z := 112 + 8 * n.
Definition tf_size : Z := 288.
Definition tf_get (tf off : Z) : M Z := mem_read (fun m => load64 m (tf + off)).
Definition tf_set (tf off v : Z) : M unit := mem_write (fun m => store64 m (tf + off) v).

(** ** The process table *)
Definition procinit : M unit :=
  initlock Lpid "nextpid" ;;
  for_loop 0 NPROC (fun i =>
    initlock (Lproc i) "proc" ;;
    pa ← kalloc;
    if pa =? 0 then panic "kalloc" else
    let va := KSTACK (Z.of_nat i) in
    kvmmap va pa PGSIZE (Z.lor PTE_R PTE_W) ;;
    upd_proc i (set_p_kstack va)) ;;
  kvminithart.

Definition allocpid : M Z :=
  acquire Lpid ;;
  pid ← gets k_nextpid;
  modify (set_k_nextpid (s32 (pid + 1))) ;;
  release Lpid ;;
  mret pid.

Definition proc_pagetable (i : nat) : M Z :=
  pagetable ← uvmcreate;
  mappages pagetable TRAMPOLINE PGSIZE trampoline (Z.lor PTE_R PTE_X) ;;
  p ← get_proc i;
  mappages pagetable TRAPFRAME PGSIZE (p_tf p) (Z.lor PTE_R PTE_W) ;;
  mret pagetable.

Definition proc_freepagetable (pagetable sz : Z) : M unit :=
  uvmunmap pagetable TRAMPOLINE PGSIZE false ;;
  uvmunmap pagetable TRAPFRAME PGSIZE false ;;
  when (0 <? sz) (uvmfree pagetable sz).

(** The [found:] part of allocproc, with p->lock held. *)
Definition allocproc_found (i : nat) : M (option nat) :=
  pid ← allocpid;
  upd_proc i (set_p_pid pid) ;;
  tf ← kalloc;
  upd_proc i (set_p_tf tf) ;;
  if tf =? 0 then release (Lproc i) ;; mret None else
  pagetable ← proc_pagetable i;
  upd_proc i (set_p_pagetable pagetable) ;;
  upd_proc i (fun p => set_p_context (mk_context forkret_pc (p_kstack p + PGSIZE)) p) ;;
  mret (Some i).
Fixpoint allocproc_loop (i n : nat) : M (option nat) :=
  match n with
  | O => mret None
  | S n' =>
      acquire (Lproc i) ;;
      p ← get_proc i;
      if decide (p_state p = UNUSED) then allocproc_found i
      else release (Lproc i) ;; allocproc_loop (S i) n'
  end.
Definition allocproc : M (option nat) := allocproc_loop 0 NPROC.

Definition freeproc (i : nat) : M unit :=
  p ← get_proc i;
  when (ctrue (p_tf p)) (kfree (p_tf p)) ;;
  upd_proc i (set_p_tf 0) ;;
  when (ctrue (p_pagetable p)) (proc_freepagetable (p_pagetable p) (p_sz p)) ;;
  upd_proc i (fun p => set_p_pagetable 0 p) ;;
  upd_proc i (fun p => set_p_sz 0 p) ;;
  upd_proc i (fun p => set_p_pid 0 p) ;;
  upd_proc i (fun p => set_p_parent None p) ;;
  upd_proc i (fun p => set_p_name (<[0%nat := 0]> (p_name p)) p) ;;
  upd_proc i (fun p => set_p_chan CNull p) ;;
  upd_proc i (fun p => set_p_killed 0 p) ;;
  upd_proc i (fun p => set_p_xstate 0 p) ;;
  upd_proc i (fun p => set_p_state UNUSED p).

(** [sz] is a uint: the sum wraps at 32 bits, the result is truncated. *)
Definition growproc (n : Z) : M Z :=
  i ← myproc;
  p ← get_proc i;
  let sz := u32 (p_sz p) in
  if 0 <? n then
    r ← uvmalloc (p_pagetable p) sz (u32 (sz + n));
    let sz := u32 r in
    if sz =? 0 then mret (-1) else
    upd_proc i (set_p_sz sz) ;; mret 0
  else if n <? 0 then
    r ← uvmdealloc (p_pagetable p) sz (u32 (sz + n));
    upd_proc i (set_p_sz (u32 r)) ;; mret 0
  else
    upd_proc i (set_p_sz sz) ;; mret 0.

(** ** Switching *)
Definition sched : M unit :=
  i ← myproc;
  h ← holding (Lproc i);
  if negb (ctrue h) then panic "sched p->lock" else
  c ← mycpu;
  if negb (c_noff c =? 1) then panic "sched locks" else
  p ← get_proc i;
  if decide (p_state p = RUNNING) then panic "sched running" else
  on ← intr_get;
  if ctrue on then panic "sched interruptible" else
  let intena := c_intena c in
  env_step ;;                       (* swtch(&p->context, &mycpu()->scheduler) *)
  upd_cpu (set_c_intena intena).

Definition yield : M unit :=
  i ← myproc;
  acquire (Lproc i) ;;
  upd_proc i (set_p_state RUNNABLE) ;;
  sched ;;
  release (Lproc i).

Definition sleep (chan : chan) (lk : lockid) : M unit :=
  i ← myproc;
  when (bool_decide (lk <> Lproc i)) (acquire (Lproc i) ;; release lk) ;;
  upd_proc i (set_p_chan chan) ;;
  upd_proc i (set_p_state SLEEPING) ;;
  sched ;;
  upd_proc i (set_p_chan CNull) ;;
  when (bool_decide (lk <> Lproc i)) (release (Lproc i) ;; acquire lk).

Definition wakeup_body (chan : chan) (i : nat) : M unit :=
  acquire (Lproc i) ;;
  p ← get_proc i;
  when (bool_decide (p_state p = SLEEPING) && bool_decide (p_chan p = chan))
    (upd_proc i (set_p_state RUNNABLE)) ;;
  release (Lproc i).
Definition wakeup (chan : chan) : M unit := for_loop 0 NPROC (wakeup_body chan).

Definition wakeup1 (i : nat) : M unit :=
  h ← holding (Lproc i);
  if negb (ctrue h) then panic "wakeup1" else
  p ← get_proc i;
  when (bool_decide (p_chan p = CProc i) && bool_decide (p_state p = SLEEPING))
    (upd_proc i (set_p_state RUNNABLE)).

Fixpoint kill_loop (pid : Z) (i n : nat) : M Z :=
  match n with
  | O => mret (-1)
  | S n' =>
      acquire (Lproc i) ;;
      p ← get_proc i;
      if p_pid p =? pid then
        upd_proc i (set_p_killed 1) ;;
        when (bool_decide (p_state p = SLEEPING)) (upd_proc i (set_p_state RUNNABLE)) ;;
        release (Lproc i) ;;
        mret 0
      else release (Lproc i) ;; kill_loop pid (S i) n'
  end.
Definition kill (pid : Z) : M Z := kill_loop pid 0 NPROC.

(** One pass over the table; [found] says whether a process was run. *)
Fixpoint scheduler_pass (i n : nat) (found : bool) : M bool :=
  match n with
  | O => mret found
  | S n' =>
      acquire (Lproc i) ;;
      p ← get_proc i;
      ran ← (if decide (p_state p = RUNNABLE) then
               upd_proc i (set_p_state RUNNING) ;;
               upd_cpu (set_c_proc (Some i)) ;;
               env_step ;;             (* swtch(&c->scheduler, &p->context) *)
               upd_cpu (set_c_proc None) ;;
               mret true
             else mret found);
      upd_cpu (set_c_intena 0) ;;
      release (Lproc i) ;;
      scheduler_pass (S i) n' ran
  end.
(** The endless loop, for [rounds] rounds; wfi waits for an interrupt. *)
Fixpoint scheduler_loop (rounds : nat) : M unit :=
  match rounds with
  | O => halt_with HFuel
  | S rounds' =>
      intr_on ;;
      intr_off ;;
      found ← scheduler_pass 0 NPROC false;
      when (negb found) env_step ;;
      scheduler_loop rounds'
  end.
Definition scheduler (rounds : nat) : M unit :=
  upd_cpu (set_c_proc None) ;; scheduler_loop rounds.

(** ** Parents and children *)
Definition reparent (i : nat) : M unit :=
  for_loop 0 NPROC (fun j =>
    pp ← get_proc j;
    when (bool_decide (p_parent pp = Some i))
      (acquire (Lproc j) ;;
       init ← gets k_initproc;
       upd_proc j (set_p_parent init) ;;
       release (Lproc j))).

(** The scan of wait(): the value to return, or whether there are children. *)
Fixpoint wait_scan (i : nat) (addr : Z) (j n : nat) (havekids : bool) : M (Z + bool) :=
  match n with
  | O => mret (inr havekids)
  | S n' =>
      np ← get_proc j;
      if bool_decide (p_parent np = Some i) then
        acquire (Lproc j) ;;
        np ← get_proc j;
        if decide (p_state np = ZOMBIE) then
          let pid := p_pid np in
          p ← get_proc i;
          r ← (if negb (addr =? 0)
               then copyout (p_pagetable p) addr (Z_to_le 4 (p_xstate np)) 4 else mret 0);
          if r <? 0 then release (Lproc j) ;; release (Lproc i) ;; mret (inl (-1)) else
          freeproc j ;;
          release (Lproc j) ;;
          release (Lproc i) ;;
          mret (inl pid)
        else
          release (Lproc j) ;;
          wait_scan i addr (S j) n' true
      else wait_scan i addr (S j) n' havekids
  end.
Fixpoint wait_loop (i : nat) (addr : Z) (fuel : nat) : M Z :=
  match fuel with
  | O => halt_with HFuel
  | S fuel' =>
      r ← wait_scan i addr 0 NPROC false;
      match r with
      | inl v => mret v
      | inr havekids =>
          p ← get_proc i;
          if negb havekids || ctrue (p_killed p) then release (Lproc i) ;; mret (-1) else
          sleep (CProc i) (Lproc i) ;;
          wait_loop i addr fuel'
      end
  end.
Definition wait (addr : Z) : M Z :=
  i ← myproc;
  acquire (Lproc i) ;;
  waiting (wait_loop i addr).

(** ** Copying to or from user or kernel space *)
(** [src] holds (at least) the [len] bytes to copy. *)
Definition either_copyout (user_dst : bool) (dst : Z) (src : list Z) (len : Z) : M Z :=
  pr ← myproc_opt;
  if user_dst then i ← of_option "myproc() is null" pr; p ← get_proc i; copyout (p_pagetable p) dst src len
  else mem_write (fun m => store_bytes m dst (take (Z.to_nat len) src)) ;; mret 0.
(** The bytes for [dst] are returned with the status. *)
Definition either_copyin (user_src : bool) (src len : Z) : M (Z * list Z) :=
  pr ← myproc_opt;
  if user_src then i ← of_option "myproc() is null" pr; p ← get_proc i; copyin (p_pagetable p) src len
  else bs ← reads (fun s => load_bytes (k_mem s) src (Z.to_nat len)); mret (0, bs).
End Proc.
