(* ===== verification/Console.v ===== *)
(** * UART, console and kernel printf (kernel/uart.c, console.c, printf.c)

    The UART is the record [uart]: its line status, the bytes received and not
    yet read, the bytes sent so far, and the other register writes. *)
From S2P Require Import Prelude Mem Riscv State Spinlock Kalloc Vm Proc.

(** ** kernel/uart.c *)
Definition RHR : Z := 0.
Definition THR : Z := 0.
Definition IER : Z := 1.
Definition FCR : Z := 2.
Definition LCR : Z := 3.
Definition LSR : Z := 5.

(** Bit 0 of LSR says that a byte is waiting. *)
Definition read_LSR : M Z :=
  reads (fun s => Z.lor (u_lsr (k_uart s)) (match u_rx (k_uart s) with [] => 0 | _ => 1 end)).
Definition read_RHR : M Z :=
  u ← gets k_uart;
  modify (fun s => set_k_uart (set_u_rx (tail (u_rx (k_uart s))) (k_uart s)) s) ;;
  mret (chr (u_rx u)).
Definition write_THR (c : Z) : M unit :=
  modify (fun s => set_k_uart (set_u_out (u_out (k_uart s) ++ [u8 c]) (k_uart s)) s).
Definition WriteReg (reg v : Z) : M unit :=
  modify (fun s => set_k_uart (set_u_cfg (u_cfg (k_uart s) ++ [(reg, v)]) (k_uart s)) s).

Definition uartinit : M unit :=
  WriteReg IER 0x00 ;;
  WriteReg LCR 0x80 ;;
  WriteReg 0 0x03 ;;
  WriteReg 1 0x00 ;;
  WriteReg LCR 0x03 ;;
  WriteReg FCR 0x07 ;;
  WriteReg IER 0x01.

(** Each poll that finds the transmitter busy lets the machine run. *)
Fixpoint uartputc_loop (c : Z) (fuel : nat) : M unit :=
  match fuel with
  | O => halt_with HFuel
  | S fuel' =>
      l ← read_LSR;
      if Z.land l (Z.shiftl 1 5) =? 0 then env_step ;; uartputc_loop c fuel'
      else write_THR c
  end.
Definition uartputc (c : Z) : M unit := waiting (uartputc_loop c).

Definition uartgetc : M Z :=
  l ← read_LSR;
  if ctrue (Z.land l 0x01) then read_RHR else mret (-1).

(** ** consputc *)
Definition BACKSPACE : Z := 0x100.
Definition C (x : Z) : Z := x - 64.
Definition consputc (c : Z) : M unit :=
  p ← gets k_panicked;
  if ctrue p then halt_with HExit else
  if c =? BACKSPACE then uartputc 8 ;; uartputc 32 ;; uartputc 8
  else uartputc c.

Fixpoint cons_puts (s : list Z) : M unit :=
  match s with [] => mret tt | c :: t => consputc c ;; cons_puts t end.

(** ** kernel/printf.c *)
Definition digits : list Z := zs "0123456789abcdef".
(** [do { buf[i++] = digits[x % base]; } while((x /= base) != 0);], the digits
    least significant first. *)
Fixpoint digits_of (fuel : nat) (x base : Z) : list Z :=
  match fuel with
  | O => []
  | S fuel' => nthZ digits (x mod base) ::
               (if x / base =? 0 then [] else digits_of fuel' (x / base) base)
  end.
(** The characters printint prints, in order. *)
Definition int_chars (xx base : Z) (sign : bool) : list Z :=
  let neg := sign && (xx <? 0) in
  let x := if neg then u32 (- xx) else u32 xx in
  rev (digits_of 32 x base ++ (if neg then [45] else [])).
Definition printint (xx base : Z) (sign : bool) : M unit := cons_puts (int_chars xx base sign).

Fixpoint ptr_chars (n : nat) (x : Z) : list Z :=
  match n with
  | O => []
  | S n' => nthZ digits (Z.shiftr x 60) :: ptr_chars n' (u64 (Z.shiftl x 4))
  end.
Definition printptr (x : Z) : M unit := cons_puts (zs "0x" ++ ptr_chars 16 x).

(** The arguments of printf. *)
Inductive arg := AInt (z : Z) | APtr (z : Z) | AStr (s : option (list Z)).
Fixpoint printf_loop (fmt : list Z) (ap : list arg) : M unit :=
  match fmt with
  | [] => mret tt
  | c :: fmt1 =>
      if c =? 0 then mret tt else
      if negb (c =? 37) then consputc c ;; printf_loop fmt1 ap else
      match fmt1 with
      | [] => mret tt
      | c :: fmt2 =>
          if c =? 0 then mret tt else
          if c =? 100 then                                    (* d *)
            match ap with
            | AInt z :: ap' => printint z 10 true ;; printf_loop fmt2 ap'
            | _ => undef "va_arg"
            end
          else if c =? 120 then                               (* x *)
            match ap with
            | AInt z :: ap' => printint z 16 true ;; printf_loop fmt2 ap'
            | _ => undef "va_arg"
            end
          else if c =? 112 then                               (* p *)
            match ap with
            | APtr z :: ap' => printptr z ;; printf_loop fmt2 ap'
            | _ => undef "va_arg"
            end
          else if c =? 115 then                               (* s *)
            match ap with
            | AStr s :: ap' =>
                cons_puts (cstr (default (zs "(null)") s)) ;; printf_loop fmt2 ap'
            | _ => undef "va_arg"
            end
          else if c =? 37 then consputc 37 ;; printf_loop fmt2 ap
          else consputc 37 ;; consputc c ;; printf_loop fmt2 ap
      end
  end.
Definition printf (fmt : list Z) (ap : list arg) : M unit :=
  locking ← gets k_pr_locking;
  when (ctrue locking) (acquire Lpr) ;;
  printf_loop fmt ap ;;
  when (ctrue locking) (release Lpr).

Definition nl : list Z := [10].

Definition printfinit : M unit :=
  initlock Lpr "pr" ;; modify (set_k_pr_locking 1).

(** panic(): the message on the console, then every hart that prints spins. *)
Definition panic_print (msg : string) : M unit :=
  modify (set_k_pr_locking 0) ;;
  printf (zs "PANIC: ") [] ;;
  printf (zs msg) [] ;;
  printf nl [] ;;
  printf (zs "HINT: restart xv6 using 'make qemu-gdb', type 'b panic' (to set breakpoint in panic) in the gdb window, followed by 'c' (continue), and when the kernel hits the breakpoint, type 'bt' to get a backtrace" ++ nl) [] ;;
  modify (set_k_panicked 1) ;;
  panic msg.

(** print_lock (kernel/spinlock.c) *)
Definition print_lock (l : lockid) : M unit :=
  lk ← get_lock l;
  when (0 <? lk_n lk)
    (printf (zs "lock: %s: #test-and-set %d #acquire() %d" ++ nl)
       [AStr (Some (zs (lk_name lk))); AInt (s32 (lk_nts lk)); AInt (s32 (lk_n lk))]).

(** procdump (kernel/proc.c) *)
Definition state_name (st : procstate) : string :=
  match st with
  | UNUSED => "unused" | SLEEPING => "sleep " | RUNNABLE => "runble"
  | RUNNING => "run   " | ZOMBIE => "zombie"
  end.
Definition procdump_body (i : nat) : M unit :=
  p ← get_proc i;
  if decide (p_state p = UNUSED) then mret tt else
  printf (zs "%d %s %s") [AInt (p_pid p); AStr (Some (zs (state_name (p_state p)))); AStr (Some (p_name p))] ;;
  printf nl [].
Definition procdump : M unit :=
  printf nl [] ;;
  for_loop 0 NPROC procdump_body.

(** ** kernel/console.c *)
Definition INPUT_BUF : Z := 128.
Definition upd_cons (f : console -> console) : M unit :=
  modify (fun s => set_k_cons (f (k_cons s)) s).
Definition cons_at (c : console) (i : Z) : Z := nthZ (co_buf c) (i mod INPUT_BUF).

Fixpoint consolewrite_loop (user_src : bool) (src : Z) (n : nat) : M unit :=
  match n with
  | O => mret tt
  | S n' =>
      rb ← either_copyin user_src src 1;
      if rb.1 =? -1 then mret tt else
      consputc (chr rb.2) ;;
      consolewrite_loop user_src (u64 (src + 1)) n'
  end.
Definition consolewrite (user_src : bool) (src n : Z) : M Z :=
  acquire Lcons ;;
  consolewrite_loop user_src src (Z.to_nat n) ;;
  release Lcons ;;
  mret n.

(** [while(cons.r == cons.w) ...]: true when there is input, false if killed. *)
Fixpoint consoleread_wait (fuel : nat) : M bool :=
  match fuel with
  | O => halt_with HFuel
  | S fuel' =>
      c ← gets k_cons;
      if negb (co_r c =? co_w c) then mret true else
      i ← myproc;
      p ← get_proc i;
      if ctrue (p_killed p) then mret false else
      sleep CCons Lcons ;;
      consoleread_wait fuel'
  end.
(** The remaining [n] when the loop ends, [None] if the process was killed. *)
Fixpoint consoleread_loop (user_dst : bool) (dst target : Z) (n : nat) : M (option Z) :=
  match n with
  | O => mret (Some 0)
  | S n' =>
      ok ← waiting consoleread_wait;
      if negb ok then mret None else
      c0 ← gets k_cons;
      let c := cons_at c0 (co_r c0) in
      upd_cons (fun c => set_co_r (u32 (co_r c + 1)) c) ;;
      if c =? C 68 then
        when (Z.of_nat n <? target) (upd_cons (fun c => set_co_r (u32 (co_r c - 1)) c)) ;;
        mret (Some (Z.of_nat n))
      else
      r ← either_copyout user_dst dst [c] 1;
      if r =? -1 then mret (Some (Z.of_nat n)) else
      if c =? 10 then mret (Some (Z.of_nat n'))
      else consoleread_loop user_dst (u64 (dst + 1)) target n'
  end.
Definition consoleread (user_dst : bool) (dst n : Z) : M Z :=
  let target := u32 n in
  acquire Lcons ;;
  r ← (if 0 <? n then consoleread_loop user_dst dst target (Z.to_nat n) else mret (Some n));
  release Lcons ;;
  match r with
  | None => mret (-1)
  | Some n => mret (s32 (target - n))
  end.

(** [while(cons.e != cons.w && cons.buf[(cons.e-1) % INPUT_BUF] != '\n')];
    at most INPUT_BUF characters are being edited. *)
Fixpoint kill_line (fuel : nat) : M unit :=
  match fuel with
  | O => halt_with HFuel
  | S fuel' =>
      c ← gets k_cons;
      if negb (co_e c =? co_w c) && negb (cons_at c (u32 (co_e c - 1)) =? 10) then
        upd_cons (fun c => set_co_e (u32 (co_e c - 1)) c) ;;
        consputc BACKSPACE ;;
        kill_line fuel'
      else mret tt
  end.
Definition consoleintr_default (c : Z) : M unit :=
  co ← gets k_cons;
  when (negb (c =? 0) && (u32 (co_e co - co_r co) <? INPUT_BUF))
    (let c := if c =? 13 then 10 else c in
     consputc c ;;
     upd_cons (fun co => set_co_buf (<[Z.to_nat (co_e co mod INPUT_BUF) := u8 c]> (co_buf co)) co) ;;
     upd_cons (fun co => set_co_e (u32 (co_e co + 1)) co) ;;
     co ← gets k_cons;
     when ((c =? 10) || (c =? C 68) || (co_e co =? u32 (co_r co + INPUT_BUF)))
       (upd_cons (fun co => set_co_w (co_e co) co) ;;
        wakeup CCons)).
Definition consoleintr (c : Z) : M unit :=
  acquire Lcons ;;
  (if c =? C 80 then procdump
   else if c =? C 85 then kill_line (S (Z.to_nat INPUT_BUF))
   else if (c =? C 72) || (c =? 0x7f) then
     co ← gets k_cons;
     when (negb (co_e co =? co_w co))
       (upd_cons (fun c => set_co_e (u32 (co_e c - 1)) c) ;; consputc BACKSPACE)
   else consoleintr_default c) ;;
  release Lcons.

(** Handles the bytes waiting when the interrupt is taken; [HFuel] if more
    keep arriving while they are handled. *)
Fixpoint uartintr_loop (fuel : nat) : M unit :=
  match fuel with
  | O => halt_with HFuel
  | S fuel' =>
      c ← uartgetc;
      if c =? -1 then mret tt else
      consoleintr c ;;
      uartintr_loop fuel'
  end.
Definition uartintr : M unit :=
  u ← gets k_uart; uartintr_loop (S (length (u_rx u))).

Definition CONSOLE : nat := 1.
Definition consoleinit : M unit :=
  initlock Lcons "cons" ;;
  uartinit ;;
  modify (fun s => set_k_devsw (<[CONSOLE := (DevConsole, DevConsole)]> (k_devsw s)) s).
