(* ===== verification/Sleeplock.v ===== *)
(** * Sleep locks (kernel/sleeplock.c)

    The sleep locks of the kernel are the ones in struct buf and struct inode;
    [slid] says which. *)
From S2P Require Import Prelude Mem Riscv State Spinlock Kalloc Vm Proc.

Inductive slid := SBuf (i : nat) | SInode (i : nat).
(** The spinlock inside, and the lock's address as a sleep channel. *)
Definition sl_spin (l : slid) : lockid := match l with SBuf i => Lbuf i | SInode i => Linode i end.
Definition sl_chan (l : slid) : chan := match l with SBuf i => CBufLock i | SInode i => CInodeLock i end.
Definition get_sl (l : slid) : M sleeplock :=
  match l with
  | SBuf i => b ← get_buf i; mret (b_lock b)
  | SInode i => ip ← get_inode i; mret (i_lock ip)
  end.
Definition upd_sl (l : slid) (f : sleeplock -> sleeplock) : M unit :=
  match l with
  | SBuf i => upd_buf i (fun b => set_b_lock (f (b_lock b)) b)
  | SInode i => upd_inode i (fun ip => set_i_lock (f (i_lock ip)) ip)
  end.

Definition initsleeplock (l : slid) : M unit :=
  initlock (sl_spin l) "sleep lock" ;;
  upd_sl l (set_sl_locked 0) ;;
  upd_sl l (set_sl_pid 0).

(** [while (lk->locked) sleep(lk, &lk->lk);] *)
Fixpoint acquiresleep_loop (l : slid) (fuel : nat) : M unit :=
  match fuel with
  | O => halt_with HFuel
  | S fuel' =>
      lk ← get_sl l;
      if ctrue (sl_locked lk) then sleep (sl_chan l) (sl_spin l) ;; acquiresleep_loop l fuel'
      else mret tt
  end.
Definition acquiresleep (l : slid) : M unit :=
  acquire (sl_spin l) ;;
  waiting (acquiresleep_loop l) ;;
  upd_sl l (set_sl_locked 1) ;;
  i ← myproc;
  p ← get_proc i;
  upd_sl l (set_sl_pid (p_pid p)) ;;
  release (sl_spin l).

Definition releasesleep (l : slid) : M unit :=
  acquire (sl_spin l) ;;
  upd_sl l (set_sl_locked 0) ;;
  upd_sl l (set_sl_pid 0) ;;
  wakeup (sl_chan l) ;;
  release (sl_spin l).

Definition holdingsleep (l : slid) : M Z :=
  acquire (sl_spin l) ;;
  lk ← get_sl l;
  r ← (if ctrue (sl_locked lk)
       then i ← myproc; p ← get_proc i; mret (b2z (sl_pid lk =? p_pid p)) else mret 0);
  release (sl_spin l) ;;
  mret r.
