(* ===== verification/Bio.v ===== *)
(** * The buffer cache (kernel/bio.c)

    Buffers are indices into bcache.buf[]; bcache.head is the last entry.  The
    LRU list is threaded through [b_prev] and [b_next]. *)
From S2P Require Import Prelude Mem Riscv State Spinlock Kalloc Vm Proc Sleeplock.

Definition BSIZE : Z := 1024.
Definition bhead : nat := NBUF.
Arguments bhead : simpl never.

(** What the buffer cache needs of the disk driver: virtio_disk_rw(n, b, write)
    of kernel/virtio_disk.c. *)
Class DiskDriver := { virtio_disk_rw : Z -> nat -> bool -> M unit }.

Section Bio.
Context `{DD : DiskDriver}.

(** Insert [b] right after the head of the list. *)
Definition binit_body (b : nat) : M unit :=
  h ← get_buf bhead;
  upd_buf b (set_b_next (b_next h)) ;;
  upd_buf b (set_b_prev bhead) ;;
  initsleeplock (SBuf b) ;;
  h ← get_buf bhead;
  upd_buf (b_next h) (set_b_prev b) ;;
  upd_buf bhead (set_b_next b).
Definition binit : M unit :=
  initlock Lbcache "bcache" ;;
  upd_buf bhead (set_b_prev bhead) ;;
  upd_buf bhead (set_b_next bhead) ;;
  for_loop 0 NBUF binit_body.

(** [for(b = bcache.head.next; b != &bcache.head; b = b->next)] looking for the
    block; the list has NBUF entries, and [fuel] counts them. *)
Fixpoint bget_find (fuel : nat) (b : nat) (dev blockno : Z) : M (option nat) :=
  match fuel with
  | O => halt_with HFuel
  | S fuel' =>
      if decide (b = bhead) then mret None else
      x ← get_buf b;
      if (b_dev x =? dev) && (b_blockno x =? blockno) then mret (Some b)
      else bget_find fuel' (b_next x) dev blockno
  end.
(** [for(b = bcache.head.prev; ...; b = b->prev) if(b->refcnt == 0)] *)
Fixpoint bget_free (fuel : nat) (b : nat) : M (option nat) :=
  match fuel with
  | O => halt_with HFuel
  | S fuel' =>
      if decide (b = bhead) then mret None else
      x ← get_buf b;
      if b_refcnt x =? 0 then mret (Some b) else bget_free fuel' (b_prev x)
  end.
Definition bget (dev blockno : Z) : M nat :=
  acquire Lbcache ;;
  h ← get_buf bhead;
  r ← bget_find (S NBUF) (b_next h) dev blockno;
  match r with
  | Some b =>
      upd_buf b (fun x => set_b_refcnt (u32 (b_refcnt x + 1)) x) ;;
      release Lbcache ;;
      acquiresleep (SBuf b) ;;
      mret b
  | None =>
      h ← get_buf bhead;
      r ← bget_free (S NBUF) (b_prev h);
      match r with
      | Some b =>
          upd_buf b (set_b_dev dev) ;;
          upd_buf b (set_b_blockno blockno) ;;
          upd_buf b (set_b_valid 0) ;;
          upd_buf b (set_b_refcnt 1) ;;
          release Lbcache ;;
          acquiresleep (SBuf b) ;;
          mret b
      | None => panic "bget: no buffers"
      end
  end.

Definition bread (dev blockno : Z) : M nat :=
  b ← bget dev blockno;
  x ← get_buf b;
  when (b_valid x =? 0)
    (virtio_disk_rw (b_dev x) b false ;;
     upd_buf b (set_b_valid 1)) ;;
  mret b.

Definition bwrite (b : nat) : M unit :=
  h ← holdingsleep (SBuf b);
  if h =? 0 then panic "bwrite" else
  x ← get_buf b;
  virtio_disk_rw (b_dev x) b true.

Definition brelse (b : nat) : M unit :=
  h ← holdingsleep (SBuf b);
  if h =? 0 then panic "brelse" else
  releasesleep (SBuf b) ;;
  acquire Lbcache ;;
  upd_buf b (fun x => set_b_refcnt (u32 (b_refcnt x - 1)) x) ;;
  x ← get_buf b;
  when (b_refcnt x =? 0)
    (upd_buf (b_next x) (set_b_prev (b_prev x)) ;;
     y ← get_buf b;
     upd_buf (b_prev y) (set_b_next (b_next y)) ;;
     h ← get_buf bhead;
     upd_buf b (set_b_next (b_next h)) ;;
     upd_buf b (set_b_prev bhead) ;;
     h ← get_buf bhead;
     upd_buf (b_next h) (set_b_prev b) ;;
     upd_buf bhead (set_b_next b)) ;;
  release Lbcache.

Definition bpin (b : nat) : M unit :=
  acquire Lbcache ;;
  upd_buf b (fun x => set_b_refcnt (u32 (b_refcnt x + 1)) x) ;;
  release Lbcache.
Definition bunpin (b : nat) : M unit :=
  acquire Lbcache ;;
  upd_buf b (fun x => set_b_refcnt (u32 (b_refcnt x - 1)) x) ;;
  release Lbcache.
End Bio.
