(* ===== verification/Virtio.v ===== *)
(** * The virtio disk driver (kernel/virtio_disk.c)

    [vdisk] is struct disk: the descriptor table, the available ring (flags,
    index, then NUM entries), the used ring and the driver's book-keeping.
    What the driver reads from device registers, and the addresses the linker
    gives to kernel objects, are parameters. *)
From S2P Require Import Prelude Mem Riscv State Spinlock Kalloc Vm Proc Console Bio.

Class VirtioEnv := {
  mmio_read : kstate -> Z -> Z;       (** the value a device register reads as *)
  disk_pages : nat -> Z;              (** disk[n].pages *)
  buf_data_addr : nat -> Z;           (** b->data *)
  info_status_addr : nat -> Z -> Z;   (** &disk[n].info[i].status *)
  buf0_va : nat -> Z;                 (** &buf0, on the kernel stack of process [i] *)
}.

(** ** kernel/virtio.h *)
Definition VIRTIO_MMIO_MAGIC_VALUE : Z := 0x000.
Definition VIRTIO_MMIO_VERSION : Z := 0x004.
Definition VIRTIO_MMIO_DEVICE_ID : Z := 0x008.
Definition VIRTIO_MMIO_VENDOR_ID : Z := 0x00c.
Definition VIRTIO_MMIO_DEVICE_FEATURES : Z := 0x010.
Definition VIRTIO_MMIO_DRIVER_FEATURES : Z := 0x020.
Definition VIRTIO_MMIO_GUEST_PAGE_SIZE : Z := 0x028.
Definition VIRTIO_MMIO_QUEUE_SEL : Z := 0x030.
Definition VIRTIO_MMIO_QUEUE_NUM_MAX : Z := 0x034.
Definition VIRTIO_MMIO_QUEUE_NUM : Z := 0x038.
Definition VIRTIO_MMIO_QUEUE_PFN : Z := 0x040.
Definition VIRTIO_MMIO_QUEUE_NOTIFY : Z := 0x050.
Definition VIRTIO_MMIO_STATUS : Z := 0x070.
Definition VIRTIO_CONFIG_S_ACKNOWLEDGE : Z := 1.
Definition VIRTIO_CONFIG_S_DRIVER : Z := 2.
Definition VIRTIO_CONFIG_S_DRIVER_OK : Z := 4.
Definition VIRTIO_CONFIG_S_FEATURES_OK : Z := 8.
Definition VIRTIO_BLK_F_RO : Z := 5.
Definition VIRTIO_BLK_F_SCSI : Z := 7.
Definition VIRTIO_BLK_F_CONFIG_WCE : Z := 11.
Definition VIRTIO_BLK_F_MQ : Z := 12.
Definition VIRTIO_F_ANY_LAYOUT : Z := 27.
Definition VIRTIO_RING_F_INDIRECT_DESC : Z := 28.
Definition VIRTIO_RING_F_EVENT_IDX : Z := 29.
Definition NUM : nat := 8.
Definition VRING_DESC_F_NEXT : Z := 1.
Definition VRING_DESC_F_WRITE : Z := 2.
Definition VIRTIO_BLK_T_IN : Z := 0.
Definition VIRTIO_BLK_T_OUT : Z := 1.
Arguments NUM : simpl never.

(** *R(n, r) *)
Definition vreg (n : nat) (r : Z) : Z := VIRTION (Z.of_nat n) + r.
Definition write_reg (a v : Z) : M unit := modify (fun s => set_k_mmio (k_mmio s ++ [(a, v)]) s).

Definition get_vdisk (n : nat) : M vdisk := ds ← gets k_vdisk; of_option "disk[]" (ds !! n).
Definition upd_vdisk (n : nat) (f : vdisk -> vdisk) : M unit :=
  modify (fun s => set_k_vdisk (alter f n (k_vdisk s)) s).
Definition upd_desc (n : nat) (i : Z) (f : vdesc -> vdesc) : M unit :=
  upd_vdisk n (fun d => set_v_desc (alter f (Z.to_nat i) (v_desc d)) d).

Section Virtio.
Context `{LD : Linker} `{VE : VirtioEnv}.

Definition read_reg (a : Z) : M Z := reads (fun s => u32 (mmio_read s a)).
Definition clear_feature (features b : Z) : Z := Z.land features (Z.lnot (Z.shiftl 1 b)).

(** ** virtio_disk_init *)
Definition virtio_negotiate (n : nat) : M unit :=
  let status := VIRTIO_CONFIG_S_ACKNOWLEDGE in
  write_reg (vreg n VIRTIO_MMIO_STATUS) status ;;
  let status := Z.lor status VIRTIO_CONFIG_S_DRIVER in
  write_reg (vreg n VIRTIO_MMIO_STATUS) status ;;
  features ← read_reg (vreg n VIRTIO_MMIO_DEVICE_FEATURES);
  let features := clear_feature features VIRTIO_BLK_F_RO in
  let features := clear_feature features VIRTIO_BLK_F_SCSI in
  let features := clear_feature features VIRTIO_BLK_F_CONFIG_WCE in
  let features := clear_feature features VIRTIO_BLK_F_MQ in
  let features := clear_feature features VIRTIO_F_ANY_LAYOUT in
  let features := clear_feature features VIRTIO_RING_F_EVENT_IDX in
  let features := clear_feature features VIRTIO_RING_F_INDIRECT_DESC in
  write_reg (vreg n VIRTIO_MMIO_DRIVER_FEATURES) features ;;
  let status := Z.lor status VIRTIO_CONFIG_S_FEATURES_OK in
  write_reg (vreg n VIRTIO_MMIO_STATUS) status ;;
  let status := Z.lor status VIRTIO_CONFIG_S_DRIVER_OK in
  write_reg (vreg n VIRTIO_MMIO_STATUS) status ;;
  write_reg (vreg n VIRTIO_MMIO_GUEST_PAGE_SIZE) PGSIZE.

Definition virtio_disk_init (n : nat) : M unit :=
  d ← get_vdisk n;
  if ctrue (v_init d) then mret tt else
  printf (zs "virtio disk init %d" ++ nl) [AInt (Z.of_nat n)] ;;
  initlock (Lvdisk n) "virtio_disk" ;;
  magic ← read_reg (vreg n VIRTIO_MMIO_MAGIC_VALUE);
  version ← read_reg (vreg n VIRTIO_MMIO_VERSION);
  device ← read_reg (vreg n VIRTIO_MMIO_DEVICE_ID);
  vendor ← read_reg (vreg n VIRTIO_MMIO_VENDOR_ID);
  if negb (magic =? 0x74726976) || negb (version =? 1) || negb (device =? 2) ||
     negb (vendor =? 0x554d4551)
  then panic "could not find virtio disk" else
  virtio_negotiate n ;;
  write_reg (vreg n VIRTIO_MMIO_QUEUE_SEL) 0 ;;
  max ← read_reg (vreg n VIRTIO_MMIO_QUEUE_NUM_MAX);
  if max =? 0 then panic "virtio disk has no queue 0" else
  if max <? Z.of_nat NUM then panic "virtio disk max queue too short" else
  write_reg (vreg n VIRTIO_MMIO_QUEUE_NUM) (Z.of_nat NUM) ;;
  upd_vdisk n (fun d => set_v_desc (replicate NUM (mk_vdesc 0 0 0 0)) d) ;;
  upd_vdisk n (fun d => set_v_avail (replicate (2 + NUM) 0) d) ;;
  upd_vdisk n (fun d => set_v_used_elems (replicate NUM 0) (set_v_used_id 0 d)) ;;
  write_reg (vreg n VIRTIO_MMIO_QUEUE_PFN) (Z.shiftr (disk_pages n) PGSHIFT) ;;
  upd_vdisk n (fun d => set_v_free (replicate NUM 1) d) ;;
  upd_vdisk n (set_v_init 1).

(** ** Descriptors *)
Fixpoint free_scan (free : list Z) (i : Z) : Z :=
  match free with [] => -1 | f :: t => if ctrue f then i else free_scan t (i + 1) end.
Definition set_free (n : nat) (i v : Z) : M unit :=
  upd_vdisk n (fun d => set_v_free (<[Z.to_nat i := v]> (v_free d)) d).
Definition alloc_desc (n : nat) : M Z :=
  d ← get_vdisk n;
  let i := free_scan (v_free d) 0 in
  when (0 <=? i) (set_free n i 0) ;;
  mret i.

Definition free_desc (n : nat) (i : Z) : M unit :=
  if Z.of_nat NUM <=? i then panic "virtio_disk_intr 1" else
  d ← get_vdisk n;
  if ctrue (nthZ (v_free d) i) then panic "virtio_disk_intr 2" else
  upd_desc n i (set_vd_addr 0) ;;
  set_free n i 1 ;;
  wakeup (CDiskFree n).

(** A chain has at most NUM descriptors: a cycle runs into the double free. *)
Fixpoint free_chain_loop (fuel : nat) (n : nat) (i : Z) : M unit :=
  match fuel with
  | O => halt_with HFuel
  | S fuel' =>
      free_desc n i ;;
      d ← get_vdisk n;
      x ← of_option "desc[]" (v_desc d !! Z.to_nat i);
      if ctrue (Z.land (vd_flags x) VRING_DESC_F_NEXT) then free_chain_loop fuel' n (vd_next x)
      else mret tt
  end.
Definition free_chain (n : nat) (i : Z) : M unit := free_chain_loop (S NUM) n i.

Fixpoint free_descs (n : nat) (idx : list Z) : M unit :=
  match idx with [] => mret tt | j :: t => free_desc n j ;; free_descs n t end.
(** The three descriptors, or [None] with those taken given back. *)
Fixpoint alloc3_loop (n k : nat) (idx : list Z) : M (option (list Z)) :=
  match k with
  | O => mret (Some idx)
  | S k' =>
      i ← alloc_desc n;
      if i <? 0 then free_descs n idx ;; mret None else alloc3_loop n k' (idx ++ [i])
  end.
Definition alloc3_desc (n : nat) : M (option (list Z)) := alloc3_loop n 3 [].

(** ** Requests *)
Fixpoint rw_alloc (n : nat) (fuel : nat) : M (list Z) :=
  match fuel with
  | O => halt_with HFuel
  | S fuel' =>
      r ← alloc3_desc n;
      match r with
      | Some idx => mret idx
      | None => sleep (CDiskFree n) (Lvdisk n) ;; rw_alloc n fuel'
      end
  end.
(** [while(b->disk == 1) sleep(b, &disk[n].vdisk_lock);] *)
Fixpoint rw_wait (n b : nat) (fuel : nat) : M unit :=
  match fuel with
  | O => halt_with HFuel
  | S fuel' =>
      x ← get_buf b;
      if b_disk x =? 1 then sleep (CBuf b) (Lvdisk n) ;; rw_wait n b fuel' else mret tt
  end.

(** The three descriptors of one request, and the request's place in the ring. *)
Definition rw_submit (n b : nat) (write : bool) (hdr_pa i0 i1 i2 : Z) : M unit :=
  upd_desc n i0 (fun _ => mk_vdesc hdr_pa 16 VRING_DESC_F_NEXT i1) ;;
  upd_desc n i1 (fun _ => mk_vdesc (buf_data_addr b) BSIZE
    (Z.lor (if write then 0 else VRING_DESC_F_WRITE) VRING_DESC_F_NEXT) i2) ;;
  upd_vdisk n (fun d => set_v_info_status (<[Z.to_nat i0 := 0]> (v_info_status d)) d) ;;
  upd_desc n i2 (fun _ => mk_vdesc (info_status_addr n i0) 1 VRING_DESC_F_WRITE 0) ;;
  upd_buf b (set_b_disk 1) ;;
  upd_vdisk n (fun d => set_v_info_b (<[Z.to_nat i0 := Some b]> (v_info_b d)) d) ;;
  upd_vdisk n (fun d => set_v_avail
    (<[Z.to_nat (2 + nthZ (v_avail d) 1 mod Z.of_nat NUM) := i0]> (v_avail d)) d) ;;
  upd_vdisk n (fun d => set_v_avail (<[1%nat := u16 (nthZ (v_avail d) 1 + 1)]> (v_avail d)) d) ;;
  write_reg (vreg n VIRTIO_MMIO_QUEUE_NOTIFY) 0.

(** struct virtio_blk_outhdr *)
Definition outhdr (write : bool) (sector : Z) : list Z :=
  Z_to_le 4 (if write then VIRTIO_BLK_T_OUT else VIRTIO_BLK_T_IN) ++ Z_to_le 4 0 ++ Z_to_le 8 sector.

Definition disk_rw (dev : Z) (b : nat) (write : bool) : M unit :=
  let n := Z.to_nat dev in
  x ← get_buf b;
  let sector := u32 (b_blockno x * (BSIZE / 512)) in
  acquire (Lvdisk n) ;;
  idx ← waiting (rw_alloc n);
  let i0 := nthZ idx 0 in
  i ← myproc;
  hdr_pa ← kvmpa (buf0_va i);
  mem_write (fun m => store_bytes m hdr_pa (outhdr write sector)) ;;
  rw_submit n b write hdr_pa i0 (nthZ idx 1) (nthZ idx 2) ;;
  waiting (rw_wait n b) ;;
  upd_vdisk n (fun d => set_v_info_b (<[Z.to_nat i0 := None]> (v_info_b d)) d) ;;
  free_chain n i0 ;;
  release (Lvdisk n).

#[export] Instance virtio_driver : DiskDriver := { virtio_disk_rw := disk_rw }.

(** ** Completion interrupts *)
Fixpoint virtio_disk_intr_loop (fuel : nat) (n : nat) : M unit :=
  match fuel with
  | O => halt_with HFuel
  | S fuel' =>
      d ← get_vdisk n;
      if v_used_idx d mod Z.of_nat NUM =? v_used_id d mod Z.of_nat NUM then mret tt else
      let id := s32 (nthZ (v_used_elems d) (v_used_idx d)) in
      st ← of_option "info[]" (v_info_status d !! Z.to_nat id);
      if negb (st =? 0) then panic "virtio_disk_intr status" else
      ob ← of_option "info[]" (v_info_b d !! Z.to_nat id);
      b ← of_option "info[id].b" ob;
      upd_buf b (set_b_disk 0) ;;
      wakeup (CBuf b) ;;
      upd_vdisk n (fun d => set_v_used_idx ((v_used_idx d + 1) mod Z.of_nat NUM) d) ;;
      virtio_disk_intr_loop fuel' n
  end.
(** The ring holds NUM entries; the loop ends when used_idx has gone round. *)
Definition virtio_disk_intr (n : nat) : M unit :=
  acquire (Lvdisk n) ;;
  virtio_disk_intr_loop (S NUM) n ;;
  release (Lvdisk n).
End Virtio.
