(* ===== verification/Log.v ===== *)
(** * The write-ahead log (kernel/log.c)

    The in-memory header is in [log]; on disk it is block [lg_start] with the
    blocks of the transaction after it. *)
From S2P Require Import Prelude Mem Riscv State Spinlock Kalloc Vm Proc Sleeplock Bio.

Section Log.
Context `{DD : DiskDriver}.

(** [log[dev]], [dev] an int. *)
Definition logidx (dev : Z) : nat := Z.to_nat dev.
Definition glog (dev : Z) : M log := get_log (logidx dev).
Definition ulog (dev : Z) (f : log -> log) : M unit := upd_log (logidx dev) f.

(** 32-bit fields of a block. *)
Definition get32 (d : list Z) (off : Z) : Z := le_to_Z (slice d (Z.to_nat off) 4).
Definition put32 (d : list Z) (off v : Z) : list Z := splice d (Z.to_nat off) (Z_to_le 4 v).
(** struct logheader in a block: [n], then [block[i]]. *)
Definition lh_n (d : list Z) : Z := s32 (get32 d 0).
Definition lh_block (d : list Z) (i : Z) : Z := s32 (get32 d (4 + 4 * i)).

(** [log[dev].lh.block[i]], where the array has LOGSIZE entries. *)
Definition get_lh_block (dev : Z) (i : Z) : M Z :=
  lg ← glog dev; of_option "lh.block[]" (lg_block lg !! Z.to_nat i).
Definition set_lh_block (dev : Z) (i v : Z) : M unit :=
  lg ← glog dev;
  if i <? LOGSIZE then ulog dev (fun lg => set_lg_block (<[Z.to_nat i := s32 v]> (lg_block lg)) lg)
  else undef "lh.block[]".

(** [for (tail = 0; tail < log[dev].lh.n; tail++) body(tail)]: the loops do not
    change [lh.n], which is read each time round. *)
Fixpoint tail_loop (fuel : nat) (dev tail : Z) (body : Z -> M unit) : M unit :=
  lg ← glog dev;
  if negb (tail <? lg_n lg) then mret tt else
  match fuel with
  | O => halt_with HFuel
  | S fuel' => body tail ;; tail_loop fuel' dev (tail + 1) body
  end.
(** Past LOGSIZE the body is undefined behaviour, so that much fuel is enough. *)
Definition for_tail (dev : Z) (body : Z -> M unit) : M unit :=
  tail_loop (S (Z.to_nat LOGSIZE)) dev 0 body.

Definition install_trans_body (dev tail : Z) : M unit :=
  lg ← glog dev;
  lbuf ← bread dev (u32 (lg_start lg + tail + 1));
  home ← get_lh_block dev tail;
  dbuf ← bread dev (u32 home);
  l ← get_buf lbuf;
  upd_buf dbuf (set_b_data (b_data l)) ;;
  bwrite dbuf ;;
  bunpin dbuf ;;
  brelse lbuf ;;
  brelse dbuf.
Definition install_trans (dev : Z) : M unit := for_tail dev (install_trans_body dev).

Definition read_head (dev : Z) : M unit :=
  lg ← glog dev;
  b ← bread dev (u32 (lg_start lg));
  x ← get_buf b;
  ulog dev (set_lg_n (lh_n (b_data x))) ;;
  for_tail dev (fun i => set_lh_block dev i (lh_block (b_data x) i)) ;;
  brelse b.

Definition write_head_body (dev : Z) (b : nat) (i : Z) : M unit :=
  v ← get_lh_block dev i;
  upd_buf b (fun x => set_b_data (put32 (b_data x) (4 + 4 * i) v) x).
Definition write_head (dev : Z) : M unit :=
  lg ← glog dev;
  b ← bread dev (u32 (lg_start lg));
  lg ← glog dev;
  upd_buf b (fun x => set_b_data (put32 (b_data x) 0 (lg_n lg)) x) ;;
  for_tail dev (write_head_body dev b) ;;
  bwrite b ;;
  brelse b.

Definition recover_from_log (dev : Z) : M unit :=
  read_head dev ;;
  install_trans dev ;;
  ulog dev (set_lg_n 0) ;;
  write_head dev.

(** sizeof(struct logheader) is 4 + 4 * LOGSIZE = 124. *)
Definition initlog (dev : Z) (sb : superblock) : M unit :=
  if BSIZE <=? 4 + 4 * LOGSIZE then panic "initlog: too big logheader" else
  initlock (Llog (logidx dev)) "log" ;;
  ulog dev (set_lg_start (s32 (sb_logstart sb))) ;;
  ulog dev (set_lg_size (s32 (sb_nlog sb))) ;;
  ulog dev (set_lg_dev dev) ;;
  recover_from_log dev.

Definition write_log_body (dev tail : Z) : M unit :=
  lg ← glog dev;
  to ← bread dev (u32 (lg_start lg + tail + 1));
  home ← get_lh_block dev tail;
  from ← bread dev (u32 home);
  f ← get_buf from;
  upd_buf to (set_b_data (b_data f)) ;;
  bwrite to ;;
  brelse from ;;
  brelse to.
Definition write_log (dev : Z) : M unit := for_tail dev (write_log_body dev).

Definition commit (dev : Z) : M unit :=
  lg ← glog dev;
  when (0 <? lg_n lg)
    (write_log dev ;;
     write_head dev ;;
     install_trans dev ;;
     ulog dev (set_lg_n 0) ;;
     write_head dev).

(** ** Transactions *)
Fixpoint begin_op_loop (dev : Z) (fuel : nat) : M unit :=
  match fuel with
  | O => halt_with HFuel
  | S fuel' =>
      lg ← glog dev;
      if ctrue (lg_committing lg) then
        sleep CLog (Llog (logidx dev)) ;; begin_op_loop dev fuel'
      else if LOGSIZE <? lg_n lg + (lg_outstanding lg + 1) * MAXOPBLOCKS then
        sleep CLog (Llog (logidx dev)) ;; begin_op_loop dev fuel'
      else
        ulog dev (fun lg => set_lg_outstanding (lg_outstanding lg + 1) lg) ;;
        release (Llog (logidx dev))
  end.
Definition begin_op (dev : Z) : M unit :=
  acquire (Llog (logidx dev)) ;;
  waiting (begin_op_loop dev).

Definition end_op (dev : Z) : M unit :=
  acquire (Llog (logidx dev)) ;;
  ulog dev (fun lg => set_lg_outstanding (lg_outstanding lg - 1) lg) ;;
  lg ← glog dev;
  if ctrue (lg_committing lg) then panic "log[dev].committing" else
  let do_commit := lg_outstanding lg =? 0 in
  (if do_commit then ulog dev (set_lg_committing 1) else wakeup CLog) ;;
  release (Llog (logidx dev)) ;;
  when do_commit
    (commit dev ;;
     acquire (Llog (logidx dev)) ;;
     ulog dev (set_lg_committing 0) ;;
     wakeup CLog ;;
     release (Llog (logidx dev))).

(** The position log absorption finds: the index of [blockno], or [lh.n]. *)
Fixpoint absorb (fuel : nat) (dev : Z) (blockno i : Z) : M Z :=
  match fuel with
  | O => halt_with HFuel
  | S fuel' =>
      lg ← glog dev;
      if negb (i <? lg_n lg) then mret i else
      v ← get_lh_block dev i;
      if u32 v =? blockno then mret i else absorb fuel' dev blockno (i + 1)
  end.
Definition log_write (b : nat) : M unit :=
  x ← get_buf b;
  let dev := s32 (b_dev x) in
  lg ← glog dev;
  if (LOGSIZE <=? lg_n lg) || (lg_size lg - 1 <=? lg_n lg) then panic "too big a transaction" else
  if lg_outstanding lg <? 1 then panic "log_write outside of trans" else
  acquire (Llog (logidx dev)) ;;
  i ← absorb (S (Z.to_nat LOGSIZE)) dev (b_blockno x) 0;
  set_lh_block dev i (b_blockno x) ;;
  lg ← glog dev;
  when (i =? lg_n lg)
    (bpin b ;;
     ulog dev (fun lg => set_lg_n (lg_n lg + 1) lg)) ;;
  release (Llog (logidx dev)).
End Log.
