(* ===== verification/Fs.v ===== *)
(** * The file system (kernel/fs.c)

    Blocks, inodes, directories and path names, over the buffer cache and the
    log.  An in-memory inode is an index into icache.inode[].  readi and writei
    take user addresses, kernel addresses, or the kernel stack: [ToLocal]
    returns the bytes that go to a local variable of the caller, [FromLocal]
    carries those that come from one. *)
From S2P Require Import Prelude Mem Riscv State Spinlock Kalloc Vm Proc Sleeplock Bio Log.

(** ** kernel/fs.h, kernel/stat.h *)
Definition ROOTINO : Z := 1.
Definition FSMAGIC : Z := 0x10203040.
Definition NDIRECT : Z := 12.
Definition NINDIRECT : Z := BSIZE / 4.
Definition MAXFILE : Z := NDIRECT + NINDIRECT.
Definition dinode_size : Z := 64.
Definition IPB : Z := BSIZE / dinode_size.
Definition IBLOCK (i : Z) (sb : superblock) : Z := u32 (i / IPB + sb_inodestart sb).
Definition BPB : Z := BSIZE * 8.
Definition BBLOCK (b : Z) (sb : superblock) : Z := u32 (b / BPB + sb_bmapstart sb).
Definition DIRSIZ : nat := 14.
Definition dirent_size : Z := 16.
Definition T_DIR : Z := 1.
Definition T_FILE : Z := 2.
Definition T_DEVICE : Z := 3.
Arguments DIRSIZ : simpl never.

(** ** On-disk records *)
Definition get16 (d : list Z) (off : Z) : Z := le_to_Z (slice d (Z.to_nat off) 2).
Definition superblock_of (d : list Z) : superblock :=
  mk_superblock (get32 d 0) (get32 d 4) (get32 d 8) (get32 d 12) (get32 d 16) (get32 d 20)
    (get32 d 24) (get32 d 28).

(** struct dinode: type, major, minor, nlink (shorts), size, addrs[13]. *)
Definition addrs_bytes (l : list Z) : list Z := concat (Z_to_le 4 <$> l).
Definition dinode_bytes (ip : inode) : list Z :=
  Z_to_le 2 (i_type ip) ++ Z_to_le 2 (i_major ip) ++ Z_to_le 2 (i_minor ip) ++
  Z_to_le 2 (i_nlink ip) ++ Z_to_le 4 (i_size ip) ++ addrs_bytes (i_addrs ip).
(** [ip->type = dip->type; ...], [dip] at offset [o] of block [d]. *)
Definition load_dinode (d : list Z) (o : Z) (ip : inode) : inode :=
  mk_inode (i_dev ip) (i_inum ip) (i_ref ip) (i_lock ip) (i_valid ip)
    (s16 (get16 d o)) (s16 (get16 d (o + 2))) (s16 (get16 d (o + 4))) (s16 (get16 d (o + 6)))
    (get32 d (o + 8)) ((fun k => get32 d (o + 12 + 4 * Z.of_nat k)) <$> seq 0 13).
Definition dinode_off (inum : Z) : Z := dinode_size * (inum mod IPB).

(** struct dirent: inum (ushort), name[DIRSIZ]. *)
Definition de_inum (de : list Z) : Z := get16 de 0.
Definition de_name (de : list Z) : list Z := drop 2 de.

Section Fs.
Context `{DD : DiskDriver}.

Definition readsb (dev : Z) : M unit :=
  bp ← bread dev 1;
  x ← get_buf bp;
  modify (set_k_sb (superblock_of (b_data x))) ;;
  brelse bp.

Definition fsinit (dev : Z) : M unit :=
  readsb dev ;;
  sb ← gets k_sb;
  if negb (sb_magic sb =? FSMAGIC) then panic "invalid file system" else
  initlog dev sb.

Definition zero_block : list Z := replicate (Z.to_nat BSIZE) 0.
Definition bzero (dev bno : Z) : M unit :=
  bp ← bread dev (u32 bno);
  upd_buf bp (set_b_data zero_block) ;;
  log_write bp ;;
  brelse bp.

(** ** Blocks *)
(** The first clear bit of the bitmap block [d], for blocks [b + bi] below
    [size]; [bi] from [BPB - n]. *)
Fixpoint find_clear (d : list Z) (b size : Z) (bi : Z) (n : nat) : option Z :=
  match n with
  | O => None
  | S n' =>
      if negb (u32 (b + bi) <? size) then None else
      let m := Z.shiftl 1 (bi mod 8) in
      if Z.land (nthZ d (bi / 8)) m =? 0 then Some bi else find_clear d b size (bi + 1) n'
  end.
Definition set_bit (d : list Z) (bi : Z) : list Z :=
  <[Z.to_nat (bi / 8) := u8 (Z.lor (nthZ d (bi / 8)) (Z.shiftl 1 (bi mod 8)))]> d.
Definition clear_bit (d : list Z) (bi : Z) : list Z :=
  <[Z.to_nat (bi / 8) := u8 (Z.land (nthZ d (bi / 8)) (Z.lnot (Z.shiftl 1 (bi mod 8))))]> d.

Fixpoint balloc_loop (fuel : nat) (dev b : Z) : M Z :=
  match fuel with
  | O => halt_with HFuel
  | S fuel' =>
      sb ← gets k_sb;
      if negb (b <? sb_size sb) then panic "balloc: out of blocks" else
      bp ← bread dev (BBLOCK b sb);
      x ← get_buf bp;
      match find_clear (b_data x) b (sb_size sb) 0 (Z.to_nat BPB) with
      | Some bi =>
          upd_buf bp (fun x => set_b_data (set_bit (b_data x) bi) x) ;;
          log_write bp ;;
          brelse bp ;;
          bzero dev (b + bi) ;;
          mret (u32 (b + bi))
      | None =>
          brelse bp ;;
          balloc_loop fuel' dev (b + BPB)
      end
  end.
Definition balloc (dev : Z) : M Z :=
  sb ← gets k_sb;
  balloc_loop (S (S (Z.to_nat (sb_size sb / BPB)))) dev 0.

Definition bfree (dev b : Z) : M unit :=
  sb ← gets k_sb;
  bp ← bread dev (BBLOCK b sb);
  let bi := b mod BPB in
  let m := Z.shiftl 1 (bi mod 8) in
  x ← get_buf bp;
  if Z.land (nthZ (b_data x) (bi / 8)) m =? 0 then panic "freeing free block" else
  upd_buf bp (fun x => set_b_data (clear_bit (b_data x) bi) x) ;;
  log_write bp ;;
  brelse bp.

(** ** The inode cache *)
Definition iinit : M unit :=
  initlock Licache "icache" ;;
  for_loop 0 NINODE (fun i => initsleeplock (SInode i)).

(** The scan of iget: the cached entry, or the first empty slot. *)
Fixpoint iget_scan (ips : list inode) (dev inum : Z) (i : nat) (empty : option nat) :
    nat + option nat :=
  match ips with
  | [] => inr empty
  | ip :: ips' =>
      if (0 <? i_ref ip) && (i_dev ip =? dev) && (i_inum ip =? inum) then inl i
      else iget_scan ips' dev inum (S i)
             (match empty with None => if i_ref ip =? 0 then Some i else None | _ => empty end)
  end.
Definition iget (dev inum : Z) : M nat :=
  acquire Licache ;;
  ips ← gets k_inodes;
  match iget_scan ips dev inum 0 None with
  | inl i =>
      upd_inode i (fun ip => set_i_ref (i_ref ip + 1) ip) ;;
      release Licache ;;
      mret i
  | inr None => panic "iget: no inodes"
  | inr (Some i) =>
      upd_inode i (set_i_dev dev) ;;
      upd_inode i (set_i_inum inum) ;;
      upd_inode i (set_i_ref 1) ;;
      upd_inode i (set_i_valid 0) ;;
      release Licache ;;
      mret i
  end.

Definition idup (i : nat) : M nat :=
  acquire Licache ;;
  upd_inode i (fun ip => set_i_ref (i_ref ip + 1) ip) ;;
  release Licache ;;
  mret i.

(** A zeroed dinode with the given type. *)
Definition fresh_dinode (type : Z) : list Z := Z_to_le 2 type ++ replicate 62 0.
Fixpoint ialloc_loop (fuel : nat) (dev type inum : Z) : M nat :=
  match fuel with
  | O => halt_with HFuel
  | S fuel' =>
      sb ← gets k_sb;
      if negb (inum <? sb_ninodes sb) then panic "ialloc: no inodes" else
      bp ← bread dev (IBLOCK inum sb);
      x ← get_buf bp;
      if get16 (b_data x) (dinode_off inum) =? 0 then
        upd_buf bp (fun x => set_b_data
          (splice (b_data x) (Z.to_nat (dinode_off inum)) (fresh_dinode type)) x) ;;
        log_write bp ;;
        brelse bp ;;
        iget dev inum
      else
        brelse bp ;;
        ialloc_loop fuel' dev type (inum + 1)
  end.
Definition ialloc (dev type : Z) : M nat :=
  sb ← gets k_sb;
  ialloc_loop (S (Z.to_nat (sb_ninodes sb))) dev type 1.

Definition iupdate (i : nat) : M unit :=
  ip ← get_inode i;
  sb ← gets k_sb;
  bp ← bread (i_dev ip) (IBLOCK (i_inum ip) sb);
  ip ← get_inode i;
  upd_buf bp (fun x => set_b_data
    (splice (b_data x) (Z.to_nat (dinode_off (i_inum ip))) (dinode_bytes ip)) x) ;;
  log_write bp ;;
  brelse bp.

Definition ilock (i : nat) : M unit :=
  ip ← get_inode i;
  if i_ref ip <? 1 then panic "ilock" else
  acquiresleep (SInode i) ;;
  ip ← get_inode i;
  when (i_valid ip =? 0)
    (sb ← gets k_sb;
     bp ← bread (i_dev ip) (IBLOCK (i_inum ip) sb);
     x ← get_buf bp;
     upd_inode i (fun ip => load_dinode (b_data x) (dinode_off (i_inum ip)) ip) ;;
     brelse bp ;;
     upd_inode i (set_i_valid 1) ;;
     ip ← get_inode i;
     if i_type ip =? 0 then panic "ilock: no type" else mret tt).

Definition iunlock (i : nat) : M unit :=
  h ← holdingsleep (SInode i);
  if h =? 0 then panic "iunlock" else
  ip ← get_inode i;
  if i_ref ip <? 1 then panic "iunlock" else
  releasesleep (SInode i).

(** ** Inode content *)
Definition set_addr (i : nat) (k addr : Z) : M unit :=
  upd_inode i (fun ip => set_i_addrs (<[Z.to_nat k := addr]> (i_addrs ip)) ip).

Definition bmap (i : nat) (bn : Z) : M Z :=
  ip ← get_inode i;
  if bn <? NDIRECT then
    let addr := nthZ (i_addrs ip) bn in
    if addr =? 0 then addr ← balloc (i_dev ip); set_addr i bn addr ;; mret addr
    else mret addr
  else
    let bn := bn - NDIRECT in
    if bn <? NINDIRECT then
      let addr := nthZ (i_addrs ip) NDIRECT in
      addr ← (if addr =? 0 then addr ← balloc (i_dev ip); set_addr i NDIRECT addr ;; mret addr
              else mret addr);
      bp ← bread (i_dev ip) addr;
      x ← get_buf bp;
      let addr := get32 (b_data x) (4 * bn) in
      addr ← (if addr =? 0 then
                addr ← balloc (i_dev ip);
                upd_buf bp (fun x => set_b_data (put32 (b_data x) (4 * bn) addr) x) ;;
                log_write bp ;;
                mret addr
              else mret addr);
      brelse bp ;;
      mret addr
    else panic "bmap: out of range".

Definition itrunc_direct (i : nat) (k : nat) : M unit :=
  ip ← get_inode i;
  let a := nthZ (i_addrs ip) (Z.of_nat k) in
  when (ctrue a) (bfree (i_dev ip) a ;; set_addr i (Z.of_nat k) 0).
Definition itrunc (i : nat) : M unit :=
  for_loop 0 (Z.to_nat NDIRECT) (itrunc_direct i) ;;
  ip ← get_inode i;
  let ind := nthZ (i_addrs ip) NDIRECT in
  when (ctrue ind)
    (bp ← bread (i_dev ip) ind;
     for_loop 0 (Z.to_nat NINDIRECT) (fun j =>
       x ← get_buf bp;
       let a := get32 (b_data x) (4 * Z.of_nat j) in
       when (ctrue a) (bfree (i_dev ip) a)) ;;
     brelse bp ;;
     bfree (i_dev ip) ind ;;
     set_addr i NDIRECT 0) ;;
  upd_inode i (set_i_size 0) ;;
  iupdate i.

Definition iput (i : nat) : M unit :=
  acquire Licache ;;
  ip ← get_inode i;
  when ((i_ref ip =? 1) && ctrue (i_valid ip) && (i_nlink ip =? 0))
    (acquiresleep (SInode i) ;;
     release Licache ;;
     itrunc i ;;
     upd_inode i (set_i_type 0) ;;
     iupdate i ;;
     upd_inode i (set_i_valid 0) ;;
     releasesleep (SInode i) ;;
     acquire Licache) ;;
  upd_inode i (fun ip => set_i_ref (i_ref ip - 1) ip) ;;
  release Licache.

Definition iunlockput (i : nat) : M unit := iunlock i ;; iput i.

(** struct stat: dev, ino, type, nlink, (4 bytes of padding), size. *)
Record stat := mk_stat { st_dev : Z; st_ino : Z; st_type : Z; st_nlink : Z; st_size : Z }.
Definition stati (i : nat) : M stat :=
  ip ← get_inode i;
  mret (mk_stat (s32 (i_dev ip)) (i_inum ip) (i_type ip) (i_nlink ip) (i_size ip)).

(** Where the bytes of readi go and those of writei come from. *)
Inductive iodst := ToUser (va : Z) | ToKernel (pa : Z) | ToLocal.
Inductive iosrc := FromUser (va : Z) | FromKernel (pa : Z) | FromLocal (bs : list Z).
Definition dst_add (d : iodst) (m : Z) : iodst :=
  match d with ToUser va => ToUser (u64 (va + m)) | ToKernel pa => ToKernel (u64 (pa + m)) | ToLocal => ToLocal end.
Definition src_add (d : iosrc) (m : Z) : iosrc :=
  match d with
  | FromUser va => FromUser (u64 (va + m))
  | FromKernel pa => FromKernel (u64 (pa + m))
  | FromLocal bs => FromLocal (drop (Z.to_nat m) bs)
  end.
Definition copy_to (d : iodst) (bs : list Z) (m : Z) : M Z :=
  match d with
  | ToUser va => either_copyout true va bs m
  | ToKernel pa => either_copyout false pa bs m
  | ToLocal => mret 0
  end.
Definition copy_from (d : iosrc) (m : Z) : M (Z * list Z) :=
  match d with
  | FromUser va => either_copyin true va m
  | FromKernel pa => either_copyin false pa m
  | FromLocal bs => mret (0, take (Z.to_nat m) bs)
  end.

Fixpoint readi_loop (fuel : nat) (i : nat) (dst : iodst) (off n tot : Z) (acc : list Z) :
    M (list Z) :=
  match fuel with
  | O => halt_with HFuel
  | S fuel' =>
      if negb (tot <? n) then mret acc else
      a ← bmap i (off / BSIZE);
      ip ← get_inode i;
      bp ← bread (i_dev ip) a;
      let m := Z.min (n - tot) (BSIZE - off mod BSIZE) in
      x ← get_buf bp;
      let bs := slice (b_data x) (Z.to_nat (off mod BSIZE)) (Z.to_nat m) in
      r ← copy_to dst bs m;
      if r =? -1 then brelse bp ;; mret acc else
      brelse bp ;;
      readi_loop fuel' i (dst_add dst m) (off + m) n (tot + m) (acc ++ bs)
  end.
(** The number of blocks [n] bytes can touch, and the last test. *)
Definition rw_fuel (n : Z) : nat := S (S (S (Z.to_nat (n / BSIZE)))).
Definition readi (i : nat) (dst : iodst) (off n : Z) : M (Z * list Z) :=
  ip ← get_inode i;
  if (i_size ip <? off) || (u32 (off + n) <? off) then mret (-1, []) else
  let n := if i_size ip <? u32 (off + n) then u32 (i_size ip - off) else n in
  bs ← readi_loop (rw_fuel n) i dst off n 0 [];
  mret (s32 n, bs).

(** The final [off] of the loop. *)
Fixpoint writei_loop (fuel : nat) (i : nat) (src : iosrc) (off n tot : Z) : M Z :=
  match fuel with
  | O => halt_with HFuel
  | S fuel' =>
      if negb (tot <? n) then mret off else
      a ← bmap i (off / BSIZE);
      ip ← get_inode i;
      bp ← bread (i_dev ip) a;
      let m := Z.min (n - tot) (BSIZE - off mod BSIZE) in
      rb ← copy_from src m;
      upd_buf bp (fun x => set_b_data (splice (b_data x) (Z.to_nat (off mod BSIZE)) rb.2) x) ;;
      if rb.1 =? -1 then brelse bp ;; mret off else
      log_write bp ;;
      brelse bp ;;
      writei_loop fuel' i (src_add src m) (off + m) n (tot + m)
  end.
Definition writei (i : nat) (src : iosrc) (off n : Z) : M Z :=
  ip ← get_inode i;
  if (i_size ip <? off) || (u32 (off + n) <? off) then mret (-1) else
  if MAXFILE * BSIZE <? u32 (off + n) then mret (-1) else
  off ← writei_loop (rw_fuel n) i src off n 0;
  when (0 <? n)
    (ip ← get_inode i;
     when (i_size ip <? off) (upd_inode i (set_i_size off)) ;;
     iupdate i) ;;
  mret (s32 n).

(** ** Directories *)
Definition namecmp (s t : list Z) : Z := strncmp s t DIRSIZ.

(** The inode and the offset of the entry. *)
Fixpoint dirlookup_loop (fuel : nat) (dp : nat) (name : list Z) (off : Z) : M (option (nat * Z)) :=
  match fuel with
  | O => halt_with HFuel
  | S fuel' =>
      ip ← get_inode dp;
      if negb (off <? i_size ip) then mret None else
      rd ← readi dp ToLocal off dirent_size;
      if negb (rd.1 =? dirent_size) then panic "dirlookup read" else
      let de := rd.2 in
      if de_inum de =? 0 then dirlookup_loop fuel' dp name (off + dirent_size) else
      if namecmp name (de_name de) =? 0 then
        ip ← get_inode dp;
        j ← iget (i_dev ip) (de_inum de);
        mret (Some (j, off))
      else dirlookup_loop fuel' dp name (off + dirent_size)
  end.
Definition dirlookup (dp : nat) (name : list Z) : M (option (nat * Z)) :=
  ip ← get_inode dp;
  if negb (i_type ip =? T_DIR) then panic "dirlookup not DIR" else
  dirlookup_loop (S (S (Z.to_nat (i_size ip / dirent_size)))) dp name 0.

(** The offset of the first free entry, and what [de] holds then: the last
    entry read, or the uninitialised local [de] if there was none. *)
Fixpoint dirlink_find (fuel : nat) (dp : nat) (off : Z) (de : list Z) : M (Z * list Z) :=
  match fuel with
  | O => halt_with HFuel
  | S fuel' =>
      ip ← get_inode dp;
      if negb (off <? i_size ip) then mret (off, de) else
      rd ← readi dp ToLocal off dirent_size;
      if negb (rd.1 =? dirent_size) then panic "dirlink read" else
      if de_inum rd.2 =? 0 then mret (off, rd.2)
      else dirlink_find fuel' dp (off + dirent_size) rd.2
  end.
Definition dirlink (dp : nat) (name : list Z) (inum : Z) : M Z :=
  r ← dirlookup dp name;
  match r with
  | Some (ip, _) => iput ip ;; mret (-1)
  | None =>
      ip ← get_inode dp;
      fd ← dirlink_find (S (S (Z.to_nat (i_size ip / dirent_size)))) dp 0
             (replicate (Z.to_nat dirent_size) 0);
      let de := Z_to_le 2 inum ++ strncpy (de_name fd.2) name DIRSIZ in
      w ← writei dp (FromLocal de) fd.1 dirent_size;
      if negb (w =? dirent_size) then panic "dirlink" else mret 0
  end.

(** ** Path names *)
Definition slash : Z := 47.
(** Skip the leading slashes. *)
Fixpoint skip_slashes (path : list Z) : list Z :=
  match path with c :: t => if c =? slash then skip_slashes t else path | [] => [] end.
(** The element up to the next '/' or NUL, and the rest. *)
Fixpoint take_elem (path : list Z) : list Z * list Z :=
  match path with
  | [] => ([], [])
  | c :: t => if (c =? slash) || (c =? 0) then ([], path)
              else let '(e, rest) := take_elem t in (c :: e, rest)
  end.
Definition skipelem (path name : list Z) : option (list Z * list Z) :=
  let path := skip_slashes path in
  if chr path =? 0 then None else
  let '(e, rest) := take_elem path in
  let name' := if (DIRSIZ <=? length e)%nat then splice name 0 (take DIRSIZ e)
               else splice name 0 (e ++ [0]) in
  Some (skip_slashes rest, name').

(** The inode found, and what [name] holds. *)
Fixpoint namex_loop (fuel : nat) (ip : nat) (path : list Z) (nameiparent : bool) (name : list Z) :
    M (option nat * list Z) :=
  match fuel with
  | O => halt_with HFuel
  | S fuel' =>
      match skipelem path name with
      | None => if nameiparent then iput ip ;; mret (None, name) else mret (Some ip, name)
      | Some (path, name) =>
          ilock ip ;;
          x ← get_inode ip;
          if negb (i_type x =? T_DIR) then iunlockput ip ;; mret (None, name) else
          if nameiparent && (chr path =? 0) then iunlock ip ;; mret (Some ip, name) else
          next ← dirlookup ip name;
          match next with
          | None => iunlockput ip ;; mret (None, name)
          | Some (next, _) => iunlockput ip ;; namex_loop fuel' next path nameiparent name
          end
      end
  end.
Definition namex (path : list Z) (nameiparent : bool) (name : list Z) : M (option nat * list Z) :=
  ip ← (if chr path =? slash then iget ROOTDEV ROOTINO
        else i ← myproc; p ← get_proc i; c ← of_option "cwd" (p_cwd p); idup c);
  namex_loop (S (length path)) ip path nameiparent name.

(** [char name[DIRSIZ];], a local. *)
Definition namei (path : list Z) : M (option nat) :=
  r ← namex path false (replicate DIRSIZ 0); mret r.1.
Definition nameiparent (path name : list Z) : M (option nat * list Z) := namex path true name.
End Fs.
