(* ===== verification/Pipe.v ===== *)
(** * Pipes (kernel/pipe.c)

    A pipe is the struct in the page at address [pi]; [k_pipes] holds the
    structs that exist.  pipealloc is in [File], with fileclose. *)
From S2P Require Import Prelude Mem Riscv State Spinlock Kalloc Vm Proc.

Definition PIPESIZE : Z := 512.
Definition get_pipe (pi : Z) : M pipe := ps ← gets k_pipes; of_option "struct pipe" (ps !! pi).
Definition upd_pipe (pi : Z) (f : pipe -> pipe) : M unit :=
  modify (fun s => set_k_pipes (alter f pi (k_pipes s)) s).

Section Pipe.
Context `{LD : Linker}.

Definition pipeclose (pi : Z) (writable : bool) : M unit :=
  acquire (Lpipe pi) ;;
  (if writable then upd_pipe pi (set_pi_writeopen 0) ;; wakeup (CPipeR pi)
   else upd_pipe pi (set_pi_readopen 0) ;; wakeup (CPipeW pi)) ;;
  p ← get_pipe pi;
  if (pi_readopen p =? 0) && (pi_writeopen p =? 0) then
    release (Lpipe pi) ;;
    modify (fun s => set_k_pipes (delete pi (k_pipes s)) s) ;;
    kfree pi
  else release (Lpipe pi).

(** [pi->data[pi->nwrite++ % PIPESIZE] = ch] *)
Definition pipe_put (ch : Z) (p : pipe) : pipe :=
  set_pi_nwrite (u32 (pi_nwrite p + 1))
    (set_pi_data (<[Z.to_nat (pi_nwrite p mod PIPESIZE) := u8 ch]> (pi_data p)) p).
(** [ch = pi->data[pi->nread++ % PIPESIZE]] *)
Definition pipe_head (p : pipe) : Z := nthZ (pi_data p) (pi_nread p mod PIPESIZE).
Definition pipe_pop (p : pipe) : pipe := set_pi_nread (u32 (pi_nread p + 1)) p.
Definition pipe_full (p : pipe) : bool := pi_nwrite p =? u32 (pi_nread p + PIPESIZE).
Definition pipe_empty (p : pipe) : bool := pi_nread p =? pi_nwrite p.

Definition killed : M bool := i ← myproc; p ← get_proc i; mret (ctrue (p_killed p)).

(** [while(pi->nwrite == pi->nread + PIPESIZE) ...]: false when the write
    fails, with the lock already released. *)
Fixpoint pipewrite_wait (pi : Z) (fuel : nat) : M bool :=
  match fuel with
  | O => halt_with HFuel
  | S fuel' =>
      p ← get_pipe pi;
      if negb (pipe_full p) then mret true else
      k ← (if pi_readopen p =? 0 then mret true else killed );
      if (k : bool) then release (Lpipe pi) ;; mret false else
      wakeup (CPipeR pi) ;;
      sleep (CPipeW pi) (Lpipe pi) ;;
      pipewrite_wait pi fuel'
  end.
Fixpoint pipewrite_loop (pi pagetable addr : Z) (n : nat) : M bool :=
  match n with
  | O => mret true
  | S n' =>
      ok ← waiting (pipewrite_wait pi);
      if negb ok then mret false else
      rb ← copyin pagetable addr 1;
      if rb.1 =? -1 then mret true else
      upd_pipe pi (pipe_put (chr rb.2)) ;;
      pipewrite_loop pi pagetable (u64 (addr + 1)) n'
  end.
Definition pipewrite (pi addr n : Z) : M Z :=
  i ← myproc;
  acquire (Lpipe pi) ;;
  pr ← get_proc i;
  ok ← pipewrite_loop pi (p_pagetable pr) addr (Z.to_nat n);
  if negb ok then mret (-1) else
  wakeup (CPipeR pi) ;;
  release (Lpipe pi) ;;
  mret n.

(** [while(pi->nread == pi->nwrite && pi->writeopen) ...]: false if killed,
    with the lock already released. *)
Fixpoint piperead_wait (pi : Z) (fuel : nat) : M bool :=
  match fuel with
  | O => halt_with HFuel
  | S fuel' =>
      p ← get_pipe pi;
      if negb (pipe_empty p && ctrue (pi_writeopen p)) then mret true else
      k ← killed;
      if (k : bool) then release (Lpipe pi) ;; mret false else
      sleep (CPipeR pi) (Lpipe pi) ;;
      piperead_wait pi fuel'
  end.
(** The number of bytes read, from [i] on. *)
Fixpoint piperead_loop (pi pagetable addr : Z) (i : Z) (n : nat) : M Z :=
  match n with
  | O => mret i
  | S n' =>
      p ← get_pipe pi;
      if pipe_empty p then mret i else
      let ch := pipe_head p in
      upd_pipe pi pipe_pop ;;
      r ← copyout pagetable addr [ch] 1;
      if r =? -1 then mret i else
      piperead_loop pi pagetable (u64 (addr + 1)) (i + 1) n'
  end.
Definition piperead (pi addr n : Z) : M Z :=
  j ← myproc;
  acquire (Lpipe pi) ;;
  ok ← waiting (piperead_wait pi);
  if negb ok then mret (-1) else
  pr ← get_proc j;
  i ← piperead_loop pi (p_pagetable pr) addr 0 (Z.to_nat n);
  wakeup (CPipeW pi) ;;
  release (Lpipe pi) ;;
  mret i.
End Pipe.
