(* ===== verification/File.v ===== *)
(** * Open files (kernel/file.c), and pipealloc (kernel/pipe.c) *)
From S2P Require Import Prelude Mem Riscv State Spinlock Kalloc Vm Proc Console Sleeplock Bio Log Fs Pipe.

Section File.
Context `{LD : Linker} `{DD : DiskDriver}.

Definition fileinit : M unit := initlock Lftable "ftable".

Fixpoint filealloc_scan (fs : list file) (i : nat) : option nat :=
  match fs with
  | [] => None
  | f :: fs' => if f_ref f =? 0 then Some i else filealloc_scan fs' (S i)
  end.
Definition filealloc : M (option nat) :=
  acquire Lftable ;;
  fs ← gets k_files;
  match filealloc_scan fs 0 with
  | Some f => upd_file f (set_f_ref 1) ;; release Lftable ;; mret (Some f)
  | None => release Lftable ;; mret None
  end.

Definition filedup (f : nat) : M nat :=
  acquire Lftable ;;
  x ← get_file f;
  if f_ref x <? 1 then panic "filedup" else
  upd_file f (fun x => set_f_ref (f_ref x + 1) x) ;;
  release Lftable ;;
  mret f.

Definition the_ip (x : file) : M nat := of_option "f->ip" (f_ip x).

Definition fileclose (f : nat) : M unit :=
  acquire Lftable ;;
  x ← get_file f;
  if f_ref x <? 1 then panic "fileclose" else
  upd_file f (fun x => set_f_ref (f_ref x - 1) x) ;;
  ff ← get_file f;
  if 0 <? f_ref ff then release Lftable else
  upd_file f (set_f_ref 0) ;;
  upd_file f (set_f_type FD_NONE) ;;
  release Lftable ;;
  match f_type ff with
  | FD_PIPE => pipeclose (f_pipe ff) (ctrue (f_writable ff))
  | FD_INODE | FD_DEVICE =>
      i ← the_ip ff;
      ip ← get_inode i;
      begin_op (s32 (i_dev ip)) ;;
      iput i ;;
      ip ← get_inode i;
      end_op (s32 (i_dev ip))
  | FD_NONE => mret tt
  end.

(** struct stat in memory, its padding zero. *)
Definition stat_bytes (st : stat) : list Z :=
  Z_to_le 4 (st_dev st) ++ Z_to_le 4 (st_ino st) ++ Z_to_le 2 (st_type st) ++
  Z_to_le 2 (st_nlink st) ++ [0; 0; 0; 0] ++ Z_to_le 8 (st_size st).
Definition filestat (f : nat) (addr : Z) : M Z :=
  j ← myproc;
  x ← get_file f;
  match f_type x with
  | FD_INODE | FD_DEVICE =>
      i ← the_ip x;
      ilock i ;;
      st ← stati i;
      iunlock i ;;
      p ← get_proc j;
      r ← copyout (p_pagetable p) addr (stat_bytes st) 24;
      if r <? 0 then mret (-1) else mret 0
  | _ => mret (-1)
  end.

(** devsw[major], [None] when the check on [major] fails. *)
Definition dev_entry (major : Z) : M (option (devfn * devfn)) :=
  if (major <? 0) || (Z.of_nat NDEV <=? major) then mret None else
  ds ← gets k_devsw; mret (ds !! Z.to_nat major).

Definition fileread (f : nat) (addr n : Z) : M Z :=
  x ← get_file f;
  if f_readable x =? 0 then mret (-1) else
  match f_type x with
  | FD_PIPE => piperead (f_pipe x) addr n
  | FD_DEVICE =>
      d ← dev_entry (f_major x);
      match d with
      | Some (DevConsole, _) => consoleread true addr n
      | _ => mret (-1)
      end
  | FD_INODE =>
      i ← the_ip x;
      ilock i ;;
      x ← get_file f;
      rb ← readi i (ToUser addr) (f_off x) (u32 n);
      when (0 <? rb.1) (upd_file f (fun x => set_f_off (u32 (f_off x + rb.1)) x)) ;;
      iunlock i ;;
      mret rb.1
  | FD_NONE => panic "fileread"
  end.

(** The most filewrite() writes in one transaction. *)
Definition filewrite_max : Z := ((MAXOPBLOCKS - 1 - 1 - 2) / 2) * BSIZE.
(** [while(i < n) ...]: the final [i]. *)
Fixpoint filewrite_loop (fuel : nat) (f ip : nat) (addr n i : Z) : M Z :=
  match fuel with
  | O => halt_with HFuel
  | S fuel' =>
      if negb (i <? n) then mret i else
      let n1 := Z.min (n - i) filewrite_max in
      x ← get_inode ip;
      begin_op (s32 (i_dev x)) ;;
      ilock ip ;;
      y ← get_file f;
      r ← writei ip (FromUser (u64 (addr + i))) (f_off y) n1;
      when (0 <? r) (upd_file f (fun y => set_f_off (u32 (f_off y + r)) y)) ;;
      iunlock ip ;;
      x ← get_inode ip;
      end_op (s32 (i_dev x)) ;;
      if r <? 0 then mret i else
      if negb (r =? n1) then panic "short filewrite" else
      filewrite_loop fuel' f ip addr n (i + r)
  end.
Definition filewrite (f : nat) (addr n : Z) : M Z :=
  x ← get_file f;
  if f_writable x =? 0 then mret (-1) else
  match f_type x with
  | FD_PIPE => pipewrite (f_pipe x) addr n
  | FD_DEVICE =>
      d ← dev_entry (f_major x);
      match d with
      | Some (_, DevConsole) => consolewrite true addr n
      | _ => mret (-1)
      end
  | FD_INODE =>
      ip ← the_ip x;
      i ← filewrite_loop (S (S (Z.to_nat (n / filewrite_max)))) f ip addr n 0;
      mret (if i =? n then n else -1)
  | FD_NONE => panic "filewrite"
  end.

(** ** pipealloc *)
Definition fresh_pipe : pipe := mk_pipe (replicate (Z.to_nat PIPESIZE) 5) 0 0 1 1.
Definition pipe_end (pi : Z) (readable writable : Z) (f : file) : file :=
  set_f_pipe pi (set_f_writable writable (set_f_readable readable (set_f_type FD_PIPE f))).
Definition close_opt (f : option nat) : M unit :=
  match f with Some f => fileclose f | None => mret tt end.
(** The two ends, or the [bad:] path. *)
Definition pipealloc : M (option (nat * nat)) :=
  f0 ← filealloc;
  f1 ← (match f0 with None => mret None | Some _ => filealloc end);
  match f0, f1 with
  | Some r, Some w =>
      pi ← kalloc;
      if pi =? 0 then close_opt f0 ;; close_opt f1 ;; mret None else
      modify (fun s => set_k_pipes (<[pi := fresh_pipe]> (k_pipes s)) s) ;;
      mod_lock (Lpipe pi) (fun _ => spinlock0) ;;
      upd_file r (pipe_end pi 1 0) ;;
      upd_file w (pipe_end pi 0 1) ;;
      mret (Some (r, w))
  | _, _ => close_opt f0 ;; close_opt f1 ;; mret None
  end.
End File.
