(* ===== verification/ProcLife.v ===== *)
(** * Creating and ending processes (kernel/proc.c: userinit, fork, exit) *)
From S2P Require Import Prelude Mem Riscv State Spinlock Kalloc Vm Proc Console Sleeplock Bio Log Fs Pipe File.

Section ProcLife.
Context `{LD : Linker} `{DD : DiskDriver}.

(** Machine code of the first process. *)
Definition initcode : list Z :=
  [0x17; 0x05; 0x00; 0x00; 0x13; 0x05; 0x05; 0x02;
   0x97; 0x05; 0x00; 0x00; 0x93; 0x85; 0x05; 0x02;
   0x9d; 0x48; 0x73; 0x00; 0x00; 0x00; 0x89; 0x48;
   0x73; 0x00; 0x00; 0x00; 0xef; 0xf0; 0xbf; 0xff;
   0x2f; 0x69; 0x6e; 0x69; 0x74; 0x00; 0x00; 0x01;
   0x20; 0x00; 0x00; 0x00; 0x00; 0x00; 0x00; 0x00;
   0x00; 0x00; 0x00].

Definition userinit : M unit :=
  r ← allocproc;
  modify (set_k_initproc r) ;;
  i ← of_option "allocproc() is null" r;
  p ← get_proc i;
  uvminit (p_pagetable p) initcode (Z.of_nat (length initcode)) ;;
  upd_proc i (set_p_sz PGSIZE) ;;
  tf_set (p_tf p) tf_epc 0 ;;
  tf_set (p_tf p) tf_sp PGSIZE ;;
  upd_proc i (fun p => set_p_name (safestrcpy (p_name p) (zs "initcode") 16) p) ;;
  cwd ← namei (zs "/");
  upd_proc i (set_p_cwd cwd) ;;
  upd_proc i (set_p_state RUNNABLE) ;;
  release (Lproc i).

(** [for(i = 0; i < NOFILE; i++) if(p->ofile[i]) np->ofile[i] = filedup(...)] *)
Definition fork_files (i np k : nat) : M unit :=
  p ← get_proc i;
  match p_ofile p !! k with
  | Some (Some f) =>
      f' ← filedup f;
      upd_proc np (fun q => set_p_ofile (<[k := Some f']> (p_ofile q)) q)
  | _ => mret tt
  end.
Definition fork : M Z :=
  i ← myproc;
  r ← allocproc;
  match r with
  | None => mret (-1)
  | Some np =>
      p ← get_proc i;
      q ← get_proc np;
      c ← uvmcopy (p_pagetable p) (p_pagetable q) (p_sz p);
      if c <? 0 then freeproc np ;; release (Lproc np) ;; mret (-1) else
      upd_proc np (set_p_sz (p_sz p)) ;;
      upd_proc np (set_p_parent (Some i)) ;;
      mem_write (fun m => store_bytes m (p_tf q) (load_bytes m (p_tf p) (Z.to_nat tf_size))) ;;
      tf_set (p_tf q) (tf_a 0) 0 ;;
      for_loop 0 NOFILE (fork_files i np) ;;
      cwd ← of_option "cwd" (p_cwd p);
      cwd ← idup cwd;
      upd_proc np (set_p_cwd (Some cwd)) ;;
      upd_proc np (fun q => set_p_name (safestrcpy (p_name q) (p_name p) 16) q) ;;
      q ← get_proc np;
      let pid := p_pid q in
      upd_proc np (set_p_state RUNNABLE) ;;
      release (Lproc np) ;;
      mret pid
  end.

Definition exit_files (i fd : nat) : M unit :=
  p ← get_proc i;
  match p_ofile p !! fd with
  | Some (Some f) =>
      fileclose f ;;
      upd_proc i (fun p => set_p_ofile (<[fd := None]> (p_ofile p)) p)
  | _ => mret tt
  end.
Definition exit (status : Z) : M unit :=
  i ← myproc;
  init ← gets k_initproc;
  if bool_decide (Some i = init) then panic "init exiting" else
  for_loop 0 NOFILE (exit_files i) ;;
  begin_op ROOTDEV ;;
  p ← get_proc i;
  cwd ← of_option "cwd" (p_cwd p);
  iput cwd ;;
  end_op ROOTDEV ;;
  upd_proc i (set_p_cwd None) ;;
  init ← gets k_initproc;
  init ← of_option "initproc" init;
  acquire (Lproc init) ;;
  wakeup1 init ;;
  release (Lproc init) ;;
  acquire (Lproc i) ;;
  p ← get_proc i;
  let original_parent := p_parent p in
  release (Lproc i) ;;
  op ← of_option "p->parent" original_parent;
  acquire (Lproc op) ;;
  acquire (Lproc i) ;;
  reparent i ;;
  wakeup1 op ;;
  upd_proc i (set_p_xstate status) ;;
  upd_proc i (set_p_state ZOMBIE) ;;
  release (Lproc op) ;;
  sched ;;
  panic "zombie exit".
End ProcLife.
