(* ===== verification/Exec.v ===== *)
(** * Running a program (kernel/exec.c) *)
From S2P Require Import Prelude Mem Riscv State Spinlock Kalloc Vm Proc Sleeplock Bio Log Fs.

(** ** ELF headers (kernel/elf.h) *)
Definition get64 (d : list Z) (off : Z) : Z := le_to_Z (slice d (Z.to_nat off) 8).
Definition ELF_MAGIC : Z := 0x464C457F.
Definition ELF_PROG_LOAD : Z := 1.
Definition elfhdr_size : Z := 64.
Definition proghdr_size : Z := 56.
Definition elf_magic (h : list Z) : Z := get32 h 0.
Definition elf_entry (h : list Z) : Z := get64 h 24.
Definition elf_phoff (h : list Z) : Z := get64 h 32.
Definition elf_phnum (h : list Z) : Z := get16 h 56.
Definition ph_type (h : list Z) : Z := get32 h 0.
Definition ph_off (h : list Z) : Z := get64 h 8.
Definition ph_vaddr (h : list Z) : Z := get64 h 16.
Definition ph_filesz (h : list Z) : Z := get64 h 32.
Definition ph_memsz (h : list Z) : Z := get64 h 40.

Section Exec.
Context `{LD : Linker} `{DD : DiskDriver}.

(** ** loadseg *)
Fixpoint loadseg_loop (fuel : nat) (pagetable va : Z) (ip : nat) (offset sz i : Z) : M Z :=
  match fuel with
  | O => halt_with HFuel
  | S fuel' =>
      if negb (i <? sz) then mret 0 else
      pa ← walkaddr pagetable (u64 (va + i));
      if pa =? 0 then panic "loadseg: address should exist" else
      let n := if sz - i <? PGSIZE then sz - i else PGSIZE in
      rb ← readi ip (ToKernel pa) (u32 (offset + i)) n;
      if negb (rb.1 =? n) then mret (-1) else
      loadseg_loop fuel' pagetable va ip offset sz (u32 (i + PGSIZE))
  end.
Definition loadseg (pagetable va : Z) (ip : nat) (offset sz : Z) : M Z :=
  if negb (va mod PGSIZE =? 0) then panic "loadseg: va must be page aligned" else
  loadseg_loop (S (S (Z.to_nat (sz / PGSIZE)))) pagetable va ip offset sz 0.

(** ** The program headers: the new [sz], or [None] and [sz] at [goto bad]. *)
Fixpoint exec_load (n : nat) (pagetable : Z) (ip : nat) (off sz : Z) : M (bool * Z) :=
  match n with
  | O => mret (true, sz)
  | S n' =>
      rb ← readi ip ToLocal (u32 off) proghdr_size;
      if negb (rb.1 =? proghdr_size) then mret (false, sz) else
      let ph := rb.2 in
      let off' := s32 (off + proghdr_size) in
      if negb (ph_type ph =? ELF_PROG_LOAD) then exec_load n' pagetable ip off' sz else
      if ph_memsz ph <? ph_filesz ph then mret (false, sz) else
      if u64 (ph_vaddr ph + ph_memsz ph) <? ph_vaddr ph then mret (false, sz) else
      sz ← uvmalloc pagetable sz (u64 (ph_vaddr ph + ph_memsz ph));
      if sz =? 0 then mret (false, sz) else
      if negb (ph_vaddr ph mod PGSIZE =? 0) then mret (false, sz) else
      r ← loadseg pagetable (ph_vaddr ph) ip (u32 (ph_off ph)) (u32 (ph_filesz ph));
      if r <? 0 then mret (false, sz) else
      exec_load n' pagetable ip off' sz
  end.

(** The NUL-terminated string at a kernel address; argument strings fit in the
    page sys_exec put them in. *)
Definition kstr (m : mem) (a : Z) : list Z := cstr (load_bytes m a (Z.to_nat PGSIZE)).

(** Push the argument strings: [ustack] so far and [sp], or [None] at [bad]. *)
Fixpoint exec_args (pagetable stackbase : Z) (argv : list Z) (argc : nat) (sp : Z) (ustack : list Z) :
    M (option (Z * list Z)) :=
  match argv with
  | [] => mret (Some (sp, ustack))
  | a :: argv' =>
      if a =? 0 then mret (Some (sp, ustack)) else
      if (MAXARG <=? argc)%nat then mret None else
      str ← reads (fun s => kstr (k_mem s) a);
      let len := Z.of_nat (length str) + 1 in
      let sp := u64 (sp - len) in
      let sp := u64 (sp - sp mod 16) in
      if sp <? stackbase then mret None else
      r ← copyout pagetable sp (str ++ [0]) len;
      if r <? 0 then mret None else
      exec_args pagetable stackbase argv' (S argc) sp (ustack ++ [sp])
  end.

(** [for(last=s=path; *s; s++) if( *s == '/') last = s+1;] *)
Fixpoint last_elem (path last : list Z) : list Z :=
  match path with
  | [] => last
  | c :: t => if c =? 0 then last else last_elem t (if c =? slash then t else last)
  end.

(** [bad:] before and after the inode was put. *)
Definition exec_bad (pagetable sz : Z) (ip : option nat) : M Z :=
  when (ctrue pagetable) (proc_freepagetable pagetable sz) ;;
  match ip with
  | Some ip => iunlockput ip ;; end_op ROOTDEV
  | None => mret tt
  end ;;
  mret (-1).

(** From the stack on, once the program is loaded. *)
Definition exec_stack (path argv : list Z) (elf : list Z) (pagetable sz0 : Z) : M Z :=
  i ← myproc;
  p ← get_proc i;
  let oldsz := p_sz p in
  let sz1 := PGROUNDUP sz0 in
  sz ← uvmalloc pagetable sz1 (u64 (sz1 + 2 * PGSIZE));
  if sz =? 0 then exec_bad pagetable sz None else
  uvmclear pagetable (u64 (sz - 2 * PGSIZE)) ;;
  let stackbase := u64 (sz - PGSIZE) in
  r ← exec_args pagetable stackbase argv 0 sz [];
  match r with
  | None => exec_bad pagetable sz None
  | Some (sp, ustack) =>
      let argc := Z.of_nat (length ustack) in
      let sp := u64 (sp - (argc + 1) * 8) in
      let sp := u64 (sp - sp mod 16) in
      if sp <? stackbase then exec_bad pagetable sz None else
      r ← copyout pagetable sp (concat (Z_to_le 8 <$> (ustack ++ [0]))) ((argc + 1) * 8);
      if r <? 0 then exec_bad pagetable sz None else
      p ← get_proc i;
      tf_set (p_tf p) (tf_a 1) sp ;;
      upd_proc i (fun p => set_p_name (safestrcpy (p_name p) (last_elem path path) 16) p) ;;
      let oldpagetable := p_pagetable p in
      upd_proc i (set_p_pagetable pagetable) ;;
      upd_proc i (set_p_sz sz) ;;
      tf_set (p_tf p) tf_epc (elf_entry elf) ;;
      tf_set (p_tf p) tf_sp sp ;;
      proc_freepagetable oldpagetable oldsz ;;
      mret argc
  end.

Definition exec (path : list Z) (argv : list Z) : M Z :=
  i ← myproc;
  begin_op ROOTDEV ;;
  r ← namei path;
  match r with
  | None => end_op ROOTDEV ;; mret (-1)
  | Some ip =>
      ilock ip ;;
      rb ← readi ip ToLocal 0 elfhdr_size;
      if negb (rb.1 =? elfhdr_size) then exec_bad 0 0 (Some ip) else
      let elf := rb.2 in
      if negb (elf_magic elf =? ELF_MAGIC) then exec_bad 0 0 (Some ip) else
      pagetable ← proc_pagetable i;
      if pagetable =? 0 then exec_bad 0 0 (Some ip) else
      r ← exec_load (Z.to_nat (elf_phnum elf)) pagetable ip (s32 (elf_phoff elf)) 0;
      if negb r.1 then exec_bad pagetable r.2 (Some ip) else
      iunlockput ip ;;
      end_op ROOTDEV ;;
      exec_stack path argv elf pagetable r.2
  end.
End Exec.
