(* ===== verification/Sysargs.v ===== *)
(** * System call arguments (kernel/syscall.c) and the process calls
    (kernel/sysproc.c, sys_ntas of kernel/spinlock.c) *)
From S2P Require Import Prelude Mem Riscv State Spinlock Kalloc Vm Proc Console Sleeplock Bio Log Fs Pipe File ProcLife.

(** ** Fetching arguments *)
(** The value read goes with the status. *)
Definition fetchaddr (addr : Z) : M (Z * Z) :=
  i ← myproc;
  p ← get_proc i;
  if (p_sz p <=? addr) || (p_sz p <? u64 (addr + 8)) then mret (-1, 0) else
  rb ← copyin (p_pagetable p) addr 8;
  if negb (rb.1 =? 0) then mret (-1, 0) else mret (0, le_to_Z rb.2).

(** The bytes copied to [buf] go with the length. *)
Definition fetchstr (addr max : Z) : M (Z * list Z) :=
  i ← myproc;
  p ← get_proc i;
  rb ← copyinstr (p_pagetable p) addr max;
  if rb.1 <? 0 then mret rb else mret (Z.of_nat (strlen rb.2), rb.2).

Definition argraw (n : Z) : M Z :=
  i ← myproc;
  p ← get_proc i;
  if (0 <=? n) && (n <=? 5) then tf_get (p_tf p) (tf_a n) else panic "argraw".
Definition argint (n : Z) : M Z := v ← argraw n; mret (s32 v).
Definition argaddr (n : Z) : M Z := argraw n.
Definition argstr (n max : Z) : M (Z * list Z) := addr ← argaddr n; fetchstr addr max.

Section Sysargs.
Context `{LD : Linker} `{DD : DiskDriver}.

(** ** kernel/sysproc.c *)
Definition sys_exit : M Z := n ← argint 0; exit n ;; mret 0.
Definition sys_getpid : M Z := i ← myproc; p ← get_proc i; mret (p_pid p).
Definition sys_fork : M Z := fork.
Definition sys_wait : M Z := p ← argaddr 0; wait p.
Definition sys_sbrk : M Z :=
  n ← argint 0;
  i ← myproc;
  p ← get_proc i;
  let addr := s32 (p_sz p) in
  r ← growproc n;
  if r <? 0 then mret (-1) else mret addr.

(** [while(ticks - ticks0 < n)], an unsigned comparison. *)
Fixpoint sys_sleep_loop (ticks0 n : Z) (fuel : nat) : M Z :=
  match fuel with
  | O => halt_with HFuel
  | S fuel' =>
      ticks ← gets k_ticks;
      if u32 (ticks - ticks0) <? u32 n then
        i ← myproc;
        p ← get_proc i;
        if ctrue (p_killed p) then release Lticks ;; mret (-1) else
        sleep CTicks Lticks ;;
        sys_sleep_loop ticks0 n fuel'
      else release Lticks ;; mret 0
  end.
Definition sys_sleep : M Z :=
  n ← argint 0;
  acquire Lticks ;;
  ticks0 ← gets k_ticks;
  waiting (sys_sleep_loop ticks0 n).

Definition sys_kill : M Z := pid ← argint 0; kill pid.
Definition sys_uptime : M Z :=
  acquire Lticks ;;
  xticks ← gets k_ticks;
  release Lticks ;;
  mret xticks.

(** ** sys_ntas (kernel/spinlock.c) *)
Definition reset_stats (l : lockid) : M unit :=
  mod_lock l (set_lk_nts 0) ;; mod_lock l (set_lk_n 0).
Fixpoint each_lock (ls : list lockid) (f : lockid -> M unit) : M unit :=
  match ls with [] => mret tt | l :: ls' => f l ;; each_lock ls' f end.
Definition counted_name (name : string) : bool :=
  (strncmp (zs name) (zs "bcache") 6 =? 0) || (strncmp (zs name) (zs "kmem") 4 =? 0).
Fixpoint ntas_total (ls : list lockid) (tot : Z) : M Z :=
  match ls with
  | [] => mret tot
  | l :: ls' =>
      lk ← get_lock l;
      if counted_name (lk_name lk)
      then print_lock l ;; ntas_total ls' (s32 (tot + lk_nts lk))
      else ntas_total ls' tot
  end.
(** The index of the most contended lock below [last]. *)
Fixpoint ntas_top (lk : lkstate) (ls all : list lockid) (i top : nat) (last : Z) : nat :=
  match ls with
  | [] => top
  | l :: ls' =>
      let nts := lk_nts (lock_of lk l) in
      let top_nts := match all !! top with Some t => lk_nts (lock_of lk t) | None => 0 end in
      let top' := if (top_nts <? nts) && (nts <? u32 last) then i else top in
      ntas_top lk ls' all (S i) top' last
  end.
Fixpoint ntas_top5 (n : nat) (last : Z) : M unit :=
  match n with
  | O => mret tt
  | S n' =>
      lk ← gets k_lk;
      let all := l_tab lk in
      let top := ntas_top lk all all 0 0 last in
      l ← of_option "locks[top]" (all !! top);
      print_lock l ;;
      x ← get_lock l;
      ntas_top5 n' (s32 (lk_nts x))
  end.
Definition sys_ntas : M Z :=
  zero ← argint 0;
  lk ← gets k_lk;
  if zero =? 0 then each_lock (l_tab lk) reset_stats ;; mret 0 else
  printf (zs "=== lock kmem/bcache stats" ++ nl) [] ;;
  tot ← ntas_total (l_tab lk) 0;
  printf (zs "=== top 5 contended locks:" ++ nl) [] ;;
  ntas_top5 5 100000000 ;;
  mret tot.
End Sysargs.
