(* ===== verification/Sysfile.v ===== *)
(** * File system calls (kernel/sysfile.c) and the dispatcher (syscall()) *)
From S2P Require Import Prelude Mem Riscv State Spinlock Kalloc Vm Proc Console Sleeplock Bio Log Fs Pipe File ProcLife Exec Sysargs.

Definition O_RDONLY : Z := 0x000.
Definition O_WRONLY : Z := 0x001.
Definition O_RDWR : Z := 0x002.
Definition O_CREATE : Z := 0x200.

Section Sysfile.
Context `{LD : Linker} `{DD : DiskDriver}.

(** ** File descriptors *)
(** The descriptor and its file, or [None] for -1. *)
Definition argfd (n : Z) : M (option (nat * nat)) :=
  fd ← argint n;
  if (fd <? 0) || (Z.of_nat NOFILE <=? fd) then mret None else
  i ← myproc;
  p ← get_proc i;
  match p_ofile p !! Z.to_nat fd with
  | Some (Some f) => mret (Some (Z.to_nat fd, f))
  | _ => mret None
  end.

Fixpoint fd_scan (ofile : list (option nat)) (fd : nat) : option nat :=
  match ofile with
  | [] => None
  | None :: _ => Some fd
  | Some _ :: l => fd_scan l (S fd)
  end.
Definition set_ofile (i fd : nat) (f : option nat) : M unit :=
  upd_proc i (fun p => set_p_ofile (<[fd := f]> (p_ofile p)) p).
Definition fdalloc (f : nat) : M (option nat) :=
  i ← myproc;
  p ← get_proc i;
  match fd_scan (p_ofile p) 0 with
  | Some fd => set_ofile i fd (Some f) ;; mret (Some fd)
  | None => mret None
  end.

Definition sys_dup : M Z :=
  r ← argfd 0;
  match r with
  | None => mret (-1)
  | Some (_, f) =>
      fd ← fdalloc f;
      match fd with
      | None => mret (-1)
      | Some fd => filedup f ;; mret (Z.of_nat fd)
      end
  end.

Definition sys_read : M Z :=
  r ← argfd 0;
  match r with
  | None => mret (-1)
  | Some (_, f) => n ← argint 2; p ← argaddr 1; fileread f p n
  end.
Definition sys_write : M Z :=
  r ← argfd 0;
  match r with
  | None => mret (-1)
  | Some (_, f) => n ← argint 2; p ← argaddr 1; filewrite f p n
  end.
Definition sys_close : M Z :=
  r ← argfd 0;
  match r with
  | None => mret (-1)
  | Some (fd, f) =>
      i ← myproc;
      set_ofile i fd None ;;
      fileclose f ;;
      mret 0
  end.
Definition sys_fstat : M Z :=
  r ← argfd 0;
  match r with
  | None => mret (-1)
  | Some (_, f) => st ← argaddr 1; filestat f st
  end.

(** ** Links *)
Definition bump_nlink (ip : nat) (d : Z) : M unit :=
  upd_inode ip (fun x => set_i_nlink (s16 (i_nlink x + d)) x).
Definition link_bad (ip : nat) : M Z :=
  ilock ip ;;
  bump_nlink ip (-1) ;;
  iupdate ip ;;
  iunlockput ip ;;
  end_op ROOTDEV ;;
  mret (-1).
Definition sys_link : M Z :=
  o ← argstr 0 MAXPATH;
  if o.1 <? 0 then mret (-1) else
  w ← argstr 1 MAXPATH;
  if w.1 <? 0 then mret (-1) else
  begin_op ROOTDEV ;;
  r ← namei o.2;
  match r with
  | None => end_op ROOTDEV ;; mret (-1)
  | Some ip =>
      ilock ip ;;
      x ← get_inode ip;
      if i_type x =? T_DIR then iunlockput ip ;; end_op ROOTDEV ;; mret (-1) else
      bump_nlink ip 1 ;;
      iupdate ip ;;
      iunlock ip ;;
      r ← nameiparent w.2 (replicate DIRSIZ 0);
      match r.1 with
      | None => link_bad ip
      | Some dp =>
          ilock dp ;;
          d ← get_inode dp;
          x ← get_inode ip;
          l ← (if negb (i_dev d =? i_dev x) then mret (-1) else dirlink dp r.2 (i_inum x));
          if l <? 0 then iunlockput dp ;; link_bad ip else
          iunlockput dp ;;
          iput ip ;;
          end_op ROOTDEV ;;
          mret 0
      end
  end.

Fixpoint isdirempty_loop (fuel : nat) (dp : nat) (off : Z) : M bool :=
  match fuel with
  | O => halt_with HFuel
  | S fuel' =>
      d ← get_inode dp;
      if negb (off <? i_size d) then mret true else
      rb ← readi dp ToLocal off dirent_size;
      if negb (rb.1 =? dirent_size) then panic "isdirempty: readi" else
      if negb (de_inum rb.2 =? 0) then mret false else
      isdirempty_loop fuel' dp (off + dirent_size)
  end.
Definition isdirempty (dp : nat) : M bool :=
  d ← get_inode dp;
  isdirempty_loop (S (S (Z.to_nat (i_size d / dirent_size)))) dp (2 * dirent_size).

Definition unlink_bad (dp : nat) : M Z := iunlockput dp ;; end_op ROOTDEV ;; mret (-1).
(** Once the entry is known to exist, at [off], and [ip] is locked. *)
Definition unlink_entry (dp ip : nat) (off : Z) : M Z :=
  w ← writei dp (FromLocal (replicate (Z.to_nat dirent_size) 0)) off dirent_size;
  if negb (w =? dirent_size) then panic "unlink: writei" else
  x ← get_inode ip;
  when (i_type x =? T_DIR) (bump_nlink dp (-1) ;; iupdate dp) ;;
  iunlockput dp ;;
  bump_nlink ip (-1) ;;
  iupdate ip ;;
  iunlockput ip ;;
  end_op ROOTDEV ;;
  mret 0.
Definition sys_unlink : M Z :=
  a ← argstr 0 MAXPATH;
  if a.1 <? 0 then mret (-1) else
  begin_op ROOTDEV ;;
  r ← nameiparent a.2 (replicate DIRSIZ 0);
  match r.1 with
  | None => end_op ROOTDEV ;; mret (-1)
  | Some dp =>
      let name := r.2 in
      ilock dp ;;
      if (namecmp name (zs ".") =? 0) || (namecmp name (zs "..") =? 0) then unlink_bad dp else
      l ← dirlookup dp name;
      match l with
      | None => unlink_bad dp
      | Some (ip, off) =>
          ilock ip ;;
          x ← get_inode ip;
          if i_nlink x <? 1 then panic "unlink: nlink < 1" else
          e ← (if i_type x =? T_DIR then isdirempty ip else mret true);
          if (e : bool) then unlink_entry dp ip off
          else iunlockput ip ;; unlink_bad dp
      end
  end.

(** ** Creating and opening *)
Definition create (path : list Z) (type major minor : Z) : M (option nat) :=
  r ← nameiparent path (replicate DIRSIZ 0);
  match r.1 with
  | None => mret None
  | Some dp =>
      let name := r.2 in
      ilock dp ;;
      l ← dirlookup dp name;
      match l with
      | Some (ip, _) =>
          iunlockput dp ;;
          ilock ip ;;
          x ← get_inode ip;
          if (type =? T_FILE) && ((i_type x =? T_FILE) || (i_type x =? T_DEVICE))
          then mret (Some ip)
          else iunlockput ip ;; mret None
      | None =>
          d ← get_inode dp;
          ip ← ialloc (i_dev d) type;
          ilock ip ;;
          upd_inode ip (set_i_major major) ;;
          upd_inode ip (set_i_minor minor) ;;
          upd_inode ip (set_i_nlink 1) ;;
          iupdate ip ;;
          x ← get_inode ip;
          when (type =? T_DIR)
            (bump_nlink dp 1 ;;
             iupdate dp ;;
             r1 ← dirlink ip (zs ".") (i_inum x);
             if r1 <? 0 then panic "create dots" else
             d ← get_inode dp;
             r2 ← dirlink ip (zs "..") (i_inum d);
             if r2 <? 0 then panic "create dots" else mret tt) ;;
          r3 ← dirlink dp name (i_inum x);
          if r3 <? 0 then panic "create: dirlink" else
          iunlockput dp ;;
          mret (Some ip)
      end
  end.

Definition open_fail (ip : nat) : M Z := iunlockput ip ;; end_op ROOTDEV ;; mret (-1).
(** From the locked inode on. *)
Definition open_inode (ip : nat) (omode : Z) : M Z :=
  x ← get_inode ip;
  if (i_type x =? T_DEVICE) && ((i_major x <? 0) || (Z.of_nat NDEV <=? i_major x))
  then open_fail ip else
  f ← filealloc;
  match f with
  | None => open_fail ip
  | Some f =>
      fd ← fdalloc f;
      match fd with
      | None => fileclose f ;; open_fail ip
      | Some fd =>
          (if i_type x =? T_DEVICE then
             upd_file f (set_f_type FD_DEVICE) ;;
             upd_file f (set_f_major (i_major x)) ;;
             upd_file f (set_f_minor (i_minor x))
           else upd_file f (set_f_type FD_INODE)) ;;
          upd_file f (set_f_ip (Some ip)) ;;
          upd_file f (set_f_off 0) ;;
          upd_file f (set_f_readable (b2z (negb (ctrue (Z.land omode O_WRONLY))))) ;;
          upd_file f (set_f_writable
            (b2z (ctrue (Z.land omode O_WRONLY) || ctrue (Z.land omode O_RDWR)))) ;;
          iunlock ip ;;
          end_op ROOTDEV ;;
          mret (Z.of_nat fd)
      end
  end.
Definition sys_open : M Z :=
  a ← argstr 0 MAXPATH;
  if a.1 <? 0 then mret (-1) else
  omode ← argint 1;
  begin_op ROOTDEV ;;
  if ctrue (Z.land omode O_CREATE) then
    r ← create a.2 T_FILE 0 0;
    match r with
    | None => end_op ROOTDEV ;; mret (-1)
    | Some ip => open_inode ip omode
    end
  else
    r ← namei a.2;
    match r with
    | None => end_op ROOTDEV ;; mret (-1)
    | Some ip =>
        ilock ip ;;
        x ← get_inode ip;
        if (i_type x =? T_DIR) && negb (omode =? O_RDONLY) then open_fail ip
        else open_inode ip omode
    end.

Definition create_and_close (path : Z * list Z) (type major minor : Z) : M Z :=
  r ← (if path.1 <? 0 then mret None else create path.2 type major minor);
  match r with
  | None => end_op ROOTDEV ;; mret (-1)
  | Some ip => iunlockput ip ;; end_op ROOTDEV ;; mret 0
  end.
Definition sys_mkdir : M Z :=
  begin_op ROOTDEV ;;
  a ← argstr 0 MAXPATH;
  create_and_close a T_DIR 0 0.
Definition sys_mknod : M Z :=
  begin_op ROOTDEV ;;
  a ← argstr 0 MAXPATH;
  if a.1 <? 0 then create_and_close a T_DEVICE 0 0 else
  major ← argint 1;
  minor ← argint 2;
  create_and_close a T_DEVICE (s16 major) (s16 minor).

Definition sys_chdir : M Z :=
  i ← myproc;
  begin_op ROOTDEV ;;
  a ← argstr 0 MAXPATH;
  r ← (if a.1 <? 0 then mret None else namei a.2);
  match r with
  | None => end_op ROOTDEV ;; mret (-1)
  | Some ip =>
      ilock ip ;;
      x ← get_inode ip;
      if negb (i_type x =? T_DIR) then iunlockput ip ;; end_op ROOTDEV ;; mret (-1) else
      iunlock ip ;;
      p ← get_proc i;
      cwd ← of_option "cwd" (p_cwd p);
      iput cwd ;;
      end_op ROOTDEV ;;
      upd_proc i (set_p_cwd (Some ip)) ;;
      mret 0
  end.

(** ** exec and pipe *)
(** Fetch the argument strings into pages: [argv] so far, and whether all
    went well. *)
Fixpoint fetch_args (n : nat) (uargv : Z) (argv : list Z) : M (bool * list Z) :=
  match n with
  | O => mret (false, argv)
  | S n' =>
      r ← fetchaddr (u64 (uargv + 8 * Z.of_nat (length argv)));
      if r.1 <? 0 then mret (false, argv) else
      if r.2 =? 0 then mret (true, argv) else
      pg ← kalloc;
      if pg =? 0 then panic "sys_exec kalloc" else
      s ← fetchstr r.2 PGSIZE;
      mem_write (fun m => store_bytes m pg s.2) ;;
      if s.1 <? 0 then mret (false, argv ++ [pg]) else
      fetch_args n' uargv (argv ++ [pg])
  end.
Fixpoint free_args (argv : list Z) : M unit :=
  match argv with [] => mret tt | a :: t => kfree a ;; free_args t end.
Definition sys_exec : M Z :=
  a ← argstr 0 MAXPATH;
  if a.1 <? 0 then mret (-1) else
  uargv ← argaddr 1;
  r ← fetch_args MAXARG uargv [];
  if negb r.1 then free_args r.2 ;; mret (-1) else
  ret ← exec a.2 r.2;
  free_args r.2 ;;
  mret ret.

Definition sys_pipe : M Z :=
  i ← myproc;
  fdarray ← argaddr 0;
  r ← pipealloc;
  match r with
  | None => mret (-1)
  | Some (rf, wf) =>
      fd0 ← fdalloc rf;
      match fd0 with
      | None => fileclose rf ;; fileclose wf ;; mret (-1)
      | Some fd0 =>
          fd1 ← fdalloc wf;
          match fd1 with
          | None => set_ofile i fd0 None ;; fileclose rf ;; fileclose wf ;; mret (-1)
          | Some fd1 =>
              p ← get_proc i;
              c0 ← copyout (p_pagetable p) fdarray (Z_to_le 4 (Z.of_nat fd0)) 4;
              c1 ← (if c0 <? 0 then mret c0
                    else copyout (p_pagetable p) (u64 (fdarray + 4)) (Z_to_le 4 (Z.of_nat fd1)) 4);
              if c1 <? 0 then
                set_ofile i fd0 None ;;
                set_ofile i fd1 None ;;
                fileclose rf ;;
                fileclose wf ;;
                mret (-1)
              else mret 0
          end
      end
  end.

(** ** syscall() *)
Definition syscalls (num : Z) : option (M Z) :=
  if num =? 1 then Some sys_fork else if num =? 2 then Some sys_exit
  else if num =? 3 then Some sys_wait else if num =? 4 then Some sys_pipe
  else if num =? 5 then Some sys_read else if num =? 6 then Some sys_kill
  else if num =? 7 then Some sys_exec else if num =? 8 then Some sys_fstat
  else if num =? 9 then Some sys_chdir else if num =? 10 then Some sys_dup
  else if num =? 11 then Some sys_getpid else if num =? 12 then Some sys_sbrk
  else if num =? 13 then Some sys_sleep else if num =? 14 then Some sys_uptime
  else if num =? 15 then Some sys_open else if num =? 16 then Some sys_write
  else if num =? 17 then Some sys_mknod else if num =? 18 then Some sys_unlink
  else if num =? 19 then Some sys_link else if num =? 20 then Some sys_mkdir
  else if num =? 21 then Some sys_close else if num =? 22 then Some sys_ntas
  else None.
Definition syscall : M unit :=
  i ← myproc;
  p ← get_proc i;
  a7 ← tf_get (p_tf p) (tf_a 7);
  let num := s32 a7 in
  match syscalls num with
  | Some sys =>
      r ← sys;
      p ← get_proc i;
      tf_set (p_tf p) (tf_a 0) r
  | None =>
      printf (zs "%d %s: unknown sys call %d" ++ nl)
        [AInt (p_pid p); AStr (Some (p_name p)); AInt num] ;;
      tf_set (p_tf p) (tf_a 0) (-1)
  end.
End Sysfile.
