(* ===== verification/Trap.v ===== *)
(** * Traps, interrupts and booting (kernel/trap.c, plic.c, start.c, main.c;
    forkret of proc.c)

    Entering and leaving user mode is the trampoline's business: usertrapret
    ends where it jumps there, with the registers sret uses set up. *)
From S2P Require Import Prelude Mem Riscv State Spinlock Kalloc Vm Proc Console Sleeplock Bio Virtio Log Fs Pipe File ProcLife Exec Sysargs Sysfile.

Section Trap.
Context `{LD : Linker} `{VE : VirtioEnv}.

Definition read_csr (f : csrs -> Z) : M Z := c ← get_csr; mret (f c).
Definition r_tp : M Z := h ← cpuid; mret (Z.of_nat h).

(** ** kernel/plic.c *)
Definition plicinit : M unit :=
  write_reg (PLIC + UART0_IRQ * 4) 1 ;;
  write_reg (PLIC + VIRTIO0_IRQ * 4) 1.
Definition plicinithart : M unit :=
  hart ← r_tp;
  write_reg (PLIC_SENABLE hart) (Z.lor (Z.shiftl 1 UART0_IRQ) (Z.shiftl 1 VIRTIO0_IRQ)) ;;
  write_reg (PLIC_SPRIORITY hart) 0.
Definition plic_claim : M Z :=
  hart ← r_tp; irq ← read_reg (PLIC_SCLAIM hart); mret (s32 irq).
Definition plic_complete (irq : Z) : M unit :=
  hart ← r_tp; write_reg (PLIC_SCLAIM hart) irq.

(** ** Device interrupts *)
Definition trapinit : M unit := initlock Lticks "time".
Definition trapinithart : M unit := upd_csr (set_r_stvec kernelvec).

Definition clockintr : M unit :=
  acquire Lticks ;;
  modify (fun s => set_k_ticks (u32 (k_ticks s + 1)) s) ;;
  wakeup CTicks ;;
  release Lticks.

Definition INTERRUPT : Z := 0x8000000000000000.
Definition devintr : M Z :=
  scause ← read_csr r_scause;
  if ctrue (Z.land scause INTERRUPT) && (Z.land scause 0xff =? 9) then
    irq ← plic_claim;
    (if irq =? UART0_IRQ then uartintr
     else if (irq =? VIRTIO0_IRQ) || (irq =? VIRTIO1_IRQ)
     then virtio_disk_intr (Z.to_nat (irq - VIRTIO0_IRQ)) else mret tt) ;;
    when (ctrue irq) (plic_complete irq) ;;
    mret 1
  else if scause =? 0x8000000000000001 then
    id ← cpuid;
    when (id =? 0)%nat clockintr ;;
    sip ← read_csr r_sip;
    upd_csr (set_r_sip (Z.land sip (Z.lnot 2))) ;;
    mret 2
  else mret 0.

Definition reserved : string := "<reserved for future standard use>".
Definition intr_desc : list string :=
  ["user software interrupt"; "supervisor software interrupt"; reserved; reserved;
   "user timer interrupt"; "supervisor timer interrupt"; reserved; reserved;
   "user external interrupt"; "supervisor external interrupt"; reserved; reserved;
   reserved; reserved; reserved; reserved].
Definition nointr_desc : list string :=
  ["instruction address misaligned"; "instruction access fault"; "illegal instruction";
   "breakpoint"; "load address misaligned"; "load access fault";
   "store/AMO address misaligned"; "store/AMO access fault"; "environment call from U-mode";
   "environment call from S-mode"; reserved; reserved; "instruction page fault";
   "load page fault"; reserved; "store/AMO page fault"].
Definition scause_desc (stval : Z) : string :=
  let code := Z.land stval (Z.lnot INTERRUPT) in
  if ctrue (Z.land stval INTERRUPT) then
    match intr_desc !! Z.to_nat code with Some d => d | None => "<reserved for platform use>" end
  else
    match nointr_desc !! Z.to_nat code with
    | Some d => d
    | None => if code <=? 23 then reserved
              else if code <=? 31 then "<reserved for custom use>"
              else if code <=? 47 then reserved
              else if code <=? 63 then "<reserved for custom use>"
              else reserved
    end.

(** ** Between user and kernel *)
Definition usertrapret : M unit :=
  i ← myproc;
  intr_off ;;
  upd_csr (set_r_stvec (TRAMPOLINE + (uservec - trampoline))) ;;
  p ← get_proc i;
  satp ← read_csr r_satp;
  tf_set (p_tf p) tf_kernel_satp satp ;;
  tf_set (p_tf p) tf_kernel_sp (p_kstack p + PGSIZE) ;;
  tf_set (p_tf p) tf_kernel_trap usertrap_pc ;;
  tp ← r_tp;
  tf_set (p_tf p) tf_kernel_hartid tp ;;
  x ← r_sstatus;
  let x := Z.land x (Z.lnot SSTATUS_SPP) in
  let x := Z.lor x SSTATUS_SPIE in
  w_sstatus x ;;
  epc ← tf_get (p_tf p) tf_epc;
  upd_csr (set_r_sepc epc).

Definition unexpected_trap (p : proc) : M unit :=
  scause ← read_csr r_scause;
  printf (zs "usertrap(): unexpected scause %p (%s) pid=%d" ++ nl)
    [APtr scause; AStr (Some (zs (scause_desc scause))); AInt (p_pid p)] ;;
  sepc ← read_csr r_sepc;
  stval ← read_csr r_stval;
  printf (zs "            sepc=%p stval=%p" ++ nl) [APtr sepc; APtr stval].

Definition usertrap : M unit :=
  x ← r_sstatus;
  if ctrue (Z.land x SSTATUS_SPP) then panic "usertrap: not from user mode" else
  upd_csr (set_r_stvec kernelvec) ;;
  i ← myproc;
  p ← get_proc i;
  sepc ← read_csr r_sepc;
  tf_set (p_tf p) tf_epc sepc ;;
  scause ← read_csr r_scause;
  which_dev ←
    (if scause =? 8 then
       when (ctrue (p_killed p)) (exit (-1)) ;;
       epc ← tf_get (p_tf p) tf_epc;
       tf_set (p_tf p) tf_epc (u64 (epc + 4)) ;;
       intr_on ;;
       syscall ;;
       mret 0
     else
       w ← devintr;
       when (w =? 0) (unexpected_trap p ;; upd_proc i (set_p_killed 1)) ;;
       mret w);
  p ← get_proc i;
  when (ctrue (p_killed p)) (exit (-1)) ;;
  when (which_dev =? 2) yield ;;
  usertrapret.

Definition kerneltrap : M unit :=
  sepc ← read_csr r_sepc;
  sstatus ← r_sstatus;
  scause ← read_csr r_scause;
  if Z.land sstatus SSTATUS_SPP =? 0 then panic "kerneltrap: not from supervisor mode" else
  on ← intr_get;
  if negb (on =? 0) then panic "kerneltrap: interrupts enabled" else
  which_dev ← devintr;
  if which_dev =? 0 then
    printf (zs "scause %p (%s)" ++ nl) [APtr scause; AStr (Some (zs (scause_desc scause)))] ;;
    sepc ← read_csr r_sepc;
    stval ← read_csr r_stval;
    printf (zs "sepc=%p stval=%p" ++ nl) [APtr sepc; APtr stval] ;;
    panic "kerneltrap"
  else
  p ← myproc_opt;
  run ← (match p with
         | Some i => x ← get_proc i; mret (bool_decide (p_state x = RUNNING))
         | None => mret false
         end);
  when ((which_dev =? 2) && run) yield ;;
  upd_csr (set_r_sepc sepc) ;;
  w_sstatus sstatus.

(** forkret (kernel/proc.c) *)
Definition minor (dev : Z) : Z := Z.land dev 0xFFFF.
Definition forkret : M unit :=
  i ← myproc;
  release (Lproc i) ;;
  first ← gets k_first;
  when (ctrue first) (modify (set_k_first 0) ;; fsinit (minor ROOTDEV)) ;;
  usertrapret.

(** ** kernel/start.c: machine mode *)
(** [scratch] is &mscratch0[32 * id]. *)
Definition timerinit (scratch : Z) : M unit :=
  id ← r_tp;
  let interval := 1000000 in
  now ← reads (fun s => mmio_read s CLINT_MTIME);
  write_reg (CLINT_MTIMECMP id) (u64 (now + interval)) ;;
  mem_write (fun m => store64 m (scratch + 8 * 4) (CLINT_MTIMECMP id)) ;;
  mem_write (fun m => store64 m (scratch + 8 * 5) interval) ;;
  upd_csr (set_r_mscratch scratch) ;;
  upd_csr (set_r_mtvec timervec) ;;
  upd_csr (fun c => set_r_mstatus (Z.lor (r_mstatus c) MSTATUS_MIE) c) ;;
  upd_csr (fun c => set_r_mie (Z.lor (r_mie c) MIE_MTIE) c).

(** Ends with mret to main in supervisor mode; the hart id is in tp. *)
Definition start (scratch : Z) : M unit :=
  x ← read_csr r_mstatus;
  let x := Z.land x (Z.lnot MSTATUS_MPP_MASK) in
  let x := Z.lor x MSTATUS_MPP_S in
  upd_csr (set_r_mstatus x) ;;
  upd_csr (set_r_mepc main_pc) ;;
  upd_csr (set_r_satp 0) ;;
  upd_csr (set_r_medeleg 0xffff) ;;
  upd_csr (set_r_mideleg 0xffff) ;;
  upd_csr (fun c => set_r_sie (Z.lor (Z.lor (Z.lor (r_sie c) SIE_SEIE) SIE_STIE) SIE_SSIE) c) ;;
  timerinit scratch.

(** ** kernel/main.c *)
Fixpoint wait_started (fuel : nat) : M unit :=
  match fuel with
  | O => halt_with HFuel
  | S fuel' =>
      st ← gets k_started;
      if st =? 0 then env_step ;; wait_started fuel' else mret tt
  end.
Definition main (rounds : nat) : M unit :=
  id ← cpuid;
  (if (id =? 0)%nat then
     consoleinit ;;
     printfinit ;;
     printf nl [] ;;
     printf (zs "xv6 kernel is booting" ++ nl) [] ;;
     printf nl [] ;;
     kinit ;;
     kvminit ;;
     kvminithart ;;
     procinit ;;
     trapinit ;;
     trapinithart ;;
     plicinit ;;
     plicinithart ;;
     binit ;;
     iinit ;;
     fileinit ;;
     virtio_disk_init (Z.to_nat (minor ROOTDEV)) ;;
     userinit ;;
     modify (set_k_started 1)
   else
     waiting wait_started ;;
     printf (zs "hart %d starting" ++ nl) [AInt (Z.of_nat id)] ;;
     kvminithart ;;
     trapinithart ;;
     plicinithart) ;;
  scheduler rounds.
End Trap.
