(* ===== verification/Buddy.v ===== *)
(** * Lists and the buddy allocator (kernel/list.c, kernel/buddy.c)

    A list is circular and doubly linked, through the first 16 bytes of its
    elements.  The buddy allocator keeps for every size [k] (blocks of
    [16 * 2^k] bytes) a list of free blocks, a bit per block that says whether
    it is allocated and, for k > 0, one that says whether it was split.  All of
    this is in memory; the static variables are at addresses the linker chooses. *)
From S2P Require Import Prelude Mem Riscv State Spinlock Console.

(** ** kernel/list.c *)
Definition l_next (m : mem) (e : Z) : Z := load64 m e.
Definition l_prev (m : mem) (e : Z) : Z := load64 m (e + 8).
Definition set_next (e v : Z) (m : mem) : mem := store64 m e v.
Definition set_prev (e v : Z) (m : mem) : mem := store64 m (e + 8) v.

Definition lst_init (lst : Z) (m : mem) : mem := set_prev lst lst (set_next lst lst m).
Definition lst_empty (lst : Z) (m : mem) : bool := l_next m lst =? lst.
Definition lst_remove (e : Z) (m : mem) : mem :=
  let m := set_next (l_prev m e) (l_next m e) m in
  set_prev (l_next m e) (l_prev m e) m.
Definition lst_pop (lst : Z) : M Z :=
  e ← reads (fun s => lst_empty lst (k_mem s));
  if (e : bool) then panic "lst_pop" else
  p ← mem_read (fun m => l_next m lst);
  mem_write (lst_remove p) ;;
  mret p.
Definition lst_push (lst p : Z) (m : mem) : mem :=
  let e := p in
  let m := set_next e (l_next m lst) m in
  let m := set_prev e lst m in
  let m := set_prev (l_next m lst) p m in
  set_next lst e m.
Fixpoint lst_print_loop (fuel : nat) (lst p : Z) : M unit :=
  match fuel with
  | O => halt_with HFuel
  | S fuel' =>
      if p =? lst then mret tt else
      printf (zs " %p") [APtr p] ;;
      p' ← mem_read (fun m => l_next m p);
      lst_print_loop fuel' lst p'
  end.
(** The elements of a list are in RAM, 16 bytes or more apart. *)
Definition list_fuel : nat := Z.to_nat ((PHYSTOP - KERNBASE) / 16).
Definition lst_print (lst : Z) : M unit :=
  p ← mem_read (fun m => l_next m lst);
  lst_print_loop list_fuel lst p ;;
  printf nl [].

(** ** Bits *)
Definition bit_isset (array index : Z) (m : mem) : bool :=
  let b := getb m (array + Z.quot index 8) in
  let k := u8 (Z.shiftl 1 (Z.rem index 8)) in
  Z.land b k =? k.
Definition bit_set (array index : Z) (m : mem) : mem :=
  let b := getb m (array + Z.quot index 8) in
  let k := u8 (Z.shiftl 1 (Z.rem index 8)) in
  setb m (array + Z.quot index 8) (Z.lor b k).
Definition bit_clear (array index : Z) (m : mem) : mem :=
  let b := getb m (array + Z.quot index 8) in
  let k := u8 (Z.shiftl 1 (Z.rem index 8)) in
  setb m (array + Z.quot index 8) (Z.land b (Z.lnot k)).

(** ** kernel/buddy.c *)
Definition LEAF_SIZE : Z := 16.
Definition BLK_SIZE (k : Z) : Z := Z.shiftl 1 k * LEAF_SIZE.
(** On 64-bit unsigned values and on ints alike. *)
Definition ROUNDUP (n sz : Z) : Z := (Z.quot (n - 1) sz + 1) * sz.
(** What is the first k such that 2^k leaves hold n bytes?  Past 2^63 the size
    wraps to 0 and the loop does not end. *)
Fixpoint firstk_loop (fuel : nat) (k size n : Z) : M Z :=
  match fuel with
  | O => halt_with HFuel
  | S fuel' => if size <? n then firstk_loop fuel' (k + 1) (u64 (size * 2)) n else mret k
  end.
Definition firstk (n : Z) : M Z := firstk_loop 64 0 LEAF_SIZE n.
Fixpoint log2_loop (fuel : nat) (k n : Z) : Z :=
  match fuel with
  | O => k
  | S fuel' => if 1 <? n then log2_loop fuel' (k + 1) (Z.shiftr n 1) else k
  end.
Definition log2 (n : Z) : Z := log2_loop 64 0 n.

(** The addresses of the static variables. *)
Class BuddySyms := { nsizes_at : Z; bd_sizes_at : Z; bd_base_at : Z }.

Section Buddy.
Context `{BS : BuddySyms}.

Definition nsizes : M Z := mem_read (fun m => s32 (load32 m nsizes_at)).
Definition MAXSIZE : M Z := n ← nsizes; mret (n - 1).
Definition bd_base : M Z := mem_read (fun m => load64 m bd_base_at).
Definition sizeof_Sz_info : Z := 32.
(** [&bd_sizes[k].free], [bd_sizes[k].alloc], [bd_sizes[k].split]. *)
Definition sz_free (k : Z) : M Z := mem_read (fun m => load64 m bd_sizes_at + k * sizeof_Sz_info).
Definition sz_alloc (k : Z) : M Z := mem_read (fun m => load64 m (load64 m bd_sizes_at + k * sizeof_Sz_info + 16)).
Definition sz_split (k : Z) : M Z := mem_read (fun m => load64 m (load64 m bd_sizes_at + k * sizeof_Sz_info + 24)).
Definition NBLK (k : Z) : M Z := x ← MAXSIZE; mret (Z.shiftl 1 (x - k)).

Fixpoint bd_print_vector_loop (n : nat) (b len last lb : Z) (vector : Z) : M (Z * Z) :=
  match n with
  | O => mret (last, lb)
  | S n' =>
      v ← reads (fun s => b2z (bit_isset vector b (k_mem s)));
      if last =? v then bd_print_vector_loop n' (b + 1) len last lb vector else
      when (last =? 1) (printf (zs " [%d, %d)") [AInt lb; AInt b]) ;;
      v ← reads (fun s => b2z (bit_isset vector b (k_mem s)));
      bd_print_vector_loop n' (b + 1) len v b vector
  end.
Definition bd_print_vector (vector len : Z) : M unit :=
  '(last, lb) ← bd_print_vector_loop (Z.to_nat len) 0 len 1 0 vector;
  when ((lb =? 0) || (last =? 1)) (printf (zs " [%d, %d)") [AInt lb; AInt len]) ;;
  printf nl [].
Definition bd_print_body (k : nat) : M unit :=
  let k := Z.of_nat k in
  nblk ← NBLK k;
  printf (zs "size %d (blksz %d nblk %d): free list: ") [AInt k; AInt (BLK_SIZE k); AInt nblk] ;;
  f ← sz_free k;
  lst_print f ;;
  printf (zs "  alloc:") [] ;;
  a ← sz_alloc k;
  bd_print_vector a nblk ;;
  when (0 <? k) (printf (zs "  split:") [] ;; sp ← sz_split k; bd_print_vector sp nblk).
Definition bd_print : M unit := n ← nsizes; for_loop 0 (Z.to_nat n) bd_print_body.

(** Offsets and indices are ints. *)
Definition blk_index (k p : Z) : M Z :=
  b ← bd_base;
  let n := s32 (p - b) in
  mret (s32 (Z.quot n (BLK_SIZE k))).
Definition addr (k bi : Z) : M Z :=
  b ← bd_base;
  let n := s32 (bi * BLK_SIZE k) in
  mret (b + n).
Definition blk_index_next (k p : Z) : M Z :=
  b ← bd_base;
  let n := s32 (Z.quot (p - b) (BLK_SIZE k)) in
  mret (if negb (Z.rem (p - b) (BLK_SIZE k) =? 0) then n + 1 else n).

(** [for (k = fk; k < nsizes; k++) if(!lst_empty(&bd_sizes[k].free)) break;] with
    [n = nsizes - k] *)
Fixpoint bd_malloc_find (n : nat) (k : Z) : M Z :=
  match n with
  | O => mret k
  | S n' =>
      f ← sz_free k;
      e ← reads (fun s => lst_empty f (k_mem s));
      if (e : bool) then bd_malloc_find n' (k + 1) else mret k
  end.
(** [for(; k > fk; k--)] with [n = k - fk] *)
Fixpoint bd_malloc_split (n : nat) (k p : Z) : M unit :=
  match n with
  | O => mret tt
  | S n' =>
      let q := p + BLK_SIZE (k - 1) in
      sp ← sz_split k;
      i ← blk_index k p;
      mem_write (bit_set sp i) ;;
      al ← sz_alloc (k - 1);
      i ← blk_index (k - 1) p;
      mem_write (bit_set al i) ;;
      f ← sz_free (k - 1);
      mem_write (lst_push f q) ;;
      bd_malloc_split n' (k - 1) p
  end.
Definition bd_malloc (nbytes : Z) : M Z :=
  acquire Lbuddy ;;
  fk ← firstk nbytes;
  n ← nsizes;
  k ← bd_malloc_find (Z.to_nat (n - fk)) fk;
  if n <=? k then release Lbuddy ;; mret 0 else
  f ← sz_free k;
  p ← lst_pop f;
  al ← sz_alloc k;
  i ← blk_index k p;
  mem_write (bit_set al i) ;;
  bd_malloc_split (Z.to_nat (k - fk)) k p ;;
  release Lbuddy ;;
  mret p.

(** The size of the block at [p], [n = nsizes - k]. *)
Fixpoint size_loop (n : nat) (k p : Z) : M Z :=
  match n with
  | O => mret 0
  | S n' =>
      sp ← sz_split (k + 1);
      i ← blk_index (k + 1) p;
      b ← reads (fun s => bit_isset sp i (k_mem s));
      if (b : bool) then mret k else size_loop n' (k + 1) p
  end.
Definition size (p : Z) : M Z := n ← nsizes; size_loop (Z.to_nat n) 0 p.

(** [for (k = size(p); k < MAXSIZE; k++)] with [n = MAXSIZE - k]; the size and the
    address of the block that is free in the end. *)
Fixpoint bd_free_loop (n : nat) (k p : Z) : M (Z * Z) :=
  match n with
  | O => mret (k, p)
  | S n' =>
      bi ← blk_index k p;
      let buddy := if Z.rem bi 2 =? 0 then bi + 1 else bi - 1 in
      al ← sz_alloc k;
      mem_write (bit_clear al bi) ;;
      al ← sz_alloc k;
      b ← reads (fun s => bit_isset al buddy (k_mem s));
      if (b : bool) then mret (k, p) else
      q ← addr k buddy;
      mem_write (lst_remove q) ;;
      let p := if Z.rem buddy 2 =? 0 then q else p in
      sp ← sz_split (k + 1);
      i ← blk_index (k + 1) p;
      mem_write (bit_clear sp i) ;;
      bd_free_loop n' (k + 1) p
  end.
Definition bd_free (p : Z) : M unit :=
  acquire Lbuddy ;;
  k ← size p;
  mx ← MAXSIZE;
  '(k, p) ← bd_free_loop (Z.to_nat (mx - k)) k p;
  f ← sz_free k;
  mem_write (lst_push f p) ;;
  release Lbuddy.

(** ** Initialisation *)
Fixpoint bd_mark_loop (n : nat) (k bi : Z) : M unit :=
  match n with
  | O => mret tt
  | S n' =>
      when (0 <? k) (sp ← sz_split k; mem_write (bit_set sp bi)) ;;
      al ← sz_alloc k;
      mem_write (bit_set al bi) ;;
      bd_mark_loop n' k (bi + 1)
  end.
Definition bd_mark (start stop : Z) : M unit :=
  if negb (start mod LEAF_SIZE =? 0) || negb (stop mod LEAF_SIZE =? 0) then panic "bd_mark" else
  n ← nsizes;
  for_loop 0 (Z.to_nat n) (fun k =>
    bi ← blk_index (Z.of_nat k) start;
    bj ← blk_index_next (Z.of_nat k) stop;
    bd_mark_loop (Z.to_nat (bj - bi)) (Z.of_nat k) bi).

Definition bd_initfree_pair (k bi : Z) : M Z :=
  let buddy := if Z.rem bi 2 =? 0 then bi + 1 else bi - 1 in
  al ← sz_alloc k;
  b1 ← reads (fun s => bit_isset al bi (k_mem s));
  b2 ← reads (fun s => bit_isset al buddy (k_mem s));
  if negb (Bool.eqb b1 b2) then
    let free := s32 (BLK_SIZE k) in
    f ← sz_free k;
    a ← (if (b1 : bool) then addr k buddy else addr k bi);
    mem_write (lst_push f a) ;;
    mret free
  else mret 0.
Fixpoint bd_initfree_loop (n : nat) (k free bd_left bd_right : Z) : M Z :=
  match n with
  | O => mret free
  | S n' =>
      left ← blk_index_next k bd_left;
      right ← blk_index k bd_right;
      x ← bd_initfree_pair k left;
      let free := s32 (free + x) in
      if right <=? left then bd_initfree_loop n' (k + 1) free bd_left bd_right else
      y ← bd_initfree_pair k right;
      bd_initfree_loop n' (k + 1) (s32 (free + y)) bd_left bd_right
  end.
Definition bd_initfree (bd_left bd_right : Z) : M Z :=
  mx ← MAXSIZE; bd_initfree_loop (Z.to_nat mx) 0 0 bd_left bd_right.

Definition bd_mark_data_structures (p : Z) : M Z :=
  b ← bd_base;
  let meta := s32 (p - b) in
  mx ← MAXSIZE;
  printf (zs "bd: %d meta bytes for managing %d bytes of memory" ++ nl) [AInt meta; AInt (BLK_SIZE mx)] ;;
  bd_mark b p ;;
  mret meta.
Definition bd_mark_unavailable (end_ left : Z) : M Z :=
  b ← bd_base;
  mx ← MAXSIZE;
  let unavailable := s32 (BLK_SIZE mx - (end_ - b)) in
  let unavailable := if 0 <? unavailable then s32 (ROUNDUP unavailable LEAF_SIZE) else unavailable in
  printf (zs "bd: 0x%x bytes unavailable" ++ nl) [AInt unavailable] ;;
  let bd_end := b + BLK_SIZE mx - unavailable in
  bd_mark bd_end (b + BLK_SIZE mx) ;;
  mret unavailable.

(** One array of bits per size, from [p] on: the pointer to it is at [slot k]. *)
Fixpoint bd_arrays (n : nat) (k p : Z) (each : Z -> M unit) (slot : Z -> M Z) : M Z :=
  match n with
  | O => mret p
  | S n' =>
      each k ;;
      nblk ← NBLK k;
      let sz := Z.quot (ROUNDUP nblk 8) 8 in
      a ← slot k;
      mem_write (fun m => store64 m a p) ;;
      mem_write (fun m => memset m p 0 sz) ;;
      bd_arrays n' (k + 1) (p + sz) each slot
  end.
Definition slot_at (off k : Z) : M Z := f ← sz_free k; mret (f + off).
Definition bd_init (base end_ : Z) : M unit :=
  let p := u64 (ROUNDUP base LEAF_SIZE) in
  initlock Lbuddy "buddy" ;;
  mem_write (fun m => store64 m bd_base_at p) ;;
  let n := log2 (u64 (Z.quot (end_ - p) LEAF_SIZE)) + 1 in
  let n := if BLK_SIZE (n - 1) <? end_ - p then n + 1 else n in
  mem_write (fun m => store32 m nsizes_at n) ;;
  printf (zs "bd: memory sz is %d bytes; allocate an size array of length %d" ++ nl) [AInt (end_ - p); AInt n] ;;
  mem_write (fun m => store64 m bd_sizes_at p) ;;
  mem_write (fun m => memset m p 0 (sizeof_Sz_info * n)) ;;
  let p := p + sizeof_Sz_info * n in
  p ← bd_arrays (Z.to_nat n) 0 p (fun k => f ← sz_free k; mem_write (lst_init f)) (slot_at 16);
  p ← bd_arrays (Z.to_nat (n - 1)) 1 p (fun _ => mret tt) (slot_at 24);
  let p := u64 (ROUNDUP p LEAF_SIZE) in
  meta ← bd_mark_data_structures p;
  unavailable ← bd_mark_unavailable end_ p;
  b ← bd_base;
  mx ← MAXSIZE;
  let bd_end := b + BLK_SIZE mx - unavailable in
  free ← bd_initfree p bd_end;
  let expect := BLK_SIZE mx - meta - unavailable in
  if negb (free =? expect) then
    printf (zs "free %d %d" ++ nl) [AInt free; AInt expect] ;;
    panic "bd_init: free mem"
  else mret tt.
End Buddy.
