(* ===== verification/BuddyProofs.v ===== *)
(** * Circular lists and bit vectors

    [dlist m lst l]: in memory [m] the list with head [lst] has the elements [l],
    linked in both directions.  The operations of list.c are those of a list with
    its front at the head; bit_set, bit_clear and bit_isset are those of a vector
    of bits. *)
From S2P Require Import Prelude Mem Riscv State Spinlock Console Buddy.

(** ** Nodes *)
Definition clear_of (p q : Z) : Prop := p + 16 <= q \/ q + 16 <= p.
Lemma next_set_same e v m : 0 <= v < 2 ^ 64 -> l_next (set_next e v m) e = v.
Proof. intros H. unfold l_next, set_next. rewrite load_store_same. by apply Z.mod_small. Qed.
Lemma prev_set_same e v m : 0 <= v < 2 ^ 64 -> l_prev (set_prev e v m) e = v.
Proof. intros H. unfold l_prev, set_prev. rewrite load_store_same. by apply Z.mod_small. Qed.
Lemma next_set_other e v m x : clear_of e x -> l_next (set_next e v m) x = l_next m x.
Proof. intros H. apply load_store_other. unfold clear_of in H. lia. Qed.
Lemma prev_set_other e v m x : clear_of e x -> l_prev (set_prev e v m) x = l_prev m x.
Proof. intros H. apply load_store_other. unfold clear_of in H. lia. Qed.
Lemma next_set_prev e v m x : e = x \/ clear_of e x -> l_next (set_prev e v m) x = l_next m x.
Proof. intros H. apply load_store_other. unfold clear_of in H. lia. Qed.
Lemma prev_set_next e v m x : e = x \/ clear_of e x -> l_prev (set_next e v m) x = l_prev m x.
Proof. intros H. apply load_store_other. unfold clear_of in H. lia. Qed.

(** ** Lists *)
(** From [p] forward through [l] to [q], and back. *)
Fixpoint path (m : mem) (p : Z) (l : list Z) (q : Z) : Prop :=
  match l with
  | [] => l_next m p = q /\ l_prev m q = p
  | x :: l' => l_next m p = x /\ l_prev m x = p /\ path m x l' q
  end.
(** No two nodes overlap, and all are addresses. *)
Fixpoint spread (l : list Z) : Prop :=
  match l with
  | [] => True
  | x :: l' => 0 <= x < 2 ^ 64 /\ (forall y, y ∈ l' -> clear_of x y) /\ spread l'
  end.
Definition dlist (m : mem) (lst : Z) (l : list Z) : Prop := path m lst l lst /\ spread (lst :: l).

Lemma clear_sym x y : clear_of x y -> clear_of y x.
Proof. unfold clear_of. lia. Qed.
Lemma path_app m l1 : forall p x l2 q, path m p (l1 ++ x :: l2) q <-> path m p l1 x /\ path m x l2 q.
Proof. induction l1 as [|y l1 IH]; intros p x l2 q; cbn; [tauto|]. rewrite IH. tauto. Qed.
Lemma path_ext m m' l : forall p q, (forall x, x ∈ p :: l -> l_next m' x = l_next m x) ->
  (forall x, x ∈ l ++ [q] -> l_prev m' x = l_prev m x) -> path m p l q -> path m' p l q.
Proof.
  induction l as [|x l IH]; intros p q Hn Hp; cbn.
  - rewrite Hn, Hp by (by left). done.
  - intros (H1 & H2 & H3). rewrite Hn, Hp by (by left). split; [done|]. split; [done|]. apply IH; [..|done].
    + intros y Hy. apply Hn. by right.
    + intros y Hy. apply Hp. by right.
Qed.
Lemma spread_app l1 l2 : spread (l1 ++ l2) <-> spread l1 /\ spread l2 /\ forall x y, x ∈ l1 -> y ∈ l2 -> clear_of x y.
Proof.
  induction l1 as [|z l1 IH]; cbn [app spread].
  - split; [|tauto]. intros H. split; [done|]. split; [exact H|]. intros x y Hx. by apply elem_of_nil in Hx.
  - rewrite IH. split.
    + intros (H1 & H2 & H3 & H4 & H5). split; [split; [done|split; [|done]]|split; [done|]].
      * intros y Hy. apply H2, elem_of_app. by left.
      * intros x y [->|Hx]%elem_of_cons Hy; [apply H2, elem_of_app; by right|by apply H5].
    + intros ((H1 & H2 & H3) & H4 & H5). split; [done|]. split; [|split; [done|split; [done|]]].
      * intros y [Hy|Hy]%elem_of_app; [by apply H2|apply H5; [by left|done]].
      * intros x y Hx Hy. apply H5; [by right|done].
Qed.
Lemma spread_bound l x : spread l -> x ∈ l -> 0 <= x < 2 ^ 64.
Proof. induction l as [|y l IH]; intros H Hx; [by apply elem_of_nil in Hx|]. destruct H as (H1 & _ & H3). apply elem_of_cons in Hx as [->|Hx]; auto. Qed.
Lemma default_last (p x : Z) l : default p (list.last (x :: l)) = default x (list.last l).
Proof. rewrite last_cons. by destruct (list.last l). Qed.
Lemma spread_apart l x y : spread l -> x ∈ l -> y ∈ l -> x = y \/ clear_of x y.
Proof.
  induction l as [|z l IH]; intros H Hx Hy; [by apply elem_of_nil in Hx|]. destruct H as (_ & H2 & H3).
  apply elem_of_cons in Hx as [->|Hx]; apply elem_of_cons in Hy as [->|Hy]; auto. right. by apply clear_sym, H2.
Qed.
(** The node before the end of a path, and the one after its start. *)
Lemma path_last m p l q : path m p l q -> l_prev m q = default p (list.last l).
Proof.
  revert p. induction l as [|x l IH]; intros p; cbn [path]; [cbn; tauto|]. intros (_ & _ & H). by rewrite (IH _ H), default_last.
Qed.
Lemma path_first m p l q : path m p l q -> l_next m p = default q (head l).
Proof. destruct l; cbn; tauto. Qed.
Lemma spread_ne l1 l2 x y : spread (l1 ++ l2) -> x ∈ l1 -> y ∈ l2 -> clear_of x y.
Proof. intros (_ & _ & H)%spread_app. apply H. Qed.
Lemma elem_last {A} (p : A) l : default p (list.last l) ∈ p :: l.
Proof.
  destruct (list.last l) as [a|] eqn:E; cbn; [|by left]. right. apply last_Some in E as [l' ->]. apply elem_of_app. right. by left.
Qed.

(** A path with another end. *)
Lemma path_end m m' b l : forall p e, path m p l e -> spread (p :: l) ->
  l_next m' (default p (list.last l)) = b -> l_prev m' b = default p (list.last l) ->
  (forall x, x ∈ p :: l -> clear_of (default p (list.last l)) x -> l_next m' x = l_next m x) ->
  (forall x, x ∈ l -> l_prev m' x = l_prev m x) -> path m' p l b.
Proof.
  induction l as [|x l IH]; intros p e Hp Hs Hn Hb Hnext Hprev; [done|]. destruct Hp as (H1 & H2 & H3). destruct Hs as (_ & Hs1 & Hs2).
  rewrite default_last in *. split; [|split].
  - rewrite Hnext; [done|by left|]. apply clear_sym, Hs1. apply elem_last.
  - rewrite Hprev; [done|by left].
  - apply (IH x e H3 Hs2 Hn Hb); [intros y Hy; apply Hnext; by right|intros y Hy; apply Hprev; by right].
Qed.

Lemma lst_init_list m lst : 0 <= lst < 2 ^ 64 -> dlist (lst_init lst m) lst [].
Proof.
  intros H. split; [|split; [done|split; [by intros y ?%elem_of_nil|done]]]. unfold lst_init. cbn.
  rewrite next_set_prev by (by left). rewrite next_set_same, prev_set_same by done. done.
Qed.
Lemma lst_empty_list m lst l : dlist m lst l -> lst_empty lst m = bool_decide (l = []).
Proof.
  intros [Hp (_ & Hs & _)]. unfold lst_empty. destruct l as [|x l]; cbn in Hp; destruct Hp as (-> & _); [by rewrite Z.eqb_refl|].
  rewrite bool_decide_eq_false_2 by done. specialize (Hs x ltac:(by left)). unfold clear_of in Hs. lia.
Qed.
Lemma lst_push_list m lst l p : dlist m lst l -> spread (p :: lst :: l) -> dlist (lst_push lst p m) lst (p :: l).
Proof.
  intros [Hp Hs] (Hpb & Hpc & _). pose proof Hs as (Hlb & Hlc & Hs').
  assert (Hpl : clear_of p lst) by (apply Hpc; by left). set (b := l_next m lst).
  assert (Hb : b = default lst (head l)) by (by apply (path_first m lst l)).
  assert (Hb1 : b ∈ lst :: l) by (rewrite Hb; destruct l; [by left|right; by left]).
  assert (Hbb : 0 <= b < 2 ^ 64) by (by apply (spread_bound (lst :: l))).
  assert (Hpbc : clear_of p b) by (by apply Hpc).
  unfold lst_push. fold b. cbv zeta. rewrite next_set_prev, next_set_other by (try (by right); done). fold b.
  split; [|split; [done|split; [intros y [->|Hy]%elem_of_cons; [by apply clear_sym|by apply Hlc]|]]].
  2: { split; [done|]. split; [intros y Hy; apply Hpc; by right|done]. }
  set (m2 := set_prev p lst (set_next p b m)).
  assert (Hnx : forall x, clear_of p x -> l_next m2 x = l_next m x) by (intros x Hx; unfold m2; rewrite next_set_prev, next_set_other by (try (by right); done); done).
  assert (Hpx : forall x, clear_of p x -> l_prev m2 x = l_prev m x) by (intros x Hx; unfold m2; rewrite prev_set_other, prev_set_next by (try (by right); done); done).
  cbn [path]. split; [by apply next_set_same|]. split.
  { rewrite prev_set_next by (right; by apply clear_sym). rewrite prev_set_other by (by apply clear_sym). by apply prev_set_same. }
  assert (Hnp : l_next (set_next lst p (set_prev b p m2)) p = b).
  { rewrite next_set_other by (by apply clear_sym). rewrite next_set_prev by (right; by apply clear_sym). unfold m2.
    rewrite next_set_prev by (by left). by apply next_set_same. }
  assert (Hbp : l_prev (set_next lst p (set_prev b p m2)) b = p).
  { rewrite prev_set_next; [by apply prev_set_same|]. apply elem_of_cons in Hb1 as [->|Hb1]; [by left|right; by apply Hlc]. }
  destruct l as [|x l]; cbn in Hb; rewrite Hb in *; [done|]. cbn [path]. split; [done|]. split; [done|].
  destruct Hp as (_ & _ & Hp). destruct Hs' as (Hx1 & Hx2 & Hx3). apply (path_ext m); [..|done].
  - intros y Hy. assert (Hyl : y ∈ lst :: x :: l) by (by right). rewrite next_set_other by (by apply Hlc).
    rewrite next_set_prev; [by apply Hnx, Hpc|]. apply elem_of_cons in Hy as [->|Hy]; [by left|right; by apply Hx2].
  - intros y [Hy| ->%list_elem_of_singleton]%elem_of_app.
    + rewrite prev_set_next by (right; apply Hlc; by right). rewrite prev_set_other by (by apply Hx2). apply Hpx, Hpc. right. by right.
    + rewrite prev_set_next by (by left). rewrite prev_set_other by (apply clear_sym, Hlc; by left). by apply Hpx.
Qed.

(** Unlinking an element: what is before it is joined to what is after it. *)
Lemma unlink_neighbours m lst l1 e l2 (a := default lst (list.last l1)) (b := default lst (head l2)) :
  dlist m lst (l1 ++ e :: l2) -> let m' := lst_remove e m in
  l_next m' a = b /\ l_prev m' b = a /\
  (forall x, x ∈ lst :: l1 ++ l2 -> clear_of a x -> l_next m' x = l_next m x) /\
  (forall x, x ∈ lst :: l1 ++ l2 -> clear_of b x -> l_prev m' x = l_prev m x).
Proof.
  intros [[Hp1 Hp2]%path_app Hs]. pose proof Hs as Hs0. rewrite app_comm_cons in Hs0.
  apply spread_app in Hs0 as (_ & (_ & Hec & _) & Hle).
  assert (Ha : a ∈ lst :: l1) by apply elem_last.
  assert (Hb : b ∈ lst :: l2) by (unfold b; destruct l2; [by left|right; by left]).
  assert (Ha' : a ∈ lst :: l1 ++ e :: l2) by set_solver. assert (Hb' : b ∈ lst :: l1 ++ e :: l2) by set_solver.
  assert (Ea : l_prev m e = a) by (by apply path_last). assert (Eb : l_next m e = b) by (by apply (path_first m e l2 lst)).
  assert (Hae : clear_of a e) by (apply Hle; [done|by left]).
  pose proof (spread_bound _ _ Hs Ha'). pose proof (spread_bound _ _ Hs Hb').
  clearbody a b. unfold lst_remove. rewrite Ea, Eb. cbv zeta. rewrite next_set_other, Eb, prev_set_next, Ea by auto. split_and!.
  - rewrite next_set_prev by (by apply (spread_apart _ b a Hs)). by apply next_set_same.
  - by apply prev_set_same.
  - intros x Hx Hax. rewrite next_set_prev by (apply (spread_apart _ b x Hs); set_solver). by apply next_set_other.
  - intros x Hx Hbx. rewrite prev_set_other by done. apply prev_set_next. apply (spread_apart _ a x Hs); set_solver.
Qed.
Lemma lst_remove_list m lst l1 e l2 : dlist m lst (l1 ++ e :: l2) -> dlist (lst_remove e m) lst (l1 ++ l2).
Proof.
  intros H. pose proof (unlink_neighbours m lst l1 e l2 H) as (Hn & Hb & Hnx & Hpx). set (m' := lst_remove e m) in *. clearbody m'.
  destruct H as [[Hp1 Hp2]%path_app Hs]. pose proof Hs as (Hlb & Hlc & Hs'). rewrite app_comm_cons in Hs.
  apply spread_app in Hs as (Hs1 & (_ & _ & Hs2) & Hs12). 
  assert (Hl2 : forall x y, x ∈ lst :: l1 -> y ∈ l2 -> clear_of x y) by (intros x y Hx Hy; apply Hs12; [done|by right]).
  assert (Ha : default lst (list.last l1) ∈ lst :: l1) by apply elem_last.
  split; [|apply (spread_app (lst :: l1) l2); split; [done|split; [done|exact Hl2]]].
  assert (Hend : path m' lst l1 (default lst (head l2))).
  { apply (path_end m m' _ l1 lst e); [done|done|done|done|..].
    - intros x Hx Hax. apply Hnx; [set_solver|done].
    - intros x Hx. apply Hpx; [set_solver|]. destruct l2 as [|y l2]; [by apply Hs1|apply clear_sym, Hl2; [by right|by left]]. }
  destruct l2 as [|y l2]; [by rewrite app_nil_r|]. apply path_app. split; [done|].
  destruct Hp2 as (_ & _ & Hp2). destruct Hs2 as (Hy1 & Hy2 & Hs2). apply (path_ext m); [..|done].
  - intros x Hx. apply Hnx; [set_solver|by apply Hl2].
  - intros x [Hx| ->%list_elem_of_singleton]%elem_of_app; (apply Hpx; [set_solver|]); cbn; [by apply Hy2|apply clear_sym, Hl2; by left].
Qed.

(** The bytes the operations write. *)
Definition in_nodes (l : list Z) (a : Z) : Prop := exists x, x ∈ l /\ x <= a < x + 16.
Lemma set_next_frame e v m a : ~ (e <= a < e + 16) -> getb (set_next e v m) a = getb m a.
Proof. intros H. apply getb_store_out. lia. Qed.
Lemma set_prev_frame e v m a : ~ (e <= a < e + 16) -> getb (set_prev e v m) a = getb m a.
Proof. intros H. apply getb_store_out. lia. Qed.
Lemma lst_push_frame m lst l p a :
  dlist m lst l -> spread (p :: lst :: l) -> ~ in_nodes (p :: lst :: l) a -> getb (lst_push lst p m) a = getb m a.
Proof.
  intros [Hp _] (_ & Hpc & _) Ha. assert (Hout : forall x, x ∈ p :: lst :: l -> ~ (x <= a < x + 16)) by (intros x Hx Hr; apply Ha; by exists x).
  assert (Hpl : clear_of p lst) by (apply Hpc; by left).
  unfold lst_push. cbv zeta. rewrite next_set_prev, next_set_other, (path_first _ _ _ _ Hp) by (try (by right); done).
  rewrite set_next_frame by (apply Hout; set_solver). rewrite set_prev_frame by (apply Hout; destruct l; set_solver).
  rewrite set_prev_frame, set_next_frame by (apply Hout; set_solver). done.
Qed.
Lemma lst_remove_frame m lst l1 e l2 a :
  dlist m lst (l1 ++ e :: l2) -> ~ in_nodes (lst :: l1 ++ l2) a -> getb (lst_remove e m) a = getb m a.
Proof.
  intros [[Hp1 Hp2]%path_app Hs] Ha. rewrite app_comm_cons in Hs. apply spread_app in Hs as (_ & _ & Hle).
  assert (Hout : forall x, x ∈ lst :: l1 ++ l2 -> ~ (x <= a < x + 16)) by (intros x Hx Hr; apply Ha; by exists x).
  pose proof (elem_last lst l1) as Hl. pose proof (path_last _ _ _ _ Hp1) as Ea. pose proof (path_first _ _ _ _ Hp2) as Eb.
  assert (Hae : clear_of (default lst (list.last l1)) e) by (apply Hle; [done|by left]).
  unfold lst_remove. rewrite Ea, Eb. cbv zeta. rewrite next_set_other, Eb by done.
  rewrite set_prev_frame by (apply Hout; destruct l2; set_solver). by rewrite set_next_frame by (apply Hout; set_solver).
Qed.
(** What a list depends on. *)
Lemma dlist_frame m m' lst l : (forall a, in_nodes (lst :: l) a -> getb m' a = getb m a) -> dlist m lst l -> dlist m' lst l.
Proof.
  intros Hm [Hp Hs]. split; [|done]. assert (forall x off, x ∈ lst :: l -> off = 0 \/ off = 8 -> load64 m' (x + off) = load64 m (x + off)) as Hl.
  { intros x off Hx Ho. apply load_ext. intros i Hi. apply Hm. exists x. split; [done|]. lia. }
  apply (path_ext m); [..|done].
  - intros x Hx. unfold l_next. specialize (Hl x 0 Hx). rewrite Z.add_0_r in Hl. auto.
  - intros x Hx. apply (Hl x 8); [|by right]. set_solver.
Qed.

(** ** Bits *)
Lemma bit_mask i : 0 <= i -> u8 (Z.shiftl 1 (Z.rem i 8)) = 2 ^ (i mod 8).
Proof.
  intros Hi. rewrite Z.rem_mod_nonneg, Z.shiftl_1_l by lia. pose proof (Z.mod_pos_bound i 8 ltac:(lia)).
  unfold u8. apply Z.mod_small. split; [lia|]. apply Z.pow_lt_mono_r; lia.
Qed.
Lemma bit_isset_testbit a i m : 0 <= i -> bit_isset a i m = Z.testbit (getb m (a + i / 8)) (i mod 8).
Proof.
  intros Hi. unfold bit_isset. rewrite bit_mask, Z.quot_div_nonneg by lia.
  assert (Hr : 0 <= i mod 8 < 8) by (by apply Z.mod_pos_bound). set (r := i mod 8) in *. set (b := getb m _). clearbody b.
  destruct (Z.testbit b r) eqn:E.
  - apply Z.eqb_eq, Z.bits_inj'. intros n Hn. rewrite Z.land_spec, Z.pow2_bits_eqb by lia. bdestr (r =? n); [subst; by rewrite E|apply andb_false_r].
  - apply Z.eqb_neq. intros H. assert (Hb : Z.testbit (Z.land b (2 ^ r)) r = Z.testbit (2 ^ r) r) by (by rewrite H).
    rewrite Z.land_spec, E, Z.pow2_bits_true in Hb by lia. done.
Qed.
(** Writing byte [i / 8] of the vector. *)
Lemma bit_isset_setb a i j m v (f : bool -> bool) : 0 <= i -> 0 <= j ->
  (forall n, 0 <= n < 8 -> Z.testbit v n = if i mod 8 =? n then f (Z.testbit (getb m (a + i / 8)) n) else Z.testbit (getb m (a + i / 8)) n) ->
  bit_isset a j (setb m (a + i / 8) v) = if i =? j then f (bit_isset a j m) else bit_isset a j m.
Proof.
  intros Hi Hj Hv. rewrite !bit_isset_testbit, getb_setb by done. pose proof (Z.mod_pos_bound j 8 ltac:(lia)).
  bdestr (a + i / 8 =? a + j / 8).
  - unfold u8. rewrite Z.mod_pow2_bits_low, Hv by lia. replace (a + i / 8) with (a + j / 8) by lia.
    replace (i mod 8 =? j mod 8) with (i =? j); [done|]. apply eq_true_iff_eq. rewrite !Z.eqb_eq.
    split; [by intros ->|]. pose proof (Z.div_mod i 8). pose proof (Z.div_mod j 8). lia.
  - replace (i =? j) with false; [done|]. symmetry. apply Z.eqb_neq. intros ->. lia.
Qed.
Lemma bit_isset_set a i j m : 0 <= i -> 0 <= j -> bit_isset a j (bit_set a i m) = if i =? j then true else bit_isset a j m.
Proof.
  intros Hi Hj. unfold bit_set. rewrite bit_mask, Z.quot_div_nonneg by lia. apply (bit_isset_setb _ _ _ _ _ (fun _ => true)); [done..|].
  intros n Hn. pose proof (Z.mod_pos_bound i 8 ltac:(lia)). rewrite Z.lor_spec, Z.pow2_bits_eqb by lia. destruct (_ =? n); [apply orb_true_r|apply orb_false_r].
Qed.
Lemma bit_isset_clear a i j m : 0 <= i -> 0 <= j -> bit_isset a j (bit_clear a i m) = if i =? j then false else bit_isset a j m.
Proof.
  intros Hi Hj. unfold bit_clear. rewrite bit_mask, Z.quot_div_nonneg by lia. apply (bit_isset_setb _ _ _ _ _ (fun _ => false)); [done..|].
  intros n Hn. pose proof (Z.mod_pos_bound i 8 ltac:(lia)). rewrite Z.land_spec, Z.lnot_spec, Z.pow2_bits_eqb by lia. destruct (_ =? n); [apply andb_false_r|apply andb_true_r].
Qed.
Lemma bit_set_frame a i m x : 0 <= i -> x <> a + i / 8 -> getb (bit_set a i m) x = getb m x.
Proof. intros Hi Hx. unfold bit_set. rewrite getb_setb, Z.quot_div_nonneg by lia. by if_lia. Qed.
Lemma bit_clear_frame a i m x : 0 <= i -> x <> a + i / 8 -> getb (bit_clear a i m) x = getb m x.
Proof. intros Hi Hx. unfold bit_clear. rewrite getb_setb, Z.quot_div_nonneg by lia. by if_lia. Qed.
Lemma bit_isset_ext a i m m' : 0 <= i -> getb m' (a + i / 8) = getb m (a + i / 8) -> bit_isset a i m' = bit_isset a i m.
Proof. intros Hi H. by rewrite !bit_isset_testbit, H by done. Qed.
