(* ===== verification/BuddyHeap.v ===== *)
(** * The heap of the buddy allocator

    The blocks of a heap of [2^mx] leaves, as a tree kept in a map: the entry
    [(k, i)] is block [i] of size [k].  A block is free, used, or split into the
    blocks [(k - 1, 2 i)] and [(k - 1, 2 i + 1)].  [heap_rep] is what the memory
    of buddy.c holds: the bit vectors [A] and [S] and the free lists [F]; the
    [region] each byte belongs to keeps them apart. *)
From S2P Require Import Prelude Mem Riscv State Spinlock Console Buddy BuddyProofs.

(** ** Layout *)
(** What a byte is used for: static variables and pointers to the arrays, the head
    of a free list, the bit vectors of a size, or blocks. *)
Inductive region := RStatic | RHead (k : Z) | RAlloc (k : Z) | RSplit (k : Z) | RHeap | ROther.
#[export] Instance region_eq_dec : EqDecision region.
Proof. solve_decision. Defined.
Record layout := mk_layout {
  ly_base : Z; ly_mx : Z; ly_sizes : Z; ly_alloc : Z -> Z; ly_split : Z -> Z;
  ly_owner : Z -> region;
}.
Definition lhead (L : layout) (k : Z) : Z := ly_sizes L + k * 32.
Definition bsize (k : Z) : Z := 2 ^ (k + 4).
Definition baddr (L : layout) (k i : Z) : Z := ly_base L + i * bsize k.
Definition valid (L : layout) (k i : Z) : Prop := 0 <= k <= ly_mx L /\ 0 <= i < 2 ^ (ly_mx L - k).
(** All of block [i] of size [k] is heap. *)
Definition in_heap (L : layout) (k i : Z) : Prop :=
  forall a, baddr L k i <= a < baddr L k i + bsize k -> ly_owner L a = RHeap.

Section Heap.
Context `{BS : BuddySyms} (L : layout).

Record layout_ok : Prop := {
  lo_mx : 0 <= ly_mx L <= 26;
  lo_base : 0 < ly_base L < 2 ^ 63;
  lo_nsizes : forall a, nsizes_at <= a < nsizes_at + 4 -> ly_owner L a = RStatic;
  lo_sizes : forall a, bd_sizes_at <= a < bd_sizes_at + 8 -> ly_owner L a = RStatic;
  lo_bbase : forall a, bd_base_at <= a < bd_base_at + 8 -> ly_owner L a = RStatic;
  lo_head : forall k a, 0 <= k <= ly_mx L -> lhead L k <= a < lhead L k + 16 -> ly_owner L a = RHead k;
  lo_ptrs : forall k a, 0 <= k <= ly_mx L -> lhead L k + 16 <= a < lhead L k + 32 -> ly_owner L a = RStatic;
  lo_alloc : forall k i, valid L k i -> ly_owner L (ly_alloc L k + i / 8) = RAlloc k;
  lo_split : forall k i, 0 < k -> valid L k i -> ly_owner L (ly_split L k + i / 8) = RSplit k;
}.

(** ** Memory *)
Record config (m : mem) : Prop := {
  cf_nsizes : s32 (load32 m nsizes_at) = ly_mx L + 1;
  cf_sizes : load64 m bd_sizes_at = ly_sizes L;
  cf_base : load64 m bd_base_at = ly_base L;
  cf_alloc : forall k, 0 <= k <= ly_mx L -> load64 m (lhead L k + 16) = ly_alloc L k;
  cf_split : forall k, 0 < k <= ly_mx L -> load64 m (lhead L k + 24) = ly_split L k;
}.
Record heap_rep (m : mem) (A S : Z -> Z -> bool) (F : Z -> list Z) : Prop := {
  hr_config : config m;
  hr_alloc : forall k i, valid L k i -> k < ly_mx L -> bit_isset (ly_alloc L k) i m = A k i;
  hr_split : forall k i, 0 < k -> valid L k i -> bit_isset (ly_split L k) i m = S k i;
  hr_lists : forall k, 0 <= k <= ly_mx L -> dlist m (lhead L k) (F k);
  hr_nodes : forall k x a, 0 <= k <= ly_mx L -> x ∈ F k -> x <= a < x + 16 -> ly_owner L a = RHeap;
  hr_apart : forall j k x y, 0 <= j <= ly_mx L -> 0 <= k <= ly_mx L -> j <> k -> x ∈ F j -> y ∈ F k -> clear_of x y;
}.
Definition set2 (A : Z -> Z -> bool) (k i : Z) (b : bool) : Z -> Z -> bool :=
  fun k' i' => if (k =? k') && (i =? i') then b else A k' i'.
Definition setl (F : Z -> list Z) (k : Z) (l : list Z) : Z -> list Z := fun k' => if k =? k' then l else F k'.

(** Nothing but the nodes [N] and the allocator's own data is written. *)
Definition keeps (N : list Z) (m m' : mem) : Prop :=
  forall a, ly_owner L a = RHeap \/ ly_owner L a = ROther -> ~ in_nodes N a -> getb m' a = getb m a.

Hypothesis Hlay : layout_ok.

(** Only what a write touches changes. *)
Lemma config_frame m m' : (forall a, ly_owner L a = RStatic -> getb m' a = getb m a) -> config m -> config m'.
Proof.
  intros Hm [H1 H2 H3 H4 H5]. split.
  - rewrite <- H1. f_equal. apply load_ext. intros a Ha. apply Hm, (lo_nsizes Hlay). lia.
  - rewrite <- H2. apply load_ext. intros a Ha. apply Hm, (lo_sizes Hlay). lia.
  - rewrite <- H3. apply load_ext. intros a Ha. apply Hm, (lo_bbase Hlay). lia.
  - intros k Hk. rewrite <- H4 by done. apply load_ext. intros a Ha. apply Hm, (lo_ptrs Hlay k); lia.
  - intros k Hk. rewrite <- H5 by done. apply load_ext. intros a Ha. apply Hm, (lo_ptrs Hlay k); lia.
Qed.
Lemma list_owner m A S F k a : heap_rep m A S F -> 0 <= k <= ly_mx L -> in_nodes (lhead L k :: F k) a -> ly_owner L a = RHead k \/ ly_owner L a = RHeap.
Proof.
  intros H Hk (x & [->|Hx]%elem_of_cons & Ha); [left; by apply (lo_head Hlay)|right; by apply (hr_nodes _ _ _ _ H k x)].
Qed.

(** A bit vector is written. *)
Lemma rep_bits m m' A S F A' S' (r : region) : heap_rep m A S F -> (forall k, r <> RHead k) -> r <> RHeap -> r <> RStatic ->
  (forall a, ly_owner L a <> r -> getb m' a = getb m a) ->
  (forall k i, valid L k i -> k < ly_mx L -> bit_isset (ly_alloc L k) i m' = A' k i) ->
  (forall k i, 0 < k -> valid L k i -> bit_isset (ly_split L k) i m' = S' k i) -> heap_rep m' A' S' F.
Proof.
  intros H H1 H2 H3 Hm HA HS. split; [|done|done| |apply (hr_nodes _ _ _ _ H)|apply (hr_apart _ _ _ _ H)].
  - apply (config_frame m); [|apply H]. intros a Ha. apply Hm. congruence.
  - intros k Hk. apply (dlist_frame m); [|by apply (hr_lists _ _ _ _ H)]. intros a Ha. apply Hm.
    destruct (list_owner _ _ _ _ _ _ H Hk Ha) as [-> | ->]; [intros <-; by apply (H1 k)|congruence].
Qed.
Lemma rep_alloc_bit m A S F k i (b : bool) : heap_rep m A S F -> valid L k i ->
  heap_rep ((if b then bit_set else bit_clear) (ly_alloc L k) i m) (set2 A k i b) S F /\
  keeps [] m ((if b then bit_set else bit_clear) (ly_alloc L k) i m).
Proof.
  intros H Hv. assert (Hi : 0 <= i) by (by destruct Hv as [_ []]).
  set (m' := (if b then bit_set else bit_clear) (ly_alloc L k) i m).
  assert (Hm : forall a, ly_owner L a <> RAlloc k -> getb m' a = getb m a).
  { intros a Ha. unfold m'. destruct b; [apply bit_set_frame|apply bit_clear_frame]; try done; intros ->; apply Ha; by apply (lo_alloc Hlay). }
  split; [|intros a Ha _; apply Hm; destruct Ha; congruence]. apply (rep_bits m m' A S F _ _ (RAlloc k)); try done.
  - intros k' i' Hv' Hk'. pose proof Hv' as [_ [Hi' _]]. unfold set2. bdestr (k =? k').
    + subst k'. cbn [andb]. unfold m'. destruct b; rewrite ?bit_isset_set, ?bit_isset_clear, (hr_alloc _ _ _ _ H) by done; done.
    + cbn [andb]. rewrite <- (hr_alloc _ _ _ _ H k' i') by done. apply bit_isset_ext; [done|]. apply Hm. rewrite (lo_alloc Hlay) by done. congruence.
  - intros k' i' Hk' Hv'. pose proof Hv' as [_ [Hi' _]]. rewrite <- (hr_split _ _ _ _ H k' i') by done. apply bit_isset_ext; [done|].
    apply Hm. by rewrite (lo_split Hlay) by done.
Qed.
Lemma rep_split_bit m A S F k i (b : bool) : heap_rep m A S F -> 0 < k -> valid L k i ->
  heap_rep ((if b then bit_set else bit_clear) (ly_split L k) i m) A (set2 S k i b) F /\
  keeps [] m ((if b then bit_set else bit_clear) (ly_split L k) i m).
Proof.
  intros H Hk Hv. assert (Hi : 0 <= i) by (by destruct Hv as [_ []]).
  set (m' := (if b then bit_set else bit_clear) (ly_split L k) i m).
  assert (Hm : forall a, ly_owner L a <> RSplit k -> getb m' a = getb m a).
  { intros a Ha. unfold m'. destruct b; [apply bit_set_frame|apply bit_clear_frame]; try done; intros ->; apply Ha; by apply (lo_split Hlay). }
  split; [|intros a Ha _; apply Hm; destruct Ha; congruence]. apply (rep_bits m m' A S F _ _ (RSplit k)); try done.
  - intros k' i' Hv' Hk'. pose proof Hv' as [_ [Hi' _]]. rewrite <- (hr_alloc _ _ _ _ H k' i') by done. apply bit_isset_ext; [done|].
    apply Hm. by rewrite (lo_alloc Hlay) by done.
  - intros k' i' Hk' Hv'. pose proof Hv' as [_ [Hi' _]]. unfold set2. bdestr (k =? k').
    + subst k'. cbn [andb]. unfold m'. destruct b; rewrite ?bit_isset_set, ?bit_isset_clear, (hr_split _ _ _ _ H) by done; done.
    + cbn [andb]. rewrite <- (hr_split _ _ _ _ H k' i') by done. apply bit_isset_ext; [done|]. apply Hm. rewrite (lo_split Hlay) by done. congruence.
Qed.

(** A list is written. *)
Lemma rep_list m m' A S F k l : heap_rep m A S F -> 0 <= k <= ly_mx L -> dlist m' (lhead L k) l ->
  (forall x a, x ∈ l -> x <= a < x + 16 -> ly_owner L a = RHeap) ->
  (forall j x y, 0 <= j <= ly_mx L -> j <> k -> x ∈ F j -> y ∈ l \/ y ∈ F k -> clear_of x y) ->
  (forall a, ~ in_nodes (lhead L k :: l ++ F k) a -> getb m' a = getb m a) -> heap_rep m' A S (setl F k l) /\ keeps (l ++ F k) m m'.
Proof.
  intros H Hk Hd Hl Hap Hm. split.
  2: { intros a Ho Ha. apply Hm. intros (x & [->|Hx]%elem_of_cons & Hxa); [|apply Ha; by exists x]. rewrite (lo_head Hlay k) in Ho by done. by destruct Ho. }
  assert (Hm' : forall a, ly_owner L a <> RHead k -> ly_owner L a <> RHeap -> getb m' a = getb m a).
  { intros a H1 H2. apply Hm. intros (x & Hx & Ha). apply elem_of_cons in Hx as [->|[Hx|Hx]%elem_of_app].
    - apply H1. by apply (lo_head Hlay).
    - apply H2. by apply (Hl x).
    - apply H2. by apply (hr_nodes _ _ _ _ H k x). }
  split.
  - apply (config_frame m); [|apply H]. intros a Ha. apply Hm'; congruence.
  - intros k' i' Hv' Hk'. pose proof Hv' as [_ [Hi' _]]. rewrite <- (hr_alloc _ _ _ _ H k' i') by done. apply bit_isset_ext; [done|].
    apply Hm'; by rewrite (lo_alloc Hlay) by done.
  - intros k' i' Hk' Hv'. pose proof Hv' as [_ [Hi' _]]. rewrite <- (hr_split _ _ _ _ H k' i') by done. apply bit_isset_ext; [done|].
    apply Hm'; by rewrite (lo_split Hlay) by done.
  - intros j Hj. unfold setl. bdestr (k =? j); [by subst|]. apply (dlist_frame m); [|by apply (hr_lists _ _ _ _ H)].
    intros a (x & Hx & Ha). apply Hm. intros (y & Hy & Hya).
    assert (Hc : y ∈ l \/ y ∈ F k -> x ∈ F j -> False).
    { intros H1 H2. pose proof (Hap j x y Hj ltac:(lia) H2 H1) as Hc. unfold clear_of in Hc. lia. }
    assert (Hjk : lhead L k <= a < lhead L k + 16 -> False).
    { intros Hh. pose proof (lo_head Hlay k a Hk Hh). apply elem_of_cons in Hx as [->|Hx]; [|by rewrite (hr_nodes _ _ _ _ H j x) in *].
      pose proof (lo_head Hlay j a Hj Ha). congruence. }
    apply elem_of_cons in Hy as [->|[Hy|Hy]%elem_of_app]; [done|..];
      (apply elem_of_cons in Hx as [->|Hx]; [pose proof (lo_head Hlay j a Hj Ha)|apply Hc; auto]).
    + by rewrite (Hl y) in *.
    + by rewrite (hr_nodes _ _ _ _ H k y) in *.
  - intros j x a Hj. unfold setl. bdestr (k =? j); [by apply Hl|by apply (hr_nodes _ _ _ _ H)].
  - intros j1 j2 x y Hj1 Hj2 Hne. unfold setl. bdestr (k =? j1); bdestr (k =? j2); subst; intros Hx Hy; [done|..].
    + apply clear_sym. apply (Hap j2); auto.
    + apply (Hap j1); auto.
    + by apply (hr_apart _ _ _ _ H j1 j2).
Qed.
Lemma rep_push m A S F k x : heap_rep m A S F -> 0 <= k <= ly_mx L -> 0 <= x < 2 ^ 64 ->
  (forall a, x <= a < x + 16 -> ly_owner L a = RHeap) ->
  (forall j y, 0 <= j <= ly_mx L -> y ∈ F j -> clear_of y x) ->
  heap_rep (lst_push (lhead L k) x m) A S (setl F k (x :: F k)) /\ keeps ((x :: F k) ++ F k) m (lst_push (lhead L k) x m).
Proof.
  intros H Hk Hx Ho Hc. pose proof (hr_lists _ _ _ _ H k Hk) as Hd.
  assert (Hxh : clear_of x (lhead L k)).
  { destruct (decide (clear_of x (lhead L k))) as [|Hn]; [done|exfalso]. unfold clear_of in Hn.
    pose proof (Ho (Z.max x (lhead L k)) ltac:(lia)). pose proof (lo_head Hlay k (Z.max x (lhead L k)) Hk ltac:(lia)). congruence. }
  assert (Hs : spread (x :: lhead L k :: F k)).
  { split; [done|]. split; [|apply Hd]. intros y [->|Hy]%elem_of_cons; [done|]. apply clear_sym. by apply (Hc k). }
  apply (rep_list m); [done|done|by apply lst_push_list|..].
  - intros y a [->|Hy]%elem_of_cons; [apply Ho|by apply (hr_nodes _ _ _ _ H k)].
  - intros j y z Hj Hne Hy Hz. assert (z = x \/ z ∈ F k) as [->|Hz'] by set_solver; [by apply (Hc j)|by apply (hr_apart _ _ _ _ H j k)].
  - intros a Ha. apply (lst_push_frame _ _ (F k)); [done|done|]. intros (y & Hy & Hya). apply Ha. exists y. split; [set_solver|done].
Qed.
Lemma rep_remove m A S F k l1 x l2 : heap_rep m A S F -> 0 <= k <= ly_mx L -> F k = l1 ++ x :: l2 ->
  heap_rep (lst_remove x m) A S (setl F k (l1 ++ l2)) /\ keeps ((l1 ++ l2) ++ F k) m (lst_remove x m).
Proof.
  intros H Hk E. pose proof (hr_lists _ _ _ _ H k Hk) as Hd. rewrite E in Hd.
  assert (Hin : forall y, y ∈ l1 ++ l2 -> y ∈ F k) by (rewrite E; set_solver).
  apply (rep_list m); [done|done|by apply lst_remove_list|..].
  - intros y a Hy. apply (hr_nodes _ _ _ _ H k); auto.
  - intros j y z Hj Hne Hy Hz. apply (hr_apart _ _ _ _ H j k); auto. destruct Hz; auto.
  - intros a Ha. apply (lst_remove_frame _ (lhead L k) l1 x l2); [done|]. intros (y & Hy & Hya). apply Ha. exists y. split; [set_solver|done].
Qed.
Lemma rep_ext m A S F A' S' F' : (forall k i, valid L k i -> k < ly_mx L -> A k i = A' k i) -> (forall k i, valid L k i -> 0 < k -> S k i = S' k i) ->
  (forall k, 0 <= k <= ly_mx L -> F k = F' k) -> heap_rep m A S F -> heap_rep m A' S' F'.
Proof.
  intros HA HS HF H. split.
  - apply H.
  - intros k i Hv Hk. rewrite <- HA by done. by apply (hr_alloc _ _ _ _ H).
  - intros k i Hk Hv. rewrite <- HS by done. by apply (hr_split _ _ _ _ H).
  - intros k Hk. rewrite <- HF by done. by apply (hr_lists _ _ _ _ H).
  - intros k x a Hk. rewrite <- HF by done. by apply (hr_nodes _ _ _ _ H).
  - intros j k x y Hj Hk. rewrite <- !HF by done. by apply (hr_apart _ _ _ _ H).
Qed.
End Heap.
