(* ===== verification/BuddyTree.v ===== *)
(** * The blocks of the buddy allocator as a tree

    What the free lists and bit vectors stand for: a binary tree of blocks, kept
    as a map from (size, index).  [tree] says that the map is a tree in which no
    two buddies are free; taking, splitting, merging and releasing a block keep
    it so. *)
From S2P Require Import Prelude Mem Riscv State Spinlock Console Buddy BuddyProofs BuddyHeap.

Inductive bstate := BFree | BUsed | BSplit.
#[export] Instance bstate_eq_dec : EqDecision bstate.
Proof. solve_decision. Defined.
Abbreviation blocks := (gmap (Z * Z) bstate).

Definition buddy (i : Z) : Z := if Z.rem i 2 =? 0 then i + 1 else i - 1.
Definition split_block (B : blocks) (k i : Z) : blocks :=
  <[(k - 1, 2 * i + 1) := BFree]> (<[(k - 1, 2 * i) := BUsed]> (<[(k, i) := BSplit]> B)).
Definition merge_block (B : blocks) (k i : Z) : blocks :=
  <[(k + 1, i / 2) := BUsed]> (delete (k, i) (delete (k, buddy i) B)).

(** Case analysis on which entry of the map is meant. *)
Ltac keys :=
  repeat case_if;
  repeat match goal with
  | E : (_ =? _) && (_ =? _) = true |- _ => let E1 := fresh "Ek" in let E2 := fresh "Ei" in apply andb_true_iff in E as [E1%Z.eqb_eq E2%Z.eqb_eq]
  | E : (_ =? _) && (_ || _) = true |- _ =>
      let E1 := fresh "Ek" in let E2 := fresh "Ei" in apply andb_true_iff in E as [E1%Z.eqb_eq [E2%Z.eqb_eq|E2%Z.eqb_eq]%orb_true_iff]
  end.

Section Tree.
Context (L : layout).

Record tree (B : blocks) : Prop := {
  tr_root : is_Some (B !! (ly_mx L, 0));
  tr_valid : forall k i, is_Some (B !! (k, i)) -> valid L k i;
  tr_child : forall k i, valid L k i -> k < ly_mx L -> is_Some (B !! (k, i)) <-> B !! (k + 1, i / 2) = Some BSplit;
  tr_leaf : forall i, B !! (0, i) <> Some BSplit;
  tr_merged : forall k i, k < ly_mx L -> B !! (k, i) = Some BFree -> B !! (k, buddy i) <> Some BFree;
}.

(** ** Indices *)
Lemma valid_parent k i : valid L k i -> k < ly_mx L -> valid L (k + 1) (i / 2).
Proof.
  intros [Hk Hi] Hlt. split; [lia|]. replace (ly_mx L - k) with (1 + (ly_mx L - (k + 1))) in Hi by lia.
  rewrite Z.pow_add_r in Hi by lia. lia.
Qed.
Lemma valid_child k i b : valid L k i -> 0 < k -> 0 <= b < 2 -> valid L (k - 1) (2 * i + b).
Proof.
  intros [Hk Hi] Hlt Hb. split; [lia|]. replace (ly_mx L - (k - 1)) with (1 + (ly_mx L - k)) by lia. rewrite Z.pow_add_r by lia. lia.
Qed.
Lemma buddy_cases i : 0 <= i -> (i mod 2 = 0 /\ buddy i = i + 1) \/ (i mod 2 = 1 /\ buddy i = i - 1).
Proof. intros Hi. unfold buddy. rewrite Z.rem_mod_nonneg by lia. bdestr (i mod 2 =? 0); [by left|right]. pose proof (Z.mod_pos_bound i 2). lia. Qed.
Lemma buddy_half i : 0 <= i -> buddy i / 2 = i / 2 /\ buddy i <> i /\ 0 <= buddy i.
Proof. intros Hi. destruct (buddy_cases i Hi) as [[? ->]|[? ->]]; lia. Qed.
Lemma buddy_buddy i : 0 <= i -> buddy (buddy i) = i.
Proof.
  intros Hi. destruct (buddy_half i Hi) as (_ & _ & Hb). destruct (buddy_cases i Hi) as [[? E]|[? E]]; rewrite E in *; destruct (buddy_cases _ Hb) as [[? ->]|[? ->]]; lia.
Qed.
Lemma half_eq i j : 0 <= i -> 0 <= j -> i / 2 = j / 2 -> j = i \/ j = buddy i.
Proof. intros Hi Hj H. destruct (buddy_cases i Hi) as [[? ->]|[? ->]]; lia. Qed.
Lemma valid_buddy k i : valid L k i -> k < ly_mx L -> valid L k (buddy i).
Proof.
  intros [Hk Hi] Hlt. split; [done|]. replace (ly_mx L - k) with (1 + (ly_mx L - (k + 1))) in * by lia. rewrite Z.pow_add_r in * by lia.
  destruct (buddy_half i) as (? & ? & ?); [lia|]. lia.
Qed.
Lemma root_index i : valid L (ly_mx L) i -> i = 0.
Proof. intros [_ H]. rewrite Z.sub_diag in H. change (2 ^ 0) with 1 in H. lia. Qed.

(** ** Blocks that are not split do not overlap *)
Lemma tree_ancestor B k i n : tree B -> is_Some (B !! (k, i)) -> k + Z.of_nat (S n) <= ly_mx L ->
  B !! (k + Z.of_nat (S n), i / 2 ^ Z.of_nat (S n)) = Some BSplit.
Proof.
  intros H Hs. induction n as [|n IH]; intros Hn.
  - apply (tr_child B H); [by apply (tr_valid B H)|lia|done].
  - specialize (IH ltac:(lia)). pose proof (tr_valid B H _ _ (mk_is_Some _ _ IH)) as Hv.
    replace (k + Z.of_nat (S (S n))) with (k + Z.of_nat (S n) + 1) by lia.
    replace (i / 2 ^ Z.of_nat (S (S n))) with (i / 2 ^ Z.of_nat (S n) / 2).
    + apply (tr_child B H); [done|lia|by eexists].
    + rewrite Zdiv.Zdiv_Zdiv by lia. f_equal. rewrite (Nat2Z.inj_succ (S n)), Z.pow_succ_r by lia. lia.
Qed.
Lemma leaves_apart_le B k i j i' s s' : tree B -> B !! (k, i) = Some s -> B !! (j, i') = Some s' -> s' <> BSplit ->
  k <= j -> (k, i) <> (j, i') -> baddr L k i + bsize k <= baddr L j i' \/ baddr L j i' + bsize j <= baddr L k i.
Proof.
  intros H Hs Hs' Hns Hkj Hne. destruct (tr_valid B H _ _ (mk_is_Some _ _ Hs)) as [Hk Hi]. destruct (tr_valid B H _ _ (mk_is_Some _ _ Hs')) as [Hj Hi'].
  assert (Hq : i / 2 ^ (j - k) <> i').
  { intros Hq. destruct (Z.to_nat (j - k)) as [|n] eqn:En.
    - replace (j - k) with 0 in Hq by lia. rewrite Z.div_1_r in Hq. apply Hne. f_equal; lia.
    - pose proof (tree_ancestor B k i n H (mk_is_Some _ _ Hs)) as Ha. replace (Z.of_nat (S n)) with (j - k) in Ha by lia.
      replace (k + (j - k)) with j in Ha by lia. specialize (Ha ltac:(lia)). rewrite Hq in Ha. congruence. }
  unfold baddr, bsize. replace (j + 4) with ((j - k) + (k + 4)) by lia. rewrite (Z.pow_add_r 2 (j - k)) by lia.
  pose proof (Z.pow_pos_nonneg 2 (j - k) ltac:(lia) ltac:(lia)). pose proof (Z.pow_pos_nonneg 2 (k + 4) ltac:(lia) ltac:(lia)).
  pose proof (Z.div_mod i (2 ^ (j - k)) ltac:(lia)). pose proof (Z.mod_pos_bound i (2 ^ (j - k)) ltac:(lia)).
  set (P := 2 ^ (j - k)) in *. set (w := 2 ^ (k + 4)) in *. set (q := i / P) in *. set (r := i mod P) in *. clearbody P w q r.
  destruct (Z.lt_total q i') as [|[|]]; [left|done|right].
  - pose proof (Z.mul_le_mono_nonneg_l (q + 1) i' P ltac:(lia) ltac:(lia)).
    pose proof (Z.mul_le_mono_nonneg_l (i + 1) (i' * P) w ltac:(lia) ltac:(lia)). lia.
  - pose proof (Z.mul_le_mono_nonneg_l (i' + 1) q P ltac:(lia) ltac:(lia)).
    pose proof (Z.mul_le_mono_nonneg_l ((i' + 1) * P) i w ltac:(lia) ltac:(lia)). lia.
Qed.
Lemma leaves_apart B k i j i' s s' : tree B -> B !! (k, i) = Some s -> B !! (j, i') = Some s' -> s <> BSplit -> s' <> BSplit ->
  (k, i) <> (j, i') -> baddr L k i + bsize k <= baddr L j i' \/ baddr L j i' + bsize j <= baddr L k i.
Proof.
  intros H Hs Hs' Hn Hn' Hne. destruct (Z.le_gt_cases k j).
  - by eapply leaves_apart_le.
  - apply or_comm. eapply leaves_apart_le; [done..|lia|done].
Qed.
Lemma bsize_16 k : 0 <= k -> 16 <= bsize k.
Proof. intros H. unfold bsize. rewrite Z.pow_add_r by lia. pose proof (Z.pow_pos_nonneg 2 k ltac:(lia) ltac:(lia)). lia. Qed.

(** ** Operations *)
Lemma tree_set B k i s s' : tree B -> B !! (k, i) = Some s -> s <> BSplit -> s' <> BSplit ->
  (s' = BFree -> k < ly_mx L -> B !! (k, buddy i) <> Some BFree) -> tree (<[(k, i) := s']> B).
Proof.
  intros H Hs Hn Hn' Hb. pose proof (tr_valid B H _ _ (mk_is_Some _ _ Hs)) as Hv. split.
  - rewrite lookup_insert. case_decide; [by eexists|apply H].
  - intros k' i'. rewrite lookup_insert. case_decide; [by simplify_eq|apply H].
  - intros k' i' Hv' Hk'. rewrite !lookup_insert. pose proof (tr_child B H k' i' Hv' Hk') as Hc.
    destruct (decide ((k, i) = (k', i'))); [simplify_eq|destruct (decide ((k, i) = (k' + 1, i' / 2)))]; simplify_eq.
    + rewrite decide_False by (intros [=]; lia). rewrite <- Hc. split; intros _; by eexists.
    + rewrite Hc, Hs. split; intros [=]; congruence.
    + done.
  - intros i'. rewrite lookup_insert. case_decide; [congruence|apply H].
  - intros k' i' Hk'. rewrite !lookup_insert. destruct (decide ((k, i) = (k', i'))) as [E|E]; [simplify_eq|].
    + intros [= ->]. destruct (buddy_half i') as (_ & Hne & _); [by apply Hv|]. rewrite decide_False by (intros [=]; congruence). by apply Hb.
    + intros Hf. case_decide as E2; [simplify_eq|by apply (tr_merged B H)]. intros [= ->].
      apply (Hb eq_refl Hk'). rewrite buddy_buddy; [done|]. apply (tr_valid B H k' i'). by eexists.
Qed.
Lemma no_child B k i s b : tree B -> B !! (k, i) = Some s -> s <> BSplit -> 0 < k -> 0 <= b < 2 -> B !! (k - 1, 2 * i + b) = None.
Proof.
  intros H Hs Hn Hk Hb. pose proof (tr_valid B H _ _ (mk_is_Some _ _ Hs)) as Hv. destruct (B !! (k - 1, 2 * i + b)) eqn:E; [|done].
  exfalso. assert (is_Some (B !! (k - 1, 2 * i + b))) as Hc by (by eexists). apply (tr_child B H) in Hc; [|by apply valid_child|destruct Hv; lia].
  replace (k - 1 + 1) with k in Hc by lia. replace ((2 * i + b) / 2) with i in Hc by lia. congruence.
Qed.
Lemma split_lookup B k i k' i' : split_block B k i !! (k', i') =
  if (k' =? k) && (i' =? i) then Some BSplit else if (k' =? k - 1) && (i' =? 2 * i) then Some BUsed
  else if (k' =? k - 1) && (i' =? 2 * i + 1) then Some BFree else B !! (k', i').
Proof.
  unfold split_block. rewrite !lookup_insert. repeat case_decide; rewrite pair_equal_spec in *; by repeat if_lia.
Qed.
Lemma tree_split B k i : tree B -> B !! (k, i) = Some BUsed -> 0 < k -> tree (split_block B k i).
Proof.
  intros H Hs Hk. pose proof (tr_valid B H _ _ (mk_is_Some _ _ Hs)) as Hv.
  pose proof (no_child B k i _ 0 H Hs ltac:(done) Hk ltac:(lia)) as N0. pose proof (no_child B k i _ 1 H Hs ltac:(done) Hk ltac:(lia)) as N1.
  pose proof (valid_child k i 0 Hv Hk ltac:(lia)) as V0. pose proof (valid_child k i 1 Hv Hk ltac:(lia)) as V1. rewrite Z.add_0_r in N0, V0. split.
  - rewrite split_lookup. repeat case_if; [by eexists..|apply H].
  - intros k' i'. rewrite split_lookup. keys; intros Hx; [by rewrite Ek, Ei..|by apply H].
  - intros k' i' Hv' Hk'. pose proof (tr_child B H k' i' Hv' Hk') as Hc. pose proof Hv' as [_ [Hi' _]]. rewrite !split_lookup.
    destruct (decide (k' + 1 = k /\ i' / 2 = i)) as [[E1 E2]|E].
    + rewrite E1, E2, !Z.eqb_refl. cbn [andb]. split; [done|]. intros _. assert (i' = 2 * i \/ i' = 2 * i + 1) as [->| ->] by lia; repeat if_lia; by eexists.
    + assert (is_Some (if (k' =? k) && (i' =? i) then Some BSplit else B !! (k', i')) <-> is_Some (B !! (k', i'))) as E1.
      { keys; [|done]. rewrite Ek, Ei, Hs. split; intros _; by eexists. }
      replace ((k' =? k - 1) && (i' =? 2 * i)) with false by lia. replace ((k' =? k - 1) && (i' =? 2 * i + 1)) with false by lia.
      rewrite E1, Hc. clear E1. replace ((k' + 1 =? k) && (i' / 2 =? i)) with false by lia.
      keys; [rewrite Ek, Ei, N0; done|rewrite Ek, Ei, N1; done|done].
  - intros i'. rewrite split_lookup. repeat case_if; [lia|done|done|apply H].
  - intros k' i' Hk'. rewrite !split_lookup. destruct ((k' =? k - 1) && (i' =? 2 * i + 1)) eqn:E.
    + intros _. replace (buddy i') with (2 * i); [by repeat if_lia|]. destruct (buddy_cases i') as [[]|[]]; [destruct V1 as [_ []]|..]; lia.
    + intros Hf. assert (B !! (k', i') = Some BFree) as HB by (keys; done). destruct (tr_valid B H _ _ (mk_is_Some _ _ HB)) as [_ [Hi' _]].
      pose proof (tr_merged B H k' i' Hk' HB) as Hm. pose proof (buddy_cases i' Hi') as Hb. keys; try done. lia.
Qed.
Lemma merge_lookup B k i k' i' : merge_block B k i !! (k', i') =
  if (k' =? k + 1) && (i' =? i / 2) then Some BUsed else if (k' =? k) && ((i' =? i) || (i' =? buddy i)) then None else B !! (k', i').
Proof.
  unfold merge_block. rewrite lookup_insert, !lookup_delete. repeat case_decide; rewrite pair_equal_spec in *; by repeat if_lia.
Qed.
Lemma tree_merge B k i : tree B -> B !! (k, i) = Some BUsed -> B !! (k, buddy i) = Some BFree -> k < ly_mx L -> tree (merge_block B k i).
Proof.
  intros H Hs Hb Hk. pose proof (tr_valid B H _ _ (mk_is_Some _ _ Hs)) as Hv. pose proof Hv as [Hk0 [Hi _]].
  destruct (buddy_half i Hi) as (Hb2 & Hbn & Hb0).
  assert (Hp : B !! (k + 1, i / 2) = Some BSplit) by (by apply (tr_child B H); [..|eexists]). split.
  - rewrite merge_lookup. repeat case_if; [by eexists|lia|apply H].
  - intros k' i'. rewrite merge_lookup. keys; intros Hx; [rewrite Ek, Ei; by apply valid_parent|by destruct Hx..|by apply H].
  - intros k' i' Hv' Hk'. pose proof (tr_child B H k' i' Hv' Hk') as Hc. pose proof Hv' as [_ [Hi' _]]. rewrite !merge_lookup.
    destruct (decide (k' = k /\ i' / 2 = i / 2)) as [[-> E2]|E].
    + assert (i' = i \/ i' = buddy i) as E by (apply half_eq; lia). repeat if_lia. split; [by intros []|done].
    + replace ((k' =? k) && ((i' =? i) || (i' =? buddy i))) with false by (symmetry; apply not_true_iff_false; intros ?; keys; lia).
      replace ((k' + 1 =? k + 1) && (i' / 2 =? i / 2)) with false by lia.
      assert (is_Some (if (k' =? k + 1) && (i' =? i / 2) then Some BUsed else B !! (k', i')) <-> is_Some (B !! (k', i'))) as ->.
      { keys; [|done]. rewrite Ek, Ei, Hp. split; intros _; by eexists. }
      rewrite Hc. keys; [rewrite Ek, Ei, Hs; done|rewrite Ek, Ei, Hb; done|done].
  - intros i'. rewrite merge_lookup. repeat case_if; [done|done|apply H].
  - intros k' i' Hk'. rewrite !merge_lookup. intros Hf. assert (B !! (k', i') = Some BFree) as HB by (keys; done).
    pose proof (tr_merged B H k' i' Hk' HB). clear Hf. by repeat case_if.
Qed.
(** Merging undoes splitting. *)
Lemma merge_split B k i : tree B -> B !! (k, i) = Some BUsed -> 0 < k -> merge_block (split_block B k i) (k - 1) (2 * i) = B.
Proof.
  intros H Hs Hk. pose proof (tr_valid B H _ _ (mk_is_Some _ _ Hs)) as [_ [Hi _]].
  pose proof (no_child B k i _ 0 H Hs ltac:(done) Hk ltac:(lia)) as N0. pose proof (no_child B k i _ 1 H Hs ltac:(done) Hk ltac:(lia)) as N1. rewrite Z.add_0_r in N0.
  apply map_eq. intros [k' i']. rewrite merge_lookup, split_lookup. replace (buddy (2 * i)) with (2 * i + 1) by (destruct (buddy_cases (2 * i)) as [[]|[]]; lia).
  replace (k - 1 + 1) with k by lia. replace (2 * i / 2) with i by lia.
  keys; [by rewrite Ek, Ei|by rewrite Ek, Ei..|lia|lia|done].
Qed.
End Tree.
