(* ===== verification/BuddyAlloc.v ===== *)
(** * bd_malloc and bd_free

    [heap L m B F]: the memory [m] holds the tree of blocks [B], with the free
    lists [F].  Each pass of the loops of bd_malloc and bd_free is one operation on
    the tree; the two functions refine [spec_malloc] and [spec_free]. *)
From S2P Require Import Prelude Mem Riscv State Spinlock Console Buddy BuddyProofs BuddyHeap BuddyTree.

Definition abits (B : blocks) (k i : Z) : bool := match B !! (k, i) with Some BUsed | Some BSplit => true | _ => false end.
Definition sbits (B : blocks) (k i : Z) : bool := match B !! (k, i) with Some BSplit => true | _ => false end.
Definition in_block (L : layout) (k i a : Z) : Prop := baddr L k i <= a < baddr L k i + bsize k.

Section Alloc.
Context `{BS : BuddySyms} (L : layout).

Record heap (m : mem) (B : blocks) (F : Z -> list Z) : Prop := {
  h_rep : heap_rep L m (abits B) (sbits B) F;
  h_tree : tree L B;
  h_free : forall k x, 0 <= k <= ly_mx L -> x ∈ F k <-> exists i, B !! (k, i) = Some BFree /\ x = baddr L k i;
  h_mine : forall k i, B !! (k, i) = Some BFree -> in_heap L k i;
}.
(** Bytes that belong neither to a free block nor to the allocator. *)
Definition outside (B : blocks) (a : Z) : Prop :=
  (ly_owner L a = RHeap \/ ly_owner L a = ROther) /\ forall k i, B !! (k, i) = Some BFree -> ~ in_block L k i a.

Hypothesis Hlay : layout_ok L.

Lemma baddr_inj k i j : 0 <= k -> baddr L k i = baddr L k j -> i = j.
Proof. unfold baddr. intros Hk H. pose proof (bsize_16 k Hk). nia. Qed.
Lemma block_end k i : valid L k i -> baddr L k i + bsize k <= ly_base L + 2 ^ 30.
Proof.
  intros [Hk Hi]. unfold baddr, bsize. destruct Hlay as [Hmx _ _ _ _ _ _ _ _].
  assert ((i + 1) * 2 ^ (k + 4) <= 2 ^ (ly_mx L - k) * 2 ^ (k + 4)) as H by (apply Z.mul_le_mono_nonneg_r; lia).
  rewrite <- Z.pow_add_r in H by lia. replace (ly_mx L - k + (k + 4)) with (ly_mx L + 4) in H by lia.
  pose proof (Z.pow_le_mono_r 2 (ly_mx L + 4) 30 ltac:(lia) ltac:(lia)). lia.
Qed.
Lemma baddr_bound k i : valid L k i -> ly_base L <= baddr L k i < ly_base L + 2 ^ 30.
Proof. intros Hv. pose proof (block_end k i Hv). destruct Hv as [Hk Hi]. pose proof (bsize_16 k ltac:(lia)). unfold baddr in *. nia. Qed.
Lemma baddr_addr k i : valid L k i -> 0 <= baddr L k i < 2 ^ 64.
Proof. intros Hv. pose proof (baddr_bound k i Hv). pose proof (lo_base L Hlay). change (2 ^ 64) with (2 * 2 ^ 63). lia. Qed.
(** The halves of a block. *)
Lemma bsize_half k : 0 < k -> bsize k = 2 * bsize (k - 1).
Proof. intros Hk. unfold bsize. replace (k + 4) with (1 + (k - 1 + 4)) by lia. rewrite Z.pow_add_r by lia. done. Qed.
Lemma baddr_left k i : 0 < k -> baddr L (k - 1) (2 * i) = baddr L k i.
Proof. intros Hk. unfold baddr. rewrite (bsize_half k) by done. lia. Qed.
Lemma baddr_right k i : 0 < k -> baddr L (k - 1) (2 * i + 1) = baddr L k i + bsize (k - 1).
Proof. intros Hk. unfold baddr. rewrite (bsize_half k) by done. lia. Qed.

Lemma free_apart m B F k i j y s : heap m B F -> B !! (k, i) = Some s -> s <> BSplit -> s <> BFree -> 0 <= j <= ly_mx L -> y ∈ F j ->
  y + 16 <= baddr L k i \/ baddr L k i + bsize k <= y.
Proof.
  intros H Hs Hn Hf Hj Hy. apply (h_free _ _ _ H) in Hy as (i' & Hi' & ->); [|done].
  pose proof (leaves_apart L B j i' k i _ _ (h_tree _ _ _ H) Hi' Hs ltac:(done) Hn ltac:(congruence)). pose proof (bsize_16 j ltac:(lia)). lia.
Qed.
Lemma free_lists_block m B F j x a : heap m B F -> 0 <= j <= ly_mx L -> x ∈ F j -> x <= a < x + 16 -> exists i, B !! (j, i) = Some BFree /\ in_block L j i a.
Proof.
  intros H Hj Hx Ha. apply (h_free _ _ _ H) in Hx as (i & Hi & ->); [|done]. exists i. split; [done|]. unfold in_block. pose proof (bsize_16 j ltac:(lia)). lia.
Qed.

Lemma nodes_outside m B F j l a : heap m B F -> 0 <= j <= ly_mx L -> outside B a -> (forall x, x ∈ l -> x ∈ F j) -> ~ in_nodes l a.
Proof.
  intros H Hj [_ Ho] Hl (x & Hx & Ha). destruct (free_lists_block m B F j x a H Hj (Hl x Hx) Ha) as (i & Hi & Hb). by apply (Ho j i).
Qed.
Lemma not_in_nil a : ~ in_nodes [] a.
Proof. by intros (x & ?%elem_of_nil & _). Qed.

(** A block is on its list once. *)
Lemma once m B F k l1 x l2 : heap m B F -> 0 <= k <= ly_mx L -> F k = l1 ++ x :: l2 -> x ∉ l1 ++ l2.
Proof.
  intros H Hk E. pose proof (hr_lists _ _ _ _ _ (h_rep _ _ _ H) k Hk) as [_ (_ & _ & Hs)]. rewrite E in Hs.
  apply spread_app in Hs as (_ & (_ & Hs & _) & Hs2). intros [Hx|Hx]%elem_of_app; [specialize (Hs2 x x Hx ltac:(by left))|specialize (Hs x Hx)]; unfold clear_of in *; lia.
Qed.

(** ** Taking a block off its list *)
Lemma heap_take m B F k x l : heap m B F -> 0 <= k <= ly_mx L -> F k = x :: l ->
  exists i, x = baddr L k i /\ B !! (k, i) = Some BFree /\
  heap (bit_set (ly_alloc L k) i (lst_remove x m)) (<[(k, i) := BUsed]> B) (setl F k l) /\
  forall a, outside B a -> getb (bit_set (ly_alloc L k) i (lst_remove x m)) a = getb m a.
Proof.
  intros H Hk E. assert (Hx : x ∈ F k) by (rewrite E; by left).
  apply (h_free _ _ _ H) in Hx as (i & Hi & ->); [|done]. exists i. split; [done|]. split; [done|].
  pose proof (tr_valid L B (h_tree _ _ _ H) _ _ (mk_is_Some _ _ Hi)) as Hv.
  assert (Hnl : baddr L k i ∉ l) by (by apply (once m B F k [] _ l H Hk)).
  destruct (rep_remove L Hlay m _ _ F k [] (baddr L k i) l (h_rep _ _ _ H) Hk E) as [R1 K1].
  destruct (rep_alloc_bit L Hlay _ _ _ _ k i true R1 Hv) as [R2 K2]. split.
  2: { intros a Ha. rewrite K2, K1; [done|apply Ha|..|apply Ha|apply not_in_nil]. apply (nodes_outside m B F k); [done..|]. rewrite E. set_solver. }
  split.
  - apply (rep_ext L _ (set2 (abits B) k i true) (sbits B) (setl F k l)); [..|done|].
    + intros k' i' _ _. unfold set2, abits. rewrite lookup_insert. repeat case_decide; rewrite pair_equal_spec in *; by repeat if_lia.
    + intros k' i' _ _. unfold sbits. rewrite lookup_insert. case_decide; [|done]. simplify_eq. by rewrite Hi.
    + exact R2.
  - eapply tree_set; [apply H|done..].
  - intros k' y Hk'. unfold setl. setoid_rewrite lookup_insert. bdestr (k =? k').
    + subst k'. pose proof (h_free _ _ _ H k y Hk) as Hf. rewrite E in Hf. split.
      * intros Hy. destruct (proj1 Hf ltac:(by right)) as (i' & Hi' & ->). exists i'. split; [|done]. rewrite decide_False; [done|]. intros [= ->]. done.
      * intros (i' & Hi' & ->). case_decide; [done|]. assert (baddr L k i' ∈ baddr L k i :: l) as Hin by (apply Hf; by exists i').
        apply elem_of_cons in Hin as [Hin|]; [|done]. apply baddr_inj in Hin; [|lia]. congruence.
    + rewrite (h_free _ _ _ H k' y Hk'). split; intros (i' & Hi' & ->); exists i'; (split; [|done]).
      * rewrite decide_False; [done|congruence].
      * by rewrite decide_False in Hi' by congruence.
  - intros k' i'. rewrite lookup_insert. case_decide; [done|apply H].
Qed.

(** ** Splitting a block *)
Lemma heap_split m B F k i : heap m B F -> B !! (k, i) = Some BUsed -> 0 < k -> in_heap L k i ->
  let q := baddr L (k - 1) (2 * i + 1) in
  heap (lst_push (lhead L (k - 1)) q (bit_set (ly_alloc L (k - 1)) (2 * i) (bit_set (ly_split L k) i m)))
    (split_block B k i) (setl F (k - 1) (q :: F (k - 1))) /\
  forall a, outside B a -> ~ in_block L k i a ->
    getb (lst_push (lhead L (k - 1)) q (bit_set (ly_alloc L (k - 1)) (2 * i) (bit_set (ly_split L k) i m))) a = getb m a.
Proof.
  intros H Hi Hk Hm q. pose proof (h_tree _ _ _ H) as Ht. pose proof (tr_valid L B Ht _ _ (mk_is_Some _ _ Hi)) as Hv.
  pose proof (valid_child L k i 0 Hv Hk ltac:(lia)) as V0. pose proof (valid_child L k i 1 Hv Hk ltac:(lia)) as V1. rewrite Z.add_0_r in V0.
  pose proof (no_child L B k i _ 1 Ht Hi ltac:(done) Hk ltac:(lia)) as N1.
  pose proof (no_child L B k i _ 0 Ht Hi ltac:(done) Hk ltac:(lia)) as N0. rewrite Z.add_0_r in N0.
  pose proof (bsize_half k Hk) as Hh. pose proof (baddr_right k i Hk) as Hq. fold q in Hq. pose proof (bsize_16 (k - 1) ltac:(lia)).
  assert (Hk1 : 0 <= k - 1 <= ly_mx L) by apply V0.
  destruct (rep_split_bit L Hlay _ _ _ _ _ _ true (h_rep _ _ _ H) Hk Hv) as [R1 K1]. destruct (rep_alloc_bit L Hlay _ _ _ _ _ _ true R1 V0) as [R2 K2].
  destruct (rep_push L Hlay _ _ _ _ (k - 1) q R2 Hk1 (baddr_addr _ _ V1)) as [R3 K3].
  { intros a Ha. apply Hm. lia. }
  { intros j y Hj Hy. pose proof (free_apart m B F k i j y _ H Hi ltac:(done) ltac:(done) Hj Hy). unfold clear_of. lia. }
  split.
  2: { intros a Ha Hn. rewrite K3, K2, K1; [done|apply Ha|apply not_in_nil|apply Ha|apply not_in_nil|apply Ha|].
    intros (x & Hx & Hxa). assert (x = q \/ x ∈ F (k - 1)) as [->|Hx'] by set_solver; [apply Hn; unfold in_block; lia|].
    apply (nodes_outside m B F (k - 1) (F (k - 1)) a H Hk1 Ha ltac:(done)). by exists x. }
  split.
  - apply (rep_ext L _ (set2 (abits B) (k - 1) (2 * i) true) (set2 (sbits B) k i true) (setl F (k - 1) (q :: F (k - 1)))); [..|done|].
    + intros k' i' _ _. unfold set2, abits. rewrite split_lookup. keys; try done; try lia.
      * rewrite Ek, Ei, Hi. done.
      * by rewrite Ek, Ei, N1.
    + intros k' i' _ _. unfold set2, sbits. rewrite split_lookup. keys; try done; try lia.
      * by rewrite Ek, Ei, N0.
      * by rewrite Ek, Ei, N1.
    + exact R3.
  - by apply tree_split.
  - intros k' y Hk'. unfold setl. setoid_rewrite split_lookup. bdestr (k - 1 =? k').
    + subst k'. rewrite elem_of_cons, (h_free _ _ _ H (k - 1) y Hk'). split.
      * intros [->|(i' & Hi' & ->)]; [exists (2 * i + 1); split; [by repeat if_lia|done]|]. exists i'. split; [|done].
        keys; try done; [lia|congruence].
      * intros (i' & Hi' & ->). keys; try done; [left; by rewrite Ei|right; by exists i'].
    + rewrite (h_free _ _ _ H k' y Hk'). split; intros (i' & Hi' & ->); exists i'; (split; [|done]); keys; try done; try lia. congruence.
  - intros k' i'. rewrite split_lookup. keys; try done; [|apply H]. intros _ a. rewrite Ek, Ei. fold q. intros Ha. apply Hm. lia.
Qed.

(** ** Merging two buddies *)
Lemma in_halves k i a : 0 <= k -> 0 <= i -> in_block L (k + 1) (i / 2) a -> in_block L k i a \/ in_block L k (buddy i) a.
Proof.
  intros Hk Hi. unfold in_block. pose proof (bsize_half (k + 1) ltac:(lia)) as Hh. pose proof (baddr_left (k + 1) (i / 2) ltac:(lia)) as Hl.
  pose proof (baddr_right (k + 1) (i / 2) ltac:(lia)) as Hr. replace (k + 1 - 1) with k in * by lia.
  destruct (buddy_cases i Hi) as [[Hm ->]|[Hm ->]].
  - replace (2 * (i / 2)) with i in * by lia. lia.
  - replace (2 * (i / 2) + 1) with i in * by lia. replace (2 * (i / 2)) with (i - 1) in * by lia. lia.
Qed.
Lemma heap_merge m B F k i : heap m B F -> B !! (k, i) = Some BUsed -> k < ly_mx L -> in_heap L k i -> B !! (k, buddy i) = Some BFree ->
  let q := baddr L k (buddy i) in let m' := bit_clear (ly_split L (k + 1)) (i / 2) (lst_remove q (bit_clear (ly_alloc L k) i m)) in
  exists F', heap m' (merge_block B k i) F' /\ in_heap L (k + 1) (i / 2) /\
  forall a, outside B a -> getb m' a = getb m a.
Proof.
  intros H Hi Hk Hm Hb q m'. pose proof (h_tree _ _ _ H) as Ht. pose proof (tr_valid L B Ht _ _ (mk_is_Some _ _ Hi)) as Hv.
  pose proof (valid_parent L k i Hv Hk) as Hvp. pose proof Hv as [Hk0 [Hi0 _]]. destruct (buddy_half i Hi0) as (Hb2 & Hbn & Hb0).
  assert (Hp : B !! (k + 1, i / 2) = Some BSplit) by (by apply (tr_child L B Ht); [..|eexists]).
  assert (Hq : q ∈ F k) by (apply (h_free _ _ _ H); [done|by exists (buddy i)]). apply list_elem_of_split in Hq as (l1 & l2 & E).
  destruct (rep_alloc_bit L Hlay _ _ _ _ k i false (h_rep _ _ _ H) Hv) as [R1 K1].
  destruct (rep_remove L Hlay _ _ _ _ k l1 q l2 R1 Hk0 E) as [R2 K2].
  destruct (rep_split_bit L Hlay _ _ _ _ (k + 1) (i / 2) false R2 ltac:(lia) Hvp) as [R3 K3].
  exists (setl F k (l1 ++ l2)). split_and!.
  - split; [apply (rep_ext L _ (set2 (abits B) k i false) (set2 (sbits B) (k + 1) (i / 2) false) (setl F k (l1 ++ l2)))|..].
    + intros k' i' _ _. unfold set2, abits. rewrite merge_lookup. keys; try done; try lia; [by rewrite Ek, Ei, Hp|].
      by rewrite Ek, Ei, Hb.
    + intros k' i' _ _. unfold set2, sbits. rewrite merge_lookup. keys; try done; try lia; [by rewrite Ek, Ei, Hi|by rewrite Ek, Ei, Hb].
    + done.
    + exact R3.
    + by apply tree_merge.
    + intros k' y Hk'. unfold setl. setoid_rewrite merge_lookup. bdestr (k =? k').
      * subst k'. assert (y ∈ l1 ++ l2 <-> y ∈ F k /\ y <> q) as -> by (rewrite E; pose proof (once _ _ _ _ _ _ _ H Hk0 E); set_solver).
        rewrite (h_free _ _ _ H k y Hk'). split.
        -- intros [(i' & Hi' & ->) Hne]. exists i'. split; [|done]. keys; try done; [lia|congruence|]. by rewrite Ei in Hne.
        -- intros (i' & Hi' & ->). keys; try done. split; [by exists i'|]. intros Hq%baddr_inj; lia.
      * rewrite (h_free _ _ _ H k' y Hk'). split; intros (i' & Hi' & ->); exists i'; (split; [|done]); keys; try done; try lia; congruence.
    + intros k' i' Hf. apply (h_mine _ _ _ H). rewrite merge_lookup in Hf. by keys.
  - intros a [Ha|Ha]%in_halves; [by apply Hm|by apply (h_mine _ _ _ H k (buddy i) Hb)|lia|lia].
  - intros a Ha. unfold m'. rewrite K3, K2, K1; [done|apply Ha|apply not_in_nil|apply Ha| |apply Ha|apply not_in_nil].
    apply (nodes_outside m B F k); [done..|]. rewrite E. set_solver.
Qed.

(** ** Putting a block on its list *)
Lemma heap_release m B F k i : heap m B F -> B !! (k, i) = Some BUsed -> in_heap L k i -> (k < ly_mx L -> B !! (k, buddy i) <> Some BFree) ->
  let p := baddr L k i in let m' := lst_push (lhead L k) p (if k <? ly_mx L then bit_clear (ly_alloc L k) i m else m) in
  heap m' (<[(k, i) := BFree]> B) (setl F k (p :: F k)) /\
  forall a, outside B a -> ~ in_block L k i a -> getb m' a = getb m a.
Proof.
  intros H Hi Hm Hb p m'. pose proof (h_tree _ _ _ H) as Ht. pose proof (tr_valid L B Ht _ _ (mk_is_Some _ _ Hi)) as Hv. pose proof Hv as [Hk0 [Hi0 _]].
  set (m1 := if k <? ly_mx L then bit_clear (ly_alloc L k) i m else m) in *. pose proof (bsize_16 k ltac:(lia)).
  assert (R1 : heap_rep L m1 (abits (<[(k, i) := BFree]> B)) (sbits (<[(k, i) := BFree]> B)) F /\ keeps L [] m m1).
  { assert (HS : forall k' i', sbits B k' i' = sbits (<[(k, i) := BFree]> B) k' i').
    { intros k' i'. unfold sbits. rewrite lookup_insert. case_decide; [|done]. simplify_eq. by rewrite Hi. }
    unfold m1. bdestr (k <? ly_mx L).
    - destruct (rep_alloc_bit L Hlay _ _ _ _ k i false (h_rep _ _ _ H) Hv) as [R K]. split; [|exact K].
      apply (rep_ext L _ (set2 (abits B) k i false) (sbits B) F); [..|done|exact R].
      + intros k' i' _ _. unfold set2, abits. rewrite lookup_insert. case_decide; rewrite pair_equal_spec in *; by if_lia.
      + intros k' i' _ _. apply HS.
    - split; [|done]. apply (rep_ext L _ (abits B) (sbits B) F); [..|done|apply H]; [|intros k' i' _ _; apply HS].
      intros k' i' _ Hk'. unfold abits. rewrite lookup_insert_ne; [done|]. intros [=]. lia. }
  destruct R1 as [R1 K1]. destruct (rep_push L Hlay _ _ _ _ k p R1 Hk0 (baddr_addr _ _ Hv)) as [R2 K2].
  { intros a Ha. apply Hm. unfold p in Ha. lia. }
  { intros j y Hj Hy. pose proof (free_apart m B F k i j y _ H Hi ltac:(done) ltac:(done) Hj Hy). unfold clear_of, p. lia. }
  split.
  2: { intros a Ha Hn. unfold m'. rewrite K2, K1; [done|apply Ha|apply not_in_nil|apply Ha|].
    intros (x & Hx & Hxa). assert (x = p \/ x ∈ F k) as [->|Hx'] by set_solver; [apply Hn; unfold in_block, p in *; lia|].
    apply (nodes_outside m B F k (F k) a H Hk0 Ha ltac:(done)). by exists x. }
  split.
  - exact R2.
  - eapply tree_set; [done|done|done|done|]. auto.
  - intros k' y Hk'. unfold setl. setoid_rewrite lookup_insert. bdestr (k =? k').
    + subst k'. rewrite elem_of_cons, (h_free _ _ _ H k y Hk'). split.
      * intros [->|(i' & Hi' & ->)]; [exists i; split; [by rewrite decide_True|done]|]. exists i'. split; [|done]. by case_decide.
      * intros (i' & Hi' & ->). case_decide as E; [left; by simplify_eq|right; by exists i'].
    + rewrite (h_free _ _ _ H k' y Hk'). split; intros (i' & Hi' & ->); exists i'; (split; [|done]).
      * rewrite decide_False; [done|congruence].
      * by rewrite decide_False in Hi' by congruence.
  - intros k' i'. rewrite lookup_insert. case_decide; [intros _; by simplify_eq|apply H].
Qed.
End Alloc.
