(* ===== verification/BuddyRun.v ===== *)
(** * Runs of bd_malloc and bd_free

    The loops of the two functions, as operations on the tree of blocks, and the
    theorems: bd_malloc takes a smallest free block that is large enough and gives
    back what it does not need, bd_free gives a block back and merges buddies, and
    the second undoes the first. *)
From S2P Require Import Prelude Mem Riscv State Spinlock Console Buddy BuddyProofs BuddyHeap BuddyTree BuddyAlloc.

(** ** Code that only touches memory *)
Definition mruns {A} (c : M A) (m : mem) (a : A) (m' : mem) : Prop := forall s, k_mem s = m -> runs c s a (set_k_mem m' s).
Lemma set_k_mem_same s : set_k_mem (k_mem s) s = s.
Proof. by destruct s. Qed.
Lemma set_k_mem_twice m m' s : set_k_mem m' (set_k_mem m s) = set_k_mem m' s.
Proof. by destruct s. Qed.
Lemma mruns_ret {A} (a : A) m : mruns (mret a) m a m.
Proof. intros s <-. by rewrite set_k_mem_same. Qed.
Lemma mruns_bind {A B} (c : M A) (K : A -> M B) m a m1 b m2 : mruns c m a m1 -> mruns (K a) m1 b m2 -> mruns (c ≫= K) m b m2.
Proof. intros H1 H2 s Hs. eapply runs_bind; [by apply H1|]. replace (set_k_mem m2 s) with (set_k_mem m2 (set_k_mem m1 s)) by (by destruct s). by apply H2. Qed.
Lemma mruns_reads {A} (f : mem -> A) m : mruns (reads (fun s => f (k_mem s))) m (f m) m.
Proof. intros s <- env. unfold reads. by rewrite set_k_mem_same. Qed.
Lemma mruns_read {B} (f : mem -> Z) (K : Z -> M B) m b m' : mruns (K (f m)) m b m' -> mruns (mem_read f ≫= K) m b m'.
Proof. apply mruns_bind, mruns_reads. Qed.
Lemma mruns_test {B} (f : mem -> bool) (K : bool -> M B) m b m' : mruns (K (f m)) m b m' -> mruns (reads (fun s => f (k_mem s)) ≫= K) m b m'.
Proof. apply mruns_bind, mruns_reads. Qed.
Lemma mruns_write {B} (f : mem -> mem) (K : unit -> M B) m b m' : mruns (K tt) (f m) b m' -> mruns (mem_write f ≫= K) m b m'.
Proof. apply mruns_bind. by intros s <-. Qed.
Lemma mruns_quiet {A} (c : M A) m a m' s : mruns c m a m' -> k_mem s = m -> quiet c s a (set_k_mem m' s).
Proof.
  intros H Hs. split; [by destruct s|]. intros lk Hlk. exists lk. split; [done|].
  replace (set_k_lk lk (set_k_mem m' s)) with (set_k_mem m' (set_k_lk lk s)) by (by destruct s). apply H. by destruct s.
Qed.
Lemma hquiet_mruns {A B} l (c : M A) (K : A -> M B) m a m' s b s2 : mruns c m a m' -> k_mem s = m ->
  hquiet l (K a) (set_k_mem m' s) b s2 -> hquiet l (c ≫= K) s b s2.
Proof.
  intros H Hs HK. eapply hquiet_bind; [| | |exact HK]; [by destruct s|by destruct s|].
  replace (taken l (set_k_mem m' s)) with (set_k_mem m' (taken l s)) by (by destruct s). apply (mruns_quiet _ m); [done|]. by destruct s.
Qed.
(** Rules with a continuation also speak of the operation alone. *)
Lemma mruns_unret {A} (c : M A) m a m' : mruns (c ≫= mret) m a m' -> mruns c m a m'.
Proof. intros H s Hs env. specialize (H s Hs env). unfold mbind, M_bind in H. by destruct (c s env). Qed.
Lemma hquiet_mstep {A B} l (c : M A) (K : A -> M B) a s b s2 : mruns c (k_mem s) a (k_mem s) -> hquiet l (K a) s b s2 -> hquiet l (c ≫= K) s b s2.
Proof. intros H HK. eapply hquiet_mruns; [done|done|]. by rewrite set_k_mem_same. Qed.

(** ** The abstract operations *)
(** What is left of a used block once it has been split [n] times. *)
Fixpoint carve (n : nat) (k i : Z) (B : blocks) : blocks :=
  match n with O => B | S n' => carve n' (k - 1) (2 * i) (split_block B k i) end.
(** A used block is given back, [n] sizes below the largest. *)
Fixpoint coalesce (n : nat) (k i : Z) (B : blocks) : blocks :=
  match n with
  | O => <[(k, i) := BFree]> B
  | S n' => if decide (B !! (k, buddy i) = Some BFree) then coalesce n' (k + 1) (i / 2) (merge_block B k i) else <[(k, i) := BFree]> B
  end.

(** The size of the blocks for [n] bytes. *)
Definition size_class (n : Z) : Z := Z.max 0 (Z.log2_up n - 4).
Lemma size_class_fits n : n <= bsize (size_class n) /\ (0 < size_class n -> bsize (size_class n - 1) < n) /\ 0 <= size_class n.
Proof.
  unfold size_class, bsize. destruct (Z.le_gt_cases n 16) as [Hn|Hn].
  - assert (Z.log2_up n <= 4) by (by apply (Z.log2_up_le_mono n 16)). rewrite Z.max_l by lia. change (2 ^ (0 + 4)) with 16. lia.
  - pose proof (Z.log2_up_spec n ltac:(lia)) as [H1 H2]. assert (4 <= Z.log2_up n) by (apply (Z.log2_up_le_mono 16 n); lia). rewrite Z.max_r by lia.
    replace (Z.log2_up n - 4 + 4) with (Z.log2_up n) by lia. replace (Z.log2_up n - 4 - 1 + 4) with (Z.pred (Z.log2_up n)) by lia. lia.
Qed.
Lemma firstk_loop_spec n fuel : forall k, 0 <= n <= 2 ^ 63 -> 0 <= k <= size_class n -> size_class n - k < Z.of_nat fuel -> firstk_loop fuel k (bsize k) n = mret (size_class n).
Proof.
  destruct (size_class_fits n) as (H1 & H2 & H3). induction fuel as [|fuel IH]; intros k Hn Hk Hf; [lia|]. cbn [firstk_loop]. bdestr (bsize k <? n).
  - assert (k <> size_class n) by (intros ->; lia).
    assert (Hc : size_class n <= 59) by (unfold size_class; pose proof (Z.log2_up_le_mono n (2 ^ 63) ltac:(lia)) as Hl; rewrite Z.log2_up_pow2 in Hl by lia; lia).
    assert (bsize k * 2 = bsize (k + 1)) as -> by (rewrite (bsize_half (k + 1)) by lia; replace (k + 1 - 1) with k by lia; lia).
    replace (u64 (bsize (k + 1))) with (bsize (k + 1)); [apply IH; lia|]. symmetry. apply Z.mod_small. unfold bsize. split; [lia|]. apply Z.pow_lt_mono_r; lia.
  - f_equal. destruct (decide (k = size_class n)) as [|Hne]; [done|]. exfalso. specialize (H2 ltac:(lia)).
    pose proof (Z.pow_le_mono_r 2 (k + 4) (size_class n - 1 + 4) ltac:(lia) ltac:(lia)). unfold bsize in *. lia.
Qed.
Lemma firstk_spec n : 0 <= n <= 2 ^ 63 -> firstk n = mret (size_class n).
Proof.
  intros Hn. apply (firstk_loop_spec n 64 0 Hn); [destruct (size_class_fits n) as (_ & _ & ?); lia|].
  unfold size_class. pose proof (Z.log2_up_le_mono n (2 ^ 63) ltac:(lia)) as Hl. rewrite Z.log2_up_pow2 in Hl by lia. lia.
Qed.

Section Run.
Context `{BS : BuddySyms} (L : layout) (Hlay : layout_ok L).

(** ** Addresses *)
Lemma BLK_bsize k : 0 <= k -> BLK_SIZE k = bsize k.
Proof. intros Hk. unfold BLK_SIZE, LEAF_SIZE, bsize. rewrite Z.shiftl_1_l, Z.pow_add_r by lia. done. Qed.
Lemma mruns_nsizes {B} (K : Z -> M B) m b m' : config L m -> mruns (K (ly_mx L + 1)) m b m' -> mruns (nsizes ≫= K) m b m'.
Proof. intros Hc H. apply mruns_read. by rewrite (cf_nsizes _ _ Hc). Qed.
Lemma mruns_free {B} (K : Z -> M B) m k b m' : config L m -> mruns (K (lhead L k)) m b m' -> mruns (sz_free k ≫= K) m b m'.
Proof. intros Hc H. apply mruns_read. unfold sizeof_Sz_info. by rewrite (cf_sizes _ _ Hc). Qed.
Lemma mruns_alloc {B} (K : Z -> M B) m k b m' : config L m -> 0 <= k <= ly_mx L -> mruns (K (ly_alloc L k)) m b m' -> mruns (sz_alloc k ≫= K) m b m'.
Proof. intros Hc Hk H. apply mruns_read. unfold sizeof_Sz_info. rewrite (cf_sizes _ _ Hc). fold (lhead L k). by rewrite (cf_alloc _ _ Hc). Qed.
Lemma mruns_split {B} (K : Z -> M B) m k b m' : config L m -> 0 < k <= ly_mx L -> mruns (K (ly_split L k)) m b m' -> mruns (sz_split k ≫= K) m b m'.
Proof. intros Hc Hk H. apply mruns_read. unfold sizeof_Sz_info. rewrite (cf_sizes _ _ Hc). fold (lhead L k). by rewrite (cf_split _ _ Hc). Qed.
Lemma mruns_index {B} (K : Z -> M B) m k i p b m' : config L m -> valid L k i -> in_block L k i p ->
  mruns (K i) m b m' -> mruns (blk_index k p ≫= K) m b m'.
Proof.
  intros Hc Hv Hp H. eapply mruns_bind; [|exact H]. apply mruns_read. rewrite (cf_base _ _ Hc). cbv zeta.
  pose proof (block_end L Hlay k i Hv) as He. pose proof (baddr_bound L Hlay k i Hv) as Hb. pose proof Hv as [Hk Hi].
  pose proof (bsize_16 k ltac:(lia)). unfold in_block in Hp. assert (Hr : 0 <= p - ly_base L < 2 ^ 30) by lia.
  rewrite (s32_small (p - ly_base L)), BLK_bsize by lia. rewrite Z.quot_div_nonneg by lia.
  assert ((p - ly_base L) / bsize k = i) as ->. { unfold baddr in Hp. symmetry. apply Z.div_unique with (r := p - ly_base L - i * bsize k); lia. }
  rewrite s32_small; [apply mruns_ret|]. unfold baddr in *. assert (i < 2 ^ 30) by nia. lia.
Qed.
Lemma mruns_addr {B} (K : Z -> M B) m k i b m' : config L m -> valid L k i -> mruns (K (baddr L k i)) m b m' -> mruns (addr k i ≫= K) m b m'.
Proof.
  intros Hc Hv H. eapply mruns_bind; [|exact H]. apply mruns_read. rewrite (cf_base _ _ Hc). cbv zeta. pose proof (baddr_bound L Hlay k i Hv) as Hb.
  rewrite BLK_bsize by (destruct Hv; lia). unfold baddr in *. rewrite s32_small by lia. apply mruns_ret.
Qed.

(** ** The loops of bd_malloc *)
Lemma heap_config m B F : heap L m B F -> config L m.
Proof. intros H. apply H. Qed.
(** The smallest size from [k] on with a free block. *)
Lemma find_spec m B F n : forall k, heap L m B F -> 0 <= k -> k + Z.of_nat n = ly_mx L + 1 ->
  exists k', mruns (bd_malloc_find n k) m k' m /\ k <= k' <= ly_mx L + 1 /\
  (forall j, k <= j < k' -> F j = []) /\ (k' <= ly_mx L -> F k' <> []).
Proof.
  induction n as [|n IH]; intros k H Hk Hn; cbn [bd_malloc_find].
  - exists k. split; [apply mruns_ret|]. split; [lia|]. split; lia.
  - pose proof (heap_config _ _ _ H) as Hc. pose proof (hr_lists _ _ _ _ _ (h_rep _ _ _ _ H) k ltac:(lia)) as Hd.
    destruct (decide (F k = [])) as [E|E].
    + destruct (IH (k + 1) H ltac:(lia) ltac:(lia)) as (k' & Hr & Hk' & H1 & H2). exists k'. split_and!; [|lia|lia| |done].
      * apply mruns_free; [done|]. apply (mruns_test (lst_empty (lhead L k))). rewrite (lst_empty_list _ _ _ Hd), bool_decide_eq_true_2 by done. done.
      * intros j Hj. destruct (decide (j = k)) as [->|]; [done|]. apply H1. lia.
    + exists k. split_and!; [|lia|lia|lia|done].
      apply mruns_free; [done|]. apply (mruns_test (lst_empty (lhead L k))). rewrite (lst_empty_list _ _ _ Hd), bool_decide_eq_false_2 by done. apply mruns_ret.
Qed.

Lemma outside_split B k i a : outside L B a -> ~ in_block L k i a -> 0 < k -> outside L (split_block B k i) a.
Proof.
  intros [Ho Hb] Hn Hk. split; [done|]. intros k' i'. rewrite split_lookup. keys; try done; [|by apply Hb].
  intros _ Ha. apply Hn. unfold in_block in *. rewrite Ek, Ei, baddr_right in Ha by done. rewrite (bsize_half k) by done. pose proof (bsize_16 (k - 1) ltac:(lia)). lia.
Qed.
Lemma split_used B k i : split_block B k i !! (k - 1, 2 * i) = Some BUsed.
Proof. rewrite split_lookup. by repeat if_lia. Qed.
Lemma left_in_heap k i : 0 < k -> in_heap L k i -> in_heap L (k - 1) (2 * i).
Proof. intros Hk H a Ha. apply H. rewrite baddr_left in Ha by done. rewrite (bsize_half k) by done. pose proof (bsize_16 (k - 1) ltac:(lia)). lia. Qed.
Lemma malloc_split_spec n : forall m B F k i, heap L m B F -> B !! (k, i) = Some BUsed -> in_heap L k i -> Z.of_nat n <= k ->
  exists m' F', mruns (bd_malloc_split n k (baddr L k i)) m tt m' /\ heap L m' (carve n k i B) F' /\
  forall a, outside L B a -> ~ in_block L k i a -> getb m' a = getb m a.
Proof.
  induction n as [|n IH]; intros m B F k i H Hi Hm Hn; cbn [bd_malloc_split carve]; [exists m, F; split; [apply mruns_ret|done]|].
  pose proof (tr_valid L B (h_tree _ _ _ _ H) _ _ (mk_is_Some _ _ Hi)) as Hv. pose proof Hv as [Hk [Hi0 _]].
  assert (Hk1 : 0 < k) by lia. pose proof (valid_child L k i 0 Hv Hk1 ltac:(lia)) as V0. rewrite Z.add_0_r in V0. pose proof (bsize_16 (k - 1) ltac:(lia)).
  destruct (heap_split L Hlay m B F k i H Hi ltac:(lia) Hm) as [H1 Hf1]. set (q := baddr L (k - 1) (2 * i + 1)) in *.
  destruct (rep_split_bit L Hlay _ _ _ _ _ _ true (h_rep _ _ _ _ H) Hk1 Hv) as [R1 _]. destruct (rep_alloc_bit L Hlay _ _ _ _ _ _ true R1 V0) as [R2 _].
  destruct (IH _ _ _ (k - 1) (2 * i) H1 (split_used B k i) (left_in_heap k i ltac:(lia) Hm) ltac:(lia)) as (m' & F' & Hr & H' & Hf').
  exists m', F'. rewrite baddr_left in Hr by lia. split_and!; [|done|].
  - rewrite BLK_bsize, <- baddr_right by lia. fold q. cbv zeta. apply mruns_split; [by eapply heap_config|lia|].
    apply (mruns_index _ _ k i); [by eapply heap_config|done|unfold in_block; rewrite (bsize_half k) by lia; lia|]. apply mruns_write.
    apply mruns_alloc; [apply R1|lia|]. apply (mruns_index _ _ (k - 1) (2 * i)); [apply R1|done|unfold in_block; rewrite baddr_left by lia; lia|].
    apply mruns_write. apply mruns_free; [apply R2|]. apply mruns_write. exact Hr.
  - intros a Ha Hna. rewrite Hf', Hf1; [done|done|done|by apply outside_split; [..|lia]|].
    unfold in_block in *. rewrite baddr_left by lia. rewrite (bsize_half k) in Hna by lia. lia.
Qed.

Lemma lst_pop_spec m B F k x l : heap L m B F -> 0 <= k <= ly_mx L -> F k = x :: l -> mruns (lst_pop (lhead L k)) m x (lst_remove x m).
Proof.
  intros H Hk E. pose proof (hr_lists _ _ _ _ _ (h_rep _ _ _ _ H) k Hk) as Hd. rewrite E in Hd. unfold lst_pop.
  apply (mruns_test (lst_empty (lhead L k))). rewrite (lst_empty_list _ _ _ Hd), bool_decide_eq_false_2 by done.
  apply mruns_read. destruct Hd as [[Hn _] _]. rewrite Hn. apply mruns_write, mruns_ret.
Qed.

Lemma outside_take B k i a : outside L B a -> B !! (k, i) = Some BFree -> outside L (<[(k, i) := BUsed]> B) a /\ ~ in_block L k i a.
Proof.
  intros [Ho Hb] Hi. split; [|by apply Hb]. split; [done|]. intros k' i'. rewrite lookup_insert. case_decide; [done|apply Hb].
Qed.
Lemma bd_malloc_runs s B F nbytes : heap L (k_mem s) B F -> ready s Lbuddy -> 0 <= nbytes <= 2 ^ 63 ->
  let fk := size_class nbytes in
  ((forall j, fk <= j <= ly_mx L -> F j = []) /\ quiet (bd_malloc nbytes) s 0 s) \/
  exists k i m' F', fk <= k <= ly_mx L /\ B !! (k, i) = Some BFree /\ (forall j, fk <= j < k -> F j = []) /\
    quiet (bd_malloc nbytes) s (baddr L k i) (set_k_mem m' s) /\
    heap L m' (carve (Z.to_nat (k - fk)) k i (<[(k, i) := BUsed]> B)) F' /\
    forall a, outside L B a -> getb m' a = getb (k_mem s) a.
Proof.
  intros H Hrd Hn fk. destruct (size_class_fits nbytes) as (_ & _ & Hfk). fold fk in Hfk. pose proof (heap_config _ _ _ H) as Hc.
  assert (exists k', mruns (bd_malloc_find (Z.to_nat (ly_mx L + 1 - fk)) fk) (k_mem s) k' (k_mem s) /\ fk <= k' /\ (forall j, fk <= j < k' -> F j = []) /\ (k' <= ly_mx L -> F k' <> [])) as (k & Hr & Hk & Hempty & Hne).
  { destruct (decide (fk <= ly_mx L)); [destruct (find_spec (k_mem s) B F (Z.to_nat (ly_mx L + 1 - fk)) fk H) as (k & ? & ? & ? & ?); [lia|lia|exists k; split_and!; [done|lia|done|done]]|].
    exists fk. replace (Z.to_nat (ly_mx L + 1 - fk)) with 0%nat by lia. split_and!; [apply mruns_ret|lia|lia|lia]. }
  unfold bd_malloc. destruct (decide (ly_mx L < k)) as [Hlt|Hle].
  - left. split; [intros j Hj; apply Hempty; lia|]. apply quiet_acquire; [done|]. rewrite firstk_spec by done. fold fk.
    apply hquiet_mstep with (a := fk); [apply mruns_ret|].
    apply hquiet_mstep with (a := ly_mx L + 1); [by apply mruns_unret, mruns_nsizes; [|apply mruns_ret]|].
    apply hquiet_mstep with (a := k); [done|]. if_lia. apply hquiet_release; [done|apply quiet_ret].
  - right. destruct (F k) as [|x l] eqn:E; [by destruct Hne; [lia|]|].
    destruct (heap_take L Hlay _ B F k x l H ltac:(lia) E) as (i & -> & Hi & H1 & Hf1).
    pose proof (tr_valid L B (h_tree _ _ _ _ H) _ _ (mk_is_Some _ _ Hi)) as Hv.
    destruct (malloc_split_spec (Z.to_nat (k - fk)) _ _ _ k i H1 (lookup_insert_eq _ _ _) (h_mine _ _ _ _ H _ _ Hi) ltac:(lia)) as (m' & F' & Hr2 & H2 & Hf2).
    exists k, i, m', F'. split_and!; [lia|lia|done|done| |done|].
    + apply quiet_acquire; [done|]. rewrite firstk_spec by done. fold fk.
      apply hquiet_mstep with (a := fk); [apply mruns_ret|].
      apply hquiet_mstep with (a := ly_mx L + 1); [by apply mruns_unret, mruns_nsizes; [|apply mruns_ret]|].
      apply hquiet_mstep with (a := k); [done|]. if_lia.
      destruct (rep_remove L Hlay _ _ _ F k [] _ l (h_rep _ _ _ _ H) ltac:(lia) E) as [R1 _].
      apply hquiet_mstep with (a := lhead L k); [by apply mruns_unret, mruns_free; [|apply mruns_ret]|].
      eapply hquiet_mruns; [by apply (lst_pop_spec _ B F k _ l); [|lia|]|done|].
      apply hquiet_mstep with (a := ly_alloc L k); [apply mruns_unret, mruns_alloc; [apply R1|lia|apply mruns_ret]|].
      apply hquiet_mstep with (a := i); [apply mruns_unret, (mruns_index _ _ k i); [apply R1|done|unfold in_block; pose proof (bsize_16 k ltac:(lia)); lia|apply mruns_ret]|].
      eapply hquiet_mruns; [apply mruns_unret, mruns_write, mruns_ret|done|]. eapply hquiet_mruns; [exact Hr2|done|].
      rewrite !set_k_mem_twice. apply hquiet_release; [done|apply quiet_ret].
    + intros a Ha. destruct (outside_take B k i a Ha Hi). by rewrite Hf2, Hf1.
Qed.

(** ** The loops of bd_free *)
Lemma below_leaf B k i s j i' : tree L B -> B !! (k, i) = Some s -> s <> BSplit -> j < k -> i' / 2 ^ (k - j) = i -> B !! (j, i') = None.
Proof.
  intros Ht Hs Hn Hj Hi. destruct (B !! (j, i')) eqn:E; [exfalso|done]. pose proof (tr_valid L B Ht _ _ (mk_is_Some _ _ Hs)) as [Hk _].
  pose proof (tree_ancestor L B j i' (Z.to_nat (k - j - 1)) Ht (mk_is_Some _ _ E)) as Ha.
  replace (Z.of_nat (S (Z.to_nat (k - j - 1)))) with (k - j) in Ha by lia. rewrite Hi in Ha. replace (j + (k - j)) with k in Ha by lia. specialize (Ha ltac:(lia)). congruence.
Qed.
(** The blocks of smaller sizes that start where block [i] of size [k] does. *)
Lemma first_part k i j : valid L k i -> 0 <= j <= k -> valid L j (i * 2 ^ (k - j)) /\ baddr L j (i * 2 ^ (k - j)) = baddr L k i.
Proof.
  intros [Hk [Hi0 Hi]] Hj. pose proof (Z.pow_pos_nonneg 2 (k - j) ltac:(lia) ltac:(lia)). split.
  - split; [lia|]. split; [lia|]. replace (ly_mx L - j) with ((ly_mx L - k) + (k - j)) by lia. rewrite Z.pow_add_r by lia. apply Z.mul_lt_mono_pos_r; lia.
  - unfold baddr, bsize. rewrite <- Z.mul_assoc, <- Z.pow_add_r by lia. do 3 f_equal. lia.
Qed.
Lemma in_parent k i a : 0 <= k -> 0 <= i -> in_block L k i a -> in_block L (k + 1) (i / 2) a.
Proof.
  intros Hk Hi. unfold in_block. pose proof (bsize_half (k + 1) ltac:(lia)) as Hh. pose proof (baddr_left L (k + 1) (i / 2) ltac:(lia)) as Hl.
  pose proof (baddr_right L (k + 1) (i / 2) ltac:(lia)) as Hr. replace (k + 1 - 1) with k in * by lia. pose proof (bsize_16 k Hk).
  destruct (buddy_cases i Hi) as [[Hm _]|[Hm _]].
  - replace (2 * (i / 2)) with i in * by lia. lia.
  - replace (2 * (i / 2) + 1) with i in * by lia. lia.
Qed.
Lemma at_start k i : 0 <= k -> in_block L k i (baddr L k i).
Proof. intros Hk. unfold in_block. pose proof (bsize_16 k Hk). lia. Qed.
Lemma size_loop_spec m B F k i n : forall j, heap L m B F -> B !! (k, i) = Some BUsed -> k < ly_mx L -> 0 <= j <= k -> k - j < Z.of_nat n ->
  mruns (size_loop n j (baddr L k i)) m k m.
Proof.
  induction n as [|n IH]; intros j H Hi Hk Hj Hn; [lia|]. cbn [size_loop]. pose proof (h_tree _ _ _ _ H) as Ht. pose proof (heap_config _ _ _ H) as Hc.
  pose proof (tr_valid L B Ht _ _ (mk_is_Some _ _ Hi)) as Hv. pose proof Hv as [Hk0 [Hi0 _]].
  assert (exists i', valid L (j + 1) i' /\ in_block L (j + 1) i' (baddr L k i) /\ sbits B (j + 1) i' = bool_decide (j = k)) as (i' & Hv' & Hin & Hb).
  { destruct (decide (j = k)) as [->|Hne].
    - exists (i / 2). split; [by apply valid_parent|]. split; [apply in_parent; [lia|done|apply at_start; lia]|].
      unfold sbits. assert (B !! (k + 1, i / 2) = Some BSplit) as -> by (by apply (tr_child L B Ht); [..|eexists]). by rewrite bool_decide_eq_true_2.
    - destruct (first_part k i (j + 1) Hv ltac:(lia)) as [Hv' Hb']. exists (i * 2 ^ (k - (j + 1))). split; [done|].
      split; [rewrite <- Hb'; apply at_start; lia|]. rewrite bool_decide_eq_false_2 by done. unfold sbits.
      destruct (decide (j + 1 = k)) as [->|]; [rewrite Z.sub_diag, Z.mul_1_r, Hi; done|].
      rewrite (below_leaf B k i BUsed (j + 1)); [done|done|done|done|lia|]. by rewrite Z.div_mul by lia. }
  apply mruns_split; [done|lia|]. apply (mruns_index _ _ (j + 1) i'); [done..|]. apply (mruns_test (bit_isset (ly_split L (j + 1)) i')).
  rewrite (hr_split _ _ _ _ _ (h_rep _ _ _ _ H)), Hb by (done || lia). destruct (decide (j = k)) as [->|Hne].
  - rewrite bool_decide_eq_true_2 by done. apply mruns_ret.
  - rewrite bool_decide_eq_false_2 by done. apply IH; [done..|lia|lia].
Qed.

Lemma merged_addr k i : 0 <= k -> 0 <= i -> (if Z.rem (buddy i) 2 =? 0 then baddr L k (buddy i) else baddr L k i) = baddr L (k + 1) (i / 2).
Proof.
  intros Hk Hi. pose proof (baddr_left L (k + 1) (i / 2) ltac:(lia)) as Hl. replace (k + 1 - 1) with k in Hl by lia.
  destruct (buddy_half i Hi) as (_ & _ & Hb). rewrite Z.rem_mod_nonneg by lia. rewrite <- Hl. destruct (buddy_cases i Hi) as [[Hm ->]|[Hm ->]]; if_lia; f_equal; lia.
Qed.
Lemma outside_merge B k i a : outside L B a -> outside L (merge_block B k i) a.
Proof. intros [Ho Hb]. split; [done|]. intros k' i'. rewrite merge_lookup. keys; try done. apply Hb. Qed.
Lemma merge_used B k i : merge_block B k i !! (k + 1, i / 2) = Some BUsed.
Proof. rewrite merge_lookup. by repeat if_lia. Qed.
(** One pass up to the test of the buddy's bit. *)
Lemma free_pass m B F n k i r m' : heap L m B F -> B !! (k, i) = Some BUsed -> k < ly_mx L ->
  mruns (if abits B k (buddy i) then mret (k, baddr L k i) else
      q ← addr k (buddy i);
      mem_write (lst_remove q) ;;
      let p := if Z.rem (buddy i) 2 =? 0 then q else baddr L k i in
      sp ← sz_split (k + 1);
      j ← blk_index (k + 1) p;
      mem_write (bit_clear sp j) ;;
      bd_free_loop n (k + 1) p) (bit_clear (ly_alloc L k) i m) r m' ->
  mruns (bd_free_loop (S n) k (baddr L k i)) m r m'.
Proof.
  intros H Hi Hk Hr. pose proof (tr_valid L B (h_tree _ _ _ _ H) _ _ (mk_is_Some _ _ Hi)) as Hv. pose proof Hv as [Hk0 [Hi0 _]].
  destruct (rep_alloc_bit L Hlay _ _ _ _ k i false (h_rep _ _ _ _ H) Hv) as [R1 _]. destruct (buddy_half i Hi0) as (_ & Hbn & _).
  cbn [bd_free_loop]. apply (mruns_index _ _ k i); [apply H|done|apply at_start; lia|]. cbv zeta. fold (buddy i).
  apply mruns_alloc; [apply H|lia|]. apply mruns_write. apply mruns_alloc; [apply R1|lia|]. apply (mruns_test (bit_isset (ly_alloc L k) (buddy i))).
  rewrite (hr_alloc _ _ _ _ _ R1) by (by try apply valid_buddy). unfold set2. replace ((k =? k) && (i =? buddy i)) with false by lia. exact Hr.
Qed.
Lemma free_loop_spec n : forall m B F k i, heap L m B F -> B !! (k, i) = Some BUsed -> in_heap L k i -> k + Z.of_nat n = ly_mx L ->
  exists k' p' m' F', mruns (bd_free_loop n k (baddr L k i)) m (k', p') m' /\ config L m' /\
  heap L (lst_push (lhead L k') p' m') (coalesce n k i B) F' /\
  forall a, outside L B a -> ~ in_block L k i a -> getb (lst_push (lhead L k') p' m') a = getb m a.
Proof.
  induction n as [|n IH]; intros m B F k i H Hi Hm Hn; cbn [bd_free_loop coalesce].
  { destruct (heap_release L Hlay m B F k i H Hi Hm ltac:(lia)) as [H1 Hf1]. rewrite (proj2 (Z.ltb_ge _ _)) in H1, Hf1 by lia.
    exists k, (baddr L k i), m, (setl F k (baddr L k i :: F k)). split_and!; [apply mruns_ret|apply H|done|done]. }
  pose proof (h_tree _ _ _ _ H) as Ht. pose proof (tr_valid L B Ht _ _ (mk_is_Some _ _ Hi)) as Hv. pose proof Hv as [Hk0 [Hi0 _]].
  assert (Hk : k < ly_mx L) by lia. pose proof (valid_buddy L k i Hv Hk) as Hvb. destruct (buddy_half i Hi0) as (_ & Hbn & _).
  destruct (rep_alloc_bit L Hlay _ _ _ _ k i false (h_rep _ _ _ _ H) Hv) as [R1 _]. set (m1 := bit_clear (ly_alloc L k) i m) in *.
  case_decide as Hb.
  - destruct (heap_merge L Hlay m B F k i H Hi Hk Hm Hb) as (F1 & H1 & Hm1 & Hf1). fold m1 in H1, Hf1.
    destruct (IH _ _ F1 (k + 1) (i / 2) H1 (merge_used B k i) Hm1 ltac:(lia)) as (k' & p' & m' & F' & Hr & Hc' & H' & Hf').
    exists k', p', m', F'. split_and!; [|done|done|].
    + apply (free_pass m B F n k i _ _ H Hi Hk). unfold abits. rewrite Hb. fold m1. apply mruns_addr; [apply R1|done|]. apply mruns_write. cbv zeta.
      rewrite merged_addr by lia. assert (Hq : baddr L k (buddy i) ∈ F k) by (apply (h_free _ _ _ _ H); [done|by exists (buddy i)]).
      apply list_elem_of_split in Hq as (l1 & l2 & E). destruct (rep_remove L Hlay _ _ _ _ k l1 _ l2 R1 Hk0 E) as [R2 _].
      apply mruns_split; [apply R2|lia|]. apply (mruns_index _ _ (k + 1) (i / 2)); [apply R2|by apply valid_parent|apply at_start; lia|]. by apply mruns_write.
    + intros a Ha Hna. rewrite Hf', Hf1; [done|done|by apply outside_merge|]. intros [Hx|Hx]%in_halves; [done|..]; [|lia|lia]. by apply (proj2 Ha k (buddy i)).
  - destruct (heap_release L Hlay m B F k i H Hi Hm ltac:(done)) as [H1 Hf1]. rewrite (proj2 (Z.ltb_lt _ _)) in H1, Hf1 by lia. fold m1 in H1, Hf1.
    exists k, (baddr L k i), m1, (setl F k (baddr L k i :: F k)). split_and!; [|apply R1|done|done].
    apply (free_pass m B F n k i _ _ H Hi Hk). assert (is_Some (B !! (k, buddy i))) as [b Eb].
    { apply (tr_child L B Ht); [done|done|]. destruct (buddy_half i Hi0) as (-> & _). apply (tr_child L B Ht); [done|done|by eexists]. }
    unfold abits. rewrite Eb in Hb |- *. destruct b; [done|apply mruns_ret..].
Qed.

Lemma bd_free_runs s B F k i : heap L (k_mem s) B F -> ready s Lbuddy -> B !! (k, i) = Some BUsed -> in_heap L k i -> k < ly_mx L ->
  exists m' F', quiet (bd_free (baddr L k i)) s tt (set_k_mem m' s) /\ heap L m' (coalesce (Z.to_nat (ly_mx L - k)) k i B) F' /\
  forall a, outside L B a -> ~ in_block L k i a -> getb m' a = getb (k_mem s) a.
Proof.
  intros H Hrd Hi Hm Hk. pose proof (tr_valid L B (h_tree _ _ _ _ H) _ _ (mk_is_Some _ _ Hi)) as [Hk0 _]. pose proof (heap_config _ _ _ H) as Hc.
  destruct (free_loop_spec (Z.to_nat (ly_mx L - k)) _ B F k i H Hi Hm ltac:(lia)) as (k' & p' & m' & F' & Hr & Hc' & H' & Hf').
  exists (lst_push (lhead L k') p' m'), F'. split; [|done]. unfold bd_free. apply quiet_acquire; [done|].
  apply hquiet_mstep with (a := k).
  { unfold size. apply mruns_nsizes; [done|]. apply (size_loop_spec _ B F k i); [done|done|done|lia|lia]. }
  apply hquiet_mstep with (a := ly_mx L).
  { unfold MAXSIZE. apply mruns_nsizes; [done|]. replace (ly_mx L + 1 - 1) with (ly_mx L) by lia. apply mruns_ret. }
  eapply hquiet_mruns; [exact Hr|done|]. cbv beta iota.
  apply hquiet_mstep with (a := lhead L k'); [by apply mruns_unret, mruns_free; [|apply mruns_ret]|].
  eapply hquiet_mruns; [apply mruns_unret, mruns_write, mruns_ret|done|]. rewrite set_k_mem_twice. by apply hquiet_end.
Qed.

(** ** The abstract operations once more *)
Lemma carve_used n : forall k i B, tree L B -> B !! (k, i) = Some BUsed -> Z.of_nat n <= k ->
  carve n k i B !! (k - Z.of_nat n, i * 2 ^ Z.of_nat n) = Some BUsed /\
  forall k' i', B !! (k', i') = Some BUsed -> (k', i') <> (k, i) -> carve n k i B !! (k', i') = Some BUsed.
Proof.
  induction n as [|n IH]; intros k i B Ht Hi Hn; cbn [carve].
  { rewrite Z.sub_0_r, Z.mul_1_r. done. }
  assert (Hk : 0 < k) by lia. destruct (IH (k - 1) (2 * i) _ (tree_split L B k i Ht Hi Hk) (split_used B k i) ltac:(lia)) as [H1 H2]. split.
  - rewrite <- H1. do 2 f_equal; [lia|]. rewrite Nat2Z.inj_succ, Z.pow_succ_r by lia. lia.
  - pose proof (no_child L B k i _ 0 Ht Hi ltac:(done) Hk ltac:(lia)) as N0. pose proof (no_child L B k i _ 1 Ht Hi ltac:(done) Hk ltac:(lia)) as N1. rewrite Z.add_0_r in N0.
    intros k' i' Hu Hne. rewrite pair_equal_spec in Hne. apply H2; [|intros [= -> ->]; congruence].
    rewrite split_lookup. keys; [lia|done| |done]. rewrite Ek, Ei in Hu. congruence.
Qed.
Lemma coalesce_used n : forall k i B, tree L B -> B !! (k, i) = Some BUsed -> k + Z.of_nat n = ly_mx L ->
  forall k' i', B !! (k', i') = Some BUsed -> (k', i') <> (k, i) -> coalesce n k i B !! (k', i') = Some BUsed.
Proof.
  induction n as [|n IH]; intros k i B Ht Hi Hn k' i' Hu Hne; cbn [coalesce]; [by rewrite lookup_insert_ne|]. case_decide as Hb; [|by rewrite lookup_insert_ne].
  assert (Hp : B !! (k + 1, i / 2) = Some BSplit) by (apply (tr_child L B Ht); [by apply (tr_valid L B Ht); eexists|lia|by eexists]).
  apply IH; [apply tree_merge; [done..|lia]|apply merge_used|lia| |].
  - rewrite pair_equal_spec in Hne. rewrite merge_lookup. keys; [done|lia| |done]. rewrite Ek, Ei in Hu. congruence.
  - intros [= -> ->]. congruence.
Qed.
(** Giving back what was carved out. *)
Lemma coalesce_carve n : forall r k i B, tree L B -> B !! (k, i) = Some BUsed -> Z.of_nat n <= k ->
  coalesce (n + r) (k - Z.of_nat n) (i * 2 ^ Z.of_nat n) (carve n k i B) = coalesce r k i B.
Proof.
  induction n as [|n IH]; intros r k i B Ht Hi Hn; cbn [carve].
  { by rewrite Z.sub_0_r, Z.mul_1_r. }
  assert (Hk : 0 < k) by lia. pose proof (IH (S r) (k - 1) (2 * i) _ (tree_split L B k i Ht Hi Hk) (split_used B k i) ltac:(lia)) as E.
  pose proof (tr_valid L B Ht _ _ (mk_is_Some _ _ Hi)) as [_ [Hi0 _]].
  replace (S n + r)%nat with (n + S r)%nat by lia. replace (k - Z.of_nat (S n)) with (k - 1 - Z.of_nat n) by lia.
  replace (i * 2 ^ Z.of_nat (S n)) with (2 * i * 2 ^ Z.of_nat n) by (rewrite Nat2Z.inj_succ, Z.pow_succ_r by lia; lia).
  rewrite E. cbn [coalesce]. replace (buddy (2 * i)) with (2 * i + 1) by (destruct (buddy_cases (2 * i)) as [[]|[]]; lia).
  rewrite decide_True by (rewrite split_lookup; by repeat if_lia). rewrite (merge_split L) by done. f_equal; lia.
Qed.
Lemma coalesce_free n k i B : tree L B -> B !! (k, i) = Some BFree -> k + Z.of_nat n = ly_mx L -> coalesce n k i (<[(k, i) := BUsed]> B) = B.
Proof.
  intros Ht Hi Hn. assert (<[(k, i) := BFree]> (<[(k, i) := BUsed]> B) = B) as E by (rewrite insert_insert_eq; by apply insert_id).
  destruct n as [|n]; cbn [coalesce]; [done|]. rewrite decide_False; [done|].
  pose proof (tr_valid L B Ht _ _ (mk_is_Some _ _ Hi)) as [_ [Hi0 _]]. destruct (buddy_half i Hi0) as (_ & Hne & _).
  rewrite lookup_insert_ne by (intros [=]; congruence). apply (tr_merged L B Ht); [lia|done].
Qed.
End Run.
