(* ===== verification/BuddySpec.v ===== *)
(** * The buddy allocator's contract

    The theorems about bd_malloc and bd_free, and a heap made by bd_init to which
    they apply. *)
From S2P Require Import Prelude Mem Riscv State Spinlock Console Buddy BuddyProofs BuddyHeap BuddyTree BuddyAlloc BuddyRun.

(** The blocks [(k, i)] and [(k', i')] have no byte in common. *)
Definition disjoint_blocks (L : layout) (k i k' i' : Z) : Prop :=
  baddr L k i + bsize k <= baddr L k' i' \/ baddr L k' i' + bsize k' <= baddr L k i.

Section Contract.
Context `{BS : BuddySyms} (L : layout) (Hlay : layout_ok L).

Lemma no_free_list m B F k : heap L m B F -> 0 <= k <= ly_mx L -> F k = [] -> forall i, B !! (k, i) <> Some BFree.
Proof.
  intros H Hk E i Hi. assert (baddr L k i ∈ F k) as Hx by (apply (h_free _ _ _ _ H); [done|by exists i]). rewrite E in Hx. by apply elem_of_nil in Hx.
Qed.
Lemma no_free_from m B F fk k : heap L m B F -> 0 <= fk -> (forall j, fk <= j < k -> F j = []) -> forall j i, fk <= j < k -> B !! (j, i) <> Some BFree.
Proof.
  intros H Hfk HF j i Hj Hi. pose proof (tr_valid L B (h_tree _ _ _ _ H) _ _ (mk_is_Some _ _ Hi)) as [Hk _]. by apply (no_free_list _ _ _ j H Hk (HF j Hj) i).
Qed.
(** The block handed out: the first part of the free block it was carved from. *)
Lemma carved_block m B F k i fk : heap L m B F -> B !! (k, i) = Some BFree -> 0 <= fk <= k ->
  let i0 := i * 2 ^ (k - fk) in let B' := carve (Z.to_nat (k - fk)) k i (<[(k, i) := BUsed]> B) in
  baddr L fk i0 = baddr L k i /\ in_heap L fk i0 /\ B' !! (fk, i0) = Some BUsed /\
  forall k' i', B !! (k', i') = Some BUsed -> B' !! (k', i') = Some BUsed /\ disjoint_blocks L fk i0 k' i'.
Proof.
  intros H Hi Hfk i0 B'. pose proof (h_tree _ _ _ _ H) as Ht. pose proof (tr_valid L B Ht _ _ (mk_is_Some _ _ Hi)) as Hv.
  destruct (first_part L k i fk Hv ltac:(lia)) as [Hv0 Hb0]. fold i0 in Hv0, Hb0.
  assert (Hsz : bsize fk <= bsize k) by (unfold bsize; apply Z.pow_le_mono_r; lia).
  assert (Ht1 : tree L (<[(k, i) := BUsed]> B)) by (by eapply tree_set).
  destruct (carve_used L (Z.to_nat (k - fk)) k i _ Ht1 (lookup_insert_eq _ _ _) ltac:(lia)) as [Hu Hk]. rewrite Z2Nat.id in Hu by lia.
  replace (k - (k - fk)) with fk in Hu by lia. fold i0 B' in Hu. split_and!; [done| |done|].
  - intros a Ha. apply (h_mine _ _ _ _ H k i Hi). lia.
  - intros k' i' Hu'. assert (Hne : (k', i') <> (k, i)) by congruence. split; [apply Hk; [by rewrite lookup_insert_ne|done]|].
    pose proof (leaves_apart L B k i k' i' _ _ Ht Hi Hu' ltac:(done) ltac:(done) ltac:(congruence)). unfold disjoint_blocks. lia.
Qed.

(** C23. bd_malloc(nbytes), called with the lock free on a well-formed heap with
    nbytes at most 2^63 (no power of two of 64 bits holds more, and firstk's loop
    does not end), returns without waiting and leaves the heap well formed.  It returns 0, changing
    nothing, exactly when no free block has nbytes bytes or more; otherwise it
    takes a free block of the smallest size that has one, splits it, and returns
    the address of a block of the smallest power of two that holds nbytes.  That
    block is now used and overlaps no other used block; all used blocks stay used,
    and no byte outside the free blocks and the allocator's tables changes. *)
Theorem bd_malloc_allocates s B F nbytes :
  heap L (k_mem s) B F -> ready s Lbuddy -> 0 <= nbytes <= 2 ^ 63 ->
  let fk := size_class nbytes in
  nbytes <= bsize fk /\ (0 < fk -> bsize (fk - 1) < nbytes) /\
  (((forall k i, fk <= k -> B !! (k, i) <> Some BFree) /\ quiet (bd_malloc nbytes) s 0 s) \/
   exists k i m' B' F' i0, fk <= k /\ B !! (k, i) = Some BFree /\ (forall j i', fk <= j < k -> B !! (j, i') <> Some BFree) /\
     baddr L k i <> 0 /\ quiet (bd_malloc nbytes) s (baddr L k i) (set_k_mem m' s) /\ heap L m' B' F' /\
     baddr L fk i0 = baddr L k i /\ in_heap L fk i0 /\ B' !! (fk, i0) = Some BUsed /\
     (forall k' i', B !! (k', i') = Some BUsed -> B' !! (k', i') = Some BUsed /\ disjoint_blocks L fk i0 k' i') /\
     forall a, outside L B a -> getb m' a = getb (k_mem s) a).
Proof.
  intros H Hrd Hn fk. destruct (size_class_fits nbytes) as (Hs1 & Hs2 & Hs3). fold fk in Hs1, Hs2, Hs3. split; [done|]. split; [done|].
  destruct (bd_malloc_runs L Hlay s B F nbytes H Hrd Hn) as [[HF Hq]|(k & i & m' & F' & Hk & Hi & HF & Hq & H' & Hf)]; fold fk in HF.
  - left. split; [|done]. intros k i Hk Hi. pose proof (tr_valid L B (h_tree _ _ _ _ H) _ _ (mk_is_Some _ _ Hi)) as [Hv _].
    by apply (no_free_list _ _ _ k H Hv (HF k ltac:(lia)) i).
  - right. fold fk in Hk, H'. destruct (carved_block _ _ _ k i fk H Hi ltac:(lia)) as (E1 & E2 & E3 & E4).
    eexists k, i, m', _, F', _. split; [lia|]. split; [done|]. split; [by eapply no_free_from|]. split.
    { pose proof (baddr_bound L Hlay k i (tr_valid L B (h_tree _ _ _ _ H) _ _ (mk_is_Some _ _ Hi))). pose proof (lo_base L Hlay). lia. }
    split; [done|]. split; [exact H'|]. split; [exact E1|]. split; [exact E2|]. split; [exact E3|]. split; [exact E4|done].
Qed.

(** C24. bd_free of a used block (other than the whole heap), with the lock free,
    returns without waiting and leaves the heap well formed (in particular no two
    buddies are both free): the block is merged with its buddy as long as that is
    free.  All other used blocks stay used, and no byte outside the freed block,
    the free blocks and the allocator's tables changes. *)
Theorem bd_free_coalesces s B F k i :
  heap L (k_mem s) B F -> ready s Lbuddy -> B !! (k, i) = Some BUsed -> in_heap L k i -> k < ly_mx L ->
  let B' := coalesce (Z.to_nat (ly_mx L - k)) k i B in
  exists m' F', quiet (bd_free (baddr L k i)) s tt (set_k_mem m' s) /\ heap L m' B' F' /\
    (forall k' i', B !! (k', i') = Some BUsed -> (k', i') <> (k, i) -> B' !! (k', i') = Some BUsed) /\
    (forall a, outside L B a -> ~ in_block L k i a -> getb m' a = getb (k_mem s) a).
Proof.
  intros H Hrd Hi Hm Hk B'. destruct (bd_free_runs L Hlay s B F k i H Hrd Hi Hm Hk) as (m' & F' & Hq & H' & Hf). exists m', F'. split; [done|]. split; [done|].
  split; [|done]. apply (coalesce_used L); [apply H|done|]. pose proof (tr_valid L B (h_tree _ _ _ _ H) _ _ (mk_is_Some _ _ Hi)) as [Hv _]. lia.
Qed.

(** C25. Freeing what bd_malloc returned undoes it: every split is merged back, and
    the heap has the blocks, free and used, that it had before. *)
Theorem bd_malloc_free_restores s B F nbytes :
  heap L (k_mem s) B F -> ready s Lbuddy -> 0 <= nbytes <= 2 ^ 63 -> size_class nbytes < ly_mx L ->
  (exists k i, size_class nbytes <= k /\ B !! (k, i) = Some BFree) ->
  exists p m1 m2 F2, p <> 0 /\ quiet (bd_malloc nbytes) s p (set_k_mem m1 s) /\
    quiet (bd_free p) (set_k_mem m1 s) tt (set_k_mem m2 s) /\ heap L m2 B F2.
Proof.
  intros H Hrd Hn Hmx (k0 & i0 & Hk0 & Hi0). destruct (size_class_fits nbytes) as (_ & _ & Hs3). pose proof (h_tree _ _ _ _ H) as Ht.
  destruct (bd_malloc_runs L Hlay s B F nbytes H Hrd Hn) as [[HF _]|(k & i & m1 & F1 & Hk & Hi & HF & Hq & H1 & _)].
  { pose proof (tr_valid L B Ht _ _ (mk_is_Some _ _ Hi0)) as [Hv _]. by destruct (no_free_list _ _ _ k0 H Hv (HF k0 ltac:(lia)) i0). }
  set (fk := size_class nbytes) in *. destruct (carved_block _ _ _ k i fk H Hi ltac:(lia)) as (E1 & E2 & E3 & _).
  destruct (bd_free_runs L Hlay (set_k_mem m1 s) _ F1 fk _ H1 Hrd E3 E2 Hmx) as (m2 & F2 & Hq2 & H2 & _).
  exists (baddr L k i), m1, m2, F2. rewrite E1, set_k_mem_twice in Hq2. split_and!; [|done|done|].
  - pose proof (baddr_bound L Hlay k i (tr_valid L B Ht _ _ (mk_is_Some _ _ Hi))). pose proof (lo_base L Hlay). lia.
  - assert (Ht1 : tree L (<[(k, i) := BUsed]> B)) by (by eapply tree_set).
    pose proof (coalesce_carve L (Z.to_nat (k - fk)) (Z.to_nat (ly_mx L - k)) k i _ Ht1 (lookup_insert_eq _ _ _) ltac:(lia)) as E.
    rewrite Z2Nat.id in E by lia. replace (k - (k - fk)) with fk in E by lia. replace (Z.to_nat (k - fk) + Z.to_nat (ly_mx L - k))%nat with (Z.to_nat (ly_mx L - fk)) in E by lia.
    rewrite E, (coalesce_free L) in H2; [done|done|done|lia].
Qed.
End Contract.

(** ** A heap *)
(** What bd_init makes of the 1008 bytes from 4096 on: 256 bytes of tables, and
    free blocks of 256, 256, 128, 64, 32 and 16 bytes.  (The last 16 of the 1024
    bytes that seven sizes can manage are marked as used.) *)
Definition buddy_syms : BuddySyms := {| nsizes_at := 100; bd_sizes_at := 112; bd_base_at := 120 |}.
Definition boot_state : kstate := set_k_uart (set_u_lsr 32 (k_uart kstate0)) kstate0.
Definition small_mem : mem := match bd_init (BS := buddy_syms) 4096 5104 boot_state [] with Done _ s _ => k_mem s | Halt _ _ => ∅ end.
Definition small_state : kstate := set_k_mem small_mem kstate0.
Definition small_owner (a : Z) : region :=
  if ((100 <=? a) && (a <? 104)) || ((112 <=? a) && (a <? 128)) then RStatic else if a <? 4096 then ROther
  else if a <? 4320 then (if (a - 4096) mod 32 <? 16 then RHead ((a - 4096) / 32) else RStatic)
  else if a <? 4328 then RAlloc 0 else if a <? 4332 then RAlloc 1 else if a <? 4334 then RAlloc 2 else if a <? 4335 then RAlloc 3
  else if a <? 4336 then RAlloc 4 else if a <? 4337 then RAlloc 5 else if a <? 4338 then RAlloc 6
  else if a <? 4342 then RSplit 1 else if a <? 4344 then RSplit 2 else if a <? 4345 then RSplit 3
  else if a <? 4346 then RSplit 4 else if a <? 4347 then RSplit 5 else if a <? 4348 then RSplit 6
  else if a <? 4352 then ROther else if a <? 5104 then RHeap else ROther.
Definition pick {A} (l : list A) (d : A) (k : Z) : A := nth (Z.to_nat k) l d.
Definition small_layout : layout :=
  mk_layout 4096 6 4096 (pick [4320; 4328; 4332; 4334; 4335; 4336; 4337] 0) (pick [0; 4338; 4342; 4344; 4345; 4346; 4347] 0) small_owner.
Definition small_lists : Z -> list Z := pick [[5088]; [5056]; [4992]; [4864]; [4608; 4352]; []; []] [].
Definition all_blocks (L : layout) : list (Z * Z) :=
  concat ((fun k => (fun i => (k, i)) <$> seqZ 0 (2 ^ (ly_mx L - k))) <$> seqZ 0 (ly_mx L + 1)).
(** The tree that the bit vectors say. *)
Definition read_block (L : layout) (m : mem) (x : Z * Z) : option (Z * Z * bstate) :=
  let '(k, i) := x in
  if (k =? ly_mx L) || bit_isset (ly_split L (k + 1)) (i / 2) m then
    Some (x, if (0 <? k) && bit_isset (ly_split L k) i m then BSplit else if bit_isset (ly_alloc L k) i m then BUsed else BFree)
  else None.
Definition small_blocks : blocks := list_to_map (omap (read_block small_layout small_mem) (all_blocks small_layout)).

Lemma all_blocks_spec L k i : valid L k i -> (k, i) ∈ all_blocks L.
Proof.
  intros [Hk Hi]. unfold all_blocks. apply list_elem_of_In, in_concat. eexists. split.
  - apply list_elem_of_In, list_elem_of_fmap. exists k. split; [reflexivity|]. apply elem_of_seqZ. lia.
  - apply list_elem_of_In, list_elem_of_fmap. exists i. split; [done|]. apply elem_of_seqZ. lia.
Qed.
Lemma check_blocks L (P : Z -> Z -> bool) : forallb (fun x => P x.1 x.2) (all_blocks L) = true -> forall k i, valid L k i -> P k i = true.
Proof. intros H k i Hv. apply (proj1 (forallb_forall _ _) H (k, i)). by apply list_elem_of_In, all_blocks_spec. Qed.
#[export] Instance valid_dec L k i : Decision (valid L k i).
Proof. unfold valid. apply _. Defined.
Lemma sizes_of k : 0 <= k <= 6 -> k ∈ [0; 1; 2; 3; 4; 5; 6].
Proof. intros H. assert (k = 0 \/ k = 1 \/ k = 2 \/ k = 3 \/ k = 4 \/ k = 5 \/ k = 6) by lia. set_solver. Qed.
Ltac each_size k Hk := apply sizes_of in Hk; repeat (apply elem_of_cons in Hk as [->|Hk]; [|]); [..|by apply elem_of_nil in Hk].

Lemma small_layout_ok : layout_ok (BS := buddy_syms) small_layout.
Proof.
  split; cbn [nsizes_at bd_sizes_at bd_base_at buddy_syms ly_mx ly_base ly_owner small_layout]; [lia|lia|..].
  - intros a Ha. unfold small_owner. by repeat if_lia.
  - intros a Ha. unfold small_owner. by repeat if_lia.
  - intros a Ha. unfold small_owner. by repeat if_lia.
  - intros k a Hk. unfold lhead. cbn [ly_sizes small_layout]. intros Ha. unfold small_owner. repeat if_lia. f_equal. lia.
  - intros k a Hk. unfold lhead. cbn [ly_sizes small_layout]. intros Ha. unfold small_owner. by repeat if_lia.
  - intros k i Hv. apply (bool_decide_eq_true_1 (small_owner (ly_alloc small_layout k + i / 8) = RAlloc k)). revert k i Hv.
    apply (check_blocks small_layout (fun k i => bool_decide (small_owner (ly_alloc small_layout k + i / 8) = RAlloc k))). by vm_compute.
  - intros k i Hk Hv. assert ((k <=? 0) || bool_decide (small_owner (ly_split small_layout k + i / 8) = RSplit k) = true) as H.
    { clear Hk. revert k i Hv. apply (check_blocks small_layout (fun k i => (k <=? 0) || bool_decide (small_owner (ly_split small_layout k + i / 8) = RSplit k))). by vm_compute. }
    apply orb_true_iff in H as [H|H]; [lia|by apply bool_decide_eq_true_1 in H].
Qed.
Lemma small_config : config (BS := buddy_syms) small_layout small_mem.
Proof.
  split; [by vm_compute..| |].
  - intros k Hk. each_size k Hk; by vm_compute.
  - intros k Hk. assert (0 <= k <= 6) as Hk' by (cbn in Hk; lia). assert (k <> 0) by lia. clear Hk. each_size k Hk'; [done|by vm_compute..].
Qed.
Ltac in_list H := repeat (apply elem_of_cons in H as [->|H]; [|]); [..|by apply elem_of_nil in H].
Ltac compute_list k := let l := eval vm_compute in (small_lists k) in change (small_lists k) with l in *.
Ltac spread_list := repeat (split; [lia|split; [intros ? Hy; in_list Hy; unfold clear_of; lia|]]); done.
Lemma small_dlist k : 0 <= k <= 6 -> dlist small_mem (lhead small_layout k) (small_lists k).
Proof.
  intros Hk. each_size k Hk; unfold lhead; cbn [ly_sizes small_layout];
    match goal with |- context [small_lists ?k] => compute_list k end;
    (split; [cbn [path]; repeat split; by vm_compute|cbn [spread]; spread_list]).
Qed.
Lemma small_rep : heap_rep (BS := buddy_syms) small_layout small_mem (abits small_blocks) (sbits small_blocks) small_lists.
Proof.
  split; [exact small_config|..].
  - intros k i Hv Hk. assert ((k =? 6) || Bool.eqb (bit_isset (ly_alloc small_layout k) i small_mem) (abits small_blocks k i) = true) as H.
    { clear Hk. revert k i Hv. apply (check_blocks small_layout (fun k i => (k =? 6) || Bool.eqb (bit_isset (ly_alloc small_layout k) i small_mem) (abits small_blocks k i))). by vm_compute. }
    cbn in Hk. apply orb_true_iff in H as [H|H]; [lia|by apply eqb_prop].
  - intros k i Hk Hv. assert ((k <=? 0) || Bool.eqb (bit_isset (ly_split small_layout k) i small_mem) (sbits small_blocks k i) = true) as H.
    { clear Hk. revert k i Hv. apply (check_blocks small_layout (fun k i => (k <=? 0) || Bool.eqb (bit_isset (ly_split small_layout k) i small_mem) (sbits small_blocks k i))). by vm_compute. }
    apply orb_true_iff in H as [H|H]; [lia|by apply eqb_prop].
  - exact small_dlist.
  - intros k x a Hk Hx Ha. cbn [ly_owner small_layout]. unfold small_owner. each_size k Hk; match type of Hx with context [small_lists ?k] => compute_list k end; in_list Hx; by repeat if_lia.
  - intros j k x y Hj Hk Hne Hx Hy. each_size j Hj; each_size k Hk; try done;
      repeat match goal with H : context [small_lists ?k] |- _ => compute_list k end; in_list Hx; in_list Hy; unfold clear_of; lia.
Qed.
Lemma small_valid k i : is_Some (small_blocks !! (k, i)) -> valid small_layout k i.
Proof.
  intros [b Hb]. assert (map_Forall (fun x _ => valid small_layout x.1 x.2) small_blocks) as H by (apply (bool_decide_unpack _); by vm_compute).
  apply (H (k, i) b Hb).
Qed.
(** A property of every block of the tree, by computation. *)
Lemma check_small (P : Z -> Z -> bstate -> bool) :
  forallb (fun x => match small_blocks !! x with Some b => P x.1 x.2 b | None => true end) (all_blocks small_layout) = true ->
  forall k i b, small_blocks !! (k, i) = Some b -> P k i b = true.
Proof.
  intros H k i b Hb. pose proof (small_valid k i (mk_is_Some _ _ Hb)) as Hv.
  pose proof (proj1 (forallb_forall _ _) H (k, i) (proj1 (list_elem_of_In _ _) (all_blocks_spec _ _ _ Hv))) as Hc. cbv beta in Hc. by rewrite Hb in Hc.
Qed.
Lemma small_tree : tree small_layout small_blocks.
Proof.
  split.
  - exists BSplit. by vm_compute.
  - exact small_valid.
  - intros k i Hv Hk. cbn in Hk.
    assert ((k =? 6) || Bool.eqb (bool_decide (is_Some (small_blocks !! (k, i)))) (bool_decide (small_blocks !! (k + 1, i / 2) = Some BSplit)) = true) as H.
    { clear Hk. revert k i Hv. apply (check_blocks small_layout (fun k i => (k =? 6) || Bool.eqb (bool_decide (is_Some (small_blocks !! (k, i)))) (bool_decide (small_blocks !! (k + 1, i / 2) = Some BSplit)))). by vm_compute. }
    apply orb_true_iff in H as [H|H]; [lia|]. apply eqb_prop in H. by rewrite <- (bool_decide_eq_true (is_Some _)), H, bool_decide_eq_true.
  - intros i Hi. pose proof (check_small (fun k _ b => negb ((k =? 0) && bool_decide (b = BSplit))) ltac:(by vm_compute) _ _ _ Hi) as H. done.
  - intros k i _ Hf Hb.
    pose proof (check_small (fun k i b => negb (bool_decide (b = BFree) && bool_decide (small_blocks !! (k, buddy i) = Some BFree))) ltac:(by vm_compute) _ _ _ Hf) as H.
    cbv beta in H. rewrite (bool_decide_eq_true_2 _ Hb) in H. done.
Qed.
Lemma small_heap : heap (BS := buddy_syms) small_layout small_mem small_blocks small_lists.
Proof.
  split; [exact small_rep|exact small_tree|..].
  - intros k x Hk. split.
    + intros Hx. each_size k Hk; match type of Hx with context [small_lists ?k] => compute_list k end; in_list Hx;
        match goal with |- exists i, small_blocks !! (?k, i) = _ /\ ?x = _ => exists ((x - 4096) / bsize k); split; by vm_compute end.
    + intros (i & Hi & ->). pose proof (check_small (fun k i b => negb (bool_decide (b = BFree)) || bool_decide (baddr small_layout k i ∈ small_lists k)) ltac:(by vm_compute) _ _ _ Hi) as H.
      by apply bool_decide_eq_true_1 in H.
  - intros k i Hi a Ha.
    pose proof (check_small (fun k i b => negb (bool_decide (b = BFree)) || ((4352 <=? baddr small_layout k i) && (baddr small_layout k i + bsize k <=? 5104))) ltac:(by vm_compute) _ _ _ Hi) as H.
    cbv beta in H. rewrite (bool_decide_eq_true_2 (BFree = BFree)) in H by done. apply andb_true_iff in H as [H1%Z.leb_le H2%Z.leb_le].
    cbn [ly_owner small_layout]. unfold small_owner. by repeat if_lia.
Qed.
Lemma small_ready : ready small_state Lbuddy.
Proof. exact (ready_boot Lbuddy). Qed.
Lemma small_free : small_blocks !! (3, 6) = Some BFree.
Proof. by vm_compute. Qed.
(** A used block of the small heap: what bd_malloc(100) hands out. *)
Lemma small_used : exists s B F k i, heap (BS := buddy_syms) small_layout (k_mem s) B F /\ ready s Lbuddy /\
  B !! (k, i) = Some BUsed /\ in_heap small_layout k i /\ k < ly_mx small_layout.
Proof.
  destruct (bd_malloc_runs (BS := buddy_syms) small_layout small_layout_ok small_state _ _ 100 small_heap small_ready ltac:(lia))
    as [[HF _]|(k & i & m' & F' & Hk & Hi & _ & _ & H' & _)].
  { by specialize (HF 3 ltac:(by vm_compute)). }
  destruct (carved_block (BS := buddy_syms) small_layout _ _ _ k i (size_class 100) small_heap Hi ltac:(change (size_class 100) with 3 in *; lia)) as (E1 & E2 & E3 & _).
  exists (set_k_mem m' small_state). eexists _, F', _, _. split; [exact H'|]. split; [exact small_ready|]. split; [exact E3|]. split; [exact E2|]. by vm_compute.
Qed.

Lemma bd_malloc_allocates_witness : exists p m', p <> 0 /\ quiet (bd_malloc (BS := buddy_syms) 100) small_state p (set_k_mem m' small_state).
Proof.
  destruct (bd_malloc_allocates (BS := buddy_syms) small_layout small_layout_ok small_state small_blocks small_lists 100) as (_ & _ & [[H _]|(k & i & m' & B' & F' & i0 & _ & _ & _ & Hp & Hq & _)]).
  - exact small_heap.
  - exact small_ready.
  - lia.
  - exfalso. apply (H 3 6); [by vm_compute|exact small_free].
  - exists (baddr small_layout k i), m'. split; [exact Hp|exact Hq].
Defined.
Lemma bd_free_coalesces_witness : exists s p m', quiet (bd_free (BS := buddy_syms) p) s tt (set_k_mem m' s).
Proof.
  destruct small_used as (s & B & F & k & i & H & Hr & Hu & Hm & Hk).
  destruct (bd_free_coalesces (BS := buddy_syms) small_layout small_layout_ok s B F k i H Hr Hu Hm Hk) as (m' & F' & Hq & _).
  exists s, (baddr small_layout k i), m'. exact Hq.
Defined.
Lemma bd_malloc_free_restores_witness : exists p m1 m2 F2, p <> 0 /\ quiet (bd_malloc (BS := buddy_syms) 100) small_state p (set_k_mem m1 small_state) /\
  quiet (bd_free (BS := buddy_syms) p) (set_k_mem m1 small_state) tt (set_k_mem m2 small_state) /\ heap (BS := buddy_syms) small_layout m2 small_blocks F2.
Proof.
  apply (bd_malloc_free_restores (BS := buddy_syms) small_layout small_layout_ok small_state small_blocks small_lists 100 small_heap small_ready); [lia|by vm_compute|].
  exists 3, 6. split; [by vm_compute|exact small_free].
Defined.

(** When the memory to manage is a power of two, nothing is unavailable and the
    right end of the free memory is the block after the last: bd_initfree reads the
    bit after the vector, counts a block that does not exist, and bd_init panics. *)
Lemma bd_init_power_of_two :
  match bd_init (BS := buddy_syms) 4096 5120 boot_state [] with Halt (HPanic msg) _ => msg | _ => EmptyString end = "bd_init: free mem"%string.
Proof. by vm_compute. Qed.
