(* ===== verification/PageTable.v ===== *)
(** * Page tables as trees (theory of kernel/vm.c)

    A page table is a tree of pages in physical memory.  [node m pt p] follows
    the path of indices [p] from the root; [pt_wf] says that the pages of the
    tree are distinct pages of RAM; [view m pt va] is the leaf entry the tree
    gives the virtual address [va], 0 where there is none.  The lemmas here
    say what one store into the tree, or one new page, does to the nodes and to
    the view; [VmProofs] lifts them to the functions of vm.c. *)
From S2P Require Import Prelude Mem Riscv State Spinlock Kalloc Vm.

Section PageTable.
Context `{LD : Linker}.

Definition valid (v : Z) : bool := ctrue (Z.land v PTE_V).
Definition slot (a i : Z) : Z := a + 8 * i.
Definition child (m : mem) (a i : Z) : option Z :=
  let v := load64 m (slot a i) in if valid v then Some (PTE2PA v) else None.
Fixpoint node (m : mem) (pt : Z) (p : list Z) : option Z :=
  match p with
  | [] => Some pt
  | i :: p' => match child m pt i with Some t => node m t p' | None => None end
  end.

Definition idx_ok (i : Z) : Prop := 0 <= i < 512.
Definition node_path (p : list Z) : Prop := (length p <= 2)%nat /\ Forall idx_ok p.
Definition vpath (va : Z) : list Z := [PX 2 va; PX 1 va].
Definition view (m : mem) (pt va : Z) : Z :=
  match node m pt (vpath va) with Some b => load64 m (slot b (PX 0 va)) | None => 0 end.

Record pt_wf (m : mem) (pt : Z) : Prop := {
  wf_page : forall p a, node_path p -> node m pt p = Some a -> ram_page a;
  wf_inj : forall p q a, node_path p -> node_path q ->
           node m pt p = Some a -> node m pt q = Some a -> p = q;
}.
Definition is_node (m : mem) (pt a : Z) : Prop := exists p, node_path p /\ node m pt p = Some a.

(** ** Paths and slots *)
Lemma node_snoc m pt p i :
  node m pt (p ++ [i]) = match node m pt p with Some a => child m a i | None => None end.
Proof.
  revert pt. induction p as [|j p IH]; intros pt; cbn.
  - by destruct (child m pt i).
  - destruct (child m pt j); [apply IH|done].
Qed.

Lemma idx_PX level va : 0 <= level -> idx_ok (PX level va).
Proof. apply PX_range. Qed.
Lemma vpath_ok va : node_path (vpath va).
Proof. split; [done|]. repeat constructor; apply idx_PX; lia. Qed.
Lemma node_path_snoc p i : node_path (p ++ [i]) -> node_path p /\ idx_ok i /\ (length p <= 1)%nat.
Proof.
  intros [Hl Hf]. rewrite length_app in Hl. cbn in Hl. apply list.Forall_app in Hf as [Hp Hi].
  apply list.Forall_cons in Hi as [Hi _]. split_and!; [split; [lia|done]|done|lia].
Qed.
Lemma node_path_app p i : (length p <= 1)%nat -> node_path p -> idx_ok i -> node_path (p ++ [i]).
Proof.
  intros Hl [_ Hf] Hi. split; [rewrite length_app; cbn; lia|]. apply list.Forall_app. auto.
Qed.
Lemma node_path_nil : node_path [].
Proof. split; [cbn; lia|constructor]. Qed.

Lemma slot_range a i : idx_ok i -> a <= slot a i /\ slot a i + 8 <= a + PGSIZE.
Proof. unfold idx_ok, slot, PGSIZE. lia. Qed.
(** Different slots of the tree's pages do not overlap. *)
Lemma slot_disjoint a b i j :
  page_aligned a -> page_aligned b -> idx_ok i -> idx_ok j -> (a <> b \/ i <> j) ->
  slot b j + 8 <= slot a i \/ slot a i + 8 <= slot b j.
Proof. unfold page_aligned, idx_ok, slot, PGSIZE. lia. Qed.

Lemma load_slot_store m a b i j v :
  page_aligned a -> page_aligned b -> idx_ok i -> idx_ok j -> (a <> b \/ i <> j) ->
  load64 (store64 m (slot a i) v) (slot b j) = load64 m (slot b j).
Proof. intros. apply load_store_other. change (Z.of_nat 8) with 8. by apply slot_disjoint. Qed.

(** Memories that agree on page [pg]. *)
Definition same_page (m m' : mem) (pg : Z) : Prop :=
  forall a, pg <= a < pg + PGSIZE -> getb m' a = getb m a.

Lemma load_slot_same m m' a i :
  same_page m m' a -> idx_ok i -> load64 m' (slot a i) = load64 m (slot a i).
Proof.
  intros H Hi. apply load_ext. intros j Hj. apply H. pose proof (slot_range a i Hi).
  change (Z.of_nat 8) with 8 in Hj. lia.
Qed.
Lemma child_same m m' a i : same_page m m' a -> idx_ok i -> child m' a i = child m a i.
Proof. intros. unfold child. by rewrite (load_slot_same m m'). Qed.

(** Memory outside the tree does not matter. *)
Lemma node_frame m m' pt :
  (forall a, is_node m pt a -> same_page m m' a) ->
  forall p, node_path p -> node m' pt p = node m pt p.
Proof.
  intros H p. induction p as [|i p IH] using rev_ind; intros Hp; [done|].
  apply node_path_snoc in Hp as (Hp & Hi & _). rewrite !node_snoc, IH by done.
  destruct (node m pt p) as [a|] eqn:E; [|done]. apply child_same; [|done].
  apply H. by exists p.
Qed.
Lemma wf_frame m m' pt :
  (forall a, is_node m pt a -> same_page m m' a) -> pt_wf m pt -> pt_wf m' pt.
Proof.
  intros H [H1 H2]. pose proof (node_frame m m' pt H) as Hn. split.
  - intros p a Hp. rewrite Hn by done. by apply H1.
  - intros p q a Hp Hq. rewrite !Hn by done. by apply H2.
Qed.
Lemma view_frame m m' pt va :
  (forall a, is_node m pt a -> same_page m m' a) -> view m' pt va = view m pt va.
Proof.
  intros H. unfold view. rewrite (node_frame m m' pt H) by apply vpath_ok.
  destruct (node m pt (vpath va)) as [b|] eqn:E; [|done].
  apply load_slot_same; [|apply idx_PX; lia]. apply H. exists (vpath va). split; [apply vpath_ok|done].
Qed.

(** ** One store into the tree *)
Lemma node_store m pt p a i v q :
  pt_wf m pt -> node_path p -> node m pt p = Some a -> idx_ok i -> node_path q ->
  ~ (p ++ [i]) `prefix_of` q ->
  node (store64 m (slot a i) v) pt q = node m pt q.
Proof.
  intros [Hpg Hinj] Hp Ha Hi. induction q as [|j q IH] using rev_ind; intros Hq Hpre; [done|].
  apply node_path_snoc in Hq as (Hq & Hj & _). rewrite !node_snoc.
  rewrite IH; [|done|by intros Hpr; apply Hpre, prefix_app_r].
  destruct (node m pt q) as [b|] eqn:E; [|done]. unfold child.
  rewrite load_slot_store; [done|by apply (Hpg p)|by apply (Hpg q)|done|done|].
  destruct (decide (a = b)) as [<-|]; [|by left]. right. intros <-. apply Hpre.
  by rewrite (Hinj p q a).
Qed.

(** A store into a last-level page changes one entry of the view. *)
Lemma node_store_leaf m pt va b v q :
  pt_wf m pt -> node m pt (vpath va) = Some b -> node_path q ->
  node (store64 m (slot b (PX 0 va)) v) pt q = node m pt q.
Proof.
  intros Hwf Hb Hq. eapply (node_store _ _ (vpath va)); [done|apply vpath_ok|done|apply idx_PX; lia|done|].
  intros Hpr%prefix_length. rewrite length_app in Hpr. cbn in Hpr. destruct Hq. lia.
Qed.
Lemma wf_store_leaf m pt va b v :
  pt_wf m pt -> node m pt (vpath va) = Some b -> pt_wf (store64 m (slot b (PX 0 va)) v) pt.
Proof.
  intros Hwf Hb. split.
  - intros p a Hp. rewrite node_store_leaf by done. by apply Hwf.
  - intros p q a Hp Hq. rewrite !node_store_leaf by done. by apply Hwf.
Qed.
Lemma view_store_leaf m pt va b v va' :
  pt_wf m pt -> node m pt (vpath va) = Some b -> 0 <= va < MAXVA -> 0 <= va' < MAXVA ->
  view (store64 m (slot b (PX 0 va)) v) pt va' =
    if PGROUNDDOWN va' =? PGROUNDDOWN va then u64 v else view m pt va'.
Proof.
  intros Hwf Hb Hva Hva'. unfold view.
  rewrite node_store_leaf by (done || apply vpath_ok).
  bdestr (PGROUNDDOWN va' =? PGROUNDDOWN va).
  - assert (forall lv, 0 <= lv -> PX lv va' = PX lv va) as HPX.
    { intros lv Hlv. by rewrite <- (PX_of_page lv va), <- E, PX_of_page. }
    assert (vpath va' = vpath va) as Ev by (unfold vpath; by rewrite !HPX by lia).
    rewrite Ev, Hb, HPX by lia.
    by rewrite load_store_same.
  - destruct (node m pt (vpath va')) as [b'|] eqn:Eb'; [|done].
    apply load_slot_store; [|..]; try (apply idx_PX; lia).
    + by apply (wf_page _ _ Hwf (vpath va)); [apply vpath_ok|].
    + by apply (wf_page _ _ Hwf (vpath va')); [apply vpath_ok|].
    + destruct (decide (b = b')) as [<-|]; [|by left]. right. intros E0. apply E.
      pose proof (wf_inj _ _ Hwf _ _ _ (vpath_ok va) (vpath_ok va') Hb Eb') as Ep.
      injection Ep as E2 E1. by symmetry; apply PX_page.
Qed.

(** ** A new page in the tree *)
Definition zero_page (m : mem) (q : Z) : Prop := forall a, q <= a < q + PGSIZE -> getb m a = 0.

Lemma load_slot_zero m q i : zero_page m q -> idx_ok i -> load64 m (slot q i) = 0.
Proof.
  intros H Hi. rewrite <- (load_ext 8 ∅); [by vm_compute|].
  intros j Hj. pose proof (slot_range q i Hi). change (Z.of_nat 8) with 8 in Hj.
  rewrite H by lia. by vm_compute.
Qed.

Lemma valid_table q : ram_page q ->
  valid (u64 (Z.lor (PA2PTE q) PTE_V)) = true /\ PTE2PA (u64 (Z.lor (PA2PTE q) PTE_V)) = q.
Proof.
  intros Hq. pose proof (ram_page_bound q Hq) as Hb.
  pose proof (PTE_mk_range q PTE_V ltac:(lia) ltac:(by vm_compute)) as Hr.
  assert (u64 (Z.lor (PA2PTE q) PTE_V) = Z.lor (PA2PTE q) PTE_V) as ->.
  { unfold u64. rewrite Z.mod_small; [done|lia]. }
  split; [|apply PTE2PA_mk; [apply Hq|lia|by vm_compute]].
  unfold valid. rewrite Z.land_lor_distr_l, Z.land_diag. unfold ctrue.
  destruct (Z.lor _ _ =? 0) eqn:E; [|done]. apply Z.eqb_eq, Z.lor_eq_0_iff in E. by destruct E.
Qed.

(** [m2] is [m] with the zeroed page [q] hung below slot [i] of node [p]. *)
Section Grow.
Context (m m1 : mem) (pt : Z) (p : list Z) (a i q : Z).
Hypothesis Hwf : pt_wf m pt.
Hypothesis Hp : node_path p.
Hypothesis Hlen : (length p <= 1)%nat.
Hypothesis Hi : idx_ok i.
Hypothesis Ha : node m pt p = Some a.
Hypothesis Hno : child m a i = None.
Hypothesis Hq : ram_page q.
Hypothesis Hfresh : ~ is_node m pt q.
Hypothesis Hm1 : forall x, ~ (q <= x < q + PGSIZE) -> getb m1 x = getb m x.
Hypothesis Hzero : zero_page m1 q.
Let m2 := store64 m1 (slot a i) (Z.lor (PA2PTE q) PTE_V).

Lemma grow_pages b : is_node m pt b -> same_page m m1 b.
Proof.
  intros Hb x Hx. apply Hm1. intros Hx'. destruct Hb as (r & Hr & Eb).
  eapply (page_disjoint b q x x); [| | |done|done|done].
  - by apply (wf_page _ _ Hwf r).
  - by destruct Hq.
  - intros ->. apply Hfresh. by exists r.
Qed.
Lemma grow_ne_a : a <> q.
Proof. intros ->. apply Hfresh. by exists p. Qed.
Lemma grow_a : page_aligned a.
Proof. by apply (wf_page _ _ Hwf p). Qed.

Lemma grow_wf1 : pt_wf m1 pt.
Proof. eapply wf_frame; [apply grow_pages|done]. Qed.
Lemma grow_node1 r : node_path r -> node m1 pt r = node m pt r.
Proof. apply node_frame. apply grow_pages. Qed.

Lemma grow_zero2 : zero_page m2 q.
Proof.
  intros x Hx. unfold m2. rewrite getb_store_out; [by apply Hzero|].
  change (Z.of_nat 8) with 8. pose proof (slot_range a i Hi).
  destruct Hq as [Hqa _]. pose proof grow_a. pose proof grow_ne_a.
  unfold page_aligned, PGSIZE in *. lia.
Qed.

Lemma grow_child : child m2 a i = Some q.
Proof.
  unfold child, m2. rewrite load_store_same. change (8 * Z.of_nat 8) with 64.
  fold (u64 (Z.lor (PA2PTE q) PTE_V)). destruct (valid_table q Hq) as [-> ->]. done.
Qed.

Lemma grow_node_p : node m2 pt p = Some a.
Proof.
  unfold m2. rewrite (node_store m1 pt p a i _ p); [|apply grow_wf1|done| |done|done|].
  - by rewrite grow_node1.
  - by rewrite grow_node1.
  - intros Hpr%prefix_length. rewrite length_app in Hpr. cbn in Hpr. lia.
Qed.

(** The only new node is [q], at [p ++ [i]]. *)
Lemma grow_node r :
  node_path r -> node m2 pt r = if decide (r = p ++ [i]) then Some q else node m pt r.
Proof.
  intros Hr. case_decide as E.
  - subst. by rewrite node_snoc, grow_node_p, grow_child.
  - destruct (decide ((p ++ [i]) `prefix_of` r)) as [[t ->]|Hpre].
    + destruct t as [|j t] using rev_ind; [by rewrite app_nil_r in E|].
      assert (t = []) as ->.
      { destruct Hr as [Hr _]. destruct t; [done|]. rewrite !length_app in Hr. cbn in Hr. lia. }
      cbn [app] in *.
      rewrite !node_snoc, grow_node_p, grow_child, Ha, Hno.
      apply node_path_snoc in Hr as (_ & Hj & _).
      unfold child. by rewrite (load_slot_zero m2 q j grow_zero2 Hj).
    + unfold m2. rewrite (node_store m1 pt p a i); try done; [|apply grow_wf1|];
        by rewrite grow_node1.
Qed.

Lemma grow_wf : pt_wf m2 pt.
Proof.
  split.
  - intros r b Hr. rewrite grow_node by done. case_decide; [by intros [= <-]|by apply Hwf].
  - intros r r' b Hr Hr'. rewrite !grow_node by done.
    case_decide as E1; case_decide as E2; subst.
    + done.
    + intros [= <-] Hb. by destruct Hfresh; exists r'.
    + intros Hb [= <-]. by destruct Hfresh; exists r.
    + by apply Hwf.
Qed.

Lemma grow_view va : view m2 pt va = view m pt va.
Proof.
  unfold view. rewrite grow_node by apply vpath_ok.
  assert (Hpx : idx_ok (PX 0 va)) by (apply idx_PX; lia).
  case_decide as E.
  - rewrite E, node_snoc, Ha, Hno. apply load_slot_zero; [apply grow_zero2|done].
  - destruct (node m pt (vpath va)) as [b|] eqn:Eb; [|done].
    pose proof (vpath_ok va) as Hv. unfold m2. rewrite load_slot_store.
    + apply load_slot_same; [|done]. apply grow_pages. by exists (vpath va).
    + apply grow_a.
    + by apply (wf_page _ _ Hwf (vpath va)).
    + done.
    + done.
    + left. intros <-. pose proof (wf_inj _ _ Hwf _ _ _ Hp Hv Ha Eb) as ->. cbn in Hlen. lia.
Qed.

Lemma grow_frame x :
  ~ (q <= x < q + PGSIZE) -> ~ (a <= x < a + PGSIZE) -> getb m2 x = getb m x.
Proof.
  intros H1 H2. unfold m2. rewrite getb_store_out; [by apply Hm1|].
  change (Z.of_nat 8) with 8. pose proof (slot_range a i Hi). lia.
Qed.
End Grow.
End PageTable.
