(* ===== verification/VmProofs.v ===== *)
(** * Theorems about kernel/vm.c

    [space s pt l]: the kernel state holds a well-formed page table at [pt], the
    page allocator's free list is [l], and the two share no page.  [grown]
    says what walk with alloc=1 may do to such a state: new page-table pages
    taken from the free list, the view of every address unchanged, and no
    other byte of memory touched. *)
From S2P Require Import Prelude Mem Riscv State Spinlock Kalloc Vm PageTable.

Section VmProofs.
Context `{LD : Linker}.

(** Only memory and the head of the free list differ. *)
Definition mem_step (s s' : kstate) : Prop :=
  exists m f, s' = set_k_mem m (set_k_freelist f s).
#[export] Instance mem_step_preorder : PreOrder mem_step.
Proof.
  split.
  - intros s. exists (k_mem s), (k_freelist s). by destruct s.
  - intros s1 s2 s3 (m & f & ->) (m' & f' & ->). by exists m', f'.
Qed.
Lemma mem_step_ready s s' l : mem_step s s' -> ready s l -> ready s' l.
Proof. intros (m & f & ->) H. exact H. Qed.
Lemma mem_step_mem s m : mem_step s (set_k_mem m s).
Proof. exists m, (k_freelist s). by destruct s. Qed.
Lemma mem_step_kalloc r s : mem_step s (kalloc_post r s).
Proof. by eexists _, _. Qed.
Lemma mem_step_kfree r s : mem_step s (kfree_post r s).
Proof. by eexists _, _. Qed.

Record space (s : kstate) (pt : Z) (l : list Z) : Prop := {
  sp_free : free_pages s l;
  sp_ready : ready s Lkmem;
  sp_wf : pt_wf (k_mem s) pt;
  sp_sep : forall a, is_node (k_mem s) pt a -> a ∉ l;
}.

(** The address [x] is in no page of [l] and in no page of the tree. *)
Definition outside (m : mem) (pt : Z) (l : list Z) (x : Z) : Prop :=
  (PGROUNDDOWN x ∉ l) /\ ~ is_node m pt (PGROUNDDOWN x).

Record grown (s : kstate) (pt : Z) (l : list Z) (s' : kstate) (l' : list Z) : Prop := {
  gr_step : mem_step s s';
  gr_space : space s' pt l';
  gr_suffix : exists used, l = used ++ l';
  gr_old : (forall p a, node_path p -> node (k_mem s) pt p = Some a -> node (k_mem s') pt p = Some a);
  gr_new : forall a, is_node (k_mem s') pt a -> (is_node (k_mem s) pt a \/ a ∈ l);
  gr_used : forall a, a ∈ l -> a ∈ l' \/ is_node (k_mem s') pt a;
  gr_frame : forall x, outside (k_mem s) pt l x -> getb (k_mem s') x = getb (k_mem s) x;
}.

(** The two memories map every virtual address alike. *)
Definition same_view (m m' : mem) (pt : Z) : Prop := forall va, view m' pt va = view m pt va.

Lemma grown_refl s pt l : space s pt l -> grown s pt l s l.
Proof. intros H. split; auto; [reflexivity|by exists []]. Qed.
Lemma grown_trans s pt l s1 l1 s2 l2 :
  grown s pt l s1 l1 -> grown s1 pt l1 s2 l2 -> grown s pt l s2 l2.
Proof.
  intros [A1 A2 [u1 ->] A4 A5 A6 A7] [B1 B2 [u2 ->] B4 B5 B6 B7]. split.
  - by transitivity s1.
  - done.
  - exists (u1 ++ u2). by rewrite app_assoc.
  - eauto.
  - intros a Ha. destruct (B5 a Ha) as [H|H]; [by apply A5|]. right. set_solver.
  - intros a Ha. destruct (A6 a Ha) as [H|(p & Hp & H)]; [by apply B6|right]. exists p. split; [done|by apply B4].
  - intros x [H1 H2]. rewrite B7; [by apply A7|]. split; [set_solver|].
    intros Hn. destruct (A5 _ Hn); [done|]. set_solver.
Qed.

Lemma page_of x pg : page_aligned pg -> pg <= x < pg + PGSIZE -> PGROUNDDOWN x = pg.
Proof. intros Ha Hx. rewrite PGROUNDDOWN_eq. unfold page_aligned, PGSIZE in *. lia. Qed.

(** The free list survives writes to pages that are not free. *)
Lemma free_pages_frame s l m :
  free_pages s l ->
  (forall q x, q ∈ l -> q <= x < q + PGSIZE -> getb m x = getb (k_mem s) x) ->
  free_pages (set_k_mem m s) l.
Proof.
  intros [H1 H2 H3] Hm. split; [|done|done]. cbn. eapply chain_ext; [|exact H1].
  intros q Hq. apply load_ext. intros x Hx. symmetry. apply (Hm q); [done|].
  change (Z.of_nat 8) with 8 in Hx. unfold PGSIZE. lia.
Qed.

(** One new page-table page. *)
Definition grow_state (s : kstate) (q at_ : Z) : kstate :=
  let s1 := kalloc_post q s in
  set_k_mem (store64 (memset (k_mem s1) q 0 PGSIZE) at_ (Z.lor (PA2PTE q) PTE_V)) s1.

Section GrowState.
Context (s : kstate) (pt q : Z) (l p : list Z) (a i : Z).
Hypothesis Hsp : space s pt (q :: l).
Hypothesis Hp : node_path p.
Hypothesis Hlen : (length p <= 1)%nat.
Hypothesis Hi : idx_ok i.
Hypothesis Ha : node (k_mem s) pt p = Some a.
Hypothesis Hno : child (k_mem s) a i = None.
Let s' := grow_state s q (slot a i).
Let m1 := memset (k_mem (kalloc_post q s)) q 0 PGSIZE.

Lemma gs_q : ram_page q /\ (q ∉ l) /\ Forall ram_page l.
Proof.
  destruct Hsp as [[_ Hf Hn] _ _ _]. apply list.Forall_cons in Hf. apply list.NoDup_cons in Hn. naive_solver.
Qed.
Lemma gs_fresh : ~ is_node (k_mem s) pt q.
Proof. intros Hn. apply (sp_sep _ _ _ Hsp q Hn). left. Qed.
Lemma gs_m1 x : ~ (q <= x < q + PGSIZE) -> getb m1 x = getb (k_mem s) x.
Proof.
  intros Hx. unfold m1. rewrite getb_memset by (unfold PGSIZE; lia).
  if_lia. by apply kalloc_post_mem.
Qed.
Lemma gs_zero : zero_page m1 q.
Proof. intros x Hx. unfold m1. rewrite getb_memset by (unfold PGSIZE; lia). by if_lia. Qed.

Lemma gs_node r :
  node_path r -> node (k_mem s') pt r = if decide (r = p ++ [i]) then Some q else node (k_mem s) pt r.
Proof.
  intros Hr. apply (grow_node _ m1); try done; [apply Hsp|apply gs_q|apply gs_fresh|apply gs_m1|apply gs_zero].
Qed.
Lemma gs_frame x :
  ~ (q <= x < q + PGSIZE) -> ~ (a <= x < a + PGSIZE) -> getb (k_mem s') x = getb (k_mem s) x.
Proof. eapply (grow_frame _ m1); try done. apply gs_m1. Qed.
Lemma gs_a : page_aligned a /\ a ∉ q :: l.
Proof.
  split; [by apply (wf_page _ _ (sp_wf _ _ _ Hsp) p)|]. apply (sp_sep _ _ _ Hsp). by exists p.
Qed.

Lemma gs_free : free_pages s' l.
Proof.
  destruct gs_q as (Hq & Hqn & Hram). destruct gs_a as [Hpa Hal].
  apply (free_pages_frame (kalloc_post q s)); [apply free_pages_kalloc, Hsp|].
  intros q' x Hq' Hx. pose proof (Forall_in _ _ _ Hram Hq') as [Hq'a _].
  assert (~ (q <= x < q + PGSIZE)) as Hxq.
  { intros Hx2. apply (page_disjoint q q' x x); [apply Hq|done| |done|done|done]. by intros ->. }
  rewrite (kalloc_post_mem q s) by done. apply gs_frame; [done|].
  intros Hx2. apply (page_disjoint a q' x x); [done|done| |done|done|done].
  intros ->. apply Hal. by right.
Qed.

Lemma gs_step : mem_step s s'.
Proof. transitivity (kalloc_post q s); [apply mem_step_kalloc|apply mem_step_mem]. Qed.
Lemma gs_wf : pt_wf (k_mem s') pt.
Proof.
  apply (grow_wf (k_mem s) m1 pt p); try done; [apply Hsp|apply gs_q|apply gs_fresh|apply gs_m1|apply gs_zero].
Qed.
Lemma gs_space : space s' pt l.
Proof.
  split.
  - apply gs_free.
  - eapply mem_step_ready; [apply gs_step|apply Hsp].
  - apply gs_wf.
  - intros b (r & Hr & Hb). rewrite gs_node in Hb by done. destruct gs_q as (_ & Hqn & _).
    case_decide; [by simplify_eq|]. intros Hin.
    apply (sp_sep _ _ _ Hsp b); [by exists r|by right].
Qed.

Lemma grow_state_grown :
  grown s pt (q :: l) s' l /\ node (k_mem s') pt (p ++ [i]) = Some q.
Proof.
  split.
  - split.
    + apply gs_step.
    + apply gs_space.
    + by exists [q].
    + intros r b Hr Hb. rewrite gs_node by done. case_decide; [|done]. subst r.
      by rewrite node_snoc, Ha, Hno in Hb.
    + intros b (r & Hr & Hb). rewrite gs_node in Hb by done.
      case_decide; [right; simplify_eq; left|]. left. by exists r.
    + intros b [->|Hb]%elem_of_cons; [right|by left]. exists (p ++ [i]). split; [by apply node_path_app|].
      rewrite gs_node by by apply node_path_app. by rewrite decide_True.
    + intros x [Hx1 Hx2]. apply gs_frame.
      * intros Hx. rewrite (page_of x q) in Hx1; [|apply gs_q|done]. apply Hx1. left.
      * intros Hx. rewrite (page_of x a) in Hx2; [|apply gs_a|done]. apply Hx2. by exists p.
  - rewrite gs_node by by apply node_path_app. by rewrite decide_True.
Qed.
Lemma gs_view : same_view (k_mem s) (k_mem s') pt.
Proof.
  intros va.
  apply (grow_view _ m1 pt p); try done; [apply Hsp|apply gs_q|apply gs_fresh|apply gs_m1|apply gs_zero].
Qed.
End GrowState.

(** ** walk *)
Lemma quiet_mem_read f s : quiet (mem_read f) s (f (k_mem s)) s.
Proof. apply (quiet_reads (fun s => f (k_mem s))). Qed.
Lemma quiet_mem_write f s : quiet (mem_write f) s tt (set_k_mem (f (k_mem s)) s).
Proof. apply (quiet_modify (fun s => set_k_mem (f (k_mem s)) s)). Qed.

(** The address of the leaf slot walk returns, 0 where the tree ends early. *)
Definition leaf_slot (m : mem) (pt va : Z) : Z :=
  match node m pt (vpath va) with Some b => slot b (PX 0 va) | None => 0 end.

Lemma quiet_walk_ro s pt va :
  va < MAXVA -> quiet (walk pt va false) s (leaf_slot (k_mem s) pt va) s.
Proof.
  intros Hva. unfold walk. if_lia. unfold leaf_slot, vpath. cbn [walk_loop node].
  eapply quiet_bind; [apply quiet_mem_read|].
  fold (slot pt (PX 2 va)). fold (valid (load64 (k_mem s) (slot pt (PX 2 va)))).
  unfold child at 1. destruct (valid _); cbn [negb]; [|apply quiet_ret].
  eapply quiet_bind; [apply quiet_mem_read|]. fold (slot (PTE2PA (load64 (k_mem s) (slot pt (PX 2 va)))) (PX 1 va)).
  fold (valid (load64 (k_mem s) (slot (PTE2PA (load64 (k_mem s) (slot pt (PX 2 va)))) (PX 1 va)))).
  unfold child. destruct (valid _); cbn [negb]; apply quiet_ret.
Qed.

(** One level more can cost one page more. *)
Lemma walk_cost (c : nat) (P : Z -> Prop) (Q : Prop) (l l' l1 : list Z) : (length l1 <= S (length l))%nat ->
  (Q /\ l' = [] /\ (length l < c)%nat) \/ (exists b, P b /\ (length l <= length l' + c)%nat) ->
  (Q /\ l' = [] /\ (length l1 < S c)%nat) \/ (exists b, P b /\ (length l1 <= length l' + S c)%nat).
Proof. intros Hl [(H1 & H2 & H3)|(b & H1 & H3)]; [left; split_and!; [done|done|lia]|right; exists b; split; [done|lia]]. Qed.
(** The walk takes a page for each level that is missing at most. *)
Lemma walk_loop_alloc levels : forall s pt l p a va,
  space s pt l -> node_path p -> node (k_mem s) pt p = Some a ->
  Forall (fun lv => 0 <= lv) levels ->
  p ++ ((fun lv => PX lv va) <$> levels) = vpath va ->
  exists r s' l', quiet (walk_loop levels a va true) s r s' /\ grown s pt l s' l' /\
  same_view (k_mem s) (k_mem s') pt /\
  ((r = 0 /\ l' = [] /\ (length l < length levels)%nat) \/
   exists b, (node (k_mem s') pt (vpath va) = Some b /\ r = slot b (PX 0 va)) /\ (length l <= length l' + length levels)%nat).
Proof.
  induction levels as [|lv levels IH]; intros s pt l p a va Hsp Hp Ha Hlv Hpath; cbn [walk_loop].
  { cbn in Hpath. rewrite app_nil_r in Hpath. subst p. exists (slot a (PX 0 va)), s, l.
    split_and!; [apply quiet_ret|by apply grown_refl|done|]. right. exists a. split; [done|lia]. }
  apply list.Forall_cons in Hlv as [Hlv0 Hlv]. cbn in Hpath.
  assert (Hlen : (length p <= 1)%nat).
  { apply (f_equal length) in Hpath. rewrite length_app in Hpath. cbn in Hpath. lia. }
  assert (Hi : idx_ok (PX lv va)) by by apply idx_PX.
  assert (Hpath' : (p ++ [PX lv va]) ++ ((fun lv => PX lv va) <$> levels) = vpath va).
  { rewrite <- app_assoc. exact Hpath. }
  pose proof (node_path_app p (PX lv va) Hlen Hp Hi) as Hp'.
  fold (slot a (PX lv va)).
  destruct (valid (load64 (k_mem s) (slot a (PX lv va)))) eqn:Ev.
  - destruct (IH s pt l (p ++ [PX lv va]) (PTE2PA (load64 (k_mem s) (slot a (PX lv va)))) va)
      as (r & s' & l' & Hq & Hg & Hv & Hres); try done.
    { rewrite node_snoc, Ha. unfold child. by rewrite Ev. }
    exists r, s', l'. split_and!; [|done|done|apply (walk_cost (length levels) _ _ l l'); [cbn; lia|exact Hres]].
    eapply quiet_bind; [apply quiet_mem_read|]. fold (valid (load64 (k_mem s) (slot a (PX lv va)))).
    by rewrite Ev.
  - assert (Hno : child (k_mem s) a (PX lv va) = None) by (unfold child; by rewrite Ev).
    destruct l as [|q l].
    + exists 0, s, []. split_and!; [|by apply grown_refl|done|left; split_and!; [done|done|cbn; lia]].
      eapply quiet_bind; [apply quiet_mem_read|]. fold (valid (load64 (k_mem s) (slot a (PX lv va)))).
      rewrite Ev. cbn [negb].
      eapply quiet_bind; [apply quiet_kalloc_none; apply Hsp|]. apply quiet_ret.
    + destruct (grow_state_grown s pt q l p a (PX lv va)) as [Hg Hn]; try done.
      destruct (IH _ pt l _ q va (gr_space _ _ _ _ _ Hg) Hp' Hn Hlv Hpath')
        as (r & s' & l' & Hq & Hg' & Hv & Hres).
      exists r, s', l'. split_and!; [|by eapply grown_trans| |apply (walk_cost (length levels) _ _ l l'); [cbn; lia|exact Hres]].
      2: { intros va'. rewrite Hv. by apply (gs_view s pt q l p a). }
      eapply quiet_bind; [apply quiet_mem_read|]. fold (valid (load64 (k_mem s) (slot a (PX lv va)))).
      rewrite Ev. cbn [negb].
      eapply quiet_bind; [eapply quiet_kalloc_some; apply Hsp|].
      destruct (gs_q s pt q l Hsp) as ((_ & _ & Hq0) & _). if_lia.
      eapply quiet_bind; [apply quiet_mem_write|]. eapply quiet_bind; [apply quiet_mem_write|].
      exact Hq.
Qed.

Lemma quiet_walk_alloc s pt l va :
  space s pt l -> va < MAXVA ->
  exists r s' l', quiet (walk pt va true) s r s' /\ grown s pt l s' l' /\
  same_view (k_mem s) (k_mem s') pt /\
  ((r = 0 /\ l' = [] /\ (length l < 2)%nat) \/
   exists b, (node (k_mem s') pt (vpath va) = Some b /\ r = slot b (PX 0 va)) /\ (length l <= length l' + 2)%nat).
Proof.
  intros Hsp Hva. unfold walk. if_lia.
  eapply (walk_loop_alloc [2; 1] s pt l []); try done; [apply node_path_nil|repeat constructor; lia].
Qed.

(** ** Writing a leaf entry *)
Lemma grown_leaf s pt l va b v :
  space s pt l -> node (k_mem s) pt (vpath va) = Some b ->
  grown s pt l (set_k_mem (store64 (k_mem s) (slot b (PX 0 va)) v) s) l.
Proof.
  intros [Hf Hr Hwf Hsep] Hb.
  assert (Hpx : idx_ok (PX 0 va)) by (apply idx_PX; lia).
  assert (Hbn : is_node (k_mem s) pt b) by (exists (vpath va); split; [apply vpath_ok|done]).
  assert (Hba : page_aligned b) by (apply (wf_page _ _ Hwf (vpath va)); [apply vpath_ok|done]).
  assert (Hout : forall x, ~ (b <= x < b + PGSIZE) ->
    getb (store64 (k_mem s) (slot b (PX 0 va)) v) x = getb (k_mem s) x).
  { intros x Hx. apply getb_store_out. pose proof (slot_range b _ Hpx).
    change (Z.of_nat 8) with 8. lia. }
  split.
  - apply mem_step_mem.
  - split.
    + apply free_pages_frame; [done|]. intros q x Hq Hx. apply Hout. intros Hx2.
      destruct Hf as [_ Hram _]. pose proof (Forall_in _ _ _ Hram Hq) as [Hqa _].
      apply (page_disjoint b q x x); [done|done| |done|done|done].
      intros ->. by apply (Hsep q).
    + done.
    + by apply wf_store_leaf.
    + intros a (p & Hp & Ha). cbn in Ha. rewrite node_store_leaf in Ha by done.
      apply Hsep. by exists p.
  - by exists [].
  - intros p a Hp Ha. cbn. by rewrite node_store_leaf.
  - intros a (p & Hp & Ha). cbn in Ha. rewrite node_store_leaf in Ha by done. left. by exists p.
  - intros a Ha. by left.
  - intros x [_ Hx]. cbn. apply Hout. intros Hx2. apply Hx. by rewrite (page_of x b).
Qed.

(** ** mappages *)
Definition mkpte (pa perm : Z) : Z := u64 (Z.lor (Z.lor (PA2PTE pa) perm) PTE_V).
(** The view of [va] once [k] pages from [a] are mapped to those from [pa]. *)
Definition mapped_view (a : Z) (k : nat) (pa perm old va : Z) : Z :=
  if (a <=? va) && (va <? a + Z.of_nat k * PGSIZE)
  then mkpte (pa + (PGROUNDDOWN va - a)) perm else old.

Lemma mapped_view_S a k pa perm old va :
  page_aligned a ->
  mapped_view (a + PGSIZE) k (pa + PGSIZE) perm
    (if PGROUNDDOWN va =? a then mkpte pa perm else old) va =
  mapped_view a (S k) pa perm old va.
Proof.
  intros Ha. unfold mapped_view. pose proof (PGROUNDDOWN_range va).
  pose proof (PGROUNDDOWN_aligned va). unfold page_aligned, PGSIZE in *.
  bdestr (PGROUNDDOWN va =? a).
  - rewrite E. do 2 if_lia. f_equal. lia.
  - destruct ((a + 4096 <=? va) && (va <? a + 4096 + Z.of_nat k * 4096)) eqn:E2.
    + if_lia. f_equal. lia.
    + by if_lia.
Qed.

(** One iteration: out of memory, or one more page mapped. *)
Lemma map_one s pt l a pa perm :
  space s pt l -> page_aligned a -> 0 <= a < MAXVA -> valid (view (k_mem s) pt a) = false ->
  exists s' l', grown s pt l s' l' /\
  ((l' = [] /\ (length l < 2)%nat /\ same_view (k_mem s) (k_mem s') pt /\
    forall fuel last, quiet (mappages_loop (S fuel) pt a last pa perm) s (-1) s') \/
   ((length l <= length l' + 2)%nat /\ (forall va, 0 <= va < MAXVA -> view (k_mem s') pt va =
      if PGROUNDDOWN va =? a then mkpte pa perm else view (k_mem s) pt va) /\
    forall fuel last r s2,
      quiet (if a =? last then mret 0
             else mappages_loop fuel pt (u64 (a + PGSIZE)) last (u64 (pa + PGSIZE)) perm) s' r s2 ->
      quiet (mappages_loop (S fuel) pt a last pa perm) s r s2)).
Proof.
  intros Hsp Ha Hr Hun.
  destruct (quiet_walk_alloc s pt l a Hsp) as (r & s1 & l1 & Hq & Hg & Hv & Hres); [lia|].
  destruct Hres as [(-> & -> & Hc)|(b & [Hb ->] & Hc)].
  - exists s1, []. split; [done|]. left. split_and!; [done|done|done|]. intros fuel last.
    eapply quiet_bind; [exact Hq|apply quiet_ret].
  - pose proof (gr_space _ _ _ _ _ Hg) as Hsp1.
    pose proof (grown_leaf s1 pt l1 a b (Z.lor (Z.lor (PA2PTE pa) perm) PTE_V) Hsp1 Hb) as Hg2.
    eexists _, l1. split; [by eapply grown_trans|]. right. split; [done|]. split.
    + intros va Hva. cbn [k_mem set_k_mem].
      rewrite (view_store_leaf _ _ a); [|apply Hsp1|done|done|done].
      rewrite (PGROUNDDOWN_id a) by done. by rewrite Hv.
    + intros fuel last r s2 Hk. cbn [mappages_loop].
      eapply quiet_bind; [exact Hq|].
      assert (Hbp : ram_page b)
        by (apply (wf_page _ _ (sp_wf _ _ _ Hsp1) (vpath a)); [apply vpath_ok|done]).
      pose proof (slot_range b _ (idx_PX 0 a ltac:(lia))). destruct Hbp as (_ & _ & Hb0). if_lia.
      eapply quiet_bind; [apply quiet_mem_read|].
      rewrite <- Hv in Hun. unfold view in Hun. rewrite Hb in Hun. unfold valid in Hun. rewrite Hun.
      eapply quiet_bind; [apply quiet_mem_write|]. exact Hk.
Qed.

(** [n + 1] pages: [k] of them get mapped, all unless memory runs out. *)
Lemma mappages_loop_spec n : forall fuel s pt l a pa perm,
  (n < fuel)%nat -> space s pt l -> page_aligned a -> 0 <= a ->
  a + Z.of_nat (S n) * PGSIZE <= MAXVA -> 0 <= pa -> pa + Z.of_nat (S n) * PGSIZE < 2 ^ 64 ->
  (forall va, a <= va < a + Z.of_nat (S n) * PGSIZE -> valid (view (k_mem s) pt va) = false) ->
  exists r s' l' k,
    quiet (mappages_loop fuel pt a (a + Z.of_nat n * PGSIZE) pa perm) s r s' /\
    grown s pt l s' l' /\
    (forall va, 0 <= va < MAXVA ->
       view (k_mem s') pt va = mapped_view a k pa perm (view (k_mem s) pt va) va) /\
    ((r = 0 /\ k = S n) \/ (r = -1 /\ (k <= n)%nat /\ l' = [])) /\
    (length l + (if (r =? 0)%Z then 0 else 1) <= length l' + 2 * S n)%nat.
Proof.
  assert (HM : MAXVA = 274877906944) by done.
  induction n as [|n IH]; intros [|fuel] s pt l a pa perm Hfu Hsp Ha Ha0 Hmax Hpa0 Hpa Hun; try lia;
    (destruct (map_one s pt l a pa perm) as (s1 & l1 & Hg & [(-> & Hc & Hv & Hk)|(Hc & Hv & Hk)]);
      [done|done|unfold PGSIZE in *; lia|apply Hun; unfold PGSIZE; lia| |]).
  1, 3: exists (-1), s1, [], O; split_and!;
    [apply Hk|done|intros va _; rewrite Hv; unfold mapped_view; by if_lia
    |right; split_and!; [done|lia|done]|cbn [Z.eqb length]; lia].
  - exists 0, s1, l1, 1%nat. split_and!; [|done| |by left|cbn [Z.eqb]; lia].
    + apply Hk. if_lia. apply quiet_ret.
    + intros va Hva. rewrite Hv by done. rewrite <- mapped_view_S by done.
      unfold mapped_view. by if_lia.
  - destruct (IH fuel s1 pt l1 (a + PGSIZE) (pa + PGSIZE) perm) as (r & s' & l' & k & Hq & Hg' & Hv' & Hres & Hc').
    + lia.
    + apply Hg.
    + unfold page_aligned, PGSIZE in *. lia.
    + unfold PGSIZE. lia.
    + unfold PGSIZE in *. lia.
    + unfold PGSIZE. lia.
    + unfold PGSIZE in *. lia.
    + intros va Hva. rewrite Hv by (unfold PGSIZE in *; lia).
      pose proof (PGROUNDDOWN_range va). pose proof (PGROUNDDOWN_aligned va).
      unfold page_aligned, PGSIZE in *. if_lia. apply Hun. lia.
    + exists r, s', l', (S k). split_and!; [|by eapply grown_trans| | |lia].
      * apply Hk. replace (a =? a + Z.of_nat (S n) * PGSIZE) with false by (unfold PGSIZE; lia).
        replace (u64 (a + PGSIZE)) with (a + PGSIZE) by (unfold PGSIZE in *; sz).
        replace (u64 (pa + PGSIZE)) with (pa + PGSIZE) by (unfold PGSIZE in *; sz).
        replace (a + Z.of_nat (S n) * PGSIZE) with (a + PGSIZE + Z.of_nat n * PGSIZE) by lia.
        exact Hq.
      * intros va Hva. rewrite Hv' by done. rewrite Hv by done. by apply mapped_view_S.
      * destruct Hres as [[-> ->]|(-> & Hk' & ->)]; [by left|right; split_and!; [done|lia|done]].
Qed.

(** The pages the range [va, va + size) touches. *)
Definition npages (va size : Z) : nat :=
  Z.to_nat ((PGROUNDDOWN (va + size - 1) - PGROUNDDOWN va) / PGSIZE + 1).

Lemma mappages_spec s pt l va size pa perm :
  space s pt l -> 0 <= va -> 0 < size -> va + size <= MAXVA ->
  0 <= pa -> pa + Z.of_nat (npages va size) * PGSIZE < 2 ^ 64 ->
  (forall x, PGROUNDDOWN va <= x < PGROUNDDOWN va + Z.of_nat (npages va size) * PGSIZE ->
     valid (view (k_mem s) pt x) = false) ->
  exists r s' l' k,
    quiet (mappages pt va size pa perm) s r s' /\ grown s pt l s' l' /\
    (forall x, 0 <= x < MAXVA -> view (k_mem s') pt x =
       mapped_view (PGROUNDDOWN va) k pa perm (view (k_mem s) pt x) x) /\
    ((r = 0 /\ k = npages va size) \/ (r = -1 /\ (k < npages va size)%nat /\ l' = [])) /\
    (length l + (if (r =? 0)%Z then 0 else 1) <= length l' + 2 * npages va size)%nat.
Proof.
  intros Hsp Hva Hsz Hmax Hpa0 Hpa Hun. unfold mappages. cbv zeta.
  assert (HM : MAXVA = 67108864 * PGSIZE) by done.
  replace (u64 (va + size - 1)) with (va + size - 1) by (unfold PGSIZE in HM; sz).
  pose proof (PGROUNDDOWN_range va). pose proof (PGROUNDDOWN_range (va + size - 1)).
  pose proof (PGROUNDDOWN_aligned va). pose proof (PGROUNDDOWN_aligned (va + size - 1)).
  unfold npages, page_aligned in *.
  set (a := PGROUNDDOWN va) in *. set (e := PGROUNDDOWN (va + size - 1)) in *.
  set (n := Z.to_nat ((e - a) / PGSIZE)).
  replace (Z.to_nat ((e - a) / PGSIZE + 1)) with (S n) in * by (unfold n, PGSIZE in *; lia).
  assert (e = a + Z.of_nat n * PGSIZE) as He by (unfold n, PGSIZE in *; lia).
  destruct (mappages_loop_spec n (pages_fuel a e) s pt l a pa perm) as (r & s' & l' & k & H');
    try done.
  - unfold pages_fuel. replace (u64 (e - a)) with (e - a) by (unfold PGSIZE in *; sz).
    unfold n, PGSIZE in *. lia.
  - unfold PGSIZE in *. lia.
  - unfold PGSIZE in *. lia.
  - exists r, s', l', k. destruct H' as (H1' & H2' & H3' & H4' & H5'). split_and!; try done; [by rewrite He at 2|].
    destruct H4' as [?|(? & ? & ?)]; [by left|right; split_and!; [done|lia|done]].
Qed.

(** ** Entries and empty tables *)
Lemma mkpte_eq pa perm :
  0 <= pa < 2 ^ 56 -> 0 <= perm < 1024 ->
  mkpte pa perm = Z.lor (PA2PTE pa) (Z.lor perm PTE_V) /\ 0 <= Z.lor perm PTE_V < 1024.
Proof.
  intros Hpa Hp.
  assert (0 <= Z.lor perm PTE_V < 1024) as Hb.
  { split; [apply Z.lor_nonneg; split; [lia|done]|].
    change 1024 with (2 ^ 10). destruct (decide (Z.lor perm PTE_V = 0)) as [->|]; [lia|].
    assert (0 <= Z.lor perm PTE_V) by (apply Z.lor_nonneg; split; [lia|done]).
    apply Z.log2_lt_pow2; [lia|]. rewrite Z.log2_lor by (done || lia).
    destruct (decide (perm = 0)) as [->|]; [done|].
    assert (Z.log2 perm < 10) by (apply Z.log2_lt_pow2; lia). change (Z.log2 PTE_V) with 0. lia. }
  split; [|done]. unfold mkpte. rewrite <- Z.lor_assoc.
  pose proof (PTE_mk_range pa _ Hpa Hb). unfold u64. rewrite Z.mod_small; [done|lia].
Qed.
Lemma land_flags v f : Z.land 0x3FF f = f -> Z.land v f = Z.land (PTE_FLAGS v) f.
Proof. intros H. unfold PTE_FLAGS. rewrite <- Z.land_assoc. by rewrite H. Qed.

(** An entry made by mappages is valid and gives back the page and the
    permissions. *)
Lemma mkpte_facts pa perm :
  page_aligned pa -> 0 <= pa < 2 ^ 56 -> 0 <= perm < 1024 ->
  valid (mkpte pa perm) = true /\ PTE2PA (mkpte pa perm) = pa /\
  PTE_FLAGS (mkpte pa perm) = Z.lor perm PTE_V /\
  Z.land (mkpte pa perm) PTE_U = Z.land perm PTE_U.
Proof.
  intros Ha Hpa Hp. destruct (mkpte_eq pa perm Hpa Hp) as [-> Hb].
  assert (HF : PTE_FLAGS (Z.lor (PA2PTE pa) (Z.lor perm PTE_V)) = Z.lor perm PTE_V)
    by by apply PTE_FLAGS_mk.
  split_and!.
  - unfold valid. rewrite land_flags, HF by done.
    rewrite Z.land_lor_distr_l, Z.land_diag. unfold ctrue.
    destruct (Z.lor _ _ =? 0) eqn:E; [|done]. apply Z.eqb_eq, Z.lor_eq_0_iff in E. by destruct E.
  - by apply PTE2PA_mk.
  - done.
  - rewrite land_flags, HF by done. rewrite Z.land_lor_distr_l.
    change (Z.land PTE_V PTE_U) with 0. apply Z.lor_0_r.
Qed.

(** A zeroed page is a page table that maps nothing. *)
Lemma empty_node m pt p :
  zero_page m pt -> node_path p -> node m pt p = if decide (p = []) then Some pt else None.
Proof.
  intros Hz [_ Hp]. destruct p as [|i p]; [done|]. apply list.Forall_cons in Hp as [Hi _].
  cbn. unfold child. by rewrite load_slot_zero.
Qed.
Lemma empty_wf m pt : zero_page m pt -> ram_page pt -> pt_wf m pt.
Proof.
  intros Hz Hr. split.
  - intros p a Hp. rewrite empty_node by done. case_decide; [by intros [= <-]|done].
  - intros p q a Hp Hq. rewrite !empty_node by done. by do 2 case_decide; subst.
Qed.
Lemma empty_view m pt va : zero_page m pt -> view m pt va = 0.
Proof. intros Hz. unfold view. rewrite empty_node; [done|done|apply vpath_ok]. Qed.
Lemma empty_is_node m pt a : zero_page m pt -> is_node m pt a -> a = pt.
Proof. intros Hz (p & Hp & Ha). rewrite empty_node in Ha by done. case_decide; by simplify_eq. Qed.

(** ** Properties *)
(** C7. mappages: for a page-aligned or unaligned range below MAXVA with no
    page of it mapped, mappages returns 0 with exactly the pages of the range
    mapped to consecutive physical pages with the given permissions, or -1,
    only when memory is exhausted, with a prefix of them mapped.  In both
    cases every other address keeps its mapping, the page table stays a tree
    of distinct pages disjoint from the free list, and no byte outside the
    tree and the pages taken from the allocator changes. *)
Theorem mappages_maps_exactly s pt l va size pa perm :
  space s pt l -> 0 <= va -> 0 < size -> va + size <= MAXVA ->
  0 <= pa -> pa + Z.of_nat (npages va size) * PGSIZE < 2 ^ 64 ->
  (forall x, PGROUNDDOWN va <= x < PGROUNDDOWN va + Z.of_nat (npages va size) * PGSIZE ->
     valid (view (k_mem s) pt x) = false) ->
  exists r s' l' k,
    quiet (mappages pt va size pa perm) s r s' /\ space s' pt l' /\
    (forall x, 0 <= x < MAXVA -> view (k_mem s') pt x =
       if (PGROUNDDOWN va <=? x) && (x <? PGROUNDDOWN va + Z.of_nat k * PGSIZE)
       then mkpte (pa + (PGROUNDDOWN x - PGROUNDDOWN va)) perm else view (k_mem s) pt x) /\
    (forall x, outside (k_mem s) pt l x -> getb (k_mem s') x = getb (k_mem s) x) /\
    ((r = 0 /\ k = npages va size) \/ (r = -1 /\ (k < npages va size)%nat /\ l' = [])).
Proof.
  intros. destruct (mappages_spec s pt l va size pa perm) as (r & s' & l' & k & Hq & Hg & Hv & Hr & _);
    try done.
  exists r, s', l', k. split_and!; [done|apply Hg|done|apply Hg|done].
Qed.
End VmProofs.

(** ** Witnesses: an empty page table and three free pages *)
#[local] Existing Instance linker0.
Definition wroot : Z := 0x80030000.
Definition wfree : list Z := [0x80025000; 0x80026000; 0x80027000].
Definition kstate3 : kstate :=
  set_k_freelist 0x80025000
    (set_k_mem (store64 (store64 ∅ 0x80025000 0x80026000) 0x80026000 0x80027000) kstate0).
Lemma kstate3_free : free_pages kstate3 wfree.
Proof.
  split.
  - vm_compute. repeat split.
  - repeat constructor; vm_compute; congruence.
  - repeat constructor; set_solver.
Qed.
Lemma kstate3_zero : zero_page (k_mem kstate3) wroot.
Proof.
  intros a Ha. cbn [k_mem kstate3 set_k_mem set_k_freelist]. unfold wroot, PGSIZE in Ha.
  rewrite !getb_store_out by lia. by vm_compute.
Qed.
Lemma wroot_ram : ram_page wroot.
Proof. repeat split; vm_compute; congruence. Qed.
Lemma kstate3_space : space kstate3 wroot wfree.
Proof.
  split.
  - apply kstate3_free.
  - exact (ready_boot Lkmem).
  - apply empty_wf; [apply kstate3_zero|apply wroot_ram].
  - intros a Ha. apply (empty_is_node _ _ _ kstate3_zero) in Ha. subst. unfold wfree, wroot. set_solver.
Qed.

Lemma mappages_maps_exactly_witness :
  exists r s' l' k, quiet (mappages wroot 0x1000 4096 0x80040000 PTE_WRXU) kstate3 r s' /\
    space s' wroot l' /\ ((r = 0 /\ k = 1%nat) \/ (r = -1 /\ (k < 1)%nat /\ l' = [])).
Proof.
  destruct (mappages_maps_exactly kstate3 wroot wfree 0x1000 4096 0x80040000 PTE_WRXU)
    as (r & s' & l' & k & H1 & H2 & _ & _ & H3).
  - apply kstate3_space.
  - lia.
  - lia.
  - vm_compute. discriminate.
  - lia.
  - vm_compute. reflexivity.
  - intros x _. rewrite empty_view; [reflexivity|]. apply kstate3_zero.
  - exists r, s', l', k. split; [exact H1|]. split; [exact H2|exact H3].
Defined.
