(* ===== verification/UserCopy.v ===== *)
(** * Copying between kernel and user memory: copyin, copyout, copyinstr

    [upage m pt va] is the physical page the user can reach at [va] (0 if none),
    [uaddr m pt va] the physical address of the byte at [va].  The copy loops go
    page by page; the theorems describe them byte by byte. *)
From S2P Require Import Prelude Mem Riscv State Spinlock Kalloc Vm PageTable VmProofs.

Section UserCopy.
Context `{LD : Linker}.

Definition upage (m : mem) (pt va : Z) : Z :=
  let v := view m pt va in
  if (0 <=? va) && (va <? MAXVA) && valid v && ctrue (Z.land v PTE_U) then PTE2PA v else 0.
Definition umapped (m : mem) (pt va : Z) : Prop := upage m pt (PGROUNDDOWN va) <> 0.
Definition uaddr (m : mem) (pt va : Z) : Z :=
  upage m pt (PGROUNDDOWN va) + (va - PGROUNDDOWN va).

(** User pages are no page-table pages, and each is mapped once. *)
Record user_wf (m : mem) (pt : Z) : Prop := {
  uw_pt : pt_wf m pt;
  uw_sep : forall va, umapped m pt va -> ~ is_node m pt (upage m pt (PGROUNDDOWN va));
  uw_inj : forall va va', umapped m pt va -> umapped m pt va' ->
           upage m pt (PGROUNDDOWN va) = upage m pt (PGROUNDDOWN va') ->
           PGROUNDDOWN va = PGROUNDDOWN va';
}.

Lemma quiet_walkaddr s pt va :
  pt_wf (k_mem s) pt -> 0 <= va -> quiet (walkaddr pt va) s (upage (k_mem s) pt va) s.
Proof.
  intros Hwf H0. unfold walkaddr, upage. replace (0 <=? va) with true by lia. bdestr (MAXVA <=? va).
  { replace (va <? MAXVA) with false by lia. cbn. apply quiet_ret. }
  replace (va <? MAXVA) with true by lia. cbn [andb].
  eapply quiet_bind; [by apply quiet_walk_ro|].
  unfold leaf_slot, view. destruct (node _ pt (vpath va)) as [b|] eqn:Eb.
  - assert (Hb : ram_page b) by (apply (wf_page _ _ Hwf (vpath va)); [apply vpath_ok|done]).
    pose proof (slot_range b _ (idx_PX 0 va ltac:(lia))). destruct Hb as (_ & _ & Hb). if_lia.
    eapply quiet_bind; [apply quiet_mem_read|].
    set (v := load64 _ _). unfold valid, ctrue.
    destruct (Z.land v PTE_V =? 0); cbn [negb andb]; [apply quiet_ret|].
    destruct (Z.land v PTE_U =? 0); apply quiet_ret.
  - apply quiet_ret.
Qed.

Lemma down_nonneg va : 0 <= va -> 0 <= PGROUNDDOWN va.
Proof. intros. rewrite PGROUNDDOWN_eq. unfold PGSIZE. lia. Qed.
Lemma upage_aligned m pt va : page_aligned (upage m pt va).
Proof. unfold upage. destruct (_ && _); [apply PTE2PA_aligned|done]. Qed.
Lemma umapped_max m pt va : umapped m pt va -> PGROUNDDOWN va < MAXVA.
Proof.
  unfold umapped, upage. intros H. destruct (PGROUNDDOWN va <? MAXVA) eqn:E; [lia|]. by rewrite andb_false_r in H.
Qed.
Lemma uaddr_page m pt va :
  upage m pt (PGROUNDDOWN va) <= uaddr m pt va < upage m pt (PGROUNDDOWN va) + PGSIZE.
Proof. unfold uaddr. pose proof (PGROUNDDOWN_range va). lia. Qed.
Lemma uaddr_inj m pt va va' :
  user_wf m pt -> umapped m pt va -> umapped m pt va' -> uaddr m pt va = uaddr m pt va' -> va = va'.
Proof.
  intros Hw H H' E. pose proof (uaddr_page m pt va). pose proof (uaddr_page m pt va').
  pose proof (upage_aligned m pt (PGROUNDDOWN va)). pose proof (upage_aligned m pt (PGROUNDDOWN va')).
  assert (upage m pt (PGROUNDDOWN va) = upage m pt (PGROUNDDOWN va')) as Ep
    by (unfold page_aligned, PGSIZE in *; lia).
  pose proof (uw_inj _ _ Hw va va' H H' Ep) as Ev. unfold uaddr in E. lia.
Qed.

(** Addresses in the same page. *)
Lemma same_page_down va x : PGROUNDDOWN va <= x < PGROUNDDOWN va + PGSIZE -> PGROUNDDOWN x = PGROUNDDOWN va.
Proof. intros. apply page_of; [apply PGROUNDDOWN_aligned|done]. Qed.

(** ** Iterations *)
Definition enough (fuel : nat) (va len : Z) : Prop :=
  (1 <= fuel)%nat /\
  ((va - PGROUNDDOWN va) + len <= Z.of_nat (fuel - 1) * PGSIZE \/
   MAXVA - PGROUNDDOWN va <= Z.of_nat (fuel - 1) * PGSIZE).

Lemma enough_start va len : 0 <= va -> 0 <= len -> enough (copy_fuel len) va len.
Proof.
  intros. split; [unfold copy_fuel; lia|]. assert (HM : MAXVA = 67108864 * PGSIZE) by done.
  unfold copy_fuel. rewrite HM. pose proof (PGROUNDDOWN_range va).
  pose proof (PGROUNDDOWN_aligned va). unfold page_aligned, PGSIZE in *. lia.
Qed.
Lemma enough_next fuel va len :
  0 < len -> PGROUNDDOWN va < MAXVA -> 0 <= va -> enough (S fuel) va len ->
  let n := Z.min (PGSIZE - (va - PGROUNDDOWN va)) len in
  let va' := PGROUNDDOWN va + PGSIZE in
  u64 va' = va' /\ 0 < n /\ 0 <= len - n /\ (len - n = 0 \/ va + n = va') /\
  (n = PGSIZE - (va - PGROUNDDOWN va) \/ n = len) /\ (len - n = 0 -> (1 <= fuel)%nat) /\
  enough fuel va' (len - n).
Proof.
  intros Hl Hm H0 [Hf He]. assert (HM : MAXVA = 67108864 * PGSIZE) by done.
  pose proof (PGROUNDDOWN_range va). pose proof (PGROUNDDOWN_aligned va).
  assert (Hal : PGROUNDDOWN (PGROUNDDOWN va + PGSIZE) = PGROUNDDOWN va + PGSIZE).
  { apply PGROUNDDOWN_id. unfold page_aligned, PGSIZE in *. lia. }
  cbv zeta. unfold enough. rewrite Hal. replace (S fuel - 1)%nat with fuel in He by lia.
  unfold page_aligned, PGSIZE in *.
  split_and!; try lia; sz.
Qed.

(** ** copyin *)
(** The [n] bytes the user sees from [va]. *)
Definition ubytes (m : mem) (pt va : Z) (n : nat) : list Z :=
  (fun i => getb m (uaddr m pt (va + Z.of_nat i))) <$> seq 0 n.

Lemma lookup_ubytes m pt va n i :
  (i < n)%nat -> ubytes m pt va n !! i = Some (getb m (uaddr m pt (va + Z.of_nat i))).
Proof. intros H. unfold ubytes. by rewrite list_lookup_fmap, lookup_seq_lt by done. Qed.
Lemma length_ubytes m pt va n : length (ubytes m pt va n) = n.
Proof. unfold ubytes. by rewrite length_fmap, length_seq. Qed.

Lemma ubytes_app m pt va n k :
  ubytes m pt va (n + k) = ubytes m pt va n ++ ubytes m pt (va + Z.of_nat n) k.
Proof.
  unfold ubytes. rewrite seq_app, fmap_app. apply (f_equal (app _)).
  rewrite (Nat.add_comm 0 n), <- fmap_add_seq, <- list_fmap_compose.
  apply list_fmap_ext. intros i x _. unfold compose. do 2 f_equal. lia.
Qed.

Lemma uaddr_chunk m pt va i :
  0 <= i -> i < PGSIZE - (va - PGROUNDDOWN va) ->
  uaddr m pt (va + i) = upage m pt (PGROUNDDOWN va) + (va - PGROUNDDOWN va) + i /\
  PGROUNDDOWN (va + i) = PGROUNDDOWN va.
Proof.
  intros. pose proof (PGROUNDDOWN_range va). unfold uaddr.
  rewrite (same_page_down va (va + i)) by lia. lia.
Qed.

Lemma load_chunk m pt va n :
  Z.of_nat n <= PGSIZE - (va - PGROUNDDOWN va) ->
  load_bytes m (upage m pt (PGROUNDDOWN va) + (va - PGROUNDDOWN va)) n = ubytes m pt va n.
Proof.
  intros Hn. apply list_eq. intros i. destruct (decide (i < n)%nat).
  - rewrite lookup_load_bytes, lookup_ubytes by done.
    destruct (uaddr_chunk m pt va (Z.of_nat i)) as [-> _]; [lia|lia|done].
  - by rewrite !lookup_ge_None_2 by (rewrite ?length_load_bytes, ?length_ubytes; lia).
Qed.

Lemma copyin_loop_spec fuel : forall s pt va len acc,
  pt_wf (k_mem s) pt -> 0 <= va -> 0 <= len -> enough fuel va len ->
  exists r bs, quiet (copyin_loop fuel pt va len acc) s (r, acc ++ bs) s /\
  ((r = 0 /\ (forall i, 0 <= i < len -> umapped (k_mem s) pt (va + i)) /\
    bs = ubytes (k_mem s) pt va (Z.to_nat len)) \/
   (r = -1 /\ exists i, 0 <= i < len /\ ~ umapped (k_mem s) pt (va + i) /\
    (forall j, 0 <= j < i -> umapped (k_mem s) pt (va + j)) /\ bs = ubytes (k_mem s) pt va (Z.to_nat i))).
Proof.
  induction fuel as [|fuel IH]; intros s pt va len acc Hwf Hva Hlen He; [destruct He; lia|].
  cbn [copyin_loop]. bdestr (0 <? len); cbn [negb].
  2: { exists 0, []. rewrite app_nil_r. split; [apply quiet_ret|]. left.
       assert (len = 0) as -> by lia. split_and!; [done|lia|done]. }
  pose proof (quiet_walkaddr s pt (PGROUNDDOWN va) Hwf (down_nonneg _ Hva)) as Hw.
  bdestr (upage (k_mem s) pt (PGROUNDDOWN va) =? 0).
  { exists (-1), []. rewrite app_nil_r. split.
    - eapply quiet_bind; [exact Hw|]. rewrite E0. apply quiet_ret.
    - right. split; [done|]. exists 0. split; [lia|]. unfold umapped. rewrite Z.add_0_r, E0. split_and!; [lia|lia|done]. }
  pose proof (umapped_max (k_mem s) pt va E0) as Hmax.
  destruct (enough_next fuel va len) as (Hu & Hn & Hn' & Hnx & Hnc & _ & He'); [done..|].
  set (n := Z.min (PGSIZE - (va - PGROUNDDOWN va)) len) in *.
  destruct (IH s pt (PGROUNDDOWN va + PGSIZE) (len - n) (acc ++ ubytes (k_mem s) pt va (Z.to_nat n)))
    as (r & bs & Hq & Hres); [done|pose proof (PGROUNDDOWN_range va); lia|lia|done|].
  exists r, (ubytes (k_mem s) pt va (Z.to_nat n) ++ bs). split.
  { eapply quiet_bind; [exact Hw|]. if_lia. eapply quiet_bind; [apply quiet_reads, _|].
    cbv beta. rewrite load_chunk by lia. rewrite Hu. rewrite app_assoc. exact Hq. }
  assert (Hin : forall i, 0 <= i < n -> umapped (k_mem s) pt (va + i)).
  { intros i Hi. unfold umapped. destruct (uaddr_chunk (k_mem s) pt va i) as [_ ->]; lia. }
  destruct Hres as [(-> & Hall & ->)|(-> & i & Hi & Hno & Hyes & ->)].
  - left. split_and!; [done| |].
    + intros i Hi. destruct (decide (i < n)); [apply Hin; lia|].
      replace (va + i) with (PGROUNDDOWN va + PGSIZE + (i - n)) by lia. apply Hall. lia.
    + replace (Z.to_nat len) with (Z.to_nat n + Z.to_nat (len - n))%nat by lia.
      rewrite ubytes_app. f_equal. destruct Hnx as [->|Hnx]; [done|].
      f_equal. lia.
  - right. split; [done|]. exists (i + n). split; [lia|].
    destruct Hnx as [|Hnx]; [lia|]. split_and!.
    + by replace (va + (i + n)) with (PGROUNDDOWN va + PGSIZE + i) by lia.
    + intros j Hj. destruct (decide (j < n)); [apply Hin; lia|].
      replace (va + j) with (PGROUNDDOWN va + PGSIZE + (j - n)) by lia. apply Hyes. lia.
    + replace (Z.to_nat (i + n)) with (Z.to_nat n + Z.to_nat i)%nat by lia. rewrite ubytes_app. do 2 f_equal. lia.
Qed.

(** ** copyout *)
Definition copied (m m' : mem) (pt va : Z) (src : list Z) : Prop :=
  (forall i b, src !! i = Some b -> getb m' (uaddr m pt (va + Z.of_nat i)) = u8 b) /\
  (forall x, (forall i, (i < length src)%nat -> x <> uaddr m pt (va + Z.of_nat i)) ->
     getb m' x = getb m x).

(** Stores to user pages leave the page table alone. *)
Lemma user_store_nodes m pt va l m' :
  user_wf m pt -> umapped m pt va ->
  Z.of_nat (length l) <= PGSIZE - (va - PGROUNDDOWN va) ->
  m' = store_bytes m (upage m pt (PGROUNDDOWN va) + (va - PGROUNDDOWN va)) l ->
  (forall a, is_node m pt a -> same_page m m' a) /\ copied m m' pt va l.
Proof.
  intros Hw Hm Hl ->. pose proof (PGROUNDDOWN_range va) as Hr. split.
  - intros a Ha x Hx. rewrite getb_store_bytes.
    destruct ((_ <=? x) && _) eqn:E; [|done]. exfalso.
    eapply (page_disjoint a (upage m pt (PGROUNDDOWN va)) x x); [| | |done| |done].
    + destruct Ha as (p & Hp & Ha). by apply (wf_page _ _ (uw_pt _ _ Hw) p).
    + apply upage_aligned.
    + intros ->. by apply (uw_sep _ _ Hw va).
    + lia.
  - split.
    + intros i b Hi. assert (i < length l)%nat by by eapply lookup_lt_Some.
      destruct (uaddr_chunk m pt va (Z.of_nat i)) as [-> _]; [lia|lia|].
      rewrite getb_store_bytes. if_lia. f_equal. rewrite <- (nthZ_lookup _ _ _ Hi). f_equal. lia.
    + intros x Hx. rewrite getb_store_bytes.
      destruct ((_ <=? x) && _) eqn:E; [|done]. exfalso.
      apply (Hx (Z.to_nat (x - (upage m pt (PGROUNDDOWN va) + (va - PGROUNDDOWN va))))); [lia|].
      destruct (uaddr_chunk m pt va
        (Z.of_nat (Z.to_nat (x - (upage m pt (PGROUNDDOWN va) + (va - PGROUNDDOWN va))))))
        as [-> _]; lia.
Qed.

Lemma upage_frame m m' pt :
  (forall a, is_node m pt a -> same_page m m' a) -> forall va, upage m' pt va = upage m pt va.
Proof. intros H va. unfold upage. by rewrite (view_frame m m'). Qed.
Lemma user_wf_frame m m' pt :
  (forall a, is_node m pt a -> same_page m m' a) -> user_wf m pt -> user_wf m' pt.
Proof.
  intros H [H1 H2 H3]. pose proof (upage_frame m m' pt H) as Hu.
  split.
  - by eapply wf_frame.
  - intros va. unfold umapped. rewrite Hu. intros Hm (p & Hp & Hn).
    apply (H2 va Hm). exists p. rewrite (node_frame m m' pt H) in Hn by done. done.
  - intros va va'. unfold umapped. rewrite !Hu. apply H3.
Qed.

(** Copying a chunk and then the rest is copying the whole. *)
Lemma copied_trans m m1 m' pt va l1 l2 :
  user_wf m pt -> (forall a, is_node m pt a -> same_page m m1 a) ->
  (forall i, 0 <= i < Z.of_nat (length l1 + length l2) -> umapped m pt (va + i)) ->
  copied m m1 pt va l1 -> copied m1 m' pt (va + Z.of_nat (length l1)) l2 ->
  copied m m' pt va (l1 ++ l2).
Proof.
  intros Hw Hsame Hmap [A1 A2] [B1 B2].
  assert (Hu : forall va, uaddr m1 pt va = uaddr m pt va).
  { intros x. unfold uaddr. by rewrite (upage_frame m m1). }
  split.
  - intros i b Hi. apply lookup_app_Some in Hi as [Hi|[Hge Hi]].
    + rewrite B2; [by apply A1|]. intros j Hj. rewrite Hu. intros E.
      apply lookup_lt_Some in Hi.
      replace (va + Z.of_nat (length l1) + Z.of_nat j) with (va + Z.of_nat (length l1 + j)) in E by lia.
      apply (uaddr_inj m pt) in E; [lia|done|apply Hmap; lia|apply Hmap; lia].
    + specialize (B1 _ _ Hi). rewrite Hu in B1. rewrite <- B1. do 2 f_equal. lia.
  - intros x Hx. rewrite length_app in Hx. rewrite B2.
    + apply A2. intros i Hi. apply Hx. lia.
    + intros i Hi. rewrite Hu.
      replace (va + Z.of_nat (length l1) + Z.of_nat i) with (va + Z.of_nat (length l1 + i)) by lia.
      apply Hx. lia.
Qed.
Lemma copied_nil m pt va : copied m m pt va [].
Proof. split; [done|done]. Qed.

Lemma copyout_loop_spec fuel : forall s pt va src len,
  user_wf (k_mem s) pt -> 0 <= va -> len = Z.of_nat (length src) -> enough fuel va len ->
  exists r m', quiet (copyout_loop fuel pt va src len) s r (set_k_mem m' s) /\
  (forall a, is_node (k_mem s) pt a -> same_page (k_mem s) m' a) /\
  ((r = 0 /\ (forall i, 0 <= i < len -> umapped (k_mem s) pt (va + i)) /\
    copied (k_mem s) m' pt va src) \/
   (r = -1 /\ exists i, 0 <= i < len /\ ~ umapped (k_mem s) pt (va + i) /\
    (forall j, 0 <= j < i -> umapped (k_mem s) pt (va + j)) /\ copied (k_mem s) m' pt va (take (Z.to_nat i) src))).
Proof.
  induction fuel as [|fuel IH]; intros s pt va src len Hwf Hva Hlen He; [destruct He; lia|].
  cbn [copyout_loop]. bdestr (0 <? len); cbn [negb].
  2: { exists 0, (k_mem s). assert (src = []) as -> by (destruct src; [done|cbn in Hlen; lia]).
       split_and!; [|done|].
       - replace (set_k_mem (k_mem s) s) with s by by destruct s. apply quiet_ret.
       - left. split_and!; [done|cbn in *; lia|apply copied_nil]. }
  pose proof (quiet_walkaddr s pt (PGROUNDDOWN va) (uw_pt _ _ Hwf) (down_nonneg _ Hva)) as Hw.
  bdestr (upage (k_mem s) pt (PGROUNDDOWN va) =? 0).
  { exists (-1), (k_mem s). split_and!; [|done|].
    - replace (set_k_mem (k_mem s) s) with s by by destruct s.
      eapply quiet_bind; [exact Hw|]. rewrite E0. apply quiet_ret.
    - right. split; [done|]. exists 0. split; [lia|]. unfold umapped. rewrite Z.add_0_r, E0. split_and!; [lia|lia|apply copied_nil]. }
  pose proof (umapped_max (k_mem s) pt va E0) as Hmax.
  destruct (enough_next fuel va len) as (Hu & Hn & Hn' & Hnx & Hnc & _ & He'); [done..|].
  set (n := Z.min (PGSIZE - (va - PGROUNDDOWN va)) len) in *.
  set (l1 := take (Z.to_nat n) src). set (l2 := drop (Z.to_nat n) src).
  assert (Hl1 : Z.of_nat (length l1) = n) by (unfold l1; rewrite length_take; lia).
  assert (Hl2 : len - n = Z.of_nat (length l2)) by (unfold l2; rewrite length_drop; lia).
  set (m1 := store_bytes (k_mem s) (upage (k_mem s) pt (PGROUNDDOWN va) + (va - PGROUNDDOWN va)) l1).
  destruct (user_store_nodes (k_mem s) pt va l1 m1 Hwf E0) as [Hsame Hcop]; [lia|done|].
  assert (Hum : forall x, umapped m1 pt x <-> umapped (k_mem s) pt x).
  { intros x. unfold umapped. by rewrite (upage_frame (k_mem s) m1). }
  destruct (IH (set_k_mem m1 s) pt (PGROUNDDOWN va + PGSIZE) l2 (len - n))
    as (r & m' & Hq & Hsame' & Hres);
    [by apply (user_wf_frame (k_mem s))|pose proof (PGROUNDDOWN_range va); lia|done|done|].
  cbn in Hq, Hsame', Hres.
  exists r, m'. split_and!.
  - eapply quiet_bind; [exact Hw|]. if_lia. eapply quiet_bind; [apply quiet_mem_write|].
    rewrite Hu. exact Hq.
  - intros a Ha x Hx. rewrite (Hsame' a); [by apply (Hsame a)| |done].
    destruct Ha as (p & Hp & Ha). exists p. split; [done|]. by rewrite (node_frame (k_mem s) m1).
  - assert (Hin : forall i, 0 <= i < n -> umapped (k_mem s) pt (va + i)).
    { intros i Hi. unfold umapped. destruct (uaddr_chunk (k_mem s) pt va i) as [_ ->]; lia. }
    destruct Hres as [(-> & Hall & Hc)|(-> & i & Hi & Hno & Hyes & Hc)].
    + left.
      assert (Hall' : forall i, 0 <= i < len -> umapped (k_mem s) pt (va + i)).
      { intros i Hi. destruct (decide (i < n)); [apply Hin; lia|].
        replace (va + i) with (PGROUNDDOWN va + PGSIZE + (i - n)) by lia. apply Hum, Hall. lia. }
      split_and!; [done|done|].
      rewrite <- (take_drop (Z.to_nat n) src). fold l1 l2.
      apply (copied_trans _ m1); [done|done|intros i Hi; apply Hall'; lia|done|].
      rewrite Hl1. destruct Hnx as [Hnx|Hnx]; [|by rewrite Hnx].
      assert (l2 = []) as -> by (destruct l2; [done|cbn in Hl2; lia]).
      split; [done|]. intros x _. apply Hc. cbn. lia.
    + right. split; [done|]. exists (i + n). split; [lia|]. destruct Hnx as [|Hnx]; [lia|].
      assert (Hyes' : forall j, 0 <= j < i + n -> umapped (k_mem s) pt (va + j)).
      { intros j Hj. destruct (decide (j < n)); [apply Hin; lia|].
        replace (va + j) with (PGROUNDDOWN va + PGSIZE + (j - n)) by lia. apply Hum, Hyes. lia. }
      split_and!; [|done|].
      * rewrite <- Hum. by replace (va + (i + n)) with (PGROUNDDOWN va + PGSIZE + i) by lia.
      * assert (take (Z.to_nat (i + n)) src = l1 ++ take (Z.to_nat i) l2) as ->.
        { unfold l1, l2. rewrite <- (take_drop (Z.to_nat n) src) at 1. rewrite take_app, take_take, length_take. f_equal; f_equal; lia. }
        apply (copied_trans _ m1); [done|done|rewrite length_take; intros j Hj; apply Hyes'; lia|done|]. by rewrite Hl1, Hnx.
Qed.

(** ** copyinstr *)
Lemma copyinstr_page_spec bs : forall acc,
  (exists k, bs !! k = Some 0 /\ (forall i b, (i < k)%nat -> bs !! i = Some b -> b <> 0) /\
     copyinstr_page bs acc = (true, acc ++ take (S k) bs)) \/
  ((forall i b, bs !! i = Some b -> b <> 0) /\ copyinstr_page bs acc = (false, acc ++ bs)).
Proof.
  induction bs as [|b bs IH]; intros acc; cbn [copyinstr_page].
  - right. split; [done|]. by rewrite app_nil_r.
  - bdestr (b =? 0).
    + subst. left. exists O. split_and!; [done|lia|done].
    + destruct (IH (acc ++ [b])) as [(k & H1 & H2 & H3)|[H1 H2]].
      * left. exists (S k). split_and!; [done| |].
        -- intros [|i] x Hi Hx; cbn in Hx; [by simplify_eq|]. apply (H2 i); [lia|done].
        -- rewrite H3, <- app_assoc. done.
      * right. split; [|by rewrite H2, <- app_assoc].
        intros [|i] x Hx; cbn in Hx; [by simplify_eq|by apply (H1 i)].
Qed.

(** The byte the user sees at [va]. *)
Definition ubyte (m : mem) (pt va : Z) : Z := getb m (uaddr m pt va).
(** Below [k], every byte is mapped and none is NUL. *)
Definition text (m : mem) (pt va k : Z) : Prop :=
  forall i, 0 <= i < k -> umapped m pt (va + i) /\ ubyte m pt (va + i) <> 0.

Lemma text_app m pt va n k :
  0 <= n -> text m pt va n -> text m pt (va + n) k -> text m pt va (n + k).
Proof.
  intros Hn H1 H2 i Hi. destruct (decide (i < n)); [apply H1; lia|].
  replace (va + i) with (va + n + (i - n)) by lia. apply H2. lia.
Qed.

(** What copyinstr finds in the [max] bytes from [va]. *)
Inductive str_result (m : mem) (pt va max : Z) : Z -> list Z -> Prop :=
  | str_found k : 0 <= k < max -> text m pt va k -> umapped m pt (va + k) ->
      ubyte m pt (va + k) = 0 ->
      str_result m pt va max 0 (ubytes m pt va (S (Z.to_nat k)))
  | str_too_long bs : text m pt va max -> str_result m pt va max (-1) bs
  | str_unmapped k bs : 0 <= k < max -> text m pt va k -> ~ umapped m pt (va + k) ->
      str_result m pt va max (-1) bs.

Lemma str_result_app m pt va n max r bs :
  0 <= n <= max -> text m pt va n -> str_result m pt (va + n) (max - n) r bs ->
  str_result m pt va max r (ubytes m pt va (Z.to_nat n) ++ bs).
Proof.
  intros Hn Ht H. destruct H as [k Hk Hk1 Hk2 Hk3|bs Hk1|k bs Hk Hk1 Hk2].
  - replace (va + n) with (va + Z.of_nat (Z.to_nat n)) at 1 by lia. rewrite <- ubytes_app.
    replace (Z.to_nat n + S (Z.to_nat k))%nat with (S (Z.to_nat (n + k))) by lia.
    rewrite <- Z.add_assoc in Hk2, Hk3.
    apply str_found; [lia|by apply text_app; [lia|..]|done|done].
  - apply str_too_long. replace max with (n + (max - n)) by lia. by apply text_app; [lia|..].
  - rewrite <- Z.add_assoc in Hk2. apply (str_unmapped _ _ _ _ (n + k)); [lia| |done].
    by apply text_app; [lia|..].
Qed.

Lemma copyinstr_loop_spec fuel : forall s pt va max acc,
  pt_wf (k_mem s) pt -> 0 <= va -> 0 <= max -> enough fuel va max ->
  exists r bs, quiet (copyinstr_loop fuel pt va max acc) s (r, acc ++ bs) s /\
  str_result (k_mem s) pt va max r bs.
Proof.
  induction fuel as [|fuel IH]; intros s pt va max acc Hwf Hva Hmax He; [destruct He; lia|].
  cbn [copyinstr_loop]. bdestr (0 <? max); cbn [negb].
  2: { exists (-1), []. rewrite app_nil_r. split; [apply quiet_ret|].
       apply str_too_long. intros i Hi. lia. }
  pose proof (quiet_walkaddr s pt (PGROUNDDOWN va) Hwf (down_nonneg _ Hva)) as Hw.
  bdestr (upage (k_mem s) pt (PGROUNDDOWN va) =? 0).
  { exists (-1), []. rewrite app_nil_r. split.
    - eapply quiet_bind; [exact Hw|]. rewrite E0. apply quiet_ret.
    - apply (str_unmapped _ _ _ _ 0); [lia|intros i Hi; lia|].
      unfold umapped. rewrite Z.add_0_r, E0. lia. }
  pose proof (umapped_max (k_mem s) pt va E0) as Hm.
  destruct (enough_next fuel va max) as (Hu & Hn & Hn' & Hnx & Hnc & _ & He'); [done..|].
  set (n := Z.min (PGSIZE - (va - PGROUNDDOWN va)) max) in *.
  set (bs1 := ubytes (k_mem s) pt va (Z.to_nat n)).
  assert (Hin : forall i, 0 <= i < n -> umapped (k_mem s) pt (va + i) /\
    bs1 !! Z.to_nat i = Some (ubyte (k_mem s) pt (va + i))).
  { intros i Hi. split.
    - unfold umapped. destruct (uaddr_chunk (k_mem s) pt va i) as [_ ->]; lia.
    - unfold bs1. rewrite lookup_ubytes by lia. unfold ubyte. do 3 f_equal. lia. }
  destruct (copyinstr_page_spec bs1 acc) as [(k & Hk1 & Hk2 & Hk3)|[Hk1 Hk2]].
  - assert (Z.of_nat k < n) as Hk.
    { apply lookup_lt_Some in Hk1. unfold bs1 in Hk1. rewrite length_ubytes in Hk1. lia. }
    exists 0, (take (S k) bs1). split.
    + eapply quiet_bind; [exact Hw|]. if_lia. eapply quiet_bind; [apply quiet_reads, _|].
      cbv beta. rewrite load_chunk by lia. fold bs1. rewrite Hk3. apply quiet_ret.
    + replace (take (S k) bs1) with (ubytes (k_mem s) pt va (S (Z.to_nat (Z.of_nat k)))).
      2: { unfold bs1. replace (Z.to_nat n) with (S k + (Z.to_nat n - S k))%nat by lia.
           rewrite ubytes_app, take_app_length' by by rewrite length_ubytes. by rewrite Nat2Z.id. }
      destruct (Hin (Z.of_nat k)) as [Hmk Hbk]; [lia|]. rewrite Nat2Z.id, Hk1 in Hbk.
      apply str_found; [lia| |done|by injection Hbk].
      intros i Hi. destruct (Hin i) as [Hmi Hbi]; [lia|]. split; [done|].
      apply (Hk2 (Z.to_nat i)); [lia|done].
  - destruct (IH s pt (PGROUNDDOWN va + PGSIZE) (max - n) (acc ++ bs1)) as (r & bs & Hq & Hres);
      [done|pose proof (PGROUNDDOWN_range va); lia|lia|done|].
    exists r, (bs1 ++ bs). split.
    + eapply quiet_bind; [exact Hw|]. if_lia. eapply quiet_bind; [apply quiet_reads, _|].
      cbv beta. rewrite load_chunk by lia. fold bs1. rewrite Hk2, Hu, app_assoc. exact Hq.
    + assert (Ht : text (k_mem s) pt va n).
      { intros i Hi. destruct (Hin i) as [Hmi Hbi]; [lia|]. split; [done|by eapply Hk1]. }
      destruct Hnx as [Hnx|Hnx].
      * rewrite Hnx in Hres. inversion Hres as [k Hk|bs' _|k bs' Hk]; [lia| |lia].
        apply str_too_long. by replace max with n by lia.
      * apply str_result_app; [lia|done|]. by rewrite Hnx.
Qed.

(** ** Properties *)
Lemma ubytes_copied m m' pt va src :
  (forall a, is_node m pt a -> same_page m m' a) -> Forall is_byte src ->
  copied m m' pt va src -> ubytes m' pt va (length src) = src.
Proof.
  intros Hs Hb [Hc _]. apply list_eq. intros i. destruct (decide (i < length src)%nat) as [Hi|].
  - rewrite lookup_ubytes by done. destruct (lookup_lt_is_Some_2 src i Hi) as [b Eb].
    unfold uaddr. rewrite (upage_frame m m') by done. fold (uaddr m pt (va + Z.of_nat i)).
    rewrite (Hc i b Eb), Eb. f_equal. pose proof (Forall_in _ _ b Hb) as Hbb.
    unfold is_byte in Hbb. specialize (Hbb ltac:(by eapply list_elem_of_lookup_2)). sz.
  - by rewrite !lookup_ge_None_2 by (rewrite ?length_ubytes; lia).
Qed.

(** C6. Kernel to user and back: if every page of the range is mapped for the
    user, copyout returns 0 having stored exactly the source bytes at the
    user's addresses (no other byte of memory changes), and a copyin of the
    same range then returns 0 and the same bytes. *)
Theorem copyout_copyin_roundtrip s pt va src :
  user_wf (k_mem s) pt -> 0 <= va -> Forall is_byte src ->
  (forall i, 0 <= i < Z.of_nat (length src) -> umapped (k_mem s) pt (va + i)) ->
  exists m', let s' := set_k_mem m' s in
    quiet (copyout pt va src (Z.of_nat (length src))) s 0 s' /\
    copied (k_mem s) m' pt va src /\
    quiet (copyin pt va (Z.of_nat (length src))) s' (0, src) s'.
Proof.
  intros Hwf Hva Hb Hmap.
  destruct (copyout_loop_spec (copy_fuel (Z.of_nat (length src))) s pt va src
    (Z.of_nat (length src))) as (r & m' & Hq & Hs & Hr); [done|done|done|apply enough_start; lia|].
  destruct Hr as [(-> & _ & Hc)|(_ & i & Hi & Hn & _)]; [|by destruct (Hn (Hmap i Hi))].
  exists m'. cbn. split_and!; [exact Hq|done|].
  assert (Hu : forall x, umapped m' pt x <-> umapped (k_mem s) pt x).
  { intros x. unfold umapped. by rewrite (upage_frame (k_mem s) m'). }
  destruct (copyin_loop_spec (copy_fuel (Z.of_nat (length src))) (set_k_mem m' s) pt va
    (Z.of_nat (length src)) []) as (r & bs & Hq' & Hr); [|done|lia|apply enough_start; lia|].
  { eapply wf_frame; [exact Hs|apply Hwf]. }
  cbn in Hr. destruct Hr as [(-> & _ & ->)|(_ & i & Hi & Hn & _)].
  - unfold copyin. rewrite Nat2Z.id in Hq'. cbn in Hq'. by rewrite (ubytes_copied (k_mem s)) in Hq'.
  - destruct Hn. apply Hu. by apply Hmap.
Qed.

(** The number of bytes from [va] on, of [len], before the first whose page the user
    cannot reach. *)
Definition reachable (m : mem) (pt va len i : Z) : Prop :=
  0 <= i <= len /\ (forall j, 0 <= j < i -> umapped m pt (va + j)) /\ (i < len -> ~ umapped m pt (va + i)).

(** C19. A user range with an unmapped page: copyout and copyin return 0 exactly
    when every byte of the range is mapped for the user, and otherwise -1, having
    copied the bytes before the first that is not and no other: copyout has
    stored those at their user addresses and changed no other byte of memory, so
    neither the page table nor any memory the user cannot reach, and copyin has
    read those and changes nothing.  The loops end whatever the arguments. *)
Theorem user_copy_fails_on_unmapped s pt va src len :
  user_wf (k_mem s) pt -> 0 <= va -> 0 <= len ->
  (exists i m', reachable (k_mem s) pt va (Z.of_nat (length src)) i /\
     quiet (copyout pt va src (Z.of_nat (length src))) s (if i =? Z.of_nat (length src) then 0 else -1) (set_k_mem m' s) /\
     copied (k_mem s) m' pt va (take (Z.to_nat i) src) /\
     (forall a, is_node (k_mem s) pt a -> same_page (k_mem s) m' a)) /\
  (exists i, reachable (k_mem s) pt va len i /\
     quiet (copyin pt va len) s (if i =? len then 0 else -1, ubytes (k_mem s) pt va (Z.to_nat i)) s).
Proof.
  intros Hwf Hva Hlen. split.
  - destruct (copyout_loop_spec (copy_fuel (Z.of_nat (length src))) s pt va src
      (Z.of_nat (length src))) as (r & m' & Hq & Hs & Hr); [done|done|done|apply enough_start; lia|].
    destruct Hr as [(-> & Hm & Hc)|(-> & i & Hi & Hn & Hm & Hc)].
    + exists (Z.of_nat (length src)), m'. rewrite Z.eqb_refl, Nat2Z.id, take_ge by lia. split_and!; [|exact Hq|done|done].
      split_and!; [lia|lia|done|lia].
    + exists i, m'. replace (i =? Z.of_nat (length src)) with false by lia. split_and!; [|exact Hq|done|done].
      split_and!; [lia|lia|done|done].
  - destruct (copyin_loop_spec (copy_fuel len) s pt va len []) as (r & bs & Hq & Hr);
      [apply Hwf|done|done|apply enough_start; lia|].
    destruct Hr as [(-> & Hm & ->)|(-> & i & Hi & Hn & Hm & ->)].
    + exists len. rewrite Z.eqb_refl. split; [|exact Hq]. split_and!; [lia|lia|done|lia].
    + exists i. replace (i =? len) with false by lia. split; [|exact Hq]. split_and!; [lia|lia|done|done].
Qed.

(** C20. copyinstr returns 0 exactly when a NUL occurs within the first [max]
    bytes with everything up to it mapped for the user, and then the buffer
    holds the string with its NUL; it returns -1 when the string is too long
    or runs into an unmapped page.  It always ends and changes nothing. *)
Theorem copyinstr_finds_string s pt va max :
  pt_wf (k_mem s) pt -> 0 <= va -> 0 <= max ->
  exists r bs, quiet (copyinstr pt va max) s (r, bs) s /\ str_result (k_mem s) pt va max r bs.
Proof.
  intros Hwf Hva Hmax.
  destruct (copyinstr_loop_spec (copy_fuel max) s pt va max []) as (r & bs & H1 & H2);
    [done|done|done|by apply enough_start|]. by exists r, bs.
Qed.
End UserCopy.

(** ** Witnesses: one user page, mapped at 0x1000 *)
#[local] Existing Instance linker0.
Definition done_value (o : outcome Z) : option Z := match o with Done a _ _ => Some a | Halt _ _ => None end.
Definition upa : Z := 0x80040000.

Lemma wmapped : exists s, user_wf (k_mem s) wroot /\
  forall va, umapped (k_mem s) wroot va <-> PGROUNDDOWN va = 0x1000.
Proof.
  destruct (mappages_spec kstate3 wroot wfree 0x1000 4096 upa PTE_WRXU)
    as (r & s & l' & k & Hq & Hg & Hv & Hr & _);
    [apply kstate3_space|lia|lia|done|done|by vm_compute
    |intros x _; by rewrite (empty_view _ _ _ kstate3_zero)|].
  assert (r = 0) as ->.
  { destruct (quiet_runs _ _ _ _ Hq) as (lk & _ & Hrun).
    assert (done_value (mappages wroot 0x1000 4096 upa PTE_WRXU kstate3 []) = Some 0) as E
      by by vm_compute.
    rewrite Hrun in E. by injection E. }
  destruct Hr as [[_ ->]|[? _]]; [|done]. exists s.
  assert (Hp : forall va, upage (k_mem s) wroot (PGROUNDDOWN va) =
    if PGROUNDDOWN va =? 0x1000 then upa else 0).
  { intros va. unfold upage. destruct ((0 <=? PGROUNDDOWN va) && (PGROUNDDOWN va <? MAXVA)) eqn:E.
    2: { bdestr (PGROUNDDOWN va =? 0x1000); [|done]. rewrite E0 in E. by vm_compute in E. }
    rewrite Hv by lia. unfold mapped_view. change (PGROUNDDOWN 0x1000) with 4096.
    change (Z.of_nat (npages 0x1000 4096) * PGSIZE) with 4096.
    rewrite (PGROUNDDOWN_id (PGROUNDDOWN va)) by apply PGROUNDDOWN_aligned.
    pose proof (PGROUNDDOWN_aligned va) as Hal. unfold page_aligned, PGSIZE in Hal.
    bdestr (PGROUNDDOWN va =? 0x1000).
    - rewrite E0. by vm_compute.
    - replace ((4096 <=? PGROUNDDOWN va) && (PGROUNDDOWN va <? 4096 + 4096)) with false by lia.
      by rewrite (empty_view _ _ _ kstate3_zero). }
  assert (Hu : forall va, umapped (k_mem s) wroot va <-> PGROUNDDOWN va = 0x1000).
  { intros va. unfold umapped. rewrite Hp. bdestr (PGROUNDDOWN va =? 0x1000); [done|lia]. }
  split; [|done]. split.
  - apply Hg.
  - intros va Hva Hn. apply Hu in Hva. rewrite Hp, Hva in Hn. cbn in Hn.
    destruct (gr_new _ _ _ _ _ Hg _ Hn) as [Hn'|Hn'].
    + apply (empty_is_node _ _ _ kstate3_zero) in Hn'. done.
    + unfold wfree, upa in Hn'. set_solver.
  - intros va va' H H' _. apply Hu in H. apply Hu in H'. congruence.
Qed.

Lemma copyout_copyin_roundtrip_witness :
  exists s m', quiet (copyout wroot 0x1ffe [104; 105] 2) s 0 (set_k_mem m' s) /\
    quiet (copyin wroot 0x1ffe 2) (set_k_mem m' s) (0, [104; 105]) (set_k_mem m' s).
Proof.
  destruct wmapped as (s & Hw & Hm). exists s.
  destruct (copyout_copyin_roundtrip s wroot 0x1ffe [104; 105]) as (m' & H1 & _ & H2).
  - exact Hw.
  - lia.
  - repeat constructor; unfold is_byte; lia.
  - intros i Hi. apply Hm. change (Z.of_nat (length [104; 105])) with 2 in Hi.
    assert (i = 0 \/ i = 1) as [->| ->] by lia; reflexivity.
  - exists m'. split; [exact H1|exact H2].
Defined.

Lemma user_copy_fails_on_unmapped_witness :
  exists s m', quiet (copyout wroot 0x1ffe [1; 2; 3] 3) s (-1) (set_k_mem m' s) /\ copied (k_mem s) m' wroot 0x1ffe [1; 2].
Proof.
  destruct wmapped as (s & Hw & Hm). exists s.
  destruct (user_copy_fails_on_unmapped s wroot 0x1ffe [1; 2; 3] 3) as ((i & m' & (H1 & H2 & H3) & H4 & H5 & _) & _).
  - exact Hw.
  - lia.
  - lia.
  - exists m'. cbn in H1. assert (i = 2) as ->; [|split; [exact H4|exact H5]].
    destruct (Z.lt_trichotomy i 2) as [Hi|[Hi|Hi]]; [exfalso|exact Hi|exfalso].
    + apply H3; [cbn; lia|]. apply Hm. assert (i = 0 \/ i = 1) as [-> | ->] by lia; reflexivity.
    + assert (umapped (k_mem s) wroot (0x1ffe + 2)) as Hbad by (apply H2; lia). apply Hm in Hbad. vm_compute in Hbad. discriminate.
Defined.

Lemma copyinstr_finds_string_witness :
  exists s r bs, quiet (copyinstr wroot 0x1000 16) s (r, bs) s.
Proof.
  destruct wmapped as (s & Hw & Hm). exists s.
  destruct (copyinstr_finds_string s wroot 0x1000 16) as (r & bs & H1 & _).
  - apply Hw.
  - lia.
  - lia.
  - exists r, bs. exact H1.
Defined.
