(* ===== verification/UvmProofs.v ===== *)
(** * User address spaces: uvmunmap and uvmcopy

    Pages go from the allocator to an address space and back.  uvmunmap clears the
    entries of a range and gives its pages back; uvmcopy, the memory part of fork,
    gives the new address space a copy of every page. *)
From S2P Require Import Prelude Mem Riscv State Spinlock Kalloc Vm PageTable VmProofs UserCopy.

Section Uvm.
Context `{LD : Linker}.

(** ** A page that is not part of the tree *)
Lemma page_change m m' pt p :
  pt_wf m pt -> page_aligned p -> ~ is_node m pt p -> (forall x, ~ (p <= x < p + PGSIZE) -> getb m' x = getb m x) ->
  forall a, is_node m pt a -> same_page m m' a.
Proof.
  intros Hwf Hp Hn Hm a Ha x Hx. apply Hm. intros Hx'. destruct Ha as (q & Hq & Ha). pose proof (wf_page _ _ Hwf q a Hq Ha) as [Hal _].
  apply (page_disjoint a p x x); [done|done| |done|done|done]. intros ->. apply Hn. by exists q.
Qed.
Lemma is_node_frame m m' pt a : (forall b, is_node m pt b -> same_page m m' b) -> is_node m' pt a <-> is_node m pt a.
Proof. intros H. unfold is_node. split; intros (p & Hp & Ha); exists p; (split; [done|]); by rewrite ?(node_frame m m' pt H p Hp) in *. Qed.

Lemma space_kfree s pt l p : space s pt l -> ram_page p -> p ∉ l -> ~ is_node (k_mem s) pt p ->
  space (kfree_post p s) pt (p :: l) /\ (forall a, is_node (k_mem s) pt a -> same_page (k_mem s) (k_mem (kfree_post p s)) a).
Proof.
  intros [Hf Hr Hwf Hsep] Hp Hnl Hn. assert (Hs : forall a, is_node (k_mem s) pt a -> same_page (k_mem s) (k_mem (kfree_post p s)) a).
  { apply (page_change _ _ _ p); [done|apply Hp|done|]. intros x Hx. by apply kfree_post_mem. }
  split; [|done]. pose proof (free_pages_head _ _ Hf). split.
  - apply free_pages_kfree; [done|done|lia|lia|done].
  - done.
  - by apply (wf_frame (k_mem s)).
  - intros a Ha. rewrite (is_node_frame _ _ _ _ Hs) in Ha. intros [->|Hl]%elem_of_cons; [done|]. by apply (Hsep a).
Qed.
Lemma space_kalloc s pt q l : space s pt (q :: l) ->
  space (kalloc_post q s) pt l /\ (forall a, is_node (k_mem s) pt a -> same_page (k_mem s) (k_mem (kalloc_post q s)) a) /\
  quiet kalloc s q (kalloc_post q s) /\ ram_page q /\ (q ∉ l) /\ ~ is_node (k_mem s) pt q.
Proof.
  intros [Hf Hr Hwf Hsep]. pose proof Hf as [_ Hram Hnd]. apply list.Forall_cons in Hram as [Hq _]. apply list.NoDup_cons in Hnd as [Hql _].
  assert (Hn : ~ is_node (k_mem s) pt q) by (intros Hn; apply (Hsep q Hn); by left).
  assert (Hs : forall a, is_node (k_mem s) pt a -> same_page (k_mem s) (k_mem (kalloc_post q s)) a).
  { apply (page_change _ _ _ q); [done|apply Hq|done|]. intros x Hx. by apply kalloc_post_mem. }
  split_and!; [|done|by eapply quiet_kalloc_some|done|done|done]. split.
  - by apply free_pages_kalloc.
  - done.
  - by apply (wf_frame (k_mem s)).
  - intros a Ha. rewrite (is_node_frame _ _ _ _ Hs) in Ha. intros Hl. apply (Hsep a Ha). by right.
Qed.

(** ** uvmunmap *)
(** One page of the range, whose entry is a leaf. *)
Record mapped_page (s : kstate) (pt : Z) (l : list Z) (a p : Z) : Prop := {
  mp_valid : valid (view (k_mem s) pt a) = true;
  mp_leaf : PTE_FLAGS (view (k_mem s) pt a) <> PTE_V;
  mp_page : PTE2PA (view (k_mem s) pt a) = p;
  mp_ram : ram_page p;
  mp_free : p ∉ l;
  mp_sep : ~ is_node (k_mem s) pt p;
}.
Lemma view_slot m pt a : valid (view m pt a) = true -> exists b, node m pt (vpath a) = Some b /\ view m pt a = load64 m (slot b (PX 0 a)).
Proof. unfold view. destruct (node m pt (vpath a)) as [b|]; [by exists b|done]. Qed.
Lemma unmap_one s pt l a p : space s pt l -> page_aligned a -> 0 <= a < MAXVA -> mapped_page s pt l a p ->
  exists s', mem_step s s' /\ space s' pt (p :: l) /\
  (forall b, is_node (k_mem s') pt b <-> is_node (k_mem s) pt b) /\
  (forall va, 0 <= va < MAXVA -> view (k_mem s') pt va = if PGROUNDDOWN va =? a then 0 else view (k_mem s) pt va) /\
  (forall x, PGROUNDDOWN x <> p -> ~ is_node (k_mem s) pt (PGROUNDDOWN x) -> getb (k_mem s') x = getb (k_mem s) x) /\
  forall fuel last s2, quiet (if a =? last then mret tt else uvmunmap_loop fuel pt (u64 (a + PGSIZE)) last true) s' tt s2 ->
    quiet (uvmunmap_loop (S fuel) pt a last true) s tt s2.
Proof.
  intros Hsp Ha Hr [Hv Hl Hp Hram Hfree Hsep]. destruct (space_kfree s pt l p Hsp Hram Hfree Hsep) as [Hsp1 Hs1].
  destruct (view_slot _ _ _ Hv) as (b & Hb & Ev). set (s1 := kfree_post p s) in *.
  assert (Hb1 : node (k_mem s1) pt (vpath a) = Some b) by (rewrite (node_frame _ _ _ Hs1) by apply vpath_ok; done).
  pose proof (grown_leaf s1 pt (p :: l) a b 0 Hsp1 Hb1) as Hg. set (s' := set_k_mem (store64 (k_mem s1) (slot b (PX 0 a)) 0) s1) in *.
  assert (Hn : forall q, node_path q -> node (k_mem s') pt q = node (k_mem s) pt q).
  { intros q Hq. rewrite <- (node_frame _ _ _ Hs1 q Hq). by apply (node_store_leaf (k_mem s1) pt a b 0 q); [apply Hsp1|..]. }
  exists s'. split_and!; [|apply Hg|..].
  - transitivity s1; [apply mem_step_kfree|apply mem_step_mem].
  - intros c. split; intros (q & Hq & Hc); exists q; (split; [done|]); [rewrite <- Hn by done|rewrite Hn by done]; exact Hc.
  - intros va Hva. rewrite <- (view_frame _ _ _ va Hs1). rewrite <- (PGROUNDDOWN_id a Ha) at 1.
    exact (view_store_leaf (k_mem s1) pt a b 0 va (sp_wf _ _ _ Hsp1) Hb1 Hr Hva).
  - intros x Hx Hnx. unfold s'. cbn [k_mem set_k_mem]. rewrite getb_store_out.
    + apply kfree_post_mem. intros Hin. apply Hx. apply page_of; [apply Hram|done].
    + assert (Hbn : ram_page b) by (apply (wf_page _ _ (sp_wf _ _ _ Hsp) (vpath a)); [apply vpath_ok|done]).
      pose proof (slot_range b _ (idx_PX 0 a ltac:(lia))). destruct (decide (b <= x < b + PGSIZE)) as [Hin|]; [|change (Z.of_nat 8) with 8; lia].
      exfalso. apply Hnx. rewrite (page_of x b (proj1 Hbn) Hin). exists (vpath a). split; [apply vpath_ok|done].
  - intros fuel last s2 Hk. cbn [uvmunmap_loop]. eapply quiet_bind; [apply quiet_walk_ro; lia|]. unfold leaf_slot. rewrite Hb.
    assert (Hbn : ram_page b) by (apply (wf_page _ _ (sp_wf _ _ _ Hsp) (vpath a)); [apply vpath_ok|done]).
    pose proof (slot_range b _ (idx_PX 0 a ltac:(lia))). destruct Hbn as (_ & _ & Hb0). if_lia.
    eapply quiet_bind; [apply quiet_mem_read|]. rewrite <- Ev. unfold valid, ctrue in Hv. apply negb_true_iff in Hv. rewrite Hv.
    rewrite (proj2 (Z.eqb_neq _ _) Hl), Hp. cbn [when]. eapply quiet_bind; [apply quiet_kfree; [done|apply Hsp]|].
    eapply quiet_bind; [apply quiet_mem_write|]. exact Hk.
Qed.

(** [P] are the pages mapped from [a] on. *)
Definition mapped_pages (s : kstate) (pt : Z) (l : list Z) (a : Z) (P : list Z) : Prop :=
  NoDup P /\ forall t p, P !! t = Some p -> mapped_page s pt l (a + Z.of_nat t * PGSIZE) p.
Lemma mapped_rest s s' pt l a p P : page_aligned a -> 0 <= a -> a + Z.of_nat (S (length P)) * PGSIZE <= MAXVA ->
  mapped_pages s pt l a (p :: P) -> (forall b, is_node (k_mem s') pt b <-> is_node (k_mem s) pt b) ->
  (forall va, 0 <= va < MAXVA -> view (k_mem s') pt va = if PGROUNDDOWN va =? a then 0 else view (k_mem s) pt va) ->
  mapped_pages s' pt (p :: l) (a + PGSIZE) P.
Proof.
  intros Ha H0 Hmax [[Hp HP]%list.NoDup_cons Hm] Hn Hv. split; [done|]. intros t q Ht. pose proof (lookup_lt_Some _ _ _ Ht) as Hlt.
  specialize (Hm (S t) q Ht). replace (a + Z.of_nat (S t) * PGSIZE) with (a + PGSIZE + Z.of_nat t * PGSIZE) in Hm by (unfold PGSIZE; lia).
  set (va := a + PGSIZE + Z.of_nat t * PGSIZE) in *.
  assert (Hva : view (k_mem s') pt va = view (k_mem s) pt va).
  { rewrite Hv by (unfold va, PGSIZE in *; lia). rewrite (PGROUNDDOWN_id va) by (unfold va, page_aligned, PGSIZE in *; lia).
    replace (va =? a) with false by (unfold va, PGSIZE in *; lia). done. }
  destruct Hm as [H1 H2 H3 H4 H5 H6]. split; rewrite ?Hva; [done..| |by rewrite Hn]. intros [->|]%elem_of_cons; [|done].
  apply Hp. by eapply list_elem_of_lookup_2.
Qed.
Lemma unmap_loop P : forall fuel s pt l a p, (length P < fuel)%nat -> space s pt l -> page_aligned a -> 0 <= a ->
  a + Z.of_nat (S (length P)) * PGSIZE <= MAXVA -> mapped_pages s pt l a (p :: P) ->
  exists s', quiet (uvmunmap_loop fuel pt a (a + Z.of_nat (length P) * PGSIZE) true) s tt s' /\ mem_step s s' /\
  space s' pt (rev (p :: P) ++ l) /\ (forall b, is_node (k_mem s') pt b <-> is_node (k_mem s) pt b) /\
  (forall va, 0 <= va < MAXVA -> view (k_mem s') pt va =
     if (a <=? va) && (va <? a + Z.of_nat (S (length P)) * PGSIZE) then 0 else view (k_mem s) pt va) /\
  (forall x, PGROUNDDOWN x ∉ p :: P -> ~ is_node (k_mem s) pt (PGROUNDDOWN x) -> getb (k_mem s') x = getb (k_mem s) x).
Proof.
  assert (HM : MAXVA = 67108864 * PGSIZE) by done.
  induction P as [|q P IH]; intros [|fuel] s pt l a p Hf Hsp Ha H0 Hmax Hm; try (cbn in Hf; lia);
    pose proof (proj2 Hm 0%nat p eq_refl) as Hm0; rewrite Z.add_0_r in Hm0;
    (destruct (unmap_one s pt l a p Hsp Ha ltac:(unfold PGSIZE in *; cbn [length] in *; lia) Hm0) as (s1 & Hst & Hsp1 & Hn & Hv & Hfr & Hk)).
  - exists s1. split_and!; [|done|done|done| |].
    + apply Hk. cbn [length]. if_lia. apply quiet_ret.
    + intros va Hva. rewrite Hv by done. pose proof (PGROUNDDOWN_range va). pose proof (PGROUNDDOWN_aligned va).
      replace (PGROUNDDOWN va =? a) with ((a <=? va) && (va <? a + Z.of_nat (S (length (@nil Z))) * PGSIZE)); [done|].
      cbn [length]. unfold page_aligned, PGSIZE in *. lia.
    + intros x Hx. apply Hfr. set_solver.
  - pose proof (mapped_rest s s1 pt l a p (q :: P) Ha H0 Hmax Hm Hn Hv) as Hm1.
    destruct (IH fuel s1 pt (p :: l) (a + PGSIZE) q) as (s' & Hq & Hst' & Hsp' & Hn' & Hv' & Hfr').
    { cbn [length] in Hf. lia. } { done. } { unfold page_aligned, PGSIZE in *. lia. } { unfold PGSIZE in *. lia. } { cbn [length] in Hmax. unfold PGSIZE in *. lia. } { done. }
    exists s'. split_and!; [|by transitivity s1| |..].
    + apply Hk. cbn [length]. replace (a =? a + Z.of_nat (S (length P)) * PGSIZE) with false by (unfold PGSIZE; lia).
      replace (u64 (a + PGSIZE)) with (a + PGSIZE) by (cbn [length] in Hmax; unfold PGSIZE in *; sz).
      replace (a + Z.of_nat (S (length P)) * PGSIZE) with (a + PGSIZE + Z.of_nat (length P) * PGSIZE) by (unfold PGSIZE; lia). exact Hq.
    + replace (rev (p :: q :: P) ++ l) with (rev (q :: P) ++ p :: l); [done|]. change (rev (p :: q :: P)) with (rev (q :: P) ++ [p]). by rewrite <- app_assoc.
    + intros b. by rewrite Hn', Hn.
    + intros va Hva. rewrite Hv' by done. rewrite Hv by done. pose proof (PGROUNDDOWN_range va). pose proof (PGROUNDDOWN_aligned va). cbn [length].
      destruct ((a + PGSIZE <=? va) && (va <? a + PGSIZE + Z.of_nat (S (length P)) * PGSIZE)) eqn:E.
      * replace ((a <=? va) && _) with true by (unfold PGSIZE in *; lia). done.
      * replace ((a <=? va) && (va <? a + Z.of_nat (S (S (length P))) * PGSIZE)) with (PGROUNDDOWN va =? a); [done|]. unfold page_aligned, PGSIZE in *. lia.
    + intros x Hx Hnx. rewrite Hfr', Hfr; [done|set_solver|done|set_solver|by rewrite Hn].
Qed.

Lemma unmap_spec s pt l a size p P : space s pt l -> page_aligned a -> 0 <= a -> a + size <= MAXVA ->
  Z.of_nat (length P) * PGSIZE < size <= Z.of_nat (S (length P)) * PGSIZE -> mapped_pages s pt l a (p :: P) ->
  exists s', quiet (uvmunmap pt a size true) s tt s' /\ mem_step s s' /\
  space s' pt (rev (p :: P) ++ l) /\ (forall b, is_node (k_mem s') pt b <-> is_node (k_mem s) pt b) /\
  (forall va, 0 <= va < MAXVA -> view (k_mem s') pt va =
     if (a <=? va) && (va <? a + Z.of_nat (S (length P)) * PGSIZE) then 0 else view (k_mem s) pt va) /\
  (forall x, PGROUNDDOWN x ∉ p :: P -> ~ is_node (k_mem s) pt (PGROUNDDOWN x) -> getb (k_mem s') x = getb (k_mem s) x).
Proof.
  intros Hsp Ha H0 Hmax Hsz Hm. assert (HM : MAXVA = 67108864 * PGSIZE) by done. unfold uvmunmap. cbv zeta. rewrite (PGROUNDDOWN_id a) by done.
  replace (u64 (a + size - 1)) with (a + size - 1) by (unfold PGSIZE in *; sz).
  assert (PGROUNDDOWN (a + size - 1) = a + Z.of_nat (length P) * PGSIZE) as -> by (apply page_of; unfold page_aligned, PGSIZE in *; lia).
  apply unmap_loop; [|done|done|done|unfold page_aligned, PGSIZE in *; lia|done].
  unfold pages_fuel. replace (u64 (a + Z.of_nat (length P) * PGSIZE - a)) with (Z.of_nat (length P) * PGSIZE) by (unfold PGSIZE in *; sz).
  rewrite HM, !Z.div_mul by done. unfold PGSIZE in *. lia.
Qed.

(** A change in a page of nobody's. *)
Lemma space_page s pt l q m : space s pt l -> page_aligned q -> q ∉ l -> ~ is_node (k_mem s) pt q ->
  (forall x, ~ (q <= x < q + PGSIZE) -> getb m x = getb (k_mem s) x) ->
  space (set_k_mem m s) pt l /\ forall a, is_node (k_mem s) pt a -> same_page (k_mem s) m a.
Proof.
  intros [Hf Hr Hwf Hsep] Hq Hql Hn Hm. pose proof (page_change _ m pt q Hwf Hq Hn Hm) as Hs. split; [|done]. split; [|done|by apply (wf_frame (k_mem s))|].
  - apply free_pages_frame; [done|]. intros p x Hp Hx. apply Hm. intros Hx2. destruct Hf as [_ Hram _]. pose proof (Forall_in _ _ _ Hram Hp) as [Hpa _].
    apply (page_disjoint q p x x); [done|done| |done|done|done]. by intros ->.
  - intros a Ha. cbn [k_mem set_k_mem] in Ha. rewrite (is_node_frame _ _ _ _ Hs) in Ha. by apply Hsep.
Qed.

(** ** Runs that end in a panic *)
(** From [s], [c] goes on as [c'] does from [s']. *)
Definition leads {A} (c : M A) (s : kstate) (c' : M A) (s' : kstate) : Prop :=
  (forall r s2, quiet c' s' r s2 -> quiet c s r s2) /\ (panics c' s' -> panics c s).
Lemma leads_bind {A B} (m : M A) (k : A -> M B) s a s1 : quiet m s a s1 -> leads (m ≫= k) s (k a) s1.
Proof.
  intros Hm. split; [intros r s2; by apply quiet_bind|]. intros Hp lk Hlk env. destruct Hm as [Hs Hm]. destruct (Hm lk Hlk) as (lk1 & Hlk1 & Hr).
  destruct (Hp lk1 ltac:(by transitivity (k_lk s)) env) as (msg & s' & E). exists msg, s'. unfold mbind, M_bind. by rewrite Hr.
Qed.
Lemma leads_trans {A} (c1 c2 c3 : M A) s1 s2 s3 : leads c1 s1 c2 s2 -> leads c2 s2 c3 s3 -> leads c1 s1 c3 s3.
Proof. intros [H1 H2] [H3 H4]. split; auto. Qed.
Lemma leads_refl {A} (c : M A) s : leads c s c s.
Proof. by split. Qed.
Ltac step_by H := eapply leads_trans; [eapply leads_bind; H|].

(** ** uvmcopy *)
Section Copy.
Context (s0 : kstate) (old new : Z) (l0 : list Z) (n : nat).
(** The pages of the old address space, and an address space to copy them to. *)
Record copyable : Prop := {
  cp_space : space s0 new l0;
  cp_old : pt_wf (k_mem s0) old;
  cp_sep : forall a, is_node (k_mem s0) old a -> (a ∉ l0) /\ ~ is_node (k_mem s0) new a;
  cp_page : forall t, (t < n)%nat -> let v := view (k_mem s0) old (Z.of_nat t * PGSIZE) in
    valid v = true /\ PTE_FLAGS v <> PTE_V /\ (PTE2PA v ∉ l0) /\ ~ is_node (k_mem s0) new (PTE2PA v);
  cp_new : forall va, 0 <= va < Z.of_nat n * PGSIZE -> valid (view (k_mem s0) new va) = false;
  cp_max : Z.of_nat n * PGSIZE <= MAXVA;
}.
(** The pages [P] have been copied, with [l] left on the free list. *)
Record copying (s : kstate) (l P : list Z) : Prop := {
  ci_step : mem_step s0 s;
  ci_space : space s new l;
  ci_mapped : mapped_pages s new l 0 P;
  ci_flags : forall t p, P !! t = Some p -> view (k_mem s) new (Z.of_nat t * PGSIZE) = mkpte p (PTE_FLAGS (view (k_mem s0) old (Z.of_nat t * PGSIZE)));
  ci_data : forall t p off, P !! t = Some p -> 0 <= off < PGSIZE ->
    getb (k_mem s) (p + off) = u8 (getb (k_mem s0) (PTE2PA (view (k_mem s0) old (Z.of_nat t * PGSIZE)) + off));
  ci_view : forall va, Z.of_nat (length P) * PGSIZE <= va < MAXVA -> view (k_mem s) new va = view (k_mem s0) new va;
  ci_from : forall a, a ∈ P \/ a ∈ l -> a ∈ l0;
  ci_nodes : forall a, is_node (k_mem s) new a -> is_node (k_mem s0) new a \/ a ∈ l0;
  ci_used : forall a, a ∈ l0 -> (a ∈ P \/ a ∈ l) \/ is_node (k_mem s) new a;
  ci_frame : forall x, outside (k_mem s0) new l0 x -> getb (k_mem s) x = getb (k_mem s0) x;
}.
Hypothesis Hc : copyable.

Lemma copying_start : copying s0 l0 [].
Proof.
  split.
  - reflexivity.
  - apply Hc.
  - split; [constructor|]. intros t p Ht. by rewrite lookup_nil in Ht.
  - intros t p Ht. by rewrite lookup_nil in Ht.
  - intros t p off Ht. by rewrite lookup_nil in Ht.
  - done.
  - intros a [Ha|]; [by apply elem_of_nil in Ha|done].
  - by left.
  - intros a Ha. left. by right.
  - done.
Qed.
(** The old tree is as it was. *)
Lemma copying_old s l P : copying s l P -> forall a, is_node (k_mem s0) old a -> same_page (k_mem s0) (k_mem s) a.
Proof.
  intros H a Ha x Hx. apply (ci_frame _ _ _ H). assert (page_aligned a) by (destruct Ha as (p & Hp & Ha); by destruct (wf_page _ _ (cp_old Hc) p a Hp Ha)).
  unfold outside. rewrite (page_of x a) by done. by apply (cp_sep Hc).
Qed.
Lemma old_page s l P t off : copying s l P -> (t < n)%nat -> 0 <= off < PGSIZE ->
  getb (k_mem s) (PTE2PA (view (k_mem s0) old (Z.of_nat t * PGSIZE)) + off) = getb (k_mem s0) (PTE2PA (view (k_mem s0) old (Z.of_nat t * PGSIZE)) + off).
Proof.
  intros H Ht Ho. apply (ci_frame _ _ _ H). destruct (cp_page Hc t Ht) as (_ & _ & H1 & H2). unfold outside.
  rewrite (page_of _ (PTE2PA (view (k_mem s0) old (Z.of_nat t * PGSIZE)))); [done|apply PTE2PA_aligned|lia].
Qed.

(** What uvmcopy does when it gives up. *)
Definition undo_copy (i : Z) : M Z := uvmunmap new 0 i true ;; mret (-1).
(** Up to the allocation of a page. *)
Lemma copy_read s l P fuel sz (i := Z.of_nat (length P) * PGSIZE) : copying s l P -> (length P < n)%nat -> i < sz ->
  leads (uvmcopy_loop (S fuel) old new sz i) s (mem ← kalloc;
    if mem =? 0 then undo_copy i else
    mem_write (fun m => memmove m mem (PTE2PA (view (k_mem s0) old i)) PGSIZE) ;;
    r ← mappages new i PGSIZE mem (PTE_FLAGS (view (k_mem s0) old i));
    if negb (r =? 0) then kfree mem ;; undo_copy i else uvmcopy_loop fuel old new sz (u64 (i + PGSIZE))) s.
Proof.
  intros H Hlt Hi. destruct (cp_page Hc _ Hlt) as (Hv & _ & _ & _). fold i in Hv. pose proof (copying_old _ _ _ H) as Hold. pose proof (cp_max Hc).
  rewrite <- (view_frame _ _ _ i Hold) in Hv |- *. destruct (view_slot _ _ _ Hv) as (b & Hb & Ev). cbn [uvmcopy_loop]. replace (i <? sz) with true by lia. cbn [negb].
  step_by ltac:(apply quiet_walk_ro; unfold i; unfold PGSIZE in *; lia). unfold leaf_slot. rewrite Hb.
  assert (Hbn : ram_page b) by (apply (wf_page _ _ (wf_frame _ _ _ Hold (cp_old Hc)) (vpath i)); [apply vpath_ok|done]).
  pose proof (slot_range b _ (idx_PX 0 i ltac:(lia))). destruct Hbn as (_ & _ & Hb0). replace (slot b (PX 0 i) =? 0) with false by lia.
  step_by ltac:(apply quiet_mem_read). rewrite <- Ev. unfold valid, ctrue in Hv. apply negb_true_iff in Hv. rewrite Hv. apply leads_refl.
Qed.

(** What a step may do without disturbing the pages already copied. *)
Record gentle (s : kstate) (l : list Z) (s' : kstate) (l' : list Z) : Prop := {
  ge_step : mem_step s s';
  ge_list : forall a, a ∈ l' -> a ∈ l;
  ge_nodes : forall a, is_node (k_mem s') new a -> is_node (k_mem s) new a \/ a ∈ l;
  ge_keep : forall a, is_node (k_mem s) new a -> is_node (k_mem s') new a;
  ge_frame : forall x, outside (k_mem s) new l x -> getb (k_mem s') x = getb (k_mem s) x;
}.
Lemma pages_keep s l P s' l' t p : copying s l P -> gentle s l s' l' -> P !! t = Some p ->
  view (k_mem s') new (Z.of_nat t * PGSIZE) = view (k_mem s) new (Z.of_nat t * PGSIZE) ->
  mapped_page s' new l' (0 + Z.of_nat t * PGSIZE) p /\ forall off, 0 <= off < PGSIZE -> getb (k_mem s') (p + off) = getb (k_mem s) (p + off).
Proof.
  intros H G Ht Hv. destruct (ci_mapped _ _ _ H) as [_ Hm]. destruct (Hm t p Ht) as [H1 H2 H3 H4 H5 H6]. rewrite Z.add_0_l in *. split.
  - split; rewrite ?Hv; try done.
    + intros Hl. by apply H5, (ge_list _ _ _ _ G).
    + intros Hn. by destruct (ge_nodes _ _ _ _ G _ Hn).
  - intros off Ho. apply (ge_frame _ _ _ _ G). unfold outside. by rewrite (page_of _ p) by (apply H4 || lia).
Qed.
Lemma gentle_frame s l P s' l' x : copying s l P -> gentle s l s' l' -> outside (k_mem s0) new l0 x -> getb (k_mem s') x = getb (k_mem s0) x.
Proof.
  intros H G [Hx1 Hx2]. rewrite <- (ci_frame _ _ _ H) by done. apply (ge_frame _ _ _ _ G). split; [intros Hl; apply Hx1, (ci_from _ _ _ H); by right|].
  intros Hn. by destruct (ci_nodes _ _ _ H _ Hn).
Qed.
Lemma gentle_nodes s l P s' l' a : copying s l P -> gentle s l s' l' -> is_node (k_mem s') new a -> is_node (k_mem s0) new a \/ a ∈ l0.
Proof. intros H G Hn. destruct (ge_nodes _ _ _ _ G _ Hn) as [Hn'|Hl]; [by apply (ci_nodes _ _ _ H)|right; apply (ci_from _ _ _ H); by right]. Qed.

Lemma copying_keep s l P s' l' : copying s l P -> gentle s l s' l' -> space s' new l' -> (forall a, a ∈ l -> a ∈ l' \/ is_node (k_mem s') new a) ->
  (forall va, 0 <= va < MAXVA -> view (k_mem s') new va = view (k_mem s) new va) -> (length P <= n)%nat -> copying s' l' P.
Proof.
  intros H G Hsp Hu Hv Hle. pose proof (cp_max Hc).
  assert (Hvt : forall t p, P !! t = Some p -> view (k_mem s') new (Z.of_nat t * PGSIZE) = view (k_mem s) new (Z.of_nat t * PGSIZE)).
  { intros t p Ht. apply lookup_lt_Some in Ht. apply Hv. unfold PGSIZE in *. lia. }
  split.
  - transitivity s; [apply H|apply G].
  - done.
  - split; [apply (ci_mapped _ _ _ H)|]. intros t p Ht. by apply (pages_keep s l P s' l' t p H G Ht (Hvt t p Ht)).
  - intros t p Ht. rewrite (Hvt t p Ht). by apply (ci_flags _ _ _ H).
  - intros t p off Ht Ho. destruct (pages_keep s l P s' l' t p H G Ht (Hvt t p Ht)) as [_ Hd]. rewrite Hd by done. by apply (ci_data _ _ _ H).
  - intros va Hva. rewrite Hv by (unfold PGSIZE in *; lia). by apply (ci_view _ _ _ H).
  - intros a [Ha|Ha]; apply (ci_from _ _ _ H); [by left|right; by apply (ge_list _ _ _ _ G)].
  - intros a. by apply (gentle_nodes s l P s' l').
  - intros a Ha. destruct (ci_used _ _ _ H a Ha) as [[HP|Hl]|Hn]; [left; by left| |right; by apply (ge_keep _ _ _ _ G)].
    destruct (Hu a Hl); [left; by right|by right].
  - intros x. by apply (gentle_frame s l P s' l').
Qed.
Lemma copying_add s l P s' l' q : copying s l P -> gentle s l s' l' -> space s' new l' -> (length P < n)%nat -> q ∈ l ->
  mapped_page s' new l' (Z.of_nat (length P) * PGSIZE) q ->
  (forall a, a ∈ l -> a = q \/ a ∈ l' \/ is_node (k_mem s') new a) ->
  (forall va, 0 <= va < MAXVA -> view (k_mem s') new va =
     if PGROUNDDOWN va =? Z.of_nat (length P) * PGSIZE then mkpte q (PTE_FLAGS (view (k_mem s0) old (Z.of_nat (length P) * PGSIZE))) else view (k_mem s) new va) ->
  (forall off, 0 <= off < PGSIZE -> getb (k_mem s') (q + off) = u8 (getb (k_mem s0) (PTE2PA (view (k_mem s0) old (Z.of_nat (length P) * PGSIZE)) + off))) ->
  copying s' l' (P ++ [q]).
Proof.
  intros H G Hsp Hlt Hq Hmq Hu Hv Hd. pose proof (cp_max Hc) as Hmax.
  assert (Hal : forall t : nat, page_aligned (Z.of_nat t * PGSIZE)) by (intros t; unfold page_aligned, PGSIZE; lia).
  assert (Hvt : forall t p, P !! t = Some p -> view (k_mem s') new (Z.of_nat t * PGSIZE) = view (k_mem s) new (Z.of_nat t * PGSIZE)).
  { intros t p Ht. apply lookup_lt_Some in Ht. rewrite Hv, (PGROUNDDOWN_id _ (Hal t)) by (unfold PGSIZE in *; lia).
    replace (_ =? _) with false by (unfold PGSIZE; lia). done. }
  split.
  - transitivity s; [apply H|apply G].
  - done.
  - destruct (ci_mapped _ _ _ H) as [Hnd Hm]. split.
    + apply list.NoDup_app. split; [done|]. split; [|apply NoDup_singleton]. intros x Hx ->%list_elem_of_singleton.
      apply list_elem_of_lookup in Hx as [t Ht]. by destruct (Hm t q Ht).
    + intros t p Ht. apply lookup_snoc_Some in Ht as [[_ Ht]|[-> <-]]; [by apply (pages_keep s l P s' l' t p H G Ht (Hvt t p Ht))|]. by rewrite Z.add_0_l.
  - intros t p Ht. apply lookup_snoc_Some in Ht as [[_ Ht]|[-> <-]]; [rewrite (Hvt t p Ht); by apply (ci_flags _ _ _ H)|].
    rewrite Hv, (PGROUNDDOWN_id _ (Hal _)), Z.eqb_refl by (unfold PGSIZE in *; lia). done.
  - intros t p off Ht Ho. apply lookup_snoc_Some in Ht as [[_ Ht]|[-> <-]]; [|by apply Hd].
    destruct (pages_keep s l P s' l' t p H G Ht (Hvt t p Ht)) as [_ Hd']. rewrite Hd' by done. by apply (ci_data _ _ _ H).
  - intros va Hva. rewrite length_app in Hva. cbn [length] in Hva. pose proof (PGROUNDDOWN_range va). rewrite Hv by (unfold PGSIZE in *; lia).
    replace (_ =? _) with false by (unfold PGSIZE in *; lia). apply (ci_view _ _ _ H). unfold PGSIZE in *. lia.
  - intros a [[Ha|Ha]%elem_of_app|Ha]; apply (ci_from _ _ _ H); [by left|right|right; by apply (ge_list _ _ _ _ G)]. by apply list_elem_of_singleton in Ha as ->.
  - intros a. by apply (gentle_nodes s l P s' l').
  - intros a Ha. destruct (ci_used _ _ _ H a Ha) as [[HP|Hl]|Hn]; [left; left; set_solver| |right; by apply (ge_keep _ _ _ _ G)].
    destruct (Hu a Hl) as [->|[|]]; [left; left; set_solver|left; by right|by right].
  - intros x. by apply (gentle_frame s l P s' l').
Qed.

(** A page taken from the allocator and filled with the contents of page [pa]. *)
Lemma fresh_copy s q l pa : space s new (q :: l) ->
  let s2 := set_k_mem (memmove (k_mem (kalloc_post q s)) q pa PGSIZE) (kalloc_post q s) in
  mem_step s s2 /\ space s2 new l /\ (forall a, is_node (k_mem s2) new a <-> is_node (k_mem s) new a) /\ same_view (k_mem s) (k_mem s2) new /\
  (forall x, ~ (q <= x < q + PGSIZE) -> getb (k_mem s2) x = getb (k_mem s) x) /\
  (forall off, 0 <= off < PGSIZE -> page_aligned pa -> pa <> q -> getb (k_mem s2) (q + off) = u8 (getb (k_mem s) (pa + off))).
Proof.
  intros Hsp s2. destruct (space_kalloc s new q l Hsp) as (Hsp1 & Hs1 & _ & Hq & Hql & Hqn). set (s1 := kalloc_post q s) in *.
  assert (Hmv : forall x, ~ (q <= x < q + PGSIZE) -> getb (k_mem s2) x = getb (k_mem s1) x).
  { intros x Hx. unfold s2. cbn [k_mem set_k_mem]. rewrite getb_memmove by (unfold PGSIZE; lia). by if_lia. }
  assert (Hqn1 : ~ is_node (k_mem s1) new q) by (by rewrite (is_node_frame _ _ _ _ Hs1)).
  destruct (space_page s1 new l q (k_mem s2) Hsp1 (proj1 Hq) Hql Hqn1 Hmv) as [Hsp2 Hs2].
  split_and!.
  - transitivity s1; [apply mem_step_kalloc|apply mem_step_mem].
  - exact Hsp2.
  - intros a. by rewrite (is_node_frame _ _ _ a Hs2), (is_node_frame _ _ _ a Hs1).
  - intros va. by rewrite (view_frame _ _ _ va Hs2), (view_frame _ _ _ va Hs1).
  - intros x Hx. rewrite Hmv by done. by apply kalloc_post_mem.
  - intros off Ho Hpa Hne. unfold s2. cbn [k_mem set_k_mem]. rewrite getb_memmove by (unfold PGSIZE; lia). if_lia.
    replace (pa + (q + off - q)) with (pa + off) by lia. f_equal. apply kalloc_post_mem. intros Hin. destruct Hq as [Hq _].
    apply (page_disjoint pa q (pa + off) (pa + off)); [done|done|done|lia|done|done].
Qed.
Lemma flags_range v : 0 <= PTE_FLAGS v < 1024.
Proof. unfold PTE_FLAGS. change 0x3FF with (Z.ones 10). rewrite Z.land_ones by lia. change 1024 with (2 ^ 10). apply Z.mod_pos_bound. lia. Qed.
Lemma flags_valid v : valid v = true -> Z.lor (PTE_FLAGS v) PTE_V = PTE_FLAGS v.
Proof.
  unfold valid, ctrue. intros Hv. rewrite land_flags in Hv by done. set (f := PTE_FLAGS v) in *. change PTE_V with (2 ^ 0) in *. apply Z.bits_inj'. intros k Hk.
  rewrite Z.lor_spec, Z.pow2_bits_eqb by lia. bdestr (0 =? k); [subst k|apply orb_false_r]. rewrite orb_true_r. symmetry.
  destruct (Z.testbit f 0) eqn:E; [done|]. exfalso. apply negb_true_iff, Z.eqb_neq in Hv. apply Hv. apply Z.bits_inj'. intros k Hk2.
  rewrite Z.land_spec, Z.pow2_bits_eqb, Z.bits_0 by lia. bdestr (0 =? k); [subst k; by rewrite E|apply andb_false_r].
Qed.

Lemma view_page m pt va : view m pt va = view m pt (PGROUNDDOWN va).
Proof. unfold view, vpath. by rewrite !PX_of_page by lia. Qed.
(** mappages after that: one more page, or none. *)
Lemma map_copy s q l i f : space s new (q :: l) -> page_aligned i -> 0 <= i -> i + PGSIZE <= MAXVA -> 0 <= f < 1024 -> valid (view (k_mem s) new i) = false -> forall pa,
  let s2 := set_k_mem (memmove (k_mem (kalloc_post q s)) q pa PGSIZE) (kalloc_post q s) in
  exists r s3 l3, quiet (mappages new i PGSIZE q f) s2 r s3 /\ gentle s (q :: l) s3 l3 /\ space s3 new l3 /\ (q ∉ l3) /\ ~ is_node (k_mem s3) new q /\
    (forall a, a ∈ l -> a ∈ l3 \/ is_node (k_mem s3) new a) /\
    (forall off, 0 <= off < PGSIZE -> getb (k_mem s3) (q + off) = getb (k_mem s2) (q + off)) /\
    (r = 0 /\ (forall va, 0 <= va < MAXVA -> view (k_mem s3) new va = if PGROUNDDOWN va =? i then mkpte q f else view (k_mem s) new va) \/
     r = -1 /\ l3 = [] /\ (forall va, 0 <= va < MAXVA -> view (k_mem s3) new va = view (k_mem s) new va)) /\
    (length l + (if (r =? 0)%Z then 0 else 1) <= length l3 + 2)%nat.
Proof.
  intros Hsp Hi H0 Hmax Hf Hun pa s2. destruct (space_kalloc s new q l Hsp) as (_ & _ & _ & Hq & Hql & Hqn).
  destruct (fresh_copy s q l pa Hsp) as (Hst2 & Hsp2 & Hn2 & Hv2 & Hf2 & _). fold s2 in Hst2, Hsp2, Hn2, Hv2, Hf2.
  pose proof (ram_page_bound q Hq) as Hqb. clearbody s2.
  assert (Hnp : npages i PGSIZE = 1%nat).
  { unfold npages. rewrite (PGROUNDDOWN_id i Hi), (page_of (i + PGSIZE - 1) i) by (done || unfold PGSIZE; lia). rewrite Z.sub_diag. done. }
  destruct (mappages_spec s2 new l i PGSIZE q f Hsp2 H0 ltac:(unfold PGSIZE; lia) Hmax ltac:(lia)) as (r & s3 & l3 & k & Hq3 & Hg & Hv3 & Hr3 & Hcost).
  { rewrite Hnp. unfold PGSIZE. lia. }
  { rewrite Hnp, (PGROUNDDOWN_id i Hi). intros x Hx. rewrite Hv2. 
    rewrite view_page, (page_of x i Hi) by lia. done. }
  exists r, s3, l3. pose proof (gr_suffix _ _ _ _ _ Hg) as [used Hused].
  assert (Hq3n : ~ is_node (k_mem s3) new q) by (intros Hn; destruct (gr_new _ _ _ _ _ Hg q Hn) as [Hn'|]; [by apply Hqn, Hn2|done]).
  split; [done|]. split; [split|].
  - transitivity s2; [done|apply Hg].
  - intros a Ha. set_solver.
  - intros a Ha. destruct (gr_new _ _ _ _ _ Hg a Ha) as [Hn|Hl]; [left; by apply Hn2|right; by right].
  - intros a Ha. apply Hn2 in Ha as (p & Hp & Ha). exists p. split; [done|]. by apply (gr_old _ _ _ _ _ Hg).
  - intros x [Hx1 Hx2]. rewrite (gr_frame _ _ _ _ _ Hg); [apply Hf2|split; [set_solver|by rewrite Hn2]]. intros Hin. apply Hx1. rewrite (page_of x q (proj1 Hq) Hin). by left.
  - split; [apply Hg|]. split; [set_solver|]. split; [done|]. split; [apply Hg|]. split.
    + intros off Ho. apply (gr_frame _ _ _ _ _ Hg). split; rewrite (page_of _ q) by (apply Hq || lia); [done|by rewrite Hn2].
    + rewrite Hnp in Hcost. split; [|lia]. rewrite (PGROUNDDOWN_id i Hi) in Hv3. destruct Hr3 as [[-> ->]|(-> & Hk & Hl3)]; [left; split; [done|]|right; split; [done|split; [done|]]]; intros va Hva; rewrite Hv3, Hv2 by done.
      * rewrite Hnp. unfold mapped_view. pose proof (PGROUNDDOWN_range va). pose proof (PGROUNDDOWN_aligned va).
        replace ((i <=? va) && (va <? i + Z.of_nat 1 * PGSIZE)) with (PGROUNDDOWN va =? i) by (unfold page_aligned, PGSIZE in *; lia).
        bdestr (PGROUNDDOWN va =? i); [|done]. f_equal. lia.
      * rewrite Hnp in Hk. replace k with 0%nat by lia. unfold mapped_view. by if_lia.
Qed.

Lemma copy_step s l P (i := Z.of_nat (length P) * PGSIZE) : copying s l P -> (length P < n)%nat ->
  exists s1 l1, (copying s1 l1 P /\ (length l < 3)%nat /\ (length l1 <= 1)%nat /\ forall fuel sz, i < sz -> leads (uvmcopy_loop (S fuel) old new sz i) s (undo_copy i) s1) \/
  exists q, copying s1 l1 (P ++ [q]) /\ (length l <= length l1 + 3)%nat /\ forall fuel sz, i < sz -> leads (uvmcopy_loop (S fuel) old new sz i) s (uvmcopy_loop fuel old new sz (i + PGSIZE)) s1.
Proof.
  intros H Hlt. pose proof (cp_max Hc) as Hmax. assert (HM : MAXVA = 67108864 * PGSIZE) by done. pose proof (ci_space _ _ _ H) as Hsp.
  destruct l as [|q l].
  { exists s, []. left. split; [done|]. split; [cbn; lia|]. split; [cbn; lia|]. intros fuel sz Hi. eapply leads_trans; [by apply (copy_read s [] P)|].
    step_by ltac:(apply quiet_kalloc_none; apply Hsp). apply leads_refl. }
  destruct (cp_page Hc _ Hlt) as (Hv & Hleaf & Hpl & Hpn). fold i in Hv, Hleaf, Hpl, Hpn. set (v := view (k_mem s0) old i) in *.
  destruct (space_kalloc s new q l Hsp) as (_ & _ & Hqa & Hq & Hql & Hqn).
  assert (Hi : page_aligned i) by (unfold i, page_aligned, PGSIZE; lia).
  assert (Hi1 : 0 <= i /\ i + PGSIZE <= MAXVA) by (unfold i, PGSIZE in *; lia).
  assert (Hvi : valid (view (k_mem s) new i) = false) by (rewrite (ci_view _ _ _ H) by (unfold i, PGSIZE in *; lia); apply (cp_new Hc); unfold i, PGSIZE in *; lia).
  destruct (map_copy s q l i (PTE_FLAGS v) Hsp Hi ltac:(lia) ltac:(lia) (flags_range v) Hvi (PTE2PA v)) as (r3 & s3 & l3 & Hq3 & HG & Hsp3 & Hql3 & Hqn3 & Hu3 & Hd3 & Hr3 & Hcost).
  destruct (fresh_copy s q l (PTE2PA v) Hsp) as (_ & _ & _ & _ & _ & Hd2).
  set (s2 := set_k_mem (memmove (k_mem (kalloc_post q s)) q (PTE2PA v) PGSIZE) (kalloc_post q s)) in *.
  assert (Hrun : forall fuel sz, i < sz ->
    leads (uvmcopy_loop (S fuel) old new sz i) s (if negb (r3 =? 0) then kfree q ;; undo_copy i else uvmcopy_loop fuel old new sz (u64 (i + PGSIZE))) s3).
  { intros fuel sz Hsz. eapply leads_trans; [by apply (copy_read s (q :: l) P)|]. fold i v. step_by ltac:(exact Hqa).
    pose proof (ram_page_bound q Hq). replace (q =? 0) with false by lia. step_by ltac:(apply quiet_mem_write). step_by ltac:(exact Hq3). apply leads_refl. }
  destruct Hr3 as [[-> Hv3]|(-> & Hl3 & Hv3)].
  - exists s3, l3. right. exists q. destruct (mkpte_facts q (PTE_FLAGS v) (proj1 Hq) ltac:(pose proof (ram_page_bound q Hq); lia) (flags_range v)) as (F1 & F2 & F3 & _).
    assert (Hvq : view (k_mem s3) new i = mkpte q (PTE_FLAGS v)) by (rewrite Hv3, (PGROUNDDOWN_id i Hi), Z.eqb_refl by (unfold PGSIZE in *; lia); done).
    split.
    + apply (copying_add s (q :: l) P s3 l3 q H HG Hsp3 Hlt ltac:(by left)).
      * fold i. split; rewrite ?Hvq; [done| |done|done|done|done]. by rewrite F3, (flags_valid v Hv).
      * intros a [->|Ha]%elem_of_cons; [by left|right; auto].
      * exact Hv3.
      * intros off Ho. fold i v. assert (Hne : PTE2PA v <> q) by (intros Hx; apply Hpl; rewrite Hx; apply (ci_from _ _ _ H); right; by left).
        rewrite Hd3, (Hd2 off Ho (PTE2PA_aligned v) Hne) by done.
        f_equal. by apply (old_page s (q :: l) P (length P) off H Hlt).
    + split; [cbn [Z.eqb length] in *; lia|]. intros fuel sz Hsz. eapply leads_trans; [by apply Hrun|]. cbn [Z.eqb negb]. replace (u64 (i + PGSIZE)) with (i + PGSIZE) by (unfold PGSIZE in *; sz). apply leads_refl.
  - destruct (space_kfree s3 new l3 q Hsp3 Hq Hql3 Hqn3) as [Hsp4 Hs4]. exists (kfree_post q s3), (q :: l3). left. split; [|split; [rewrite Hl3 in Hcost; cbn [Z.eqb length] in *; lia|split; [cbn; rewrite Hl3; done|]]].
    + apply (copying_keep s (q :: l) P); [done| |done|..|lia].
      * destruct HG as [G1 G2 G3 G4 G5]. split.
        -- transitivity s3; [done|apply mem_step_kfree].
        -- intros a [->|Ha]%elem_of_cons; [by left|auto].
        -- intros a. rewrite (is_node_frame _ _ _ _ Hs4). apply G3.
        -- intros a Ha. rewrite (is_node_frame _ _ _ _ Hs4). auto.
        -- intros x Hx. rewrite <- G5 by done. apply kfree_post_mem. intros Hin. apply (proj1 Hx). rewrite (page_of x q (proj1 Hq) Hin). by left.
      * intros a [->|Ha]%elem_of_cons; [left; by left|]. rewrite (is_node_frame _ _ _ _ Hs4). destruct (Hu3 a Ha); [left; by right|by right].
      * intros va Hva. rewrite (view_frame _ _ _ va Hs4). by apply Hv3.
    + intros fuel sz Hsz. eapply leads_trans; [by apply Hrun|]. cbn [Z.eqb negb]. step_by ltac:(apply quiet_kfree; [done|apply Hsp3]). apply leads_refl.
Qed.

Lemma copy_loop m : forall fuel s l P sz, (n - length P = m)%nat -> (m < fuel)%nat -> (length P <= n)%nat -> copying s l P ->
  Z.of_nat n * PGSIZE - PGSIZE < sz <= Z.of_nat n * PGSIZE ->
  (exists s' l' Q, length Q = n /\ copying s' l' Q /\ quiet (uvmcopy_loop fuel old new sz (Z.of_nat (length P) * PGSIZE)) s 0 s') \/
  (exists s1 l1 Q, (length Q < n)%nat /\ copying s1 l1 Q /\ (length l1 <= 1)%nat /\ (length l + 3 * length P < 3 * S (length Q))%nat /\
     leads (uvmcopy_loop fuel old new sz (Z.of_nat (length P) * PGSIZE)) s (undo_copy (Z.of_nat (length Q) * PGSIZE)) s1).
Proof.
  induction m as [|m IH]; intros [|fuel] s l P sz Hm Hf Hle H Hsz; try lia.
  - left. exists s, l, P. split; [lia|]. split; [done|]. cbn [uvmcopy_loop]. replace (Z.of_nat (length P) * PGSIZE <? sz) with false by (replace (length P) with n by lia; lia). apply quiet_ret.
  - destruct (copy_step s l P H ltac:(lia)) as (s1 & l1 & [(H1 & Hl & Hl1 & Hk)|(q & H1 & Hl & Hk)]).
    + right. exists s1, l1, P. split_and!; [lia|done|done|lia|]. apply Hk. unfold PGSIZE in *. lia.
    + specialize (Hk fuel sz ltac:(unfold PGSIZE in *; lia)).
      destruct (IH fuel s1 l1 (P ++ [q]) sz) as [(s' & l' & Q & HQ & HcQ & Hq)|(s2 & l2 & Q & HQ & HcQ & Hl2 & HlQ & Hq)]; rewrite ?length_app; cbn [length]; try lia; [done|..];
        rewrite length_app in Hq; cbn [length] in Hq; replace (Z.of_nat (length P + 1) * PGSIZE) with (Z.of_nat (length P) * PGSIZE + PGSIZE) in Hq by (unfold PGSIZE; lia).
      * left. exists s', l', Q. split_and!; [done|done|]. by apply Hk.
      * right. exists s2, l2, Q. rewrite length_app in HlQ. cbn [length] in HlQ. split_and!; [done|done|done|lia|]. by eapply leads_trans.
Qed.

(** Giving up: every page is given back; with no page to give back, a panic. *)
Lemma undo_copy_frees s l q Q : copying s l (q :: Q) -> (length (q :: Q) <= n)%nat ->
  exists s', quiet (undo_copy (Z.of_nat (length (q :: Q)) * PGSIZE)) s (-1) s' /\ space s' new (rev (q :: Q) ++ l) /\
  (forall a, a ∈ l0 -> a ∈ rev (q :: Q) ++ l \/ is_node (k_mem s') new a) /\
  (forall va, 0 <= va < MAXVA -> if va <? Z.of_nat n * PGSIZE then valid (view (k_mem s') new va) = false else view (k_mem s') new va = view (k_mem s0) new va) /\
  (forall x, outside (k_mem s0) new l0 x -> getb (k_mem s') x = getb (k_mem s0) x).
Proof.
  intros H Hle. pose proof (cp_max Hc) as Hmax. cbn [length] in Hle.
  destruct (unmap_spec s new l 0 (Z.of_nat (length (q :: Q)) * PGSIZE) q Q) as (s' & Hq & _ & Hsp & Hn & Hv & Hf); [apply H|done|done|..|apply H|].
  { cbn [length]. unfold PGSIZE in *. lia. } { cbn [length]. unfold PGSIZE. lia. }
  exists s'. split_and!; [|done|..].
  - eapply quiet_bind; [exact Hq|apply quiet_ret].
  - intros a Ha. rewrite Hn. destruct (ci_used _ _ _ H a Ha) as [[HP|Hl]|]; [left|left|by right]; apply elem_of_app; [left|by right].
    apply list_elem_of_In. rewrite <- in_rev. by apply list_elem_of_In.
  - intros va Hva. rewrite Hv by done. replace (0 <=? va) with true by lia. cbn [andb]. bdestr (va <? 0 + Z.of_nat (S (length Q)) * PGSIZE).
    + replace (va <? _) with true by (unfold PGSIZE in *; lia). done.
    + rewrite (ci_view _ _ _ H) by (cbn [length]; lia). bdestr (va <? Z.of_nat n * PGSIZE); [|done]. apply (cp_new Hc). lia.
  - intros x Hx. rewrite Hf; [by apply (ci_frame _ _ _ H)|..].
    + intros HP. apply (proj1 Hx), (ci_from _ _ _ H). by left.
    + intros Hnx. destruct (ci_nodes _ _ _ H _ Hnx) as [|Hl]; [by apply (proj2 Hx)|by apply (proj1 Hx)].
Qed.
Lemma undo_copy_panics s l : copying s l [] -> (0 < n)%nat -> panics (undo_copy 0) s.
Proof.
  intros H Hn. pose proof (cp_max Hc) as Hmax. assert (Hv : valid (view (k_mem s) new 0) = false).
  { rewrite (ci_view _ _ _ H) by (cbn [length]; unfold PGSIZE in *; lia). apply (cp_new Hc). unfold PGSIZE in *. lia. }
  assert (Hl : forall fuel last, panics (uvmunmap_loop (S fuel) new 0 last true ;; mret (-1)) s).
  { intros fuel last lk Hlk env. cbn [uvmunmap_loop]. assert (Hw : quiet (walk new 0 false) s (leaf_slot (k_mem s) new 0) s) by (by apply quiet_walk_ro).
    destruct Hw as [_ Hw]. destruct (Hw lk Hlk) as (lk' & _ & Hr). unfold mbind, M_bind. rewrite Hr.
    unfold leaf_slot. unfold view in Hv. destruct (node (k_mem s) new (vpath 0)) as [b|]; [|by eexists _, _].
    destruct (slot b (PX 0 0) =? 0); [by eexists _, _|]. unfold mem_read, reads.
    change (k_mem (set_k_lk lk' s)) with (k_mem s). unfold valid, ctrue in Hv. apply negb_false_iff in Hv. rewrite Hv. by eexists _, _. }
  unfold undo_copy, uvmunmap, pages_fuel. cbv zeta. apply Hl.
Qed.
End Copy.

(** The pages of the first [sz] bytes. *)
Definition page_count (sz : Z) : nat := Z.to_nat ((sz + PGSIZE - 1) / PGSIZE).
Lemma uvmcopy_outcomes s old new l sz (n := page_count sz) : 0 <= sz -> copyable s old new l n ->
  (exists s' l' Q, length Q = n /\ copying s old new l s' l' Q /\ quiet (uvmcopy old new sz) s 0 s') \/
  (exists s1 l1 Q, (length Q < n)%nat /\ copying s old new l s1 l1 Q /\ (length l1 <= 1)%nat /\ (length l < 3 * S (length Q))%nat /\
     leads (uvmcopy old new sz) s (undo_copy new (Z.of_nat (length Q) * PGSIZE)) s1).
Proof.
  intros Hsz Hc. pose proof (cp_max _ _ _ _ _ Hc) as Hmax. assert (HM : MAXVA = 67108864 * PGSIZE) by done.
  replace (length l) with (length l + 3 * length (@nil Z))%nat by (cbn; lia).
  apply (copy_loop s old new l n Hc n _ s l [] sz); [cbn; lia| |cbn; lia|by apply (copying_start s old new l n)|].
  - rewrite HM, Z.div_mul by done. unfold n, page_count in *. unfold PGSIZE in *. lia.
  - unfold n, page_count, PGSIZE in *. lia.
Qed.
Lemma copied_page s old new l n s' l' Q va : copying s old new l s' l' Q -> copyable s old new l n -> length Q = n -> 0 <= va < Z.of_nat n * PGSIZE ->
  exists p, Q !! Z.to_nat (va / PGSIZE) = Some p /\ PGROUNDDOWN va = Z.of_nat (Z.to_nat (va / PGSIZE)) * PGSIZE /\
  valid (view (k_mem s') new va) = true /\ PTE_FLAGS (view (k_mem s') new va) = PTE_FLAGS (view (k_mem s) old va) /\ PTE2PA (view (k_mem s') new va) = p /\
  getb (k_mem s') (p + (va - PGROUNDDOWN va)) = u8 (getb (k_mem s) (PTE2PA (view (k_mem s) old va) + (va - PGROUNDDOWN va))).
Proof.
  intros H Hc HQ Hva. assert (Hlt : (Z.to_nat (va / PGSIZE) < length Q)%nat) by (unfold PGSIZE in *; lia).
  destruct (lookup_lt_is_Some_2 Q _ Hlt) as [p Hp]. exists p. set (t := Z.to_nat (va / PGSIZE)) in *.
  assert (Hd : PGROUNDDOWN va = Z.of_nat t * PGSIZE) by (rewrite PGROUNDDOWN_eq; unfold t, PGSIZE in *; lia).
  pose proof (ci_flags _ _ _ _ _ _ _ H t p Hp) as Hf. destruct (proj2 (ci_mapped _ _ _ _ _ _ _ H) t p Hp) as [_ _ _ Hram _ _].
  destruct (cp_page _ _ _ _ _ Hc t ltac:(lia)) as (Hvo & _). rewrite <- Hd in Hf, Hvo.
  destruct (mkpte_facts p (PTE_FLAGS (view (k_mem s) old (PGROUNDDOWN va))) (proj1 Hram) ltac:(pose proof (ram_page_bound p Hram); lia) (flags_range _)) as (F1 & F2 & F3 & _).
  rewrite (view_page (k_mem s')), (view_page (k_mem s)), Hf. split_and!; [done|done|done| |done|].
  - by rewrite F3, flags_valid.
  - rewrite Hd. apply (ci_data _ _ _ _ _ _ _ H t p); [done|]. rewrite <- Hd. pose proof (PGROUNDDOWN_range va). lia.
Qed.

(** C8. uvmcopy, the memory part of fork: with the pages of the first sz bytes of
    the old address space mapped, and none of them in the new one, one of three
    things happens.  It returns 0, and every address below sz is mapped in the new
    address space with the same permissions, to a page of its own taken from the
    free list, with the same contents.  Or it returns -1, memory having run out:
    fewer pages were free than three for each page to copy (a copy of it and the
    two levels of page table it can need), every page that was free is back on the
    free list or is a page of the new page table, the free list has no more pages
    than there are to copy, and no page is mapped.  Or it panics, which takes
    memory to run out with the first page, fewer than three pages being free.
    When it returns, nothing outside the free pages and the new page table has
    changed, so the old address space has not. *)
Theorem uvmcopy_copies s old new l sz :
  0 <= sz -> copyable s old new l (page_count sz) ->
  (exists s' l', quiet (uvmcopy old new sz) s 0 s' /\ space s' new l' /\ (forall x, outside (k_mem s) new l x -> getb (k_mem s') x = getb (k_mem s) x) /\
     (forall va, 0 <= va < sz -> let v := view (k_mem s) old va in let v' := view (k_mem s') new va in
        valid v' = true /\ PTE_FLAGS v' = PTE_FLAGS v /\ PTE2PA v' ∈ l /\ (PTE2PA v' ∉ l') /\ ~ is_node (k_mem s') new (PTE2PA v') /\
        getb (k_mem s') (PTE2PA v' + (va - PGROUNDDOWN va)) = u8 (getb (k_mem s) (PTE2PA v + (va - PGROUNDDOWN va)))) /\
     (forall va va', 0 <= va < sz -> 0 <= va' < sz -> PTE2PA (view (k_mem s') new va) = PTE2PA (view (k_mem s') new va') -> PGROUNDDOWN va = PGROUNDDOWN va')) \/
  (exists s' l', quiet (uvmcopy old new sz) s (-1) s' /\ space s' new l' /\ (forall x, outside (k_mem s) new l x -> getb (k_mem s') x = getb (k_mem s) x) /\
     (length l < 3 * page_count sz)%nat /\ (length l' <= page_count sz)%nat /\
     (forall a, a ∈ l -> a ∈ l' \/ is_node (k_mem s') new a) /\ forall va, 0 <= va < sz -> valid (view (k_mem s') new va) = false) \/
  (0 < sz /\ panics (uvmcopy old new sz) s /\ (length l < 3)%nat).
Proof.
  intros Hsz Hc. pose proof (cp_max _ _ _ _ _ Hc) as Hmax. assert (Hn : sz <= Z.of_nat (page_count sz) * PGSIZE) by (unfold page_count, PGSIZE; lia).
  destruct (uvmcopy_outcomes s old new l sz Hsz Hc) as [(s' & l' & Q & HQ & H & Hq)|(s1 & l1 & Q & HQ & H & Hl1 & Hl & Hq)].
  - left. exists s', l'. split; [done|]. split; [apply H|]. split; [apply H|]. split.
    + intros va Hva. destruct (copied_page _ _ _ _ _ _ _ _ va H Hc HQ ltac:(lia)) as (p & Hp & _ & H1 & H2 & H3 & H4). cbv zeta. rewrite H3.
      destruct (proj2 (ci_mapped _ _ _ _ _ _ _ H) _ p Hp) as [_ _ _ _ H5 H6]. split_and!; try done. apply (ci_from _ _ _ _ _ _ _ H). left. by eapply list_elem_of_lookup_2.
    + intros va va' Hva Hva'. destruct (copied_page _ _ _ _ _ _ _ _ va H Hc HQ ltac:(lia)) as (p & Hp & -> & _ & _ & -> & _).
      destruct (copied_page _ _ _ _ _ _ _ _ va' H Hc HQ ltac:(lia)) as (p' & Hp' & -> & _ & _ & -> & _). intros <-.
      by rewrite (NoDup_lookup _ _ _ _ (proj1 (ci_mapped _ _ _ _ _ _ _ H)) Hp Hp').
  - destruct Q as [|q Q]; right.
    + right. assert (0 < page_count sz)%nat as Hp by exact HQ. split; [clear - Hp Hsz; unfold page_count, PGSIZE in Hp; lia|]. split; [exact (proj2 Hq (undo_copy_panics s old new l _ Hc s1 l1 H Hp))|exact Hl].
    + left. destruct (undo_copy_frees s old new l _ Hc s1 l1 q Q H ltac:(lia)) as (s' & Hq' & Hsp & Hu & Hv & Hf).
      exists s', (rev (q :: Q) ++ l1). split; [by apply Hq|]. split; [done|]. split; [done|]. split; [lia|]. split; [rewrite length_app, length_rev; lia|]. split; [done|].
      intros va Hva. specialize (Hv va ltac:(lia)). replace (va <? _) with true in Hv by lia. done.
Qed.

(** C9. When no page is free, uvmcopy of a process that has memory does not return
    -1: to undo the nothing it has done it calls uvmunmap with size 0, which takes
    the range to end at the top of the address space, and panics. *)
Theorem uvmcopy_no_memory_panics s old new sz :
  0 < sz -> copyable s old new [] (page_count sz) -> panics (uvmcopy old new sz) s.
Proof.
  intros Hsz Hc. assert (Hn : (0 < page_count sz)%nat) by (unfold page_count, PGSIZE; lia).
  destruct (uvmcopy_outcomes s old new [] sz ltac:(lia) Hc) as [(s' & l' & Q & HQ & H & _)|(s1 & l1 & Q & HQ & H & _ & _ & Hq)];
    (assert (Q = []) as -> by (destruct Q as [|q Q]; [done|]; exfalso; assert (Hx : q ∈ []) by (apply (ci_from _ _ _ _ _ _ _ H); left; by left); by apply elem_of_nil in Hx)).
  - cbn in HQ. lia.
  - exact (proj2 Hq (undo_copy_panics s old new [] _ Hc s1 l1 H Hn)).
Qed.
End Uvm.

(** ** Witnesses: one page mapped at 0, and a second empty table *)
#[local] Existing Instance linker0.
Definition wnew : Z := 0x80031000.
Fixpoint chain_mem (l : list Z) : mem :=
  match l with a :: (b :: _) as l' => store64 (chain_mem l') a b | _ => ∅ end.
Definition pages_from (p : Z) (k : nat) : list Z := (fun i => p + Z.of_nat i * PGSIZE) <$> seq 0 k.
Definition free_state (k : nat) : kstate := set_k_freelist 0x80025000 (set_k_mem (chain_mem (pages_from 0x80025000 k)) kstate0).
Lemma free_state_zero k pg : (k = 2 \/ k = 6)%nat -> 0x8002b000 <= pg -> zero_page (k_mem (free_state k)) pg.
Proof.
  intros Hk Hp a Ha. destruct Hk as [-> | ->]; cbn [free_state k_mem set_k_mem set_k_freelist]; cbn [pages_from seq fmap list_fmap chain_mem]; unfold PGSIZE in *; rewrite ?getb_store_out by lia; by vm_compute.
Qed.
Lemma free_state_space k : (k = 2 \/ k = 6)%nat -> space (free_state k) wroot (pages_from 0x80025000 k).
Proof.
  intros Hk. split.
  - destruct Hk as [-> | ->]; (split; [vm_compute; repeat split|repeat constructor; vm_compute; congruence|repeat constructor; set_solver]).
  - exact (ready_boot Lkmem).
  - apply empty_wf; [by apply free_state_zero|apply wroot_ram].
  - intros a Ha. apply (empty_is_node _ _ _ (free_state_zero k wroot Hk ltac:(by vm_compute))) in Ha. subst. destruct Hk as [-> | ->]; unfold wroot; cbn; unfold PGSIZE; set_solver.
Qed.
Lemma pages_from_range p k a : a ∈ pages_from p k -> p <= a < p + Z.of_nat k * PGSIZE.
Proof. unfold pages_from. intros (i & -> & Hi%elem_of_seq)%list_elem_of_fmap. unfold PGSIZE. lia. Qed.
Lemma one_page k : (k = 2 \/ k = 6)%nat -> exists s l, quiet (mappages wroot 0 4096 upa PTE_WRXU) (free_state k) 0 s /\ copyable s wroot wnew l 1.
Proof.
  intros Hk. pose proof (free_state_space k Hk) as Hsp. pose proof (free_state_zero k wroot Hk ltac:(by vm_compute)) as Hz.
  destruct (mappages_spec (free_state k) wroot (pages_from 0x80025000 k) 0 4096 upa PTE_WRXU Hsp) as (r & s & l & j & Hq & Hg & Hv & Hr & _);
    [lia|lia|done|done|by vm_compute|intros x _; by rewrite (empty_view _ _ _ Hz)|].
  assert (r = 0) as ->.
  { destruct (quiet_runs _ _ _ _ Hq) as (lk & _ & Hrun). assert (done_value (mappages wroot 0 4096 upa PTE_WRXU (free_state k) []) = Some 0) as E by (destruct Hk as [-> | ->]; by vm_compute).
    rewrite Hrun in E. by injection E. }
  destruct Hr as [[_ ->]|[? _]]; [|done]. exists s, l. split; [done|]. destruct (gr_suffix _ _ _ _ _ Hg) as [used Hused].
  assert (Hin : forall a, a ∈ pages_from 0x80025000 k -> 0x80025000 <= a < 0x8002b000) by (intros a Ha%pages_from_range; unfold PGSIZE in *; lia).
  assert (Hl : forall a, a ∈ l -> 0x80025000 <= a < 0x8002b000) by (intros a Ha; apply Hin; rewrite Hused; apply elem_of_app; by right).
  assert (Hnode : forall a, is_node (k_mem s) wroot a -> a = wroot \/ 0x80025000 <= a < 0x8002b000).
  { intros a Ha. destruct (gr_new _ _ _ _ _ Hg a Ha) as [Hn|Hn]; [left; by apply (empty_is_node _ _ _ Hz)|right; by apply Hin]. }
  assert (Hz2 : zero_page (k_mem s) wnew).
  { intros a Ha. rewrite (gr_frame _ _ _ _ _ Hg); [by apply (free_state_zero k wnew Hk ltac:(by vm_compute))|]. unfold outside. rewrite (page_of a wnew) by done.
    split; [intros Hx; apply Hin in Hx; unfold wnew in Hx; lia|]. intros Hn. by apply (empty_is_node _ _ _ Hz) in Hn. }
  assert (Hn2 : forall a, is_node (k_mem s) wnew a -> a = wnew) by (intros a; by apply empty_is_node).
  split.
  - pose proof (gr_space _ _ _ _ _ Hg) as [S1 S2 S3 S4]. split; [done|done|apply empty_wf; [done|repeat split; vm_compute; congruence]|].
    intros a ->%Hn2 Hx. apply Hl in Hx. unfold wnew in Hx. lia.
  - apply Hg.
  - intros a Ha. split; [by apply (sp_sep _ _ _ (gr_space _ _ _ _ _ Hg))|]. intros ->%Hn2. destruct (Hnode _ Ha) as [|Hx]; [done|unfold wnew in Hx; lia].
  - intros t Ht. replace t with 0%nat by lia. change (Z.of_nat 0 * PGSIZE) with 0. rewrite Hv by done.
    assert (mapped_view (PGROUNDDOWN 0) (npages 0 4096) upa PTE_WRXU (view (k_mem (free_state k)) wroot 0) 0 = mkpte upa PTE_WRXU) as -> by (by vm_compute).
    cbv zeta. change (PTE2PA (mkpte upa PTE_WRXU)) with upa. split_and!; [by vm_compute|by vm_compute| |].
    + intros Hx. apply Hl in Hx. unfold upa in Hx. lia.
    + intros Hx. by apply Hn2 in Hx.
  - intros va _. by rewrite empty_view.
  - done.
Qed.
Definition copy_after_map : M Z := mappages wroot 0 4096 upa PTE_WRXU ;; uvmcopy wroot wnew 4096.
Lemma after_map {A} (c : M A) k s env : quiet (mappages wroot 0 4096 upa PTE_WRXU) (free_state k) 0 s ->
  exists lk, steady (k_lk s) lk /\ (mappages wroot 0 4096 upa PTE_WRXU ;; c) (free_state k) env = c (set_k_lk lk s) env.
Proof.
  intros Hq. pose proof Hq as [Hs _]. destruct (quiet_runs _ _ _ _ Hq) as (lk & Hlk & Hr). exists lk. split; [by transitivity (k_lk (free_state k))|]. unfold mbind, M_bind. by rewrite Hr.
Qed.

Lemma uvmcopy_copies_witness : exists s s', quiet (uvmcopy wroot wnew 4096) s 0 s' /\ valid (view (k_mem s') wnew 0) = true.
Proof.
  destruct (one_page 6 ltac:(by right)) as (s & l & Hq & Hc). destruct (after_map (uvmcopy wroot wnew 4096) 6 s [] Hq) as (lk & Hlk & Hrun).
  assert (E : done_value (copy_after_map (free_state 6) []) = Some 0) by (vm_compute; reflexivity).
  unfold copy_after_map in E. rewrite Hrun in E.
  destruct (uvmcopy_copies s wroot wnew l 4096 ltac:(lia) Hc) as [(s' & l' & H1 & _ & _ & H2 & _)|[(s' & l' & [_ H1] & _)|(_ & H1 & _)]].
  - exists s, s'. split; [exact H1|]. destruct (H2 0 ltac:(lia)) as (H3 & _). exact H3.
  - exfalso. destruct (H1 lk Hlk) as (lk' & _ & Hr). rewrite Hr in E. discriminate E.
  - exfalso. destruct (H1 lk Hlk []) as (msg & s' & Hr). rewrite Hr in E. discriminate E.
Defined.
Lemma uvmcopy_no_memory_panics_witness : exists s, panics (uvmcopy wroot wnew 4096) s.
Proof.
  destruct (one_page 2 ltac:(by left)) as (s & l & Hq & Hc). exists s.
  assert (l = []) as El.
  { destruct l as [|q l]; [reflexivity|]. exfalso. destruct (after_map kalloc 2 s [] Hq) as (lk & Hlk & Hrun).
    assert (E : done_value ((mappages wroot 0 4096 upa PTE_WRXU ;; kalloc) (free_state 2) []) = Some 0) by (vm_compute; reflexivity).
    rewrite Hrun in E. destruct (space_kalloc _ _ _ _ (cp_space _ _ _ _ _ Hc)) as (_ & _ & [_ Hk] & Hram & _). destruct (Hk lk Hlk) as (lk' & _ & Hr).
    rewrite Hr in E. injection E as E. apply ram_page_bound in Hram. lia. }
  rewrite El in Hc. apply (uvmcopy_no_memory_panics s wroot wnew 4096 ltac:(lia) Hc).
Defined.
