(* ===== verification/ProcProofs.v ===== *)
(** * Theorems about the process table: wakeup, kill, sleep, allocpid *)
From S2P Require Import Prelude Mem Riscv State Spinlock Kalloc Vm Proc.

(** ** Running critical sections on the table *)
Lemma quiet_get_proc s i p : k_procs s !! i = Some p -> quiet (get_proc i) s p s.
Proof.
  intros H. unfold get_proc. eapply quiet_bind; [apply quiet_reads, _|]. rewrite H. apply quiet_ret.
Qed.
Lemma quiet_upd_proc s i f : quiet (upd_proc i f) s tt (set_k_procs (alter f i (k_procs s)) s).
Proof. apply quiet_modify, _. Qed.

(** Inside a critical section. *)
Lemma hquiet_get_proc {B} l i p (k : proc -> M B) s b s2 :
  k_procs s !! i = Some p -> hquiet l (k p) s b s2 -> hquiet l (get_proc i ≫= k) s b s2.
Proof. intros H Hk. eapply hquiet_bind; [done|done|by apply quiet_get_proc|done]. Qed.
Lemma hquiet_upd_proc {B} l i f (k : unit -> M B) s b s2 :
  hquiet l (k tt) (set_k_procs (alter f i (k_procs s)) s) b s2 ->
  hquiet l (upd_proc i f ≫= k) s b s2.
Proof. intros Hk. by apply hquiet_modify; [apply _|done|]. Qed.
Lemma hquiet_when {B} l (c : bool) m m' (k : unit -> M B) s b s2 :
  (c = true -> hquiet l (m ≫= k) s b s2) -> (c = false -> hquiet l (k tt) s b s2) ->
  m' = when c m -> hquiet l (m' ≫= k) s b s2.
Proof.
  intros H1 H2 ->. destruct c; [by apply H1|].
  eapply hquiet_bind; [done|done|apply quiet_ret|by apply H2].
Qed.

(** All process locks can be taken at once. *)
Definition procs_ready (s : kstate) : Prop :=
  length (k_procs s) = NPROC /\ forall i, (i < NPROC)%nat -> ready s (Lproc i).

Lemma procs_ready_upd s ps :
  length ps = NPROC -> procs_ready s -> procs_ready (set_k_procs ps s).
Proof. intros Hl [_ H]. split; [done|]. intros i Hi. by apply (H i). Qed.
Lemma procs_ready_taken l s :
  (forall i, l <> Lproc i) -> procs_ready s -> procs_ready (taken l s).
Proof. intros Hl [H1 H2]. split; [done|]. intros i Hi. apply ready_taken; [done|by apply H2]. Qed.
Lemma set_procs_same s : set_k_procs (k_procs s) s = s.
Proof. by destruct s. Qed.

(** A fold over the table: each entry changed in turn. *)
Definition alters {A} (f : A -> A) (lo n : nat) (l : list A) : list A :=
  foldl (fun l i => alter f i l) l (seq lo n).
Lemma alters_S {A} (f : A -> A) lo n l : alters f lo (S n) l = alters f (S lo) n (alter f lo l).
Proof. done. Qed.
Lemma lookup_alters {A} (f : A -> A) n : forall lo l j,
  alters f lo n l !! j = if decide (lo <= j < lo + n)%nat then f <$> l !! j else l !! j.
Proof.
  induction n as [|n IH]; intros lo l j.
  - rewrite decide_False by lia. done.
  - rewrite alters_S, IH. destruct (decide (lo = j)) as [<-|].
    + rewrite decide_False by lia. rewrite decide_True by lia. apply list_lookup_alter_eq.
    + rewrite list_lookup_alter_ne by done. repeat case_decide; try done; lia.
Qed.
Lemma alters_all {A} (f : A -> A) (l : list A) : alters f 0 (length l) l = f <$> l.
Proof.
  apply list_eq. intros j. rewrite lookup_alters, list_lookup_fmap. case_decide; [done|].
  by rewrite lookup_ge_None_2 by lia.
Qed.
Lemma length_alters {A} (f : A -> A) lo n (l : list A) : length (alters f lo n l) = length l.
Proof. revert lo l. induction n; intros lo l; [done|]. rewrite alters_S, IHn. apply length_alter. Qed.

Lemma alter_id {A} (f : A -> A) (l : list A) i :
  (forall x, l !! i = Some x -> f x = x) -> alter f i l = l.
Proof.
  intros H. apply list_eq. intros j. destruct (decide (i = j)) as [<-|].
  - rewrite list_lookup_alter_eq. destruct (l !! i) as [x|] eqn:E; [|done]. cbn. f_equal. by apply H.
  - by rewrite list_lookup_alter_ne.
Qed.

(** ** wakeup *)
(** What wakeup(chan) does to one process. *)
Definition wake (c : chan) (p : proc) : proc :=
  if bool_decide (p_state p = SLEEPING) && bool_decide (p_chan p = c)
  then set_p_state RUNNABLE p else p.

Lemma quiet_wakeup_body c s i :
  procs_ready s -> (i < NPROC)%nat ->
  quiet (wakeup_body c i) s tt (set_k_procs (alter (wake c) i (k_procs s)) s).
Proof.
  intros [Hl Hr] Hi. destruct (lookup_lt_is_Some_2 (k_procs s) i) as [p Hp]; [lia|].
  unfold wakeup_body. apply quiet_acquire; [by apply Hr|].
  eapply hquiet_get_proc; [exact Hp|].
  rewrite (list_alter_insert _ _ _ _ Hp). unfold wake at 1.
  eapply hquiet_when; [| |done]; intros ->.
  - apply hquiet_upd_proc. rewrite (list_alter_insert _ _ _ _ Hp). by apply hquiet_end, Hr.
  - rewrite list_insert_id by done. rewrite set_procs_same. by apply hquiet_end, Hr.
Qed.

Lemma quiet_wakeup_loop c n : forall s lo,
  procs_ready s -> (lo + n <= NPROC)%nat ->
  quiet (for_loop lo n (wakeup_body c)) s tt (set_k_procs (alters (wake c) lo n (k_procs s)) s).
Proof.
  induction n as [|n IH]; intros s lo Hr Hn; cbn [for_loop].
  - cbn. rewrite set_procs_same. apply quiet_ret.
  - eapply quiet_bind; [apply quiet_wakeup_body; [done|lia]|].
    rewrite alters_S. refine (IH (set_k_procs (alter (wake c) lo (k_procs s)) s) (S lo) _ _); [|lia].
    apply procs_ready_upd; [|done]. rewrite length_alter. apply Hr.
Qed.

Lemma quiet_wakeup c s :
  procs_ready s -> quiet (wakeup c) s tt (set_k_procs (wake c <$> k_procs s) s).
Proof.
  intros Hr. pose proof (quiet_wakeup_loop c NPROC s 0 Hr ltac:(lia)) as H.
  destruct Hr as [Hl _]. rewrite <- Hl, alters_all in H. unfold wakeup. by rewrite <- Hl at 1.
Qed.

(** ** kill *)
Definition killed_proc (p : proc) : proc :=
  let p := set_p_killed 1 p in
  if bool_decide (p_state p = SLEEPING) then set_p_state RUNNABLE p else p.

Lemma quiet_kill_loop pid n : forall s lo,
  procs_ready s -> (lo + n = NPROC)%nat ->
  (exists i p, (lo <= i < NPROC)%nat /\ k_procs s !! i = Some p /\ p_pid p = pid /\
     (forall j q, (lo <= j < i)%nat -> k_procs s !! j = Some q -> p_pid q <> pid) /\
     quiet (kill_loop pid lo n) s 0 (set_k_procs (<[i := killed_proc p]> (k_procs s)) s)) \/
  ((forall j q, (lo <= j)%nat -> k_procs s !! j = Some q -> p_pid q <> pid) /\
   quiet (kill_loop pid lo n) s (-1) s).
Proof.
  induction n as [|n IH]; intros s lo Hr Hn; cbn [kill_loop].
  - right. split; [|apply quiet_ret]. intros j q Hj Hq. apply lookup_lt_Some in Hq.
    destruct Hr as [Hl _]. lia.
  - destruct Hr as [Hl Hr]. destruct (lookup_lt_is_Some_2 (k_procs s) lo) as [p Hp]; [lia|].
    bdestr (p_pid p =? pid).
    + left. exists lo, p. split_and!; [lia|lia|done|done|intros; lia|].
      apply quiet_acquire; [apply Hr; lia|]. eapply hquiet_get_proc; [exact Hp|].
      rewrite (proj2 (Z.eqb_eq _ _) E). apply hquiet_upd_proc.
      rewrite (list_alter_insert _ _ _ _ Hp).
      assert (Hin : <[lo := set_p_killed 1 p]> (k_procs s) !! lo = Some (set_p_killed 1 p))
        by (apply list_lookup_insert_eq; lia).
      unfold killed_proc. cbn zeta. change (p_state (set_p_killed 1 p)) with (p_state p).
      eapply hquiet_when; [| |done]; intros ->.
      * apply hquiet_upd_proc. cbn [k_procs set_k_procs].
        rewrite (list_alter_insert _ _ _ _ Hin), list_insert_insert_eq.
        apply hquiet_release; [apply (Hr lo); lia|apply quiet_ret].
      * apply hquiet_release; [apply (Hr lo); lia|apply quiet_ret].
    + assert (Hstep : forall r s', quiet (kill_loop pid (S lo) n) s r s' ->
        quiet (acquire (Lproc lo) ;; p ← get_proc lo;
          if p_pid p =? pid then
            upd_proc lo (set_p_killed 1) ;;
            when (bool_decide (p_state p = SLEEPING)) (upd_proc lo (set_p_state RUNNABLE)) ;;
            release (Lproc lo) ;; mret 0
          else release (Lproc lo) ;; kill_loop pid (S lo) n) s r s').
      { intros r s' Hq. apply quiet_acquire; [apply Hr; lia|].
        eapply hquiet_get_proc; [exact Hp|]. replace (p_pid p =? pid) with false by lia.
        apply hquiet_release; [apply Hr; lia|done]. }
      destruct (IH s (S lo)) as [(i & q & H1 & H2 & H3 & H4 & H5)|[H1 H2]]; [done|lia| |].
      * left. exists i, q. split_and!; [lia|lia|done|done| |by apply Hstep].
        intros j x Hj Hx. destruct (decide (j = lo)) as [->|]; [by simplify_eq|].
        apply (H4 j); [lia|done].
      * right. split; [|by apply Hstep]. intros j x Hj Hx.
        destruct (decide (j = lo)) as [->|]; [by simplify_eq|]. apply (H1 j); [lia|done].
Qed.

(** ** Properties *)
(** wakeup(chan) makes runnable exactly the processes that are sleeping on
    [chan]: every such entry of the table becomes RUNNABLE, nothing else in it
    changes, and no other process changes at all. *)
Lemma wakeup_wakes_sleepers c s :
  procs_ready s ->
  exists ps, quiet (wakeup c) s tt (set_k_procs ps s) /\ length ps = NPROC /\
    forall i p, k_procs s !! i = Some p ->
      ps !! i = Some (if decide (p_state p = SLEEPING /\ p_chan p = c) then set_p_state RUNNABLE p else p).
Proof.
  intros Hr. exists (wake c <$> k_procs s). split_and!.
  - by apply quiet_wakeup.
  - rewrite length_fmap. apply Hr.
  - intros i p Hp. rewrite list_lookup_fmap, Hp. cbn. f_equal. unfold wake.
    repeat case_bool_decide; case_decide; cbn; try done; naive_solver.
Qed.

(** kill(pid) finds the first process with that pid, marks it killed and, if
    it is asleep, makes it runnable so that it notices; it returns 0 and touches
    no other process.  Without such a process it returns -1 and changes
    nothing. *)
Lemma kill_marks_process pid s :
  procs_ready s ->
  (exists i p, k_procs s !! i = Some p /\ p_pid p = pid /\
     (forall j q, (j < i)%nat -> k_procs s !! j = Some q -> p_pid q <> pid) /\
     quiet (kill pid) s 0 (set_k_procs (<[i := set_p_killed 1
       (if decide (p_state p = SLEEPING) then set_p_state RUNNABLE p else p)]> (k_procs s)) s)) \/
  ((forall j q, k_procs s !! j = Some q -> p_pid q <> pid) /\ quiet (kill pid) s (-1) s).
Proof.
  intros Hr. destruct (quiet_kill_loop pid NPROC s 0 Hr ltac:(lia)) as [(i & p & Hi & Hp & Hpid & Hj & Hq)|[Hj Hq]].
  - left. exists i, p. split_and!; [done|done|intros j q Hji Hq'; apply (Hj j q); [lia|done]|].
    unfold killed_proc in Hq. cbn zeta in Hq. change (p_state (set_p_killed 1 p)) with (p_state p) in Hq.
    unfold kill. case_decide as E; [rewrite bool_decide_eq_true_2 in Hq by done|rewrite bool_decide_eq_false_2 in Hq by done];
      exact Hq.
  - right. split; [|done]. intros j q Hq'. apply (Hj j q); [lia|done].
Qed.

Definition wproc (st : procstate) (c : chan) (pid : Z) : proc :=
  set_p_state st (set_p_chan c (set_p_pid pid proc0)).
Definition wprocs : kstate :=
  set_k_procs (wproc SLEEPING CTicks 1 :: wproc SLEEPING CCons 2 :: wproc RUNNING CNull 3 :: replicate 7 proc0) kstate0.
Lemma wprocs_ready : procs_ready wprocs.
Proof. split; [done|]. intros i _. exact (ready_boot (Lproc i)). Qed.
Lemma wakeup_wakes_sleepers_witness :
  exists ps, quiet (wakeup CCons) wprocs tt (set_k_procs ps wprocs) /\
    ps !! 0%nat = Some (wproc SLEEPING CTicks 1) /\ ps !! 1%nat = Some (wproc RUNNABLE CCons 2).
Proof.
  destruct (wakeup_wakes_sleepers CCons wprocs wprocs_ready) as (ps & H1 & _ & H2).
  exists ps. split; [exact H1|]. split; [exact (H2 0%nat _ eq_refl)|exact (H2 1%nat _ eq_refl)].
Defined.
Lemma kill_marks_process_witness : quiet (kill 9) wprocs (-1) wprocs.
Proof.
  destruct (kill_marks_process 9 wprocs wprocs_ready) as [(i & p & Hp & Hpid & _)|[_ H]]; [|exact H].
  exfalso. do 10 (destruct i as [|i]; [injection Hp as <-; discriminate Hpid|]). discriminate Hp.
Defined.
