(* ===== verification/SleeplockProofs.v ===== *)
(** * Sleep locks: what one thread that never has to wait sees *)
From S2P Require Import Prelude Mem Riscv State Spinlock Kalloc Vm Proc ProcProofs Sleeplock.

(** A loop that is left at once does not depend on the schedule. *)
Lemma quiet_waiting {A} (loop : nat -> M A) (m : M A) s a s' :
  (forall n lk env, loop (S n) (set_k_lk lk s) env = m (set_k_lk lk s) env) ->
  quiet m s a s' -> quiet (waiting loop) s a s'.
Proof.
  intros Hm [H1 H2]. split; [done|]. intros lk Hlk. destruct (H2 lk Hlk) as (lk' & Hlk' & Hr).
  exists lk'. split; [done|]. intros env. unfold waiting. rewrite Hm. apply Hr.
Qed.

Lemma current_taken l s i : current s i -> current (taken l s) i.
Proof.
  intros (Hh & c & Hc & Hp). split; [by apply acq_hart_ok|].
  destruct Hh as (c0 & x & Hc0 & Hx & _). rewrite Hc in Hc0. injection Hc0 as <-.
  exists (push_cpu (sie x) c). split; [|done]. cbn. unfold acq_lk, push_lk. cbn.
  rewrite Hx. cbn. by destruct (sie x); cbn; rewrite list_lookup_alter_eq, Hc.
Qed.

(** [sl_map l f s]: the sleep lock [l] changed by [f]. *)
Definition sl_map (l : slid) (f : sleeplock -> sleeplock) (s : kstate) : kstate :=
  match l with
  | SBuf i => set_k_bufs (alter (fun b => set_b_lock (f (b_lock b)) b) i (k_bufs s)) s
  | SInode i => set_k_inodes (alter (fun ip => set_i_lock (f (i_lock ip)) ip) i (k_inodes s)) s
  end.
Definition sl_at (l : slid) (s : kstate) : option sleeplock :=
  match l with
  | SBuf i => b_lock <$> k_bufs s !! i
  | SInode i => i_lock <$> k_inodes s !! i
  end.

Lemma quiet_get_sl l s x : sl_at l s = Some x -> quiet (get_sl l) s x s.
Proof.
  destruct l as [i|i]; cbn; intros (b & Hb & ->)%fmap_Some;
    (eapply quiet_bind; [|apply quiet_ret]); unfold get_buf, get_inode;
    (eapply quiet_bind; [apply quiet_reads, _|]); rewrite Hb; apply quiet_ret.
Qed.
Lemma quiet_upd_sl l f s : quiet (upd_sl l f) s tt (sl_map l f s).
Proof. destruct l; apply quiet_modify, _. Qed.

Lemma sl_map_map l f g s : sl_map l f (sl_map l g s) = sl_map l (fun x => f (g x)) s.
Proof.
  destruct l as [i|i]; cbn.
  - unfold set_k_bufs. cbn. f_equal. apply list_alter_alter_eq.
  - unfold set_k_inodes. cbn. f_equal. apply list_alter_alter_eq.
Qed.
Lemma sl_map_ext l f g s :
  (forall x, sl_at l s = Some x -> f x = g x) -> sl_map l f s = sl_map l g s.
Proof.
  destruct l as [i|i]; cbn; intros H; f_equal; apply list_alter_ext; try done;
    intros x Hx; f_equal; apply H; by rewrite Hx.
Qed.
Lemma sl_map_taken l f l' s : sl_map l f (taken l' s) = taken l' (sl_map l f s).
Proof. by destruct l. Qed.
Lemma sl_map_lk l f s : k_lk (sl_map l f s) = k_lk s /\ k_hart (sl_map l f s) = k_hart s /\
  k_procs (sl_map l f s) = k_procs s.
Proof. by destruct l. Qed.
Lemma sl_map_ready l f s l' : ready s l' -> ready (sl_map l f s) l'.
Proof. by destruct l. Qed.
Lemma sl_map_procs_ready l f s : procs_ready s -> procs_ready (sl_map l f s).
Proof. intros [H1 H2]. destruct (sl_map_lk l f s) as (_ & _ & E). split; [by rewrite E|].
  intros i Hi. by apply sl_map_ready, H2. Qed.

(** The thread of process [i], whose pid is [pid]. *)
Record runner (s : kstate) (i : nat) (pid : Z) : Prop := {
  rn_current : current s i;
  rn_pid : exists p, k_procs s !! i = Some p /\ p_pid p = pid;
}.
Lemma runner_sl l f s i pid : runner s i pid -> runner (sl_map l f s) i pid.
Proof. intros [H1 H2]. by destruct l. Qed.
Lemma runner_taken l s i pid : runner s i pid -> runner (taken l s) i pid.
Proof. intros [H1 H2]. split; [by apply current_taken|done]. Qed.

(** A step inside a critical section that changes nothing, and one that
    changes a sleep lock. *)
Lemma hquiet_same {A B} l (m : M A) (k : A -> M B) s a b s2 :
  quiet m (taken l s) a (taken l s) -> hquiet l (k a) s b s2 -> hquiet l (m ≫= k) s b s2.
Proof. intros H1 H2. by eapply (hquiet_bind l m k s a s). Qed.
Lemma hquiet_sl {B} l l' f (k : unit -> M B) s b s2 :
  hquiet l (k tt) (sl_map l' f s) b s2 -> hquiet l (upd_sl l' f ≫= k) s b s2.
Proof.
  intros H. destruct (sl_map_lk l' f s) as (E1 & E2 & _).
  eapply (hquiet_bind l _ k s tt (sl_map l' f s)); [done|done| |done].
  rewrite <- sl_map_taken. apply quiet_upd_sl.
Qed.

Lemma sl_at_lk l lk s : sl_at l (set_k_lk lk s) = sl_at l s.
Proof. by destruct l. Qed.
Lemma get_sl_eq l s x env : sl_at l s = Some x -> get_sl l s env = Done x s env.
Proof.
  destruct l as [k|k]; cbn; intros (b & Hb & ->)%fmap_Some;
    unfold get_buf, get_inode, mbind, M_bind, reads; by rewrite Hb.
Qed.

Lemma quiet_acquiresleep l s i pid x :
  ready s (sl_spin l) -> runner s i pid -> sl_at l s = Some x -> sl_locked x = 0 ->
  quiet (acquiresleep l) s tt (sl_map l (fun _ => mk_sleeplock 1 pid) s).
Proof.
  intros Hr Hrn Hx Hx0. unfold acquiresleep. apply quiet_acquire; [done|].
  eapply hquiet_same.
  { eapply (quiet_waiting _ (mret tt)); [|apply quiet_ret]. intros n lk env. cbn [acquiresleep_loop].
    unfold mbind, M_bind. rewrite (get_sl_eq _ _ x); [|by rewrite !sl_at_lk]. by rewrite Hx0. }
  apply hquiet_sl. destruct (rn_pid _ _ _ Hrn) as (p & Hp & Hpid).
  eapply hquiet_same; [apply quiet_myproc, current_taken, (runner_sl l _ s i pid Hrn)|].
  eapply hquiet_get_proc; [destruct (sl_map_lk l (set_sl_locked 1) s) as (_ & _ & ->); exact Hp|].
  apply hquiet_sl. rewrite sl_map_map, Hpid. apply hquiet_end. by apply sl_map_ready.
Qed.

Lemma quiet_releasesleep l s :
  ready s (sl_spin l) -> procs_ready s ->
  quiet (releasesleep l) s tt
    (set_k_procs (wake (sl_chan l) <$> k_procs s) (sl_map l (fun _ => mk_sleeplock 0 0) s)).
Proof.
  intros Hr Hpr. unfold releasesleep. apply quiet_acquire; [done|].
  apply hquiet_sl, hquiet_sl. rewrite sl_map_map.
  change (fun _ : sleeplock => mk_sleeplock 0 0) with (fun x => set_sl_pid 0 (set_sl_locked 0 x)).
  set (s1 := sl_map l _ s). destruct (sl_map_lk l (fun x => set_sl_pid 0 (set_sl_locked 0 x)) s)
    as (G1 & G2 & G3). fold s1 in G1, G2, G3. rewrite <- G3.
  eapply (hquiet_bind _ _ _ _ tt (set_k_procs (wake (sl_chan l) <$> k_procs s1) s1)); [done|done| |].
  { apply (quiet_wakeup (sl_chan l) (taken (sl_spin l) s1)).
    apply procs_ready_taken; [by destruct l|]. by apply sl_map_procs_ready. }
  apply hquiet_end. by destruct l.
Qed.

Lemma quiet_holdingsleep l s i pid x :
  ready s (sl_spin l) -> runner s i pid -> sl_at l s = Some x ->
  quiet (holdingsleep l) s (if ctrue (sl_locked x) then b2z (sl_pid x =? pid) else 0) s.
Proof.
  intros Hr Hrn Hx. unfold holdingsleep. apply quiet_acquire; [done|].
  eapply hquiet_same; [apply (quiet_get_sl l (taken (sl_spin l) s) x); by destruct l|].
  eapply hquiet_same.
  { instantiate (1 := if ctrue (sl_locked x) then b2z (sl_pid x =? pid) else 0).
    destruct (ctrue (sl_locked x)); [|apply quiet_ret].
    destruct (rn_pid _ _ _ Hrn) as (p & Hp & <-).
    eapply quiet_bind; [apply quiet_myproc, current_taken, Hrn|].
    eapply quiet_bind; [by apply quiet_get_proc|]. apply quiet_ret. }
  apply hquiet_release; [done|apply quiet_ret].
Qed.
