(* ===== verification/BioProofs.v ===== *)
(** * The buffer cache: its LRU list and what its operations promise

    [lseg bs x l y]: from buffer [x], the [next] pointers lead through the list
    [l] to [y], and the [prev] pointers lead back.  [lru s l] is the whole cache
    list.  [AC] is the cache between the calls of one thread: which buffers are
    held ([H]), which blocks are pinned and with what contents ([P]), and that
    every other buffer can be recycled. *)
From S2P Require Import Prelude Mem Riscv State Spinlock Kalloc Vm Proc ProcProofs Sleeplock SleeplockProofs Bio.

(** ** The doubly linked list *)
Definition nextof (bs : list buf) (i : nat) : option nat := b_next <$> bs !! i.
Definition prevof (bs : list buf) (i : nat) : option nat := b_prev <$> bs !! i.
Fixpoint lseg (bs : list buf) (x : nat) (l : list nat) (y : nat) : Prop :=
  match l with
  | [] => nextof bs x = Some y /\ prevof bs y = Some x
  | b :: l' => nextof bs x = Some b /\ prevof bs b = Some x /\ lseg bs b l' y
  end.

Lemma lseg_app bs x l1 b l2 y :
  lseg bs x (l1 ++ b :: l2) y <-> lseg bs x l1 b /\ lseg bs b l2 y.
Proof.
  revert x. induction l1 as [|c l1 IH]; intros x; cbn.
  - naive_solver.
  - rewrite IH. naive_solver.
Qed.
Lemma lseg_snoc bs x l b y :
  lseg bs x (l ++ [b]) y <-> lseg bs x l b /\ nextof bs b = Some y /\ prevof bs y = Some b.
Proof. apply lseg_app. Qed.

(** Two tables whose links agree where the segment looks. *)
Lemma lseg_ext bs bs' x l y :
  (forall i, i ∈ x :: l -> nextof bs' i = nextof bs i) ->
  (forall i, i ∈ l ++ [y] -> prevof bs' i = prevof bs i) ->
  lseg bs x l y -> lseg bs' x l y.
Proof.
  revert x. induction l as [|b l IH]; intros x Hn Hp; cbn.
  - rewrite Hn, Hp; [done|set_solver|set_solver].
  - intros (H1 & H2 & H3). rewrite Hn, Hp; [|set_solver|set_solver].
    split_and!; [done|done|]. apply IH; [|..|done]; intros i Hi; [apply Hn|apply Hp]; set_solver.
Qed.

(** A buffer without its links. *)
Definition body (b : buf) : buf := set_b_prev 0 (set_b_next 0 b).
Definition same_links (bs bs' : list buf) : Prop :=
  forall i, nextof bs' i = nextof bs i /\ prevof bs' i = prevof bs i.
Definition same_bodies (bs bs' : list buf) : Prop :=
  forall i, body <$> bs' !! i = body <$> bs !! i.

Lemma lseg_same bs bs' x l y : same_links bs bs' -> lseg bs x l y -> lseg bs' x l y.
Proof. intros H. apply lseg_ext; intros i _; apply H. Qed.

Lemma nextof_alter bs i f j :
  (forall b, b_next (f b) = b_next b) -> nextof (alter f i bs) j = nextof bs j.
Proof.
  intros H. unfold nextof. destruct (decide (i = j)) as [<-|].
  - rewrite list_lookup_alter_eq. destruct (bs !! i); [|done]. cbn. by rewrite H.
  - by rewrite list_lookup_alter_ne.
Qed.
Lemma prevof_alter bs i f j :
  (forall b, b_prev (f b) = b_prev b) -> prevof (alter f i bs) j = prevof bs j.
Proof.
  intros H. unfold prevof. destruct (decide (i = j)) as [<-|].
  - rewrite list_lookup_alter_eq. destruct (bs !! i); [|done]. cbn. by rewrite H.
  - by rewrite list_lookup_alter_ne.
Qed.
Lemma nextof_set bs i v j : (i < length bs)%nat ->
  nextof (alter (set_b_next v) i bs) j = if decide (i = j) then Some v else nextof bs j.
Proof.
  intros Hi. unfold nextof. case_decide as E.
  - subst. rewrite list_lookup_alter_eq. by destruct (lookup_lt_is_Some_2 bs j Hi) as [b ->].
  - by rewrite list_lookup_alter_ne.
Qed.
Lemma prevof_set bs i v j : (i < length bs)%nat ->
  prevof (alter (set_b_prev v) i bs) j = if decide (i = j) then Some v else prevof bs j.
Proof.
  intros Hi. unfold prevof. case_decide as E.
  - subst. rewrite list_lookup_alter_eq. by destruct (lookup_lt_is_Some_2 bs j Hi) as [b ->].
  - by rewrite list_lookup_alter_ne.
Qed.
Lemma same_bodies_alter bs i f : (forall b, body (f b) = body b) -> same_bodies bs (alter f i bs).
Proof.
  intros H j. destruct (decide (i = j)) as [<-|].
  - rewrite list_lookup_alter_eq. destruct (bs !! i); [|done]. cbn. by rewrite H.
  - by rewrite list_lookup_alter_ne.
Qed.
Lemma same_bodies_trans bs1 bs2 bs3 : same_bodies bs1 bs2 -> same_bodies bs2 bs3 -> same_bodies bs1 bs3.
Proof. intros H1 H2 i. by rewrite H2, H1. Qed.

(** Unlinking [b] from between [p] and [n], and inserting it after the head:
    the six pointer updates at the end of brelse. *)
Definition unlink (b p n : nat) (bs : list buf) : list buf :=
  alter (set_b_next n) p (alter (set_b_prev p) n bs).
Definition push_front (b h0 : nat) (bs : list buf) : list buf :=
  alter (set_b_next b) bhead (alter (set_b_prev b) h0
    (alter (set_b_prev bhead) b (alter (set_b_next h0) b bs))).

Lemma same_bodies_unlink b p n bs : same_bodies bs (unlink b p n bs).
Proof.
  unfold unlink. eapply same_bodies_trans; [|by apply same_bodies_alter]. by apply same_bodies_alter.
Qed.
Lemma same_bodies_push b h0 bs : same_bodies bs (push_front b h0 bs).
Proof.
  unfold push_front. do 3 (eapply same_bodies_trans; [|by apply same_bodies_alter]).
  by apply same_bodies_alter.
Qed.

(** The links seen from the ends of a segment. *)
Lemma lseg_first bs x l y : lseg bs x l y -> nextof bs x = Some (hd y l).
Proof. destruct l; cbn; naive_solver. Qed.
Lemma lseg_last bs x l y : lseg bs x l y -> prevof bs y = Some (default x (list.last l)).
Proof.
  destruct l as [|b l] using rev_ind; cbn; [naive_solver|].
  rewrite lseg_snoc, list.last_snoc. naive_solver.
Qed.

(** Removing [b], wherever it is. *)
Lemma lseg_unlink bs l1 b l2 :
  length bs = S NBUF -> (forall i, i ∈ l1 ++ b :: l2 -> (i < NBUF)%nat) ->
  NoDup (l1 ++ b :: l2) -> lseg bs bhead (l1 ++ b :: l2) bhead ->
  lseg (unlink b (default bhead (list.last l1)) (hd bhead l2) bs) bhead (l1 ++ l2) bhead.
Proof.
  intros Hlen Hlt Hnd Hseg. set (p := default bhead (list.last l1)). set (n := hd bhead l2).
  apply lseg_app in Hseg as [H1 H2].
  assert (Hp : (p < S NBUF)%nat).
  { unfold p. destruct (list.last l1) as [z|] eqn:E; cbn; [|unfold bhead; lia].
    apply list.last_Some_elem_of in E. pose proof (Hlt z ltac:(set_solver)). lia. }
  assert (Hn : (n < S NBUF)%nat).
  { unfold n. destruct l2 as [|z l2]; cbn; [unfold bhead; lia|].
    pose proof (Hlt z ltac:(set_solver)). lia. }
  assert (Hnx : forall i, nextof (unlink b p n bs) i = if decide (p = i) then Some n else nextof bs i).
  { intros i. unfold unlink. rewrite nextof_set by (rewrite length_alter; lia).
    case_decide; [done|]. by apply nextof_alter. }
  assert (Hpv : forall i, prevof (unlink b p n bs) i = if decide (n = i) then Some p else prevof bs i).
  { intros i. unfold unlink. rewrite prevof_alter by done. by apply prevof_set; lia. }
  apply list.NoDup_app in Hnd as (Nd1 & Hd & Nd2). apply list.NoDup_cons in Nd2 as [Hb2 Nd2].
  assert (Hh : bhead ∉ l1 ++ b :: l2).
  { intros Hi. pose proof (Hlt _ Hi). unfold bhead in *. lia. }
  assert (Hmid : nextof (unlink b p n bs) p = Some n /\ prevof (unlink b p n bs) n = Some p).
  { rewrite Hnx, Hpv. by rewrite !decide_True. }
  (* before [p] and after [n] nothing changes *)
  assert (Hpre : forall l z, l1 = l ++ [z] -> lseg bs bhead l z -> lseg (unlink b p n bs) bhead l z).
  { intros l z -> Hl. unfold p in *. rewrite list.last_snoc in *. cbn in *.
    apply list.NoDup_app in Nd1 as (_ & Nz & _).
    apply (lseg_ext bs); [| |done]; intros i Hi; rewrite ?Hnx, ?Hpv; apply decide_False.
    - set_solver.
    - unfold n. destruct l2 as [|w l2]; cbn; set_solver. }
  assert (Hpost : forall w l, l2 = w :: l -> lseg bs w l bhead -> lseg (unlink b p n bs) w l bhead).
  { intros w l -> Hl. apply list.NoDup_cons in Nd2 as [Nw _].
    apply (lseg_ext bs); [| |done]; intros i Hi; rewrite ?Hnx, ?Hpv; apply decide_False.
    - unfold p. destruct l1 as [|z l1] using rev_ind; [cbn; set_solver|].
      rewrite list.last_snoc. cbn. set_solver.
    - unfold n. cbn. set_solver. }
  destruct l1 as [|z l1 _] using rev_ind; destruct l2 as [|w l2].
  - exact Hmid.
  - destruct H2 as (_ & _ & H2). split_and!; [apply Hmid|apply Hmid|]. by apply Hpost.
  - apply lseg_snoc in H1 as [H1 _]. rewrite app_nil_r. apply lseg_snoc.
    unfold p in *. rewrite list.last_snoc in *. split; [by apply Hpre|apply Hmid].
  - apply lseg_snoc in H1 as [H1 _]. destruct H2 as (_ & _ & H2). rewrite <- app_assoc.
    apply lseg_app. unfold p in *. rewrite list.last_snoc in *. split; [by apply Hpre|].
    cbn. split_and!; [apply Hmid|apply Hmid|]. by apply Hpost.
Qed.

Lemma lseg_push bs l b :
  length bs = S NBUF -> (b < NBUF)%nat -> b ∉ l -> bhead ∉ l ->
  (forall i, i ∈ l -> (i < NBUF)%nat) -> NoDup l ->
  lseg bs bhead l bhead -> lseg (push_front b (hd bhead l) bs) bhead (b :: l) bhead.
Proof.
  intros Hlen Hb Hbl Hhl Hlt Hnd Hseg. set (h0 := hd bhead l).
  assert (Hh0 : (h0 < S NBUF)%nat).
  { unfold h0. destruct l as [|z l]; cbn; [unfold bhead; lia|]. pose proof (Hlt z ltac:(set_solver)). lia. }
  assert (Hbh : b <> bhead) by (unfold bhead; lia).
  assert (Hh0b : h0 <> b) by (unfold h0; destruct l; cbn; set_solver).
  assert (Hnx : forall i, nextof (push_front b h0 bs) i =
    if decide (bhead = i) then Some b else if decide (b = i) then Some h0 else nextof bs i).
  { intros i. unfold push_front. rewrite nextof_set by (rewrite !length_alter; unfold bhead; lia).
    case_decide; [done|]. rewrite !nextof_alter by done. apply nextof_set. lia. }
  assert (Hpv : forall i, prevof (push_front b h0 bs) i =
    if decide (h0 = i) then Some b else if decide (b = i) then Some bhead else prevof bs i).
  { intros i. unfold push_front. rewrite prevof_alter by done.
    rewrite prevof_set by (rewrite !length_alter; lia). case_decide; [done|].
    rewrite prevof_set by (rewrite length_alter; lia). case_decide; [done|]. by apply prevof_alter. }
  cbn. rewrite Hnx, Hpv. rewrite decide_True by done. rewrite decide_False by done.
  rewrite decide_True by done. split_and!; [done|done|].
  destruct l as [|z l]; cbn in *.
  - rewrite Hnx, Hpv, decide_False, !decide_True by done. done.
  - unfold h0 in *. destruct Hseg as (_ & _ & Hseg). apply list.NoDup_cons in Hnd as [Hz _].
    rewrite Hnx, Hpv, decide_False, !decide_True by done. split_and!; [done|done|].
    apply (lseg_ext bs); [| |done]; intros i Hi; rewrite ?Hnx, ?Hpv; rewrite !decide_False; set_solver.
Qed.

(** ** Searching the list *)
Definition sat (bs : list buf) (P : buf -> bool) (i : nat) : bool :=
  match bs !! i with Some b => P b | None => false end.
Definition key_is (d n : Z) (b : buf) : bool := (b_dev b =? d) && (b_blockno b =? n).

Lemma quiet_get_buf s i b : k_bufs s !! i = Some b -> quiet (get_buf i) s b s.
Proof.
  intros H. unfold get_buf. eapply quiet_bind; [apply quiet_reads, _|]. rewrite H. apply quiet_ret.
Qed.
Lemma nextof_Some bs i j : nextof bs i = Some j -> exists b, bs !! i = Some b /\ b_next b = j.
Proof. intros (b & Hb & ->)%fmap_Some. eauto. Qed.
Lemma prevof_Some bs i j : prevof bs i = Some j -> exists b, bs !! i = Some b /\ b_prev b = j.
Proof. intros (b & Hb & ->)%fmap_Some. eauto. Qed.

Lemma quiet_bget_find s d n l : forall fuel x,
  lseg (k_bufs s) x l bhead -> bhead ∉ l -> (length l < fuel)%nat ->
  quiet (bget_find fuel (hd bhead l) d n) s (List.find (sat (k_bufs s) (key_is d n)) l) s.
Proof.
  induction l as [|b l IH]; intros [|fuel] x Hs Hh Hf; cbn [hd bget_find List.find]; try (cbn in Hf; lia).
  - rewrite decide_True by done. apply quiet_ret.
  - rewrite decide_False by set_solver. destruct Hs as (_ & _ & Hs).
    pose proof (lseg_first _ _ _ _ Hs) as Hn. apply nextof_Some in Hn as (y & Hy & Hny).
    eapply quiet_bind; [by apply quiet_get_buf|].
    unfold sat at 1. rewrite Hy. unfold key_is at 1. destruct (_ && _); [apply quiet_ret|].
    rewrite Hny. apply (IH _ b); [done|set_solver|cbn in Hf; lia].
Qed.
Lemma quiet_bget_free s l : forall fuel y,
  lseg (k_bufs s) bhead l y -> bhead ∉ l -> (length l < fuel)%nat ->
  quiet (bget_free fuel (default bhead (list.last l))) s
    (List.find (sat (k_bufs s) (fun b => b_refcnt b =? 0)) (rev l)) s.
Proof.
  induction l as [|b l IH] using rev_ind; intros [|fuel] y Hs Hh Hf; try lia.
  - cbn. rewrite decide_True by done. apply quiet_ret.
  - apply lseg_snoc in Hs as (Hs & Hnb & _). rewrite list.last_snoc, rev_app_distr.
    cbn [default rev app bget_free List.find]. rewrite decide_False by set_solver.
    pose proof (lseg_last _ _ _ _ Hs) as Hp. apply prevof_Some in Hp as (z & Hz & Hpz).
    eapply quiet_bind; [by apply quiet_get_buf|].
    unfold sat at 1. rewrite Hz. destruct (b_refcnt z =? 0); [apply quiet_ret|].
    rewrite length_app in Hf. cbn in Hf. rewrite Hpz.
    apply (IH _ b); [done|set_solver|lia].
Qed.

(** ** The disk driver's promise *)
Definition block_of (s : kstate) (k : Z * Z) : list Z :=
  default (replicate (Z.to_nat BSIZE) 0) (k_disk s !! k).
Definition key (b : buf) : Z * Z := (b_dev b, b_blockno b).

(** Everything the thread of process [i] needs to run without waiting. *)
Record io_ctx (s : kstate) (i : nat) (pid : Z) : Prop := {
  io_ready : forall l, ready s l;
  io_procs : length (k_procs s) = NPROC;
  io_run : runner s i pid;
  io_bufs : length (k_bufs s) = S NBUF;
}.

(** The state after a request: a read fills the buffer, a write stores its
    data in the block and is recorded. *)
Definition disk_done (dev : Z) (b : nat) (write : bool) (x : buf) (s : kstate) : kstate :=
  if write then
    set_k_dwrites (k_dwrites s ++ [(dev, b_blockno x, b_data x)])
      (set_k_disk (<[(dev, b_blockno x) := b_data x]> (k_disk s)) s)
  else set_k_bufs (alter (set_b_data (block_of s (dev, b_blockno x))) b (k_bufs s)) s.

(** A driver that has performed the request when it returns. *)
Class DiskLaws `{DD : DiskDriver} : Prop := disk_law : forall s i pid dev b write x,
  io_ctx s i pid -> k_bufs s !! b = Some x ->
  quiet (virtio_disk_rw dev b write) s tt (disk_done dev b write x s).

Section BioProofs.
Context `{DL : DiskLaws}.

(** The thread changes nothing but buffers, disk, and who is runnable. *)
Definition io_frame (s s' : kstate) : Prop :=
  exists ps bs dk dw,
    s' = set_k_procs ps (set_k_bufs bs (set_k_disk dk (set_k_dwrites dw s))) /\
    p_pid <$> ps = p_pid <$> k_procs s /\ length bs = length (k_bufs s).

#[local] Instance io_frame_preorder : PreOrder io_frame.
Proof.
  split.
  - intros s. exists (k_procs s), (k_bufs s), (k_disk s), (k_dwrites s). by destruct s.
  - intros s1 s2 s3 (ps & bs & dk & dw & -> & H1 & H2) (ps' & bs' & dk' & dw' & -> & H3 & H4).
    exists ps', bs', dk', dw'. split_and!; [done|by rewrite H3|by rewrite H4].
Qed.
Lemma io_frame_ctx s s' i pid : io_frame s s' -> io_ctx s i pid -> io_ctx s' i pid.
Proof.
  intros (ps & bs & dk & dw & -> & H1 & H2) [A1 A2 [A3 (p & Hp & Hpid)] A4]. split.
  - exact A1.
  - cbn. rewrite <- (length_fmap p_pid), H1, length_fmap. done.
  - split; [exact A3|]. cbn. assert ((p_pid <$> ps) !! i = Some pid) as E.
    { rewrite H1, list_lookup_fmap, Hp. by subst. }
    rewrite list_lookup_fmap in E. apply fmap_Some in E as (q & Hq & ->). eauto.
  - cbn. by rewrite H2.
Qed.
Lemma io_frame_bufs s bs : length bs = length (k_bufs s) -> io_frame s (set_k_bufs bs s).
Proof.
  intros H. exists (k_procs s), bs, (k_disk s), (k_dwrites s). split_and!; [by destruct s|done|done].
Qed.
Lemma io_frame_wake s c bs :
  length bs = length (k_bufs s) ->
  io_frame s (set_k_procs (wake c <$> k_procs s) (set_k_bufs bs s)).
Proof.
  intros H. exists (wake c <$> k_procs s), bs, (k_disk s), (k_dwrites s).
  split_and!; [by destruct s| |done].
  rewrite <- list_fmap_compose. apply list_fmap_ext. intros j x _. cbn. unfold wake. by destruct (_ && _).
Qed.

(** ** The cache between calls *)
(** [P] gives, for the blocks whose buffer must not be recycled, the extra
    references to it and its contents.  A logged block has one extra reference;
    [-1] is the state a block is left in by a bunpin without a bpin. *)
Definition pin (P : gmap (Z * Z) (Z * list Z)) (k : Z * Z) : Z :=
  match P !! k with Some (c, _) => c | None => 0 end.
Definition buf_ok (s : kstate) (pid : Z) (P : gmap (Z * Z) (Z * list Z)) (held : Prop) (x : buf) : Prop :=
  (held -> b_lock x = mk_sleeplock 1 pid /\ b_valid x <> 0 /\ b_refcnt x = u32 (1 + pin P (key x))) /\
  (~ held -> sl_locked (b_lock x) = 0 /\ b_refcnt x = u32 (pin P (key x)) /\
     match P !! key x with
     | Some (_, d) => b_valid x <> 0 /\ b_data x = d
     | None => b_valid x <> 0 -> b_data x = block_of s (key x)
     end).

Record AC (s : kstate) (i : nat) (pid : Z) (l : list nat) (P : gmap (Z * Z) (Z * list Z)) (H : gset nat) :
    Prop := {
  ac_ctx : io_ctx s i pid;
  ac_ring : lseg (k_bufs s) bhead l bhead;
  ac_perm : l ≡ₚ seq 0 NBUF;
  ac_uniq : forall a b x y, (a < NBUF)%nat -> (b < NBUF)%nat ->
    k_bufs s !! a = Some x -> k_bufs s !! b = Some y -> key x = key y -> key x <> (0, 0) -> a = b;
  ac_buf : forall j x, (j < NBUF)%nat -> k_bufs s !! j = Some x -> buf_ok s pid P (j ∈ H) x;
  ac_pins : forall k c d, P !! k = Some (c, d) ->
    k <> (0, 0) /\ (c = 1 \/ c = -1) /\ exists j x, (j < NBUF)%nat /\ k_bufs s !! j = Some x /\ key x = k;
  ac_held : forall j, j ∈ H -> (j < NBUF)%nat;
}.

Lemma ac_pin s i pid l P H k : AC s i pid l P H ->
  (pin P k = -1 \/ pin P k = 0 \/ pin P k = 1) /\ (pin P k = 0 <-> P !! k = None).
Proof.
  intros A. unfold pin. destruct (P !! k) as [[c d]|] eqn:E; [|naive_solver].
  destruct (ac_pins _ _ _ _ _ _ A k c d E) as (_ & Hc & _). split; [lia|]. split; [lia|done].
Qed.
Lemma ac_mem s i pid l P H j : AC s i pid l P H -> j ∈ l <-> (j < NBUF)%nat.
Proof. intros A. rewrite (ac_perm _ _ _ _ _ _ A), elem_of_seq. lia. Qed.
Lemma ac_head s i pid l P H : AC s i pid l P H -> (bhead ∉ l) /\ (length l < S NBUF)%nat.
Proof.
  intros A. split.
  - rewrite (ac_mem _ _ _ _ _ _ _ A). unfold bhead. lia.
  - rewrite (ac_perm _ _ _ _ _ _ A), length_seq. lia.
Qed.
Lemma ac_lookup s i pid l P H j : AC s i pid l P H -> (j <= NBUF)%nat -> exists x, k_bufs s !! j = Some x.
Proof.
  intros A Hj. apply lookup_lt_is_Some_2. rewrite (io_bufs _ _ _ (ac_ctx _ _ _ _ _ _ A)). lia.
Qed.

Lemma find_none_sat bs P l : List.find (sat bs P) l = None ->
  forall j x, j ∈ l -> bs !! j = Some x -> P x = false.
Proof.
  intros H j x Hj Hx. rewrite list_elem_of_In in Hj. pose proof (find_none _ _ H _ Hj) as E.
  unfold sat in E. by rewrite Hx in E.
Qed.
Lemma find_some_sat bs P l j : List.find (sat bs P) l = Some j ->
  j ∈ l /\ exists x, bs !! j = Some x /\ P x = true.
Proof.
  intros [Hj E]%find_some. rewrite <- list_elem_of_In in Hj. unfold sat in E.
  destruct (bs !! j) as [x|] eqn:Hx; [|done]. eauto.
Qed.
Lemma key_is_true d n x : key_is d n x = true <-> key x = (d, n).
Proof. unfold key_is, key. rewrite andb_true_iff, !Z.eqb_eq. naive_solver. Qed.

(** A buffer taken for block [(d, n)]. *)
Definition got (pid d n : Z) (x y : buf) : Prop :=
  (key x = (d, n) /\ y = set_b_lock (mk_sleeplock 1 pid) (set_b_refcnt (u32 (b_refcnt x + 1)) x)) \/
  (b_refcnt x = 0 /\
   y = mk_buf 0 (b_disk x) d n (mk_sleeplock 1 pid) 1 (b_prev x) (b_next x) (b_data x)).

Lemma hquiet_upd_buf {B} l j f (k : unit -> M B) s b s2 :
  hquiet l (k tt) (set_k_bufs (alter f j (k_bufs s)) s) b s2 -> hquiet l (upd_buf j f ≫= k) s b s2.
Proof. intros Hk. by apply hquiet_modify; [apply _|done|]. Qed.
Lemma hquiet_get_buf {B} l j x (k : buf -> M B) s b s2 :
  k_bufs s !! j = Some x -> hquiet l (k x) s b s2 -> hquiet l (get_buf j ≫= k) s b s2.
Proof. intros Hx Hk. eapply hquiet_same; [|done]. by apply quiet_get_buf. Qed.

Lemma quiet_take_buf s i pid b f x :
  io_ctx s i pid -> k_bufs s !! b = Some x -> sl_locked (b_lock (f x)) = 0 ->
  hquiet Lbcache (upd_buf b f ;; release Lbcache ;; acquiresleep (SBuf b) ;; mret b) s b
    (set_k_bufs (<[b := set_b_lock (mk_sleeplock 1 pid) (f x)]> (k_bufs s)) s).
Proof.
  intros Hc Hx Hl. apply hquiet_upd_buf. rewrite (list_alter_insert _ _ _ _ Hx).
  set (s1 := set_k_bufs _ s). assert (Hb : (b < length (k_bufs s))%nat) by by eapply lookup_lt_Some.
  assert (Hx1 : k_bufs s1 !! b = Some (f x)) by by apply list_lookup_insert_eq.
  apply hquiet_release; [apply (io_ready _ _ _ Hc)|].
  eapply quiet_bind; [eapply (quiet_acquiresleep (SBuf b) s1 i pid (b_lock (f x)))|].
  - apply (io_ready _ _ _ Hc).
  - destruct (io_run _ _ _ Hc) as [R1 R2]. split; [exact R1|exact R2].
  - cbn [sl_at]. by rewrite Hx1.
  - done.
  - cbn [sl_map]. rewrite (list_alter_insert _ _ _ _ Hx1). cbn [k_bufs set_k_bufs s1].
    rewrite list_insert_insert_eq. apply quiet_ret.
Qed.

(** The head's links, as the searches read them. *)
Lemma ac_head_links s i pid l P H : AC s i pid l P H -> exists h, k_bufs s !! bhead = Some h /\
  b_next h = hd bhead l /\ b_prev h = default bhead (list.last l).
Proof.
  intros A. pose proof (ac_ring _ _ _ _ _ _ A) as Hring.
  pose proof (lseg_first _ _ _ _ Hring) as E1. apply nextof_Some in E1 as (h & Hh & <-).
  pose proof (lseg_last _ _ _ _ Hring) as E2. apply prevof_Some in E2 as (z & Hz & <-).
  exists h. by simplify_eq.
Qed.

Lemma bget_hit s i pid l P H d n b x :
  AC s i pid l P H -> List.find (sat (k_bufs s) (key_is d n)) l = Some b ->
  k_bufs s !! b = Some x -> b ∉ H -> (b < NBUF)%nat ->
  quiet (bget d n) s b (set_k_bufs (<[b := set_b_lock (mk_sleeplock 1 pid)
    (set_b_refcnt (u32 (b_refcnt x + 1)) x)]> (k_bufs s)) s).
Proof.
  intros A Ef Hx HbH Hb. pose proof (ac_ctx _ _ _ _ _ _ A) as Hc.
  destruct (ac_head _ _ _ _ _ _ A) as [Hh Hlen].
  destruct (ac_head_links _ _ _ _ _ _ A) as (h & Hhd & Hnx & _).
  destruct (ac_buf _ _ _ _ _ _ A b x Hb Hx) as [_ [Hsl _]]; [done|].
  unfold bget. apply quiet_acquire; [apply (io_ready _ _ _ Hc)|].
  eapply hquiet_get_buf; [exact Hhd|]. rewrite Hnx.
  eapply hquiet_same.
  { eapply (quiet_bget_find (taken Lbcache s)); [exact (ac_ring _ _ _ _ _ _ A)|done|lia]. }
  cbn [k_bufs taken set_k_lk]. rewrite Ef.
  by apply (quiet_take_buf s i pid b (fun x => set_b_refcnt (u32 (b_refcnt x + 1)) x) x).
Qed.

Lemma bget_miss s i pid l P H d n b x :
  AC s i pid l P H -> List.find (sat (k_bufs s) (key_is d n)) l = None ->
  List.find (sat (k_bufs s) (fun b => b_refcnt b =? 0)) (rev l) = Some b ->
  k_bufs s !! b = Some x -> b ∉ H -> (b < NBUF)%nat ->
  quiet (bget d n) s b (set_k_bufs (<[b :=
    mk_buf 0 (b_disk x) d n (mk_sleeplock 1 pid) 1 (b_prev x) (b_next x) (b_data x)]> (k_bufs s)) s).
Proof.
  intros A Ef Eg Hx HbH Hb. pose proof (ac_ctx _ _ _ _ _ _ A) as Hc.
  destruct (ac_head _ _ _ _ _ _ A) as [Hh Hlen].
  destruct (ac_head_links _ _ _ _ _ _ A) as (h & Hhd & Hnx & Hpv).
  destruct (ac_buf _ _ _ _ _ _ A b x Hb Hx) as [_ [Hsl _]]; [done|].
  unfold bget. apply quiet_acquire; [apply (io_ready _ _ _ Hc)|].
  eapply hquiet_get_buf; [exact Hhd|]. rewrite Hnx.
  eapply hquiet_same.
  { eapply (quiet_bget_find (taken Lbcache s)); [exact (ac_ring _ _ _ _ _ _ A)|done|lia]. }
  cbn [k_bufs taken set_k_lk]. rewrite Ef.
  eapply hquiet_get_buf; [exact Hhd|]. rewrite Hpv.
  eapply hquiet_same.
  { eapply (quiet_bget_free (taken Lbcache s)); [exact (ac_ring _ _ _ _ _ _ A)|done|lia]. }
  cbn [k_bufs taken set_k_lk]. rewrite Eg.
  do 3 (apply hquiet_upd_buf). cbn [k_bufs set_k_bufs]. rewrite !list_alter_alter_eq.
  rewrite (list_alter_insert _ _ _ _ Hx).
  set (x1 := (set_b_valid 0 ∘ (set_b_blockno n ∘ set_b_dev d)) x).
  assert (Hlen' : (b < length (k_bufs s))%nat) by by eapply lookup_lt_Some.
  pose proof (quiet_take_buf (set_k_bufs (<[b := x1]> (k_bufs s)) s) i pid b (set_b_refcnt 1) x1) as Hq.
  cbn [k_bufs set_k_bufs] in Hq. rewrite list_insert_insert_eq in Hq. apply Hq.
  - eapply io_frame_ctx; [|exact Hc]. apply io_frame_bufs. by rewrite length_insert.
  - by apply list_lookup_insert_eq.
  - done.
Qed.

Lemma bget_spec s i pid l P H d n :
  AC s i pid l P H ->
  (forall j x, j ∈ H -> k_bufs s !! j = Some x -> key x <> (d, n) /\ pin P (key x) <> -1) ->
  (exists j x, (j < NBUF)%nat /\ (j ∉ H) /\ k_bufs s !! j = Some x /\ (key x = (d, n) \/ P !! key x = None)) ->
  exists b x y, (b < NBUF)%nat /\ (b ∉ H) /\ k_bufs s !! b = Some x /\ got pid d n x y /\
    (key x <> (d, n) -> forall j z, (j < NBUF)%nat -> k_bufs s !! j = Some z -> key z <> (d, n)) /\
    quiet (bget d n) s b (set_k_bufs (<[b := y]> (k_bufs s)) s).
Proof.
  intros A Hheld (j0 & x0 & Hj0 & Hj0H & Hx0 & Hor).
  destruct (List.find (sat (k_bufs s) (key_is d n)) l) as [b|] eqn:Ef.
  - destruct (find_some_sat _ _ _ _ Ef) as (Hbl & x & Hx & Hkx). apply key_is_true in Hkx.
    apply (ac_mem _ _ _ _ _ _ _ A) in Hbl.
    assert (HbH : b ∉ H) by (intros HbH; by destruct (Hheld b x)).
    eexists b, x, _. split_and!; [done|done|done|by left|done|by eapply bget_hit].
  - assert (Hnone : forall j z, (j < NBUF)%nat -> k_bufs s !! j = Some z -> key z <> (d, n)).
    { intros j z Hj Hz. apply (ac_mem _ _ _ _ _ _ _ A) in Hj.
      pose proof (find_none_sat _ _ _ Ef _ _ Hj Hz) as E. intros Hk. apply key_is_true in Hk. congruence. }
    destruct Hor as [Hor|Hor]; [by destruct (Hnone j0 x0)|].
    destruct (ac_buf _ _ _ _ _ _ A j0 x0 Hj0 Hx0) as [_ [_ [Hr0 _]]]; [done|].
    rewrite (proj2 (proj2 (ac_pin _ _ _ _ _ _ (key x0) A)) Hor) in Hr0.
    assert (Hrev : forall j, j ∈ rev l <-> (j < NBUF)%nat).
    { intros j. rewrite list_elem_of_In, <- in_rev, <- list_elem_of_In. apply (ac_mem _ _ _ _ _ _ _ A). }
    destruct (List.find (sat (k_bufs s) (fun b => b_refcnt b =? 0)) (rev l)) as [b|] eqn:Eg.
    2: { assert ((b_refcnt x0 =? 0) = false); [|change (u32 0) with 0 in Hr0; lia].
         apply (find_none_sat _ (fun b => b_refcnt b =? 0) _ Eg j0 x0); [by apply Hrev|done]. }
    destruct (find_some_sat _ _ _ _ Eg) as (Hbl & x & Hx & Hrx). apply Z.eqb_eq in Hrx.
    apply Hrev in Hbl.
    assert (HbH : b ∉ H).
    { intros HbH. destruct (ac_buf _ _ _ _ _ _ A b x Hbl Hx) as [HH _].
      destruct (HH HbH) as (_ & _ & E). destruct (Hheld b x HbH Hx) as [_ Hl].
      destruct (ac_pin _ _ _ _ _ _ (key x) A) as [Hp _]. clear - E Hl Hp Hrx. sz. }
    eexists b, x, _. split_and!; [done|done|done|by right|done|by eapply bget_miss].
Qed.
(** ** Changing one buffer *)
Lemma ac_set s i pid l P H H' b x y :
  AC s i pid l P H -> (b < NBUF)%nat -> k_bufs s !! b = Some x ->
  b_next y = b_next x -> b_prev y = b_prev x ->
  (key y <> key x -> forall j z, (j < NBUF)%nat -> k_bufs s !! j = Some z -> key z <> key y) ->
  (key y = key x \/ P !! key x = None) ->
  buf_ok s pid P (b ∈ H') y -> (forall j, j <> b -> j ∈ H' <-> j ∈ H) ->
  AC (set_k_bufs (<[b := y]> (k_bufs s)) s) i pid l P H'.
Proof.
  intros A Hb Hx Hn Hp Hkey Hpin Hok HH.
  assert (Hlen : (b < length (k_bufs s))%nat) by by eapply lookup_lt_Some.
  assert (Hlk : forall j z, <[b := y]> (k_bufs s) !! j = Some z ->
    (j = b /\ z = y) \/ (j <> b /\ k_bufs s !! j = Some z)).
  { intros j z. destruct (decide (j = b)) as [->|Hj].
    - rewrite list_lookup_insert_eq by done. naive_solver.
    - rewrite list_lookup_insert_ne by done. naive_solver. }
  split.
  - eapply io_frame_ctx; [|apply A]. apply io_frame_bufs. by rewrite length_insert.
  - cbn [k_bufs set_k_bufs]. rewrite <- (list_alter_insert (fun _ => y) _ _ _ Hx).
    eapply lseg_same; [|apply A]. intros j. unfold nextof, prevof.
    destruct (decide (b = j)) as [<-|]; [|by rewrite list_lookup_alter_ne].
    rewrite list_lookup_alter_eq, Hx. cbn. split; f_equal; [exact Hn|exact Hp].
  - apply A.
  - cbn. intros a c z w Ha Hc Hz Hw Hk Hk0.
    destruct (Hlk _ _ Hz) as [[-> ->]|[Hab Hz']]; destruct (Hlk _ _ Hw) as [[-> ->]|[Hcb Hw']]; [done| | |].
    + destruct (decide (key y = key x)) as [E|E]; [|by destruct (Hkey E c w)].
      apply (ac_uniq _ _ _ _ _ _ A b c x w); [done..|congruence|congruence].
    + destruct (decide (key y = key x)) as [E|E]; [|by destruct (Hkey E a z)].
      apply (ac_uniq _ _ _ _ _ _ A a b z x); [done..|congruence|congruence].
    + by apply (ac_uniq _ _ _ _ _ _ A a c z w).
  - cbn. intros j z Hj Hz. destruct (Hlk _ _ Hz) as [[-> ->]|[Hjb Hz']]; [done|].
    destruct (ac_buf _ _ _ _ _ _ A j z Hj Hz') as [O1 O2].
    split; intros Hh; [apply O1|apply O2]; by rewrite <- HH.
  - cbn. intros k c d Hk. destruct (ac_pins _ _ _ _ _ _ A k c d Hk) as (Hk0 & Hc & j & z & Hj & Hz & Hzk).
    split; [done|]. split; [done|]. destruct (decide (j = b)) as [->|Hjb].
    + exists b, y. rewrite list_lookup_insert_eq by done. split_and!; [done|done|].
      simplify_eq. destruct Hpin as [->|E]; [done|]. by rewrite E in Hk.
    + exists j, z. by rewrite list_lookup_insert_ne.
  - intros j Hj. destruct (decide (j = b)) as [->|Hjb]; [done|]. apply (ac_held _ _ _ _ _ _ A). by apply HH.
Qed.

(** What the cache shows of a block: its pinned contents, or the disk's. *)
Definition shown (s : kstate) (P : gmap (Z * Z) (Z * list Z)) (k : Z * Z) : list Z :=
  match P !! k with Some (_, d) => d | None => block_of s k end.

Lemma pinned_unkeyed s i pid l P H d n :
  AC s i pid l P H ->
  (forall j z, (j < NBUF)%nat -> k_bufs s !! j = Some z -> key z <> (d, n)) -> P !! (d, n) = None.
Proof.
  intros A Hno. destruct (P !! (d, n)) as [[c v]|] eqn:E; [|done].
  destruct (ac_pins _ _ _ _ _ _ A _ _ _ E) as (_ & _ & j & z & Hj & Hz & Hk). by destruct (Hno j z).
Qed.

(** bread returns the block's buffer, locked, with the block's contents. *)
Lemma bread_spec s i pid l P H d n :
  AC s i pid l P H ->
  (forall j x, j ∈ H -> k_bufs s !! j = Some x -> key x <> (d, n) /\ pin P (key x) <> -1) ->
  (exists j x, (j < NBUF)%nat /\ (j ∉ H) /\ k_bufs s !! j = Some x /\ (key x = (d, n) \/ P !! key x = None)) ->
  exists b y, (b < NBUF)%nat /\ (b ∉ H) /\ key y = (d, n) /\ b_data y = shown s P (d, n) /\
    let s' := set_k_bufs (<[b := y]> (k_bufs s)) s in
    quiet (bread d n) s b s' /\ AC s' i pid l P ({[b]} ∪ H).
Proof.
  intros A Hheld Hfree.
  destruct (bget_spec _ _ _ _ _ _ _ _ A Hheld Hfree) as (b & x & y & Hb & HbH & Hx & Hgot & Hno & Hq).
  destruct (ac_buf _ _ _ _ _ _ A b x Hb Hx) as [_ Hok]. destruct (Hok HbH) as (Hsl & Hrc & Hdata).
  assert (Hlen : (b < length (k_bufs s))%nat) by by eapply lookup_lt_Some.
  destruct (ac_pin _ _ _ _ _ _ (key x) A) as [Hpin01 Hpin0].
  assert (Hy : key y = (d, n) /\ b_lock y = mk_sleeplock 1 pid /\ b_refcnt y = u32 (1 + pin P (d, n)) /\
    b_next y = b_next x /\ b_prev y = b_prev x /\ (b_valid y <> 0 -> b_data y = shown s P (d, n)) /\
    (b_valid y = 0 -> P !! (d, n) = None) /\ (key y = key x \/ P !! key x = None)).
  { destruct Hgot as [[Hk ->]|[Hr ->]].
    - unfold shown. rewrite <- Hk. cbn. split_and!; [by destruct x|done| |done|done| | |by left].
      + rewrite Hrc. clear. sz.
      + destruct (P !! key x) as [[]|]; [by destruct Hdata|done].
      + destruct (P !! key x) as [[]|]; [|done]. by destruct Hdata as [Hv _].
    - cbn. assert (Hkx : P !! key x = None) by (apply Hpin0; clear - Hrc Hr Hpin01; sz).
      assert (Hkd : P !! (d, n) = None).
      { destruct (decide (key x = (d, n))) as [<-|E]; [done|]. by eapply pinned_unkeyed; [|apply Hno]. }
      split_and!; [done|done| |done|done|done|done|by right]. unfold pin. rewrite Hkd. done. }
  destruct Hy as (Hky & Hly & Hry & Hn & Hp & Hval & Hinv & Hor).
  set (y' := if b_valid y =? 0 then set_b_valid 1 (set_b_data (block_of s (d, n)) y) else y).
  assert (Hy' : key y' = (d, n) /\ b_lock y' = mk_sleeplock 1 pid /\ b_refcnt y' = u32 (1 + pin P (d, n)) /\
    b_next y' = b_next x /\ b_prev y' = b_prev x /\ b_valid y' <> 0 /\ b_data y' = shown s P (d, n)).
  { unfold y'. bdestr (b_valid y =? 0); [|by split_and!; [..|apply Hval]].
    cbn. split_and!; try done. unfold shown. by rewrite Hinv. }
  destruct Hy' as (Hky' & Hly' & Hry' & Hn' & Hp' & Hv' & Hd').
  exists b, y'. split_and!; [done|done|done|done|]. split.
  - unfold bread. eapply quiet_bind; [exact Hq|].
    set (s1 := set_k_bufs (<[b := y]> (k_bufs s)) s).
    assert (Hy1 : k_bufs s1 !! b = Some y) by by apply list_lookup_insert_eq.
    eapply quiet_bind; [by apply quiet_get_buf|]. unfold y'.
    destruct (b_valid y =? 0); cbn [when]; [|eapply quiet_bind; [apply quiet_ret|apply quiet_ret]].
    eapply quiet_bind; [|apply quiet_ret].
    eapply quiet_bind.
    { eapply (disk_law s1 i pid); [|exact Hy1]. eapply io_frame_ctx; [|apply A].
      apply io_frame_bufs. by rewrite length_insert. }
    unfold disk_done. replace (b_dev y, b_blockno y) with (d, n) by (symmetry; exact Hky).
    rewrite (list_alter_insert _ _ _ _ Hy1). cbn [k_bufs set_k_bufs s1]. rewrite list_insert_insert_eq.
    match goal with |- quiet _ ?s2 _ _ => pose proof (quiet_modify (fun s => set_k_bufs (alter (set_b_valid 1) b (k_bufs s)) s) s2) as Hm end.
    cbn [k_bufs set_k_bufs] in Hm. erewrite list_alter_insert in Hm by by apply list_lookup_insert_eq.
    rewrite list_insert_insert_eq in Hm. exact Hm.
  - eapply ac_set; [exact A|done|exact Hx|done|done| | | |].
    + rewrite Hky'. intros E. by apply Hno.
    + rewrite Hky'. by rewrite <- Hky.
    + split; [|set_solver]. intros _. by rewrite Hky'.
    + set_solver.
Qed.

(** ** Operations on a held buffer *)
Lemma ac_held_data s i pid l P H b x dt :
  AC s i pid l P H -> b ∈ H -> k_bufs s !! b = Some x ->
  AC (set_k_bufs (<[b := set_b_data dt x]> (k_bufs s)) s) i pid l P H.
Proof.
  intros A Hb Hx. pose proof (ac_held _ _ _ _ _ _ A b Hb) as Hlt.
  destruct (ac_buf _ _ _ _ _ _ A b x Hlt Hx) as [O1 O2].
  eapply ac_set; [exact A|done|exact Hx|done|done|done|by left| |done].
  split; [|done]. intros _. by apply O1.
Qed.

Lemma quiet_holding_buf s i pid l P H b x :
  AC s i pid l P H -> b ∈ H -> k_bufs s !! b = Some x -> quiet (holdingsleep (SBuf b)) s 1 s.
Proof.
  intros A Hb Hx. pose proof (ac_held _ _ _ _ _ _ A b Hb) as Hlt.
  destruct (ac_buf _ _ _ _ _ _ A b x Hlt Hx) as [O1 _]. destruct (O1 Hb) as (Hl & _).
  pose proof (ac_ctx _ _ _ _ _ _ A) as Hc.
  assert (Hat : sl_at (SBuf b) s = Some (mk_sleeplock 1 pid)) by (cbn; by rewrite Hx; cbn; rewrite <- Hl).
  pose proof (quiet_holdingsleep (SBuf b) s i pid _ (io_ready _ _ _ Hc _) (io_run _ _ _ Hc) Hat) as Hq.
  cbn in Hq. by rewrite Z.eqb_refl in Hq.
Qed.

(** The blocks of the disk after one more write. *)
Definition disk_put (k : Z * Z) (dt : list Z) (s : kstate) : kstate :=
  set_k_dwrites (k_dwrites s ++ [(k.1, k.2, dt)]) (set_k_disk (<[k := dt]> (k_disk s)) s).
Lemma block_of_put k dt s k' :
  block_of (disk_put k dt s) k' = if decide (k = k') then dt else block_of s k'.
Proof.
  unfold block_of, disk_put. cbn. case_decide as E.
  - subst. by rewrite lookup_insert_eq.
  - by rewrite lookup_insert_ne.
Qed.

Lemma io_frame_put k dt s : io_frame s (disk_put k dt s).
Proof. by exists (k_procs s), (k_bufs s), (<[k := dt]> (k_disk s)), (k_dwrites s ++ [(k.1, k.2, dt)]). Qed.

Lemma ac_disk_put s i pid l P H b x dt :
  AC s i pid l P H -> b ∈ H -> k_bufs s !! b = Some x -> key x <> (0, 0) ->
  AC (disk_put (key x) dt s) i pid l P H.
Proof.
  intros A Hb Hx Hk0. pose proof (ac_held _ _ _ _ _ _ A b Hb) as Hlt. split; try apply A.
  - eapply io_frame_ctx; [apply io_frame_put|apply A].
  - intros j z Hj Hz. destruct (ac_buf _ _ _ _ _ _ A j z Hj Hz) as [O1 O2].
    split; [done|]. intros Hn. destruct (O2 Hn) as (H1 & H2 & H3). split_and!; [done|done|].
    destruct (P !! key z); [done|]. intros Hv. rewrite block_of_put, decide_False; [by apply H3|].
    intros E. apply Hn. by rewrite <- (ac_uniq _ _ _ _ _ _ A b j x z Hlt Hj Hx Hz E Hk0).
Qed.

Lemma bwrite_spec s i pid l P H b x :
  AC s i pid l P H -> b ∈ H -> k_bufs s !! b = Some x -> key x <> (0, 0) ->
  quiet (bwrite b) s tt (disk_put (key x) (b_data x) s) /\
  AC (disk_put (key x) (b_data x) s) i pid l P H.
Proof.
  intros A Hb Hx Hk0. split; [|by eapply ac_disk_put].
  unfold bwrite. eapply quiet_bind; [by eapply quiet_holding_buf|]. cbn.
  eapply quiet_bind; [by apply quiet_get_buf|].
  apply (disk_law s i pid (b_dev x) b true x); [apply A|done].
Qed.

Lemma hquiet_set_buf l b f x s :
  ready s l -> k_bufs s !! b = Some x ->
  hquiet l (upd_buf b f ;; release l) s tt (set_k_bufs (<[b := f x]> (k_bufs s)) s).
Proof.
  intros Hr Hx. apply hquiet_upd_buf. rewrite (list_alter_insert _ _ _ _ Hx). by apply hquiet_end.
Qed.

(** Changing the pinned contents of a held block. *)
Lemma ac_repin s i pid l P P' H b x :
  AC s i pid l P H -> b ∈ H -> k_bufs s !! b = Some x -> key x <> (0, 0) ->
  (forall k, k <> key x -> P' !! k = P !! k) -> pin P' (key x) = pin P (key x) ->
  (forall c d, P' !! key x = Some (c, d) -> c = 1 \/ c = -1) ->
  AC s i pid l P' H.
Proof.
  intros A Hb Hx Hk0 HP Hp Hc1. pose proof (ac_held _ _ _ _ _ _ A b Hb) as Hlt. split; try apply A.
  - intros j z Hj Hz. destruct (ac_buf _ _ _ _ _ _ A j z Hj Hz) as [O1 O2].
    destruct (decide (key z = key x)) as [E|E].
    + assert (j = b) as -> by (apply (ac_uniq _ _ _ _ _ _ A j b z x); congruence).
      split; [|done]. intros Hh. destruct (O1 Hh) as (H1 & H2 & H3). split_and!; [done..|].
      rewrite H3, E. by rewrite Hp.
    + unfold buf_ok, pin in *. rewrite !(HP _ E). done.
  - intros k c d Hk. destruct (decide (k = key x)) as [->|E].
    + split; [done|]. split; [by eapply Hc1|by exists b, x].
    + apply (ac_pins _ _ _ _ _ _ A k c d). by rewrite <- HP.
Qed.

(** The refcount of a held buffer follows its pin. *)
Lemma ac_refcnt s i pid l P P' H b x :
  AC s i pid l P H -> b ∈ H -> k_bufs s !! b = Some x -> key x <> (0, 0) ->
  (forall k, k <> key x -> P' !! k = P !! k) ->
  (forall c d, P' !! key x = Some (c, d) -> c = 1 \/ c = -1) ->
  AC (set_k_bufs (<[b := set_b_refcnt (u32 (1 + pin P' (key x))) x]> (k_bufs s)) s) i pid l P' H.
Proof.
  intros A Hb Hx Hk0 HP Hc1. pose proof (ac_held _ _ _ _ _ _ A b Hb) as Hlt.
  assert (Hlen : (b < length (k_bufs s))%nat) by by eapply lookup_lt_Some.
  destruct (ac_buf _ _ _ _ _ _ A b x Hlt Hx) as [O1 _]. destruct (O1 Hb) as (H1 & H2 & H3).
  assert (Hlk : forall j z, <[b := set_b_refcnt (u32 (1 + pin P' (key x))) x]> (k_bufs s) !! j = Some z ->
    (j = b /\ z = set_b_refcnt (u32 (1 + pin P' (key x))) x) \/ (j <> b /\ k_bufs s !! j = Some z)).
  { intros j z. destruct (decide (j = b)) as [->|Hj].
    - rewrite list_lookup_insert_eq by done. naive_solver.
    - rewrite list_lookup_insert_ne by done. naive_solver. }
  assert (A' : AC (set_k_bufs (<[b := set_b_refcnt (u32 (1 + pin P (key x))) x]> (k_bufs s)) s) i pid l P H).
  { eapply ac_set; [exact A|done|exact Hx|done|done|done|by left| |done]. by split. }
  split; try apply A'.
  - eapply io_frame_ctx; [|apply A]. apply io_frame_bufs. by rewrite length_insert.
  - eapply lseg_same; [|apply A']. cbn. intros j. unfold nextof, prevof.
    destruct (decide (b = j)) as [<-|]; [by rewrite !list_lookup_insert_eq|by rewrite !list_lookup_insert_ne].
  - cbn. intros a c z w Ha Hc Hz Hw Hk Hkn.
    destruct (Hlk _ _ Hz) as [[-> ->]|[Hab Hz']]; destruct (Hlk _ _ Hw) as [[-> ->]|[Hcb Hw']]; [done| | |].
    + by apply (ac_uniq _ _ _ _ _ _ A b c x w).
    + by apply (ac_uniq _ _ _ _ _ _ A a b z x).
    + by apply (ac_uniq _ _ _ _ _ _ A a c z w).
  - cbn. intros j z Hj Hz. destruct (Hlk _ _ Hz) as [[-> ->]|[Hjb Hz']]; [by split|].
    assert (E : key z <> key x).
    { intros E. apply Hjb. apply (ac_uniq _ _ _ _ _ _ A j b z x); congruence. }
    destruct (ac_buf _ _ _ _ _ _ A j z Hj Hz') as [O3 O4].
    unfold buf_ok, pin in *. rewrite !(HP _ E). done.
  - cbn. intros k c d Hk. destruct (decide (k = key x)) as [->|E].
    + split; [done|]. split; [by eapply Hc1|]. exists b, (set_b_refcnt (u32 (1 + pin P' (key x))) x).
      rewrite list_lookup_insert_eq by done. done.
    + rewrite HP in Hk by done. destruct (ac_pins _ _ _ _ _ _ A k c d Hk) as (Hk1 & Hc2 & j & z & Hj & Hz & Hzk).
      split; [done|]. split; [done|]. exists j, z. rewrite list_lookup_insert_ne by congruence. done.
Qed.

Lemma bpin_spec s i pid l P H b x dt :
  AC s i pid l P H -> b ∈ H -> k_bufs s !! b = Some x -> key x <> (0, 0) -> P !! key x = None ->
  let s' := set_k_bufs (<[b := set_b_refcnt 2 x]> (k_bufs s)) s in
  quiet (bpin b) s tt s' /\ AC s' i pid l (<[key x := (1, dt)]> P) H.
Proof.
  intros A Hb Hx Hk0 HP. pose proof (ac_held _ _ _ _ _ _ A b Hb) as Hlt.
  destruct (ac_buf _ _ _ _ _ _ A b x Hlt Hx) as [O1 _]. destruct (O1 Hb) as (_ & _ & Hr). split.
  - unfold bpin. apply quiet_acquire; [apply A|].
    pose proof (hquiet_set_buf Lbcache b (fun x => set_b_refcnt (u32 (b_refcnt x + 1)) x) x s) as Hq.
    cbv beta in Hq. rewrite Hr in Hq. unfold pin in Hq. rewrite HP in Hq. apply Hq; [apply A|done].
  - pose proof (ac_refcnt s i pid l P (<[key x := (1, dt)]> P) H b x A Hb Hx Hk0) as Ha.
    unfold pin in Ha. rewrite lookup_insert_eq in Ha. apply Ha.
    + intros k Hk. by rewrite lookup_insert_ne.
    + intros c d [= <- <-]. by left.
Qed.
(** bunpin takes a reference away: the pin of a logged block, or one that was
    never taken. *)
Definition unpin (k : Z * Z) (dt : list Z) (P : gmap (Z * Z) (Z * list Z)) : gmap (Z * Z) (Z * list Z) :=
  match P !! k with Some _ => delete k P | None => <[k := (-1, dt)]> P end.
Lemma unpin_ne k dt P k' : k' <> k -> unpin k dt P !! k' = P !! k'.
Proof. intros H. unfold unpin. destruct (P !! k); [by rewrite lookup_delete_ne|by rewrite lookup_insert_ne]. Qed.

Lemma bunpin_spec s i pid l P H b x dt :
  AC s i pid l P H -> b ∈ H -> k_bufs s !! b = Some x -> key x <> (0, 0) -> pin P (key x) <> -1 ->
  let s' := set_k_bufs (<[b := set_b_refcnt (pin P (key x)) x]> (k_bufs s)) s in
  quiet (bunpin b) s tt s' /\ AC s' i pid l (unpin (key x) dt P) H.
Proof.
  intros A Hb Hx Hk0 Hpn. pose proof (ac_held _ _ _ _ _ _ A b Hb) as Hlt.
  destruct (ac_buf _ _ _ _ _ _ A b x Hlt Hx) as [O1 _]. destruct (O1 Hb) as (_ & _ & Hr).
  destruct (ac_pin _ _ _ _ _ _ (key x) A) as [Hp1 Hp0]. split.
  - unfold bunpin. apply quiet_acquire; [apply A|].
    pose proof (hquiet_set_buf Lbcache b (fun x => set_b_refcnt (u32 (b_refcnt x - 1)) x) x s) as Hq.
    cbv beta in Hq. replace (u32 (b_refcnt x - 1)) with (pin P (key x)) in Hq by (clear - Hr Hp1 Hpn; sz).
    apply Hq; [apply A|done].
  - pose proof (ac_refcnt s i pid l P (unpin (key x) dt P) H b x A Hb Hx Hk0) as Ha.
    replace (u32 (1 + pin (unpin (key x) dt P) (key x))) with (pin P (key x)) in Ha.
    + apply Ha; [intros k Hk; by apply unpin_ne|]. intros c d. unfold unpin.
      destruct (P !! key x); [by rewrite lookup_delete_eq|rewrite lookup_insert_eq]. intros [= <- <-]. by right.
    + unfold unpin, pin in *. destruct (P !! key x) as [[c d]|] eqn:E.
      * rewrite lookup_delete_eq. destruct Hp1 as [|[Hc| -> ]]; [done| |done]. by apply Hp0 in Hc.
      * by rewrite lookup_insert_eq.
Qed.

(** ** brelse: a buffer nobody uses goes to the front of the list *)
Lemma quiet_set_buf j f s : quiet (upd_buf j f) s tt (set_k_bufs (alter f j (k_bufs s)) s).
Proof. apply quiet_modify, _. Qed.
Lemma quiet_upd_buf {B} j f (k : unit -> M B) s b s2 :
  quiet (k tt) (set_k_bufs (alter f j (k_bufs s)) s) b s2 -> quiet (upd_buf j f ≫= k) s b s2.
Proof. intros Hk. eapply quiet_bind; [apply quiet_modify, _|done]. Qed.

Lemma quiet_lru_move s l1 b l2 x :
  length (k_bufs s) = S NBUF -> (forall i, i ∈ l1 ++ b :: l2 -> (i < NBUF)%nat) ->
  NoDup (l1 ++ b :: l2) -> lseg (k_bufs s) bhead (l1 ++ b :: l2) bhead -> k_bufs s !! b = Some x ->
  quiet (upd_buf (b_next x) (set_b_prev (b_prev x)) ;;
     y ← get_buf b;
     upd_buf (b_prev y) (set_b_next (b_next y)) ;;
     h ← get_buf bhead;
     upd_buf b (set_b_next (b_next h)) ;;
     upd_buf b (set_b_prev bhead) ;;
     h ← get_buf bhead;
     upd_buf (b_next h) (set_b_prev b) ;;
     upd_buf bhead (set_b_next b)) s tt
   (set_k_bufs (push_front b (hd bhead (l1 ++ l2))
     (unlink b (default bhead (list.last l1)) (hd bhead l2) (k_bufs s))) s).
Proof.
  intros Hlen Hlt Hnd Hseg Hx.
  pose proof (lseg_unlink _ _ _ _ Hlen Hlt Hnd Hseg) as Hun.
  apply lseg_app in Hseg as [S1 S2].
  pose proof (lseg_first _ _ _ _ S2) as Hn. pose proof (lseg_last _ _ _ _ S1) as Hp.
  apply nextof_Some in Hn as (x1 & Hx1 & Hn). apply prevof_Some in Hp as (x2 & Hx2 & Hp).
  rewrite Hx in Hx1, Hx2. injection Hx1 as <-. injection Hx2 as <-.
  set (p := default bhead (list.last l1)) in *. set (n := hd bhead l2) in *.
  assert (Hbh : b <> bhead) by (pose proof (Hlt b ltac:(set_solver)); unfold bhead; lia).
  assert (Hnb : n <> b).
  { unfold n. apply list.NoDup_app in Hnd as (_ & _ & Hnd). apply list.NoDup_cons in Hnd as [Hb _].
    destruct l2; cbn; set_solver. }
  assert (Hxb : alter (set_b_prev p) n (k_bufs s) !! b = Some x) by by rewrite list_lookup_alter_ne.
  pose proof (lseg_first _ _ _ _ Hun) as Hh. apply nextof_Some in Hh as (h & Hh & Hhn).
  apply quiet_upd_buf. rewrite Hn, Hp.
  eapply quiet_bind; [apply quiet_get_buf; exact Hxb|]. apply quiet_upd_buf. rewrite Hn, Hp.
  cbn [k_bufs set_k_bufs]. change (alter (set_b_next n) p (alter (set_b_prev p) n (k_bufs s)))
    with (unlink b p n (k_bufs s)).
  eapply quiet_bind; [apply quiet_get_buf; exact Hh|]. rewrite Hhn.
  apply quiet_upd_buf, quiet_upd_buf. cbn [k_bufs set_k_bufs].
  eapply quiet_bind; [apply quiet_get_buf|].
  { cbn [k_bufs set_k_bufs]. rewrite !list_lookup_alter_ne by done. exact Hh. }
  rewrite Hhn. apply quiet_upd_buf. exact (quiet_set_buf bhead (set_b_next b) _).
Qed.

(** Two states of the cache with the same buffers, in another order. *)
Lemma ac_bodies s i pid l l' P H bs :
  AC s i pid l P H -> same_bodies (k_bufs s) bs -> length bs = length (k_bufs s) ->
  lseg bs bhead l' bhead -> l' ≡ₚ l -> AC (set_k_bufs bs s) i pid l' P H.
Proof.
  intros A Hb Hlen Hseg Hp.
  assert (Hback : forall j y, bs !! j = Some y -> exists x, k_bufs s !! j = Some x /\ body y = body x).
  { intros j y Hy. pose proof (Hb j) as E. rewrite Hy in E. cbn in E. symmetry in E.
    apply fmap_Some in E as (x & Hx & E). eauto. }
  assert (Hkey : forall x y, body y = body x -> key y = key x) by (intros x y [=]; unfold key; congruence).
  split.
  - eapply io_frame_ctx; [by apply io_frame_bufs|apply A].
  - done.
  - rewrite Hp. apply A.
  - cbn. intros a c x y Ha Hc Hx Hy Hk Hk0.
    destruct (Hback _ _ Hx) as (x' & Hx' & Ex). destruct (Hback _ _ Hy) as (y' & Hy' & Ey).
    apply Hkey in Ex, Ey. apply (ac_uniq _ _ _ _ _ _ A a c x' y'); congruence.
  - cbn. intros j y Hj Hy. destruct (Hback _ _ Hy) as (x & Hx & E).
    pose proof (ac_buf _ _ _ _ _ _ A j x Hj Hx) as O. unfold buf_ok in *. rewrite (Hkey _ _ E).
    injection E as E1 E2 E3 E4 E5 E6 E7. rewrite E1, E5, E6, E7. exact O.
  - cbn. intros k c d Hk. destruct (ac_pins _ _ _ _ _ _ A k c d Hk) as (Hk0 & Hc & j & x & Hj & Hx & Hxk).
    split; [done|]. split; [done|]. pose proof (Hb j) as E. rewrite Hx in E. cbn in E.
    apply fmap_Some in E as (y & Hy & E). exists j, y. split_and!; [done|done|]. rewrite <- Hxk. by apply Hkey.
  - apply A.
Qed.

(** Releasing the sleep lock only changes who is runnable. *)
Lemma ac_procs s i pid l P H ps :
  AC s i pid l P H -> p_pid <$> ps = p_pid <$> k_procs s -> AC (set_k_procs ps s) i pid l P H.
Proof.
  intros A Hps. split; try apply A. eapply io_frame_ctx; [|apply A].
  exists ps, (k_bufs s), (k_disk s), (k_dwrites s). split_and!; [by destruct s|done|done].
Qed.
Lemma wake_pids c (ps : list proc) : p_pid <$> (wake c <$> ps) = p_pid <$> ps.
Proof.
  rewrite <- list_fmap_compose. apply list_fmap_ext. intros j x _. cbn. unfold wake. by destruct (_ && _).
Qed.

(** The process table but for which processes are runnable. *)
Definition stateless (ps : list proc) : list proc := set_p_state RUNNABLE <$> ps.
Lemma wake_stateless c ps : stateless (wake c <$> ps) = stateless ps.
Proof.
  unfold stateless. rewrite <- list_fmap_compose. apply list_fmap_ext. intros j x _. unfold compose, wake.
  by destruct (_ && _).
Qed.
(** brelse leaves every other buffer's contents, and the disk, alone. *)
Definition released (b : nat) (s s' : kstate) : Prop :=
  exists ps bs, s' = set_k_procs ps (set_k_bufs bs s) /\
    stateless ps = stateless (k_procs s) /\ length bs = length (k_bufs s) /\
    forall j, j <> b -> body <$> bs !! j = body <$> k_bufs s !! j.

(** The list after the unlinking and relinking of [b]. *)
Lemma lru_moved (bs : list buf) l b :
  length bs = S NBUF -> l ≡ₚ seq 0 NBUF -> lseg bs bhead l bhead -> (b < NBUF)%nat ->
  exists l1 l2, l = l1 ++ b :: l2 /\ (forall i, i ∈ l -> (i < NBUF)%nat) /\ NoDup l /\
    let bs' := push_front b (hd bhead (l1 ++ l2))
      (unlink b (default bhead (list.last l1)) (hd bhead l2) bs) in
    lseg bs' bhead (b :: l1 ++ l2) bhead /\ same_bodies bs bs' /\ length bs' = length bs.
Proof.
  intros Hlen Hperm Hseg Hb.
  assert (Hlt : forall i, i ∈ l -> (i < NBUF)%nat) by (intros i; rewrite Hperm, elem_of_seq; lia).
  assert (Hnd : NoDup l) by (rewrite Hperm; apply NoDup_seq).
  assert (Hbl : b ∈ l) by (rewrite Hperm, elem_of_seq; lia).
  apply list_elem_of_split in Hbl as (l1 & l2 & ->).
  pose proof (lseg_unlink bs l1 b l2 Hlen Hlt Hnd Hseg) as Hun.
  exists l1, l2. cbv zeta. split_and!; [done|done|done| | |].
  - apply lseg_push; [by unfold unlink; rewrite !length_alter|done| | | | |done].
    + apply list.NoDup_app in Hnd as (_ & N1 & Hnd). apply list.NoDup_cons in Hnd as [N2 _]. set_solver.
    + intros Hi. pose proof (Hlt bhead ltac:(set_solver)). unfold bhead in *. lia.
    + intros i Hi. apply Hlt. set_solver.
    + rewrite <- Permutation_middle in Hnd. by apply list.NoDup_cons in Hnd as [_ Hnd].
  - eapply same_bodies_trans; [apply same_bodies_unlink|apply same_bodies_push].
  - unfold push_front, unlink. by rewrite !length_alter.
Qed.

(** The second critical section of brelse, once the sleep lock is free. *)
Lemma brelse_tail s i pid l P H b x :
  AC s i pid l P H -> (b < NBUF)%nat -> b ∉ H -> k_bufs s !! b = Some x ->
  exists bs l',
    quiet (acquire Lbcache ;;
      upd_buf b (fun x => set_b_refcnt (u32 (b_refcnt x - 1)) x) ;;
      x ← get_buf b;
      when (b_refcnt x =? 0)
        (upd_buf (b_next x) (set_b_prev (b_prev x)) ;;
         y ← get_buf b;
         upd_buf (b_prev y) (set_b_next (b_next y)) ;;
         h ← get_buf bhead;
         upd_buf b (set_b_next (b_next h)) ;;
         upd_buf b (set_b_prev bhead) ;;
         h ← get_buf bhead;
         upd_buf (b_next h) (set_b_prev b) ;;
         upd_buf bhead (set_b_next b)) ;;
      release Lbcache)
      (set_k_bufs (<[b := set_b_refcnt (u32 (b_refcnt x + 1)) x]> (k_bufs s)) s) tt (set_k_bufs bs s) /\
    AC (set_k_bufs bs s) i pid l' P H /\ same_bodies (k_bufs s) bs /\ length bs = length (k_bufs s).
Proof.
  intros A Hb HbH Hx. destruct (ac_buf _ _ _ _ _ _ A b x Hb Hx) as [_ O]. destruct (O HbH) as (_ & Hr & _).
  destruct (ac_pin _ _ _ _ _ _ (key x) A) as [Hpin _]. pose proof (ac_ctx _ _ _ _ _ _ A) as Hc.
  assert (Hlen : (b < length (k_bufs s))%nat) by by eapply lookup_lt_Some.
  assert (Hback : alter (fun x => set_b_refcnt (u32 (b_refcnt x - 1)) x) b
    (<[b := set_b_refcnt (u32 (b_refcnt x + 1)) x]> (k_bufs s)) = k_bufs s).
  { erewrite list_alter_insert by by apply list_lookup_insert_eq. rewrite list_insert_insert_eq.
    apply list_insert_id. rewrite Hx. f_equal. cbn.
    replace (u32 (u32 (b_refcnt x + 1) - 1)) with (b_refcnt x) by (clear - Hr Hpin; sz). by destruct x. }
  destruct (lru_moved (k_bufs s) l b (io_bufs _ _ _ Hc) (ac_perm _ _ _ _ _ _ A) (ac_ring _ _ _ _ _ _ A) Hb)
    as (l1 & l2 & Hl & Hlt & Hnd & Hseg & Hbod & Hlen').
  set (bs' := push_front _ _ _) in *.
  exists (if b_refcnt x =? 0 then bs' else k_bufs s), (if b_refcnt x =? 0 then b :: l1 ++ l2 else l).
  split; [|destruct (b_refcnt x =? 0)].
  - apply quiet_acquire; [apply A|]. apply hquiet_upd_buf. cbn [k_bufs set_k_bufs]. rewrite Hback.
    change (set_k_bufs (k_bufs s) (set_k_bufs _ s)) with s.
    eapply hquiet_get_buf; [exact Hx|].
    eapply hquiet_when; [intros E|intros E|reflexivity]; rewrite E.
    + subst l. eapply (hquiet_bind _ _ _ s tt (set_k_bufs bs' s)); [done|done| |apply hquiet_end, A].
      apply (quiet_lru_move (taken Lbcache s) l1 b l2 x); [apply A|done|done|apply A|done].
    + change (set_k_bufs (k_bufs s) s) with s. apply hquiet_end, A.
  - split_and!; [|done|done]. eapply ac_bodies; [exact A|done|done|done|]. rewrite Hl. apply Permutation_middle.
  - split_and!; [exact A|done|done].
Qed.

Lemma brelse_spec s i pid l P H b x :
  AC s i pid l P H -> b ∈ H -> k_bufs s !! b = Some x -> b_data x = shown s P (key x) ->
  exists s' l', quiet (brelse b) s tt s' /\ AC s' i pid l' P (H ∖ {[b]}) /\ released b s s'.
Proof.
  intros A Hb Hx Hdata. pose proof (ac_held _ _ _ _ _ _ A b Hb) as Hlt.
  destruct (ac_buf _ _ _ _ _ _ A b x Hlt Hx) as [O _]. destruct (O Hb) as (Hl & Hv & Hr).
  pose proof (ac_ctx _ _ _ _ _ _ A) as Hc.
  assert (Hlen : (b < length (k_bufs s))%nat) by by eapply lookup_lt_Some.
  set (ps := wake (CBufLock b) <$> k_procs s).
  set (x1 := set_b_lock (mk_sleeplock 0 0) (set_b_refcnt (u32 (pin P (key x))) x)).
  set (s1 := set_k_procs ps (set_k_bufs (<[b := x1]> (k_bufs s)) s)).
  assert (A1 : AC s1 i pid l P (H ∖ {[b]})).
  { apply (ac_procs (set_k_bufs (<[b := x1]> (k_bufs s)) s)); [|apply wake_pids].
    eapply ac_set; [exact A|done|exact Hx|done|done|done|by left| |set_solver].
    split; [set_solver|]. intros _. split_and!; [done|done|]. cbn. unfold shown in Hdata.
    change (key x1) with (key x). destruct (P !! key x) as [[]|]; done. }
  assert (Hx1 : k_bufs s1 !! b = Some x1) by by apply list_lookup_insert_eq.
  destruct (brelse_tail s1 i pid l P (H ∖ {[b]}) b x1 A1 Hlt ltac:(set_solver) Hx1)
    as (bs & l' & Hq & A2 & Hbod & Hlen2).
  exists (set_k_bufs bs s1), l'. split_and!; [|exact A2|].
  - unfold brelse. eapply quiet_bind; [by eapply quiet_holding_buf|]. cbn [Z.eqb].
    eapply quiet_bind; [apply quiet_releasesleep; [apply A|split; [apply A|intros; apply A]]|].
    cbn [sl_map sl_chan]. rewrite (list_alter_insert _ _ _ _ Hx). cbn [set_k_procs k_procs set_k_bufs].
    match goal with |- quiet _ ?st _ _ =>
      replace st with (set_k_bufs (<[b := set_b_refcnt (u32 (b_refcnt x1 + 1)) x1]> (k_bufs s1)) s1) end; [exact Hq|].
    cbn [k_bufs s1 set_k_procs set_k_bufs]. rewrite list_insert_insert_eq. unfold s1, set_k_procs, set_k_bufs.
    cbn. f_equal. f_equal. replace (u32 (u32 (pin P (key x)) + 1)) with (b_refcnt x) by (rewrite Hr; clear; sz). by destruct x.
  - exists ps, bs. split_and!; [done|apply wake_stateless| |].
    + rewrite Hlen2. apply length_insert.
    + intros j Hj. rewrite Hbod. cbn. by rewrite list_lookup_insert_ne.
Qed.
End BioProofs.
