(* ===== verification/BioSpec.v ===== *)
(** * The buffer cache implements the disk

    Any sequence of block reads and writes through bread, bwrite and brelse
    behaves like the same sequence on a map from block numbers to contents,
    whatever the cache holds and whatever it evicts on the way. *)
From S2P Require Import Prelude Mem Riscv State Spinlock Kalloc Vm Proc ProcProofs Sleeplock SleeplockProofs Bio BioProofs.

(** ** A free buffer exists while few are held or pinned *)
Section Free.
Context `{DL : DiskLaws}.

Lemma pinned_bufs_bound s i pid l P H :
  AC s i pid l P H -> forall js : list nat, NoDup js ->
  (forall j, j ∈ js -> (j < NBUF)%nat /\ exists x, k_bufs s !! j = Some x /\ is_Some (P !! key x)) ->
  (length js <= size P)%nat.
Proof.
  intros A js Hnd Hjs. set (kf := fun j => match k_bufs s !! j with Some x => key x | None => (0, 0) end).
  rewrite <- (length_fmap kf), <- size_dom.
  assert (Hndk : NoDup (kf <$> js)).
  { apply NoDup_fmap_2_strong; [|done]. intros a c Ha Hc E.
    destruct (Hjs a Ha) as (La & x & Hx & [[c0 dx] Hdx]). destruct (Hjs c Hc) as (Lc & y & Hy & Hdy).
    unfold kf in E. rewrite Hx, Hy in E. apply (ac_uniq _ _ _ _ _ _ A a c x y); [done..|].
    apply (ac_pins _ _ _ _ _ _ A _ _ _ Hdx). }
  rewrite <- (size_list_to_set (C := gset (Z * Z)) _ Hndk). apply subseteq_size. intros k.
  rewrite elem_of_list_to_set, list_elem_of_fmap. intros (j & -> & Hj).
  destruct (Hjs j Hj) as (_ & x & Hx & Hd). unfold kf. rewrite Hx. by apply elem_of_dom.
Qed.

Lemma ac_free s i pid l P H :
  AC s i pid l P H -> (size P + size H < NBUF)%nat ->
  exists j x, (j < NBUF)%nat /\ (j ∉ H) /\ k_bufs s !! j = Some x /\ P !! key x = None.
Proof.
  intros A Hsz.
  set (pinned := fun j => match k_bufs s !! j with Some x => bool_decide (is_Some (P !! key x)) | None => false end).
  set (js := List.filter pinned (seq 0 NBUF)).
  assert (Hjs : (length js <= size P)%nat).
  { eapply pinned_bufs_bound; [exact A| |].
    - rewrite NoDup_ListNoDup. apply NoDup_filter, NoDup_ListNoDup, NoDup_seq.
    - intros j Hj. unfold js in Hj. rewrite list_elem_of_In, filter_In, <- list_elem_of_In, elem_of_seq in Hj.
      destruct Hj as [Hj Hp]. split; [lia|]. unfold pinned in Hp.
      destruct (k_bufs s !! j) as [x|]; [|done]. exists x. split; [done|]. by apply bool_decide_eq_true in Hp. }
  destruct (decide (Exists (fun j => (j ∉ H) /\ pinned j = false) (seq 0 NBUF))) as [Hex|Hno];
    rewrite list.Exists_exists in *.
  - destruct Hex as (j & Hj & HH & Hp). rewrite elem_of_seq in Hj. destruct (ac_lookup _ _ _ _ _ _ j A) as [x Hx]; [lia|].
    exists j, x. unfold pinned in Hp. rewrite Hx in Hp. apply bool_decide_eq_false in Hp.
    split_and!; [lia|done|done|]. by destruct (P !! key x) as [v|]; [destruct Hp|].
  - exfalso. assert (Hsub : (list_to_set (seq 0 NBUF) : gset nat) ⊆ list_to_set js ∪ H).
    { intros j. rewrite elem_of_union, !elem_of_list_to_set. intros Hj.
      destruct (decide (j ∈ H)); [by right|left]. destruct (pinned j) eqn:E;
        [|by exfalso; apply Hno; exists j].
      unfold js. by rewrite list_elem_of_In, filter_In, <- list_elem_of_In. }
    apply subseteq_size in Hsub.
    assert (E0 : size (list_to_set (seq 0 NBUF) : gset nat) = NBUF).
    { rewrite size_list_to_set; [apply length_seq|apply NoDup_seq]. }
    assert (Hndj : NoDup js) by (rewrite NoDup_ListNoDup; apply NoDup_filter, NoDup_ListNoDup, NoDup_seq).
    pose proof (size_list_to_set (C := gset nat) js Hndj) as E2.
    pose proof (size_union_alt (list_to_set js : gset nat) H) as E1.
    assert (size (H ∖ list_to_set js) <= size H)%nat 
      by (apply subseteq_size; intros j; rewrite elem_of_difference; tauto).
    rewrite E0 in Hsub. lia.
Qed.
End Free.

(** ** Block reads and writes *)
Inductive bop := BRead (k : Z * Z) | BWrite (k : Z * Z) (dt : list Z).
(** Any block can be read; block 0 of device 0 is the boot block, which nothing
    writes, and whose key every buffer carries that has not been used. *)
Definition bop_ok (o : bop) : Prop := match o with BRead _ => True | BWrite k _ => k <> (0, 0) end.

Section Client.
Context `{DL : DiskLaws}.

(** The way fs.c uses the cache: read a block, or read it, change it, write it
    through; the result is the block's contents. *)
Definition run_bop (o : bop) : M (list Z) :=
  match o with
  | BRead (d, n) =>
      b ← bread d n; x ← get_buf b; brelse b ;; mret (b_data x)
  | BWrite (d, n) dt =>
      b ← bread d n; upd_buf b (set_b_data dt) ;; bwrite b ;; brelse b ;; mret dt
  end.
Fixpoint run_bops (os : list bop) : M (list (list Z)) :=
  match os with
  | [] => mret []
  | o :: os' => r ← run_bop o; rs ← run_bops os'; mret (r :: rs)
  end.

(** The same on a disk without a cache. *)
Definition spec_bop (disk : Z * Z -> list Z) (o : bop) : list Z * (Z * Z -> list Z) :=
  match o with
  | BRead k => (disk k, disk)
  | BWrite k dt => (dt, fun k' => if decide (k = k') then dt else disk k')
  end.
Fixpoint spec_bops (disk : Z * Z -> list Z) (os : list bop) : list (list Z) * (Z * Z -> list Z) :=
  match os with
  | [] => ([], disk)
  | o :: os' => let '(r, d1) := spec_bop disk o in let '(rs, d2) := spec_bops d1 os' in (r :: rs, d2)
  end.

Lemma released_disk b s s' : released b s s' -> forall k, block_of s' k = block_of s k.
Proof. by intros (ps & bs & -> & _) k. Qed.
Lemma shown_empty s k : shown s ∅ k = block_of s k.
Proof. unfold shown. by rewrite lookup_empty. Qed.

Lemma run_bop_spec s i pid l o :
  AC s i pid l ∅ ∅ -> bop_ok o ->
  exists s' l', quiet (run_bop o) s (spec_bop (block_of s) o).1 s' /\ AC s' i pid l' ∅ ∅ /\
    forall k, block_of s' k = (spec_bop (block_of s) o).2 k.
Proof.
  intros A Hk0.
  assert (Hb : forall d n, exists b y, (b < NBUF)%nat /\ key y = (d, n) /\ b_data y = block_of s (d, n) /\
    let s' := set_k_bufs (<[b := y]> (k_bufs s)) s in
    quiet (bread d n) s b s' /\ k_bufs s' !! b = Some y /\ AC s' i pid l ∅ {[b]}).
  { intros d n. destruct (bread_spec s i pid l ∅ ∅ d n A) as (b & y & Hb & _ & Hk & Hd & Hq & A1).
    - set_solver.
    - destruct (ac_free s i pid l ∅ ∅ A) as (j & x & Hj & HH & Hx & HP); [by vm_compute; lia|].
      exists j, x. eauto.
    - exists b, y. rewrite shown_empty in Hd. split_and!; [done|done|done|].
      rewrite union_empty_r_L in A1. split_and!; [done| |done].
      apply list_lookup_insert_eq. rewrite (io_bufs _ _ _ (ac_ctx _ _ _ _ _ _ A)). lia. }
  destruct o as [[d n]|[d n] dt]; cbn in Hk0; destruct (Hb d n) as (b & y & Hlt & Hk & Hd & Hq & Hy & A1); clear Hb;
    set (s1 := set_k_bufs _ s) in *.
  - destruct (brelse_spec s1 i pid l ∅ {[b]} b y A1 ltac:(set_solver) Hy) as (s2 & l2 & Hq2 & A2 & R).
    { rewrite shown_empty, Hk. exact Hd. }
    exists s2, l2. split_and!.
    + cbn. rewrite <- Hd. eapply quiet_bind; [exact Hq|].
      eapply quiet_bind; [by apply quiet_get_buf|]. eapply quiet_bind; [exact Hq2|apply quiet_ret].
    + by rewrite difference_diag_L in A2.
    + intros k. cbn. by rewrite (released_disk _ _ _ R).
  - pose proof (ac_held_data s1 i pid l ∅ {[b]} b y dt A1 ltac:(set_solver) Hy) as A2.
    set (y2 := set_b_data dt y) in *. set (s2 := set_k_bufs (<[b := y2]> (k_bufs s1)) s1) in *.
    assert (Hy2 : k_bufs s2 !! b = Some y2).
    { apply list_lookup_insert_eq. rewrite (io_bufs _ _ _ (ac_ctx _ _ _ _ _ _ A1)). lia. }
    destruct (bwrite_spec s2 i pid l ∅ {[b]} b y2 A2 ltac:(set_solver) Hy2) as [Hq3 A3].
    { change (key y2) with (key y). by rewrite Hk. }
    set (s3 := disk_put (key y2) (b_data y2) s2) in *.
    destruct (brelse_spec s3 i pid l ∅ {[b]} b y2 A3 ltac:(set_solver) Hy2) as (s4 & l4 & Hq4 & A4 & R).
    { unfold s3. by rewrite shown_empty, block_of_put, decide_True. }
    exists s4, l4. split_and!.
    + cbn. eapply quiet_bind; [exact Hq|]. apply quiet_upd_buf. rewrite (list_alter_insert _ _ _ _ Hy).
      eapply quiet_bind; [exact Hq3|]. eapply quiet_bind; [exact Hq4|apply quiet_ret].
    + by rewrite difference_diag_L in A4.
    + intros k. rewrite (released_disk _ _ _ R). unfold s3. rewrite block_of_put.
      change (key y2) with (key y). rewrite Hk. done.
Qed.

Lemma spec_bops_ext os : forall d1 d2, (forall k, d1 k = d2 k) ->
  (spec_bops d1 os).1 = (spec_bops d2 os).1 /\ forall k, (spec_bops d1 os).2 k = (spec_bops d2 os).2 k.
Proof.
  induction os as [|o os IH]; intros d1 d2 E; [by split|]. cbn.
  destruct o as [k|k dt]; cbn.
  - destruct (IH d1 d2 E) as [I1 I2]. destruct (spec_bops d1 os), (spec_bops d2 os). cbn in *.
    by rewrite E, I1.
  - destruct (IH (fun k' => if decide (k = k') then dt else d1 k')
                 (fun k' => if decide (k = k') then dt else d2 k')) as [I1 I2].
    { intros k'. by case_decide. }
    destruct (spec_bops _ os), (spec_bops _ os). cbn in *. by rewrite I1.
Qed.

(** C3. Seen by a single thread, the buffer cache is transparent: with a disk
    driver that carries out each request, from any state in which the cache's
    list, reference counts and cached contents are consistent and no buffer is
    in use, any sequence of reads of any blocks and write-throughs of any blocks
    but block 0 of device 0 (the boot block, which nothing writes, and whose key
    every unused buffer carries), with bread, bwrite and brelse, never panics or waits, returns exactly what the same sequence
    returns on a bare disk, leaves the disk with the same contents, and leaves
    the cache consistent, however many blocks are recycled on the way. *)
Theorem bcache_refines_disk s i pid l os :
  AC s i pid l ∅ ∅ -> Forall bop_ok os ->
  exists s' l', quiet (run_bops os) s (spec_bops (block_of s) os).1 s' /\ AC s' i pid l' ∅ ∅ /\
    forall k, block_of s' k = (spec_bops (block_of s) os).2 k.
Proof.
  intros A Hos. revert s l A. induction Hos as [|o os Ho Hos IH]; intros s l A.
  { exists s, l. split_and!; [apply quiet_ret|done|done]. }
  destruct (run_bop_spec s i pid l o A Ho) as (s1 & l1 & Hq1 & A1 & Hd1).
  destruct (IH s1 l1 A1) as (s2 & l2 & Hq2 & A2 & Hd2).
  destruct (spec_bops_ext os _ _ Hd1) as [E1 E2]. cbn.
  destruct (spec_bop (block_of s) o) as [r d1] eqn:Eo. cbn in *.
  destruct (spec_bops d1 os) as [rs d2] eqn:Es. cbn in *.
  exists s2, l2. split_and!; [|done|].
  - eapply quiet_bind; [exact Hq1|]. eapply quiet_bind; [exact Hq2|]. rewrite E1. apply quiet_ret.
  - intros k. by rewrite Hd2.
Qed.
End Client.

(** ** A driver that performs each request at once *)
Definition ideal_rw (dev : Z) (b : nat) (write : bool) : M unit :=
  x ← get_buf b; modify (disk_done dev b write x).
Definition ideal : DiskDriver := {| virtio_disk_rw := ideal_rw |}.
#[export] Instance ideal_laws : @DiskLaws ideal.
Proof.
  intros s i pid dev b write x Hc Hx. cbn. unfold ideal_rw.
  eapply quiet_bind; [by apply quiet_get_buf|].
  apply quiet_modify. destruct write; by intros lk st.
Qed.

(** The cache as binit leaves it, with process 0 running. *)
Definition wbuf (j : nat) : buf :=
  mk_buf 0 0 0 0 sleeplock0 0 (if decide (j = NBUF) then 0%nat else S j)
    (if decide (j = 0%nat) then NBUF else (j - 1)%nat) (replicate 1024 0).
Definition wcache : kstate :=
  set_k_bufs (wbuf <$> seq 0 (S NBUF))
    (set_k_lk (set_l_cpus (replicate NCPU (mk_cpu (Some 0%nat) 0 0)) lkstate0) kstate0).

Lemma wcache_ctx : io_ctx wcache 0 0.
Proof.
  assert (Hh : hart_ok (k_lk wcache) (k_hart wcache)).
  { exists (mk_cpu (Some 0%nat) 0 0), 0. split_and!; [done..|]. by intros []. }
  split; [by intros l|done| |done].
  split; [|by exists proc0]. split; [done|by exists (mk_cpu (Some 0%nat) 0 0)].
Qed.
Lemma wcache_buf j x : k_bufs wcache !! j = Some x ->
  x = wbuf j /\ (j < S NBUF)%nat.
Proof.
  cbn [wcache k_bufs set_k_bufs]. rewrite list_lookup_fmap. intros (z & Hz & ->)%fmap_Some.
  apply lookup_seq in Hz as [-> Hz]. done.
Qed.
Lemma wcache_ok : AC wcache 0 0 (rev (seq 0 NBUF)) ∅ ∅.
Proof.
  split.
  - exact wcache_ctx.
  - vm_compute. repeat split.
  - symmetry. apply Permutation_rev.
  - intros a b x y _ _ [-> _]%wcache_buf [-> _]%wcache_buf _ H. by destruct H.
  - intros j x _ [-> _]%wcache_buf. split; [set_solver|]. intros _.
    split_and!; [done|done|]. rewrite lookup_empty. by intros [].
  - intros k c d. by rewrite lookup_empty.
  - set_solver.
Qed.

Lemma bcache_refines_disk_witness :
  exists s' l', quiet (run_bops (DD := ideal) [BWrite (0, 7) [1]; BRead (0, 7); BRead (0, 0)]) wcache
    [[1]; [1]; replicate 1024 0] s' /\ AC s' 0 0 l' ∅ ∅.
Proof.
  destruct (bcache_refines_disk (DD := ideal) wcache 0 0 _ [BWrite (0, 7) [1]; BRead (0, 7); BRead (0, 0)]
    wcache_ok ltac:(repeat constructor; discriminate)) as (s' & l' & H1 & H2 & _).
  exists s', l'. split; [exact H1|exact H2].
Defined.
