(* ===== verification/LogProofs.v ===== *)
(** * The write-ahead log: the disk writes of commit and of recovery

    For a log that holds the blocks [bl], commit's disk writes are, in order:
    the blocks into the log, the header naming them, the blocks to their homes,
    and the empty header ([commit_spec]).  recover_from_log writes the logged
    blocks home and the empty header ([recover_spec]). *)
From S2P Require Import Prelude Mem Riscv State Spinlock Kalloc Vm Proc ProcProofs Sleeplock SleeplockProofs Bio BioProofs BioSpec Log.

(** ** Disk writes *)
Definition put_write (m : gmap (Z * Z) (list Z)) (w : Z * Z * list Z) : gmap (Z * Z) (list Z) :=
  <[w.1 := w.2]> m.
Definition put_writes (ws : list (Z * Z * list Z)) (m : gmap (Z * Z) (list Z)) : gmap (Z * Z) (list Z) :=
  foldl put_write m ws.
(** What a disk holds in block [k]; a block never written reads as zeroes. *)
Definition on_disk (m : gmap (Z * Z) (list Z)) (k : Z * Z) : list Z :=
  default (replicate (Z.to_nat BSIZE) 0) (m !! k).

Lemma put_writes_app ws1 ws2 m : put_writes (ws1 ++ ws2) m = put_writes ws2 (put_writes ws1 m).
Proof. apply foldl_app. Qed.
Lemma on_disk_put_ne ws : forall m k, k ∉ ws.*1 -> on_disk (put_writes ws m) k = on_disk m k.
Proof.
  induction ws as [|w ws IH]; intros m k Hk; [done|]. cbn in Hk.
  change (put_writes (w :: ws) m) with (put_writes ws (put_write m w)). rewrite IH by set_solver.
  unfold on_disk, put_write. rewrite lookup_insert_ne; [done|set_solver].
Qed.
Lemma on_disk_put_in ws : forall m k v, NoDup ws.*1 -> (k, v) ∈ ws -> on_disk (put_writes ws m) k = v.
Proof.
  induction ws as [|w ws IH]; intros m k v Hnd Hin; [set_solver|]. cbn in Hnd.
  change (put_writes (w :: ws) m) with (put_writes ws (put_write m w)).
  apply list.NoDup_cons in Hnd as [Hw Hnd]. apply elem_of_cons in Hin as [<-|Hin]; [|by apply IH].
  rewrite on_disk_put_ne by done. unfold on_disk, put_write. cbn. by rewrite lookup_insert_eq.
Qed.

(** The state without what the cache, the log and wakeups change. *)
Definition frame (s : kstate) : kstate :=
  set_k_procs (stateless (k_procs s)) (set_k_bufs [] (set_k_disk ∅ (set_k_dwrites [] (set_k_logs [] s)))).
(** [wrote ws s s']: the disk writes between [s] and [s'] are [ws], and nothing
    else has changed but buffers, logs and which processes are runnable. *)
Definition wrote (ws : list (Z * Z * list Z)) (s s' : kstate) : Prop :=
  k_dwrites s' = k_dwrites s ++ ws /\ k_disk s' = put_writes ws (k_disk s) /\ frame s' = frame s.
Definition same_logs (s s' : kstate) : Prop := k_logs s' = k_logs s.

Lemma wrote_nil s s' :
  k_dwrites s' = k_dwrites s -> k_disk s' = k_disk s -> frame s' = frame s -> wrote [] s s'.
Proof. intros E1 E2 E3. unfold wrote. by rewrite E1, E2, app_nil_r. Qed.
Lemma wrote_trans ws1 ws2 s1 s2 s3 : wrote ws1 s1 s2 -> wrote ws2 s2 s3 -> wrote (ws1 ++ ws2) s1 s3.
Proof.
  intros (E1 & E2 & E3) (F1 & F2 & F3). unfold wrote.
  by rewrite F1, F2, F3, E1, E2, app_assoc, put_writes_app.
Qed.
Lemma wrote_block ws s s' k : wrote ws s s' -> block_of s' k = on_disk (put_writes ws (k_disk s)) k.
Proof. intros (_ & E & _). unfold block_of. by rewrite E. Qed.
Lemma released_wrote b s s' : released b s s' -> wrote [] s s' /\ same_logs s s'.
Proof.
  intros (ps & bs & -> & Hp & _). split; [|done]. apply wrote_nil; [done|done|]. unfold frame.
  cbn [k_procs set_k_procs set_k_bufs]. by rewrite Hp.
Qed.

Section LogProofs.
Context `{DL : DiskLaws}.

(** ** Using the cache from the log *)
Lemma ac_logs s i pid l P H lgs : AC s i pid l P H -> AC (set_k_logs lgs s) i pid l P H.
Proof.
  intros A. destruct (ac_ctx _ _ _ _ _ _ A) as [C1 C2 [C3 C4] C5].
  split; try apply A. by split; [exact C1|exact C2|split; [exact C3|exact C4]|exact C5].
Qed.

(** bread, when the block is pinned or a buffer is free. *)
Lemma log_bread s i pid l P H d n :
  AC s i pid l P H ->
  (forall j x, j ∈ H -> k_bufs s !! j = Some x -> key x <> (d, n) /\ pin P (key x) <> -1) ->
  is_Some (P !! (d, n)) \/ (size P + size H < NBUF)%nat ->
  exists b y s', (b ∉ H) /\ key y = (d, n) /\ b_data y = shown s P (d, n) /\
    quiet (bread d n) s b s' /\ AC s' i pid l P ({[b]} ∪ H) /\ k_bufs s' !! b = Some y /\
    (forall j, j ∈ H -> k_bufs s' !! j = k_bufs s !! j) /\ wrote [] s s' /\ same_logs s s'.
Proof.
  intros A Hheld Hfree. destruct (bread_spec s i pid l P H d n A Hheld) as (b & y & Hb & HbH & Hk & Hd & Hq & A').
  - destruct Hfree as [[[c v] HP]|Hsz].
    + destruct (ac_pins _ _ _ _ _ _ A _ _ _ HP) as (_ & _ & j & x & Hj & Hx & Hxk).
      exists j, x. split_and!; [done| |done|by left]. intros HjH. by destruct (Hheld j x HjH Hx).
    + destruct (ac_free s i pid l P H A Hsz) as (j & x & Hj & HH & Hx & HP). exists j, x. eauto.
  - exists b, y, (set_k_bufs (<[b := y]> (k_bufs s)) s).
    assert (Hlen : (b < length (k_bufs s))%nat) by (rewrite (io_bufs _ _ _ (ac_ctx _ _ _ _ _ _ A)); lia).
    split_and!; [done|done|done|done|done| | |by apply wrote_nil|done].
    + by apply list_lookup_insert_eq.
    + intros j Hj. apply list_lookup_insert_ne. by intros ->.
Qed.

(** Changing the data of a held buffer. *)
Lemma log_upd_data s i pid l P H b x dt f :
  AC s i pid l P H -> b ∈ H -> k_bufs s !! b = Some x -> f x = set_b_data dt x ->
  exists s', quiet (upd_buf b f) s tt s' /\ AC s' i pid l P H /\
    k_bufs s' !! b = Some (set_b_data dt x) /\
    (forall j, j <> b -> k_bufs s' !! j = k_bufs s !! j) /\ wrote [] s s' /\ same_logs s s'.
Proof.
  intros A Hb Hx Hf. exists (set_k_bufs (<[b := set_b_data dt x]> (k_bufs s)) s).
  assert (Hlen : (b < length (k_bufs s))%nat) by by eapply lookup_lt_Some.
  split_and!; [|by apply ac_held_data| | |by apply wrote_nil|done].
  - rewrite <- Hf, <- (list_alter_insert f _ _ _ Hx). apply quiet_set_buf.
  - by apply list_lookup_insert_eq.
  - intros j Hj. by apply list_lookup_insert_ne.
Qed.
Definition log_set_data s i pid l P H b x dt := fun A Hb Hx =>
  log_upd_data s i pid l P H b x dt (set_b_data dt) A Hb Hx eq_refl.

Lemma log_bwrite s i pid l P H b x :
  AC s i pid l P H -> b ∈ H -> k_bufs s !! b = Some x -> key x <> (0, 0) ->
  exists s', quiet (bwrite b) s tt s' /\ AC s' i pid l P H /\ k_bufs s' = k_bufs s /\
    wrote [(key x, b_data x)] s s' /\ same_logs s s'.
Proof.
  intros A Hb Hx Hk. destruct (bwrite_spec s i pid l P H b x A Hb Hx Hk) as [Hq A'].
  exists (disk_put (key x) (b_data x) s). by split_and!.
Qed.

Lemma log_brelse s i pid l P H b x :
  AC s i pid l P H -> b ∈ H -> k_bufs s !! b = Some x -> b_data x = shown s P (key x) ->
  exists s' l', quiet (brelse b) s tt s' /\ AC s' i pid l' P (H ∖ {[b]}) /\
    (forall j x, j ∈ H ∖ {[b]} -> k_bufs s !! j = Some x ->
      exists y, k_bufs s' !! j = Some y /\ key y = key x /\ b_data y = b_data x) /\
    wrote [] s s' /\ same_logs s s'.
Proof.
  intros A Hb Hx Hd. destruct (brelse_spec s i pid l P H b x A Hb Hx Hd) as (s' & l' & Hq & A' & R).
  destruct (released_wrote _ _ _ R) as [W L]. exists s', l'. split_and!; [done|done| |done|done].
  destruct R as (ps & bs & -> & _ & _ & Hj). intros j z Hjb Hz.
  assert (Hne : j <> b) by set_solver. pose proof (Hj j Hne) as E. rewrite Hz in E. cbn in E.
  apply fmap_Some in E as (y & Hy & E). exists y. split; [done|].
  injection E as E1 E2 E3 E4 E5 E6 E7. unfold key. by rewrite E3, E4, E7.
Qed.

(** Reading the in-memory header. *)
Lemma quiet_glog s dev lg : k_logs s !! logidx dev = Some lg -> quiet (glog dev) s lg s.
Proof. intros H. eapply quiet_bind; [apply quiet_reads, _|]. rewrite H. apply quiet_ret. Qed.
Lemma quiet_get_lh s dev lg i v :
  k_logs s !! logidx dev = Some lg -> lg_block lg !! Z.to_nat i = Some v -> quiet (get_lh_block dev i) s v s.
Proof. intros H Hv. eapply quiet_bind; [by apply quiet_glog|]. rewrite Hv. apply quiet_ret. Qed.
Lemma quiet_ulog {B} dev f (k : unit -> M B) s b s2 :
  quiet (k tt) (set_k_logs (alter f (logidx dev) (k_logs s)) s) b s2 -> quiet (ulog dev f ≫= k) s b s2.
Proof. intros H. eapply quiet_bind; [apply quiet_modify, _|done]. Qed.

(** ** The log's place on the disk and its in-memory header *)
Record geom (start : Z) (bl : list Z) : Prop := {
  g_start : 0 < start;
  g_end : start + LOGSIZE < 2 ^ 31;
  g_home : forall b, b ∈ bl -> 0 < b < 2 ^ 31 /\ (b < start \/ start + LOGSIZE <= b);
  g_nodup : NoDup bl;
  g_len : (length bl < Z.to_nat LOGSIZE)%nat;
}.
Record log_mem (lg : log) (start : Z) (bl : list Z) : Prop := {
  lm_start : lg_start lg = start;
  lm_n : lg_n lg = Z.of_nat (length bl);
  lm_block : forall i b, bl !! i = Some b -> lg_block lg !! i = Some b;
  lm_len : length (lg_block lg) = Z.to_nat LOGSIZE;
}.
(** The [i]-th log block. *)
Definition slot_of (start : Z) (i : nat) : Z := start + Z.of_nat i + 1.

Lemma geom_slot start bl i b : geom start bl -> bl !! i = Some b ->
  u32 (start + Z.of_nat i + 1) = slot_of start i /\ 0 < slot_of start i /\ u32 b = b /\ 0 < b /\
  start < slot_of start i < start + LOGSIZE /\ b <> slot_of start i /\ b <> start.
Proof.
  intros G Hb. pose proof (g_start _ _ G). pose proof (g_end _ _ G). pose proof (g_len _ _ G) as Hl.
  pose proof (lookup_lt_Some _ _ _ Hb) as Hi.
  destruct (g_home _ _ G b) as [Hb1 Hb2]; [by eapply list_elem_of_lookup_2|].
  unfold slot_of, LOGSIZE, MAXOPBLOCKS in *. split_and!; sz.
Qed.
Lemma key_pos (dev n : Z) : 0 < n -> (dev, n) <> (0, 0).
Proof. intros H [=]. lia. Qed.

(** Two held buffers: the log block and the home block of entry [i]. *)
Lemma log_bread_pair s i pid l P dev start bl k b :
  AC s i pid l P ∅ -> geom start bl -> bl !! k = Some b -> P !! (dev, slot_of start k) = None ->
  (size P < NBUF)%nat -> is_Some (P !! (dev, b)) \/ (size P + 1 < NBUF)%nat ->
  exists x y bx by0 s1 s2, x <> y /\
    quiet (bread dev (slot_of start k)) s x s1 /\ same_logs s s1 /\ quiet (bread dev b) s1 y s2 /\
    AC s2 i pid l P {[x; y]} /\ same_logs s s2 /\ wrote [] s s2 /\
    k_bufs s2 !! x = Some bx /\ key bx = (dev, slot_of start k) /\ b_data bx = block_of s (dev, slot_of start k) /\
    k_bufs s2 !! y = Some by0 /\ key by0 = (dev, b) /\ b_data by0 = shown s P (dev, b).
Proof.
  intros A G Hb Hslot Hsz Hfree.
  destruct (geom_slot _ _ _ _ G Hb) as (_ & Hs0 & _ & Hb0 & _ & Hne & _).
  destruct (log_bread s i pid l P ∅ dev (slot_of start k) A) as (x & bx & s1 & _ & Kx & Dx & Q1 & A1 & Bx & _ & W1 & L1).
  { set_solver. } { right. rewrite size_empty. lia. }
  rewrite union_empty_r_L in A1.
  destruct (log_bread s1 i pid l P {[x]} dev b A1) as (y & by0 & s2 & Hxy & Ky & Dy & Q2 & A2 & By & Fr & W2 & L2).
  { intros j z ->%elem_of_singleton Hz. rewrite Bx in Hz. injection Hz as <-. rewrite Kx.
    split; [congruence|]. unfold pin. by rewrite Hslot. }
  { rewrite size_singleton. destruct Hfree; [by left|right; lia]. }
  exists x, y, bx, by0, s1, s2. rewrite (union_comm_L {[x]}). unfold shown in Dx. rewrite Hslot in Dx.
  pose proof (wrote_trans _ _ _ _ _ W1 W2) as W. unfold same_logs in *.
  split_and!; try done; [set_solver|congruence|by rewrite Fr by set_solver|].
  rewrite Dy. unfold shown. destruct (P !! (dev, b)) as [[]|]; [done|].
  rewrite (wrote_block _ _ _ _ W1). done.
Qed.

Lemma write_log_body_spec s i pid l P dev start bl lg k b c d :
  AC s i pid l P ∅ -> geom start bl -> k_logs s !! logidx dev = Some lg -> log_mem lg start bl ->
  bl !! k = Some b -> P !! (dev, b) = Some (c, d) -> P !! (dev, slot_of start k) = None ->
  (size P < NBUF)%nat ->
  exists s' l', quiet (write_log_body dev (Z.of_nat k)) s tt s' /\ AC s' i pid l' P ∅ /\
    wrote [((dev, slot_of start k), d)] s s' /\ same_logs s s'.
Proof.
  intros A G Hlg Hm Hb HP Hslot Hsz.
  destruct (geom_slot _ _ _ _ G Hb) as (Us & Hs0 & Ub & Hb0 & _ & Hne & _).
  destruct (log_bread_pair s i pid l P dev start bl k b A G Hb Hslot) as
    (x & y & bx & by0 & s1 & s2 & Hxy & Q1 & L1 & Q2 & A2 & L2 & W2 & Bx & Kx & Dx & By & Ky & Dy);
    [done|by left; rewrite HP|].
  unfold shown in Dy. rewrite HP in Dy.
  destruct (log_set_data s2 i pid l P {[x; y]} x bx (b_data by0) A2 ltac:(set_solver) Bx)
    as (s3 & Q3 & A3 & Bx3 & Fr3 & W3 & L3).
  destruct (log_bwrite s3 i pid l P {[x; y]} x _ A3 ltac:(set_solver) Bx3) as (s4 & Q4 & A4 & B4 & W4 & L4).
  { change (key (set_b_data (b_data by0) bx)) with (key bx). rewrite Kx. by apply key_pos. }
  assert (By4 : k_bufs s4 !! y = Some by0) by by rewrite B4, Fr3.
  destruct (log_brelse s4 i pid l P {[x; y]} y by0 A4 ltac:(set_solver) By4) as (s5 & l5 & Q5 & A5 & Fr5 & W5 & L5).
  { rewrite Ky. unfold shown. by rewrite HP. }
  destruct (Fr5 x (set_b_data (b_data by0) bx)) as (bx5 & Bx5 & Kx5 & Dx5); [set_solver|by rewrite B4|].
  change (key (set_b_data (b_data by0) bx)) with (key bx) in *. cbn in Dx5, W4. rewrite Kx, Dy in *.
  destruct (log_brelse s5 i pid l5 P ({[x; y]} ∖ {[y]}) x bx5 A5 ltac:(set_solver) Bx5) as (s6 & l6 & Q6 & A6 & _ & W6 & L6).
  { rewrite Kx5, Dx5. unfold shown. rewrite Hslot, (wrote_block _ _ _ _ W5). cbn.
    destruct W4 as (_ & -> & _). unfold on_disk. cbn. unfold put_write. by rewrite lookup_insert_eq. }
  exists s6, l6. unfold same_logs in *. split_and!; [| | |congruence].
  - unfold write_log_body. eapply quiet_bind; [by apply quiet_glog|].
    rewrite (lm_start _ _ _ Hm), Us. eapply quiet_bind; [exact Q1|].
    eapply quiet_bind; [eapply quiet_get_lh; [by rewrite L1|rewrite Nat2Z.id; by apply (lm_block _ _ _ Hm)]|].
    rewrite Ub. eapply quiet_bind; [exact Q2|].
    eapply quiet_bind; [apply quiet_get_buf; exact By|]. rewrite Dy. eapply quiet_bind; [exact Q3|].
    eapply quiet_bind; [exact Q4|]. eapply quiet_bind; [exact Q5|exact Q6].
  - replace (({[x; y]} : gset nat) ∖ {[y]} ∖ {[x]}) with (∅ : gset nat) in A6 by set_solver. exact A6.
  - apply (wrote_trans _ _ _ _ _ W2), (wrote_trans _ _ _ _ _ W3), (wrote_trans _ _ _ _ _ W4),
      (wrote_trans _ _ _ _ _ W5 W6).
Qed.

Lemma log_bunpin s i pid l P H b x dt :
  AC s i pid l P H -> b ∈ H -> k_bufs s !! b = Some x -> key x <> (0, 0) -> pin P (key x) <> -1 ->
  exists s' y, quiet (bunpin b) s tt s' /\ AC s' i pid l (unpin (key x) dt P) H /\
    k_bufs s' !! b = Some y /\ key y = key x /\ b_data y = b_data x /\
    (forall j, j <> b -> k_bufs s' !! j = k_bufs s !! j) /\ wrote [] s s' /\ same_logs s s'.
Proof.
  intros A Hb Hx Hk Hp. destruct (bunpin_spec s i pid l P H b x dt A Hb Hx Hk Hp) as [Q A'].
  assert (Hlen : (b < length (k_bufs s))%nat) by by eapply lookup_lt_Some.
  eexists _, _. split_and!; [exact Q|exact A'| | | | |by apply wrote_nil|done].
  - by apply list_lookup_insert_eq.
  - done.
  - done.
  - intros j Hj. by apply list_lookup_insert_ne.
Qed.
Lemma shown_unpin s k dt P : block_of s k = dt -> shown s (unpin k dt P) k = dt.
Proof.
  intros E. unfold shown, unpin. destruct (P !! k); [by rewrite lookup_delete_eq|by rewrite lookup_insert_eq].
Qed.
Lemma wrote_last s s' k d : wrote [(k, d)] s s' -> block_of s' k = d.
Proof.
  intros W. rewrite (wrote_block _ _ _ _ W). apply on_disk_put_in; [apply NoDup_singleton|set_solver].
Qed.
Lemma wrote_nil_block s s' k : wrote [] s s' -> block_of s' k = block_of s k.
Proof. intros W. by rewrite (wrote_block _ _ _ _ W). Qed.

(** One block is copied home.  In commit the home block is pinned and its pin
    is dropped; in recovery it is not, and its reference count underflows. *)
Lemma install_body_spec s i pid l P dev start bl lg k b :
  let dt := block_of s (dev, slot_of start k) in
  AC s i pid l P ∅ -> geom start bl -> k_logs s !! logidx dev = Some lg -> log_mem lg start bl ->
  bl !! k = Some b -> P !! (dev, slot_of start k) = None -> pin P (dev, b) <> -1 ->
  (size P < NBUF)%nat -> is_Some (P !! (dev, b)) \/ (size P + 1 < NBUF)%nat ->
  exists s' l', quiet (install_trans_body dev (Z.of_nat k)) s tt s' /\
    AC s' i pid l' (unpin (dev, b) dt P) ∅ /\ wrote [((dev, b), dt)] s s' /\ same_logs s s'.
Proof.
  intros dt A G Hlg Hm Hb Hslot Hpin Hsz Hfree.
  destruct (geom_slot _ _ _ _ G Hb) as (Us & Hs0 & Ub & Hb0 & _ & Hne & _).
  destruct (log_bread_pair s i pid l P dev start bl k b A G Hb Hslot Hsz Hfree) as
    (x & y & bx & by0 & s1 & s2 & Hxy & Q1 & L1 & Q2 & A2 & L2 & W2 & Bx & Kx & Dx & By & Ky & Dy).
  fold dt in Dx.
  destruct (log_set_data s2 i pid l P {[x; y]} y by0 dt A2 ltac:(set_solver) By)
    as (s3 & Q3 & A3 & By3 & Fr3 & W3 & L3).
  set (y3 := set_b_data dt by0) in *. assert (Ky3 : key y3 = (dev, b)) by exact Ky.
  destruct (log_bwrite s3 i pid l P {[x; y]} y y3 A3 ltac:(set_solver) By3) as (s4 & Q4 & A4 & B4 & W4 & L4).
  { rewrite Ky3. by apply key_pos. }
  rewrite Ky3 in W4. change (b_data y3) with dt in W4.
  rewrite <- B4 in By3.
  destruct (log_bunpin s4 i pid l P {[x; y]} y y3 dt A4 ltac:(set_solver) By3) as
    (s5 & y5 & Q5 & A5 & By5 & Ky5 & Dy5 & Fr5 & W5 & L5).
  { rewrite Ky3. by apply key_pos. } { by rewrite Ky3. }
  rewrite Ky3 in A5, Ky5. change (b_data y3) with dt in Dy5. set (P' := unpin (dev, b) dt P) in *.
  assert (Bx5 : k_bufs s5 !! x = Some bx) by by rewrite Fr5, B4, Fr3.
  assert (Hslot' : P' !! (dev, slot_of start k) = None) by (unfold P'; rewrite unpin_ne; [done|congruence]).
  assert (Hx4 : forall s', wrote [] s4 s' -> block_of s' (dev, slot_of start k) = dt).
  { intros s' W. rewrite (wrote_nil_block _ _ _ W), (wrote_block _ _ _ _ W4), on_disk_put_ne by set_solver.
    change (on_disk (k_disk s3)) with (block_of s3).
    by rewrite (wrote_nil_block _ _ _ W3), (wrote_nil_block _ _ _ W2). }
  destruct (log_brelse s5 i pid l P' {[x; y]} x bx A5 ltac:(set_solver) Bx5) as (s6 & l6 & Q6 & A6 & Fr6 & W6 & L6).
  { rewrite Kx, Dx. unfold shown. by rewrite Hslot', Hx4. }
  destruct (Fr6 y y5) as (y6 & By6 & Ky6 & Dy6); [set_solver|done|].
  destruct (log_brelse s6 i pid l6 P' ({[x; y]} ∖ {[x]}) y y6 A6 ltac:(set_solver) By6)
    as (s7 & l7 & Q7 & A7 & _ & W7 & L7).
  { rewrite Ky6, Dy6, Ky5, Dy5. symmetry. apply shown_unpin.
    by rewrite (wrote_nil_block _ _ _ W6), (wrote_nil_block _ _ _ W5), (wrote_last _ _ _ _ W4). }
  exists s7, l7. unfold same_logs in *. split_and!; [| | |congruence].
  - unfold install_trans_body. eapply quiet_bind; [by apply quiet_glog|].
    rewrite (lm_start _ _ _ Hm), Us. eapply quiet_bind; [exact Q1|].
    eapply quiet_bind; [eapply quiet_get_lh; [by rewrite L1|rewrite Nat2Z.id; by apply (lm_block _ _ _ Hm)]|].
    rewrite Ub. eapply quiet_bind; [exact Q2|].
    eapply quiet_bind; [apply quiet_get_buf; exact Bx|]. rewrite Dx. eapply quiet_bind; [exact Q3|].
    eapply quiet_bind; [exact Q4|]. eapply quiet_bind; [exact Q5|]. eapply quiet_bind; [exact Q6|exact Q7].
  - replace (({[x; y]} : gset nat) ∖ {[x]} ∖ {[y]}) with (∅ : gset nat) in A7 by set_solver. exact A7.
  - apply (wrote_trans _ _ _ _ _ W2), (wrote_trans _ _ _ _ _ W3), (wrote_trans _ _ _ _ _ W4),
      (wrote_trans _ _ _ _ _ W5), (wrote_trans _ _ _ _ _ W6 W7).
Qed.

(** ** The loops over the header *)
(** A loop over the entries of the header, given what the body does to entry [k]
    of the list: [I k s l P] holds before it and [W k] are its disk writes. *)
Lemma quiet_tail_loop dev n (body : Z -> M unit) (I : nat -> kstate -> Prop) (W : nat -> list (Z * Z * list Z)) :
  (forall k s, (k < n)%nat -> I k s ->
    exists s', quiet (body (Z.of_nat k)) s tt s' /\ I (S k) s' /\ wrote (W k) s s') ->
  (forall k s, I k s -> exists lg, k_logs s !! logidx dev = Some lg /\ lg_n lg = Z.of_nat n) ->
  forall m k fuel s, (k + m = n)%nat -> (m <= fuel)%nat -> I k s ->
  exists s', quiet (tail_loop fuel dev (Z.of_nat k) body) s tt s' /\ I n s' /\
    wrote (concat (W <$> seq k m)) s s'.
Proof.
  intros Hbody Hlg m. induction m as [|m IH]; intros k fuel s Hk Hf HI.
  - destruct (Hlg k s HI) as (lg & Hl & Hn). exists s. replace n with k by lia.
    split_and!; [|done|by apply wrote_nil].
    destruct fuel; cbn [tail_loop]; (eapply quiet_bind; [by apply quiet_glog|]); rewrite Hn;
      replace (negb (Z.of_nat k <? Z.of_nat n)) with true by lia; apply quiet_ret.
  - destruct fuel as [|fuel]; [lia|]. destruct (Hlg k s HI) as (lg & Hl & Hn).
    destruct (Hbody k s) as (s1 & Q1 & I1 & W1); [lia|done|].
    destruct (IH (S k) fuel s1) as (s2 & Q2 & I2 & W2); [lia|lia|done|].
    exists s2. split_and!; [|done|exact (wrote_trans _ _ _ _ _ W1 W2)].
    cbn [tail_loop]. eapply quiet_bind; [by apply quiet_glog|]. rewrite Hn.
    replace (negb (Z.of_nat k <? Z.of_nat n)) with false by lia.
    eapply quiet_bind; [exact Q1|]. replace (Z.of_nat k + 1) with (Z.of_nat (S k)) by lia. exact Q2.
Qed.
Lemma quiet_for_tail dev n (body : Z -> M unit) I W s :
  (n <= S (Z.to_nat LOGSIZE))%nat ->
  (forall k s, (k < n)%nat -> I k s ->
    exists s', quiet (body (Z.of_nat k)) s tt s' /\ I (S k) s' /\ wrote (W k) s s') ->
  (forall k s, I k s -> exists lg, k_logs s !! logidx dev = Some lg /\ lg_n lg = Z.of_nat n) ->
  I 0%nat s ->
  exists s', quiet (for_tail dev body) s tt s' /\ I n s' /\ wrote (concat (W <$> seq 0 n)) s s'.
Proof. intros Hn Hb Hl H0. by apply (quiet_tail_loop dev n body I W Hb Hl n 0). Qed.

(** ** The disk writes of the three loops *)
Definition log_writes (dev start : Z) (ds : list (list Z)) : list (Z * Z * list Z) :=
  imap (fun k d => ((dev, slot_of start k), d)) ds.
Definition home_writes (dev : Z) (bl : list Z) (ds : list (list Z)) : list (Z * Z * list Z) :=
  zip_with (fun b d => ((dev, b), d)) bl ds.
Definition entry {A B} (f : nat -> A -> B) (l : list A) (k : nat) : list B :=
  match l !! k with Some a => [f k a] | None => [] end.

Lemma concat_entry {A B} (f : nat -> A -> B) l :
  concat (entry f l <$> seq 0 (length l)) = imap f l.
Proof.
  revert f. induction l as [|a l IH]; intros f; [done|]. cbn [length seq fmap list_fmap concat].
  unfold entry at 1. cbn [lookup list_lookup app imap]. f_equal. rewrite <- IH, <- fmap_S_seq, <- list_fmap_compose.
  done.
Qed.
Lemma home_writes_imap dev bl ds : length ds = length bl ->
  home_writes dev bl ds = imap (fun _ '(b, d) => ((dev, b), d)) (zip bl ds).
Proof.
  unfold home_writes. revert ds. induction bl as [|b bl IH]; intros [|d ds] H; try done. cbn. f_equal.
  cbn in H. rewrite (IH ds) by lia. apply imap_ext. by intros.
Qed.

Definition unpins (dev : Z) (l : list (Z * list Z)) (P : gmap (Z * Z) (Z * list Z)) :=
  foldl (fun P '(b, d) => unpin (dev, b) d P) P l.
Lemma unpins_ne dev l : forall P k, (forall b d, (b, d) ∈ l -> k <> (dev, b)) -> unpins dev l P !! k = P !! k.
Proof.
  induction l as [|[b d] l IH]; intros P k Hk; [done|].
  change (unpins dev ((b, d) :: l) P) with (unpins dev l (unpin (dev, b) d P)).
  rewrite IH by set_solver. apply unpin_ne. set_solver.
Qed.
Lemma unpins_snoc dev l b d P : unpins dev (l ++ [(b, d)]) P = unpin (dev, b) d (unpins dev l P).
Proof. unfold unpins. by rewrite foldl_app. Qed.

(** The pinned contents of the logged blocks. *)
Definition pinned_in (dev : Z) (bl : list Z) (ds : list (list Z)) (P : gmap (Z * Z) (Z * list Z)) : Prop :=
  forall k b d, bl !! k = Some b -> ds !! k = Some d -> P !! (dev, b) = Some (1, d).
(** The log's own blocks are not logged. *)
Definition log_unpinned (dev start : Z) (P : gmap (Z * Z) (Z * list Z)) : Prop :=
  forall n, start <= n < start + LOGSIZE -> P !! (dev, n) = None.

Lemma write_log_spec s i pid l P dev start bl ds lg :
  AC s i pid l P ∅ -> geom start bl -> k_logs s !! logidx dev = Some lg -> log_mem lg start bl ->
  length ds = length bl -> pinned_in dev bl ds P -> log_unpinned dev start P -> (size P < NBUF)%nat ->
  exists s' l', quiet (write_log dev) s tt s' /\ AC s' i pid l' P ∅ /\
    wrote (log_writes dev start ds) s s' /\ same_logs s s'.
Proof.
  intros A G Hlg Hm Hlen Hpin Hun Hsz.
  destruct (quiet_for_tail dev (length bl) (write_log_body dev)
    (fun k s' => (exists l', AC s' i pid l' P ∅) /\ same_logs s s')
    (entry (fun k d => ((dev, slot_of start k), d)) ds) s) as (s' & Q & [[l' A'] L] & W).
  - pose proof (g_len _ _ G). lia.
  - intros k s1 Hk [[l1 A1] L1].
    destruct (lookup_lt_is_Some_2 bl k Hk) as [b Hb]. destruct (lookup_lt_is_Some_2 ds k) as [d Hd]; [lia|].
    destruct (geom_slot _ _ _ _ G Hb) as (_ & _ & _ & _ & Hr & _).
    destruct (write_log_body_spec s1 i pid l1 P dev start bl lg k b 1 d A1 G) as (s2 & l2 & Q2 & A2 & W2 & L2);
      [by rewrite L1|done|done|by eapply Hpin|apply Hun; lia|done|].
    exists s2. split_and!; [done|by eexists|unfold same_logs in *; congruence|]. unfold entry. by rewrite Hd.
  - intros k s1 [_ L1]. exists lg. by rewrite L1, (lm_n _ _ _ Hm).
  - by split; [eexists|].
  - exists s', l'. split_and!; [done|done| |done]. by rewrite <- Hlen, concat_entry in W.
Qed.

Lemma install_spec s i pid l P dev start bl ds lg :
  AC s i pid l P ∅ -> geom start bl -> k_logs s !! logidx dev = Some lg -> log_mem lg start bl ->
  length ds = length bl -> log_unpinned dev start P ->
  (forall k d, ds !! k = Some d -> block_of s (dev, slot_of start k) = d) ->
  (forall b, b ∈ bl -> pin P (dev, b) <> -1) ->
  (forall k b, bl !! k = Some b -> let Pk := unpins dev (take k (zip bl ds)) P in
    (size Pk < NBUF)%nat /\ (is_Some (P !! (dev, b)) \/ (size Pk + 1 < NBUF)%nat)) ->
  exists s' l', quiet (install_trans dev) s tt s' /\ AC s' i pid l' (unpins dev (zip bl ds) P) ∅ /\
    wrote (home_writes dev bl ds) s s' /\ same_logs s s'.
Proof.
  intros A G Hlg Hm Hlen Hun Hds Hpin Hsz.
  assert (Hzl : length (zip bl ds) = length bl) by (rewrite length_zip_with; lia).
  destruct (quiet_for_tail dev (length bl) (install_trans_body dev)
    (fun k s' => (exists l', AC s' i pid l' (unpins dev (take k (zip bl ds)) P) ∅) /\ same_logs s s' /\
       forall k d, ds !! k = Some d -> block_of s' (dev, slot_of start k) = d)
    (entry (fun _ '(b, d) => ((dev, b), d)) (zip bl ds)) s) as (s' & Q & [[l' A'] [L _]] & W).
  - pose proof (g_len _ _ G). lia.
  - intros k s1 Hk ([l1 A1] & L1 & D1).
    destruct (lookup_lt_is_Some_2 bl k Hk) as [b Hb]. destruct (lookup_lt_is_Some_2 ds k) as [d Hd]; [lia|].
    assert (Hz : zip bl ds !! k = Some (b, d)) by (rewrite lookup_zip_with, Hb, Hd; done).
    destruct (geom_slot _ _ _ _ G Hb) as (_ & Hs0 & _ & Hb0 & Hr & Hne & _). set (Pk := unpins dev _ P) in *.
    assert (HPk : Pk !! (dev, b) = P !! (dev, b)).
    { apply unpins_ne. intros b' d' [j Hj]%list_elem_of_lookup [= <-].
      apply lookup_take_Some in Hj as [Hj Hjk]. rewrite lookup_zip_with in Hj.
      destruct (bl !! j) as [b2|] eqn:Ebj; [|done]. destruct (ds !! j); [|done]. injection Hj as <- <-.
      pose proof (NoDup_lookup _ _ _ _ (g_nodup _ _ G) Hb Ebj). lia. }
    assert (Hslot : Pk !! (dev, slot_of start k) = None).
    { unfold Pk. rewrite unpins_ne; [apply Hun; lia|]. intros b' d' Hin [= E].
      apply elem_of_take in Hin as (j & Hj & _). rewrite lookup_zip_with in Hj.
      destruct (bl !! j) as [b2|] eqn:Ebj; [|done]. destruct (ds !! j); [|done]. injection Hj as -> ->.
      destruct (g_home _ _ G b') as [_ Hg]; [by eapply list_elem_of_lookup_2|]. lia. }
    destruct (Hsz k b Hb) as [Hs1 Hs2]. fold Pk in Hs1, Hs2.
    destruct (install_body_spec s1 i pid l1 Pk dev start bl lg k b A1 G) as (s2 & l2 & Q2 & A2 & W2 & L2);
      [by rewrite L1|done|done|done| |done|by rewrite HPk|].
    { unfold pin. rewrite HPk. apply Hpin. by eapply list_elem_of_lookup_2. }
    rewrite (D1 _ _ Hd) in A2, W2. exists s2. split; [done|]. split.
    + split_and!; [exists l2| |].
      * rewrite (take_S_r _ _ _ Hz), unpins_snoc. exact A2.
      * unfold same_logs in *. congruence.
      * intros k' d' Hd'. rewrite (wrote_block _ _ _ _ W2), on_disk_put_ne.
        { change (on_disk (k_disk s1)) with (block_of s1). by apply D1. }
        apply lookup_lt_Some in Hd'. rewrite Hlen in Hd'. destruct (lookup_lt_is_Some_2 bl k' Hd') as [b' Hb'].
        destruct (geom_slot _ _ _ _ G Hb') as (_ & _ & _ & _ & Hr' & _).
        destruct (g_home _ _ G b) as [_ Hg]; [by eapply list_elem_of_lookup_2|].
        cbn. rewrite list_elem_of_singleton. intros [= E]. lia.
    + unfold entry. by rewrite Hz.
  - intros k s1 (_ & L1 & _). exists lg. by rewrite L1, (lm_n _ _ _ Hm).
  - split_and!; [by eexists|done|done].
  - exists s', l'. split_and!; [done| | |done].
    + by rewrite take_ge in A' by lia.
    + rewrite home_writes_imap by done. by rewrite <- Hzl, concat_entry in W.
Qed.

(** ** The header block *)
Fixpoint head_from (k : nat) (bl : list Z) (d : list Z) : list Z :=
  match bl with [] => d | b :: bl' => head_from (S k) bl' (put32 d (4 + 4 * Z.of_nat k) b) end.
(** The block [d] with a header for [bl] written over its beginning. *)
Definition head_bytes (bl : list Z) (d : list Z) : list Z :=
  head_from 0 bl (put32 d 0 (Z.of_nat (length bl))).
Lemma head_from_snoc bl b : forall k d,
  head_from k (bl ++ [b]) d = put32 (head_from k bl d) (4 + 4 * Z.of_nat (k + length bl)) b.
Proof.
  induction bl as [|c bl IH]; intros k d; cbn [head_from app length]; [by rewrite Nat.add_0_r|].
  rewrite IH. do 2 f_equal. lia.
Qed.

Lemma write_head_spec s i pid l P dev start bl lg :
  AC s i pid l P ∅ -> geom start bl -> k_logs s !! logidx dev = Some lg -> log_mem lg start bl ->
  log_unpinned dev start P -> (size P < NBUF)%nat ->
  exists s' l', quiet (write_head dev) s tt s' /\ AC s' i pid l' P ∅ /\
    wrote [((dev, start), head_bytes bl (block_of s (dev, start)))] s s' /\ same_logs s s'.
Proof.
  intros A G Hlg Hm Hun Hsz. pose proof (g_start _ _ G) as Hs0. pose proof (g_end _ _ G) as Hs1.
  assert (Us : u32 start = start) by (unfold LOGSIZE, MAXOPBLOCKS in *; sz).
  assert (HP : P !! (dev, start) = None) by (apply Hun; unfold LOGSIZE, MAXOPBLOCKS; lia).
  destruct (log_bread s i pid l P ∅ dev start A) as (b & x & s1 & _ & Kx & Dx & Q1 & A1 & Bx & _ & W1 & L1).
  { set_solver. } { right. rewrite size_empty. lia. }
  rewrite union_empty_r_L in A1. unfold shown in Dx. rewrite HP in Dx.
  set (d0 := put32 (b_data x) 0 (Z.of_nat (length bl))).
  destruct (log_upd_data s1 i pid l P {[b]} b x d0 (fun x => set_b_data (put32 (b_data x) 0 (lg_n lg)) x)
    A1 ltac:(set_solver) Bx) as (s2 & Q2 & A2 & Bx2 & _ & W2 & L2).
  { unfold d0. by rewrite <- (lm_n _ _ _ Hm). }
  destruct (quiet_for_tail dev (length bl) (write_head_body dev b)
    (fun k s' => AC s' i pid l P {[b]} /\ same_logs s s' /\
       k_bufs s' !! b = Some (set_b_data (head_from 0 (take k bl) d0) x)) (fun _ => []) s2)
    as (s3 & Q3 & (A3 & L3 & B3) & W3).
  - pose proof (g_len _ _ G). lia.
  - intros k t Hk (At & Lt & Bt). destruct (lookup_lt_is_Some_2 bl k Hk) as [v Hv].
    destruct (log_upd_data t i pid l P {[b]} b _ (put32 (head_from 0 (take k bl) d0) (4 + 4 * Z.of_nat k) v)
      (fun x => set_b_data (put32 (b_data x) (4 + 4 * Z.of_nat k) v) x) At ltac:(set_solver) Bt)
      as (t2 & Qt & At2 & Bt2 & _ & Wt & Lt2); [done|].
    exists t2. split_and!; [|done|unfold same_logs in *; congruence| |done].
    + unfold write_head_body. eapply quiet_bind; [|exact Qt].
      eapply quiet_get_lh; [by rewrite Lt|]. rewrite Nat2Z.id. by apply (lm_block _ _ _ Hm).
    + rewrite Bt2, (take_S_r _ _ _ Hv), head_from_snoc, length_take, Nat.min_l by lia. done.
  - intros k t (_ & Lt & _). exists lg. by rewrite Lt, (lm_n _ _ _ Hm).
  - split_and!; [done|unfold same_logs in *; congruence|]. by rewrite Bx2.
  - rewrite take_ge in B3 by lia. fold (head_bytes bl (b_data x)) in B3. unfold d0 in B3.
    replace (concat ((fun _ : nat => []) <$> seq 0 (length bl))) with ([] : list (Z * Z * list Z)) in W3
      by (clear; generalize 0%nat; induction (length bl) as [|n IH]; intros m; [done|apply IH]).
    set (x3 := set_b_data _ x) in B3. assert (K3 : key x3 = (dev, start)) by exact Kx.
    destruct (log_bwrite s3 i pid l P {[b]} b x3 A3 ltac:(set_solver) B3) as (s4 & Q4 & A4 & B4 & W4 & L4).
    { rewrite K3. by apply key_pos. }
    rewrite K3 in W4. rewrite <- B4 in B3.
    destruct (log_brelse s4 i pid l P {[b]} b x3 A4 ltac:(set_solver) B3) as (s5 & l5 & Q5 & A5 & _ & W5 & L5).
    { rewrite K3. unfold shown. by rewrite HP, (wrote_last _ _ _ _ W4). }
    exists s5, l5. split_and!.
    + unfold write_head. eapply quiet_bind; [by apply quiet_glog|]. rewrite (lm_start _ _ _ Hm), Us.
      eapply quiet_bind; [exact Q1|]. eapply quiet_bind; [apply quiet_glog; by rewrite L1|].
      eapply quiet_bind; [exact Q2|]. eapply quiet_bind; [exact Q3|]. eapply quiet_bind; [exact Q4|exact Q5].
    + by rewrite difference_diag_L in A5.
    + rewrite <- Dx. apply (wrote_trans _ _ _ _ _ W1), (wrote_trans _ _ _ _ _ W2), (wrote_trans _ _ _ _ _ W3),
        (wrote_trans _ _ _ _ _ W4 W5).
    + unfold same_logs in *. congruence.
Qed.

(** ** commit *)
Lemma size_unpin_pinned k d P : is_Some (P !! k) -> (size (unpin k d P) <= size P)%nat.
Proof.
  intros [v Hv]. unfold unpin. rewrite Hv. rewrite <- (insert_delete_id P k v Hv) at 2.
  rewrite map_size_insert_None by apply lookup_delete_eq. lia.
Qed.
Lemma size_unpin k d P : (size (unpin k d P) <= S (size P))%nat.
Proof.
  destruct (P !! k) eqn:E; [pose proof (size_unpin_pinned k d P ltac:(by rewrite E)); lia|].
  unfold unpin. rewrite E, map_size_insert_None by done. lia.
Qed.
Lemma size_unpins dev l : forall P, (size (unpins dev l P) <= size P + length l)%nat.
Proof.
  induction l as [|[b d] l IH]; intros P; [cbn; lia|].
  change (unpins dev ((b, d) :: l) P) with (unpins dev l (unpin (dev, b) d P)).
  pose proof (size_unpin (dev, b) d P). pose proof (IH (unpin (dev, b) d P)). cbn. lia.
Qed.
Lemma size_unpins_pinned dev l : forall P, NoDup l.*1 ->
  (forall b d, (b, d) ∈ l -> is_Some (P !! (dev, b))) -> (size (unpins dev l P) <= size P)%nat.
Proof.
  induction l as [|[b d] l IH]; intros P Hnd HP; [cbn; lia|]. cbn in Hnd. apply list.NoDup_cons in Hnd as [Hb Hnd].
  change (unpins dev ((b, d) :: l) P) with (unpins dev l (unpin (dev, b) d P)).
  transitivity (size (unpin (dev, b) d P)).
  - apply IH; [done|]. intros b' d' Hin. rewrite unpin_ne; [apply (HP b' d'); set_solver|].
    intros [= ->]. apply Hb. apply list_elem_of_fmap. by exists (b, d').
  - apply size_unpin_pinned, (HP b d). set_solver.
Qed.

Definition commit_writes (dev start : Z) (bl : list Z) (ds : list (list Z)) (hb : list Z) : list (Z * Z * list Z) :=
  log_writes dev start ds ++ [((dev, start), head_bytes bl hb)] ++
  home_writes dev bl ds ++ [((dev, start), head_bytes [] (head_bytes bl hb))].

Lemma log_mem_clear lg start bl : log_mem lg start bl -> log_mem (set_lg_n 0 lg) start [].
Proof. intros H. split; [apply H|done|done|apply H]. Qed.
Lemma geom_nil start bl : geom start bl -> geom start [].
Proof. intros G. split; [apply G|apply G|set_solver|apply NoDup_nil_2|cbn; unfold LOGSIZE, MAXOPBLOCKS; lia]. Qed.
Lemma log_keys dev start ds n : (dev, n) ∈ (log_writes dev start ds).*1 ->
  start < n <= start + Z.of_nat (length ds).
Proof.
  intros (w & E & Hw)%list_elem_of_fmap. apply elem_of_lookup_imap in Hw as (k & d & -> & Hk).
  injection E as ->. apply lookup_lt_Some in Hk. unfold slot_of. lia.
Qed.
Lemma home_keys dev bl ds n : (dev, n) ∈ (home_writes dev bl ds).*1 -> n ∈ bl.
Proof.
  intros (w & E & Hw)%list_elem_of_fmap. apply elem_of_lookup_zip_with in Hw as (k & b & d & -> & Hb & _).
  injection E as ->. by eapply list_elem_of_lookup_2.
Qed.
Lemma log_writes_nodup dev start ds : NoDup (log_writes dev start ds).*1.
Proof.
  unfold log_writes. rewrite fmap_imap. apply NoDup_alt. intros a b k.
  rewrite !list_lookup_imap. destruct (ds !! a); [|done]. destruct (ds !! b); [|done]. cbn. unfold slot_of.
  intros [= <-] [= E]. lia.
Qed.
Lemma home_writes_nodup dev bl ds : NoDup bl -> NoDup (home_writes dev bl ds).*1.
Proof.
  intros Hnd. apply NoDup_alt. intros a b k. unfold home_writes. rewrite !list_lookup_fmap, !lookup_zip_with.
  destruct (bl !! a) as [x|] eqn:Ea; [|done]. destruct (ds !! a); [|done].
  destruct (bl !! b) as [y|] eqn:Eb; [|by destruct (ds !! b)]. destruct (ds !! b); [|done]. cbn.
  intros [= <-] [= ->]. by eapply NoDup_lookup.
Qed.

Lemma commit_spec s i pid l P dev start bl ds lg :
  AC s i pid l P ∅ -> geom start bl -> k_logs s !! logidx dev = Some lg -> log_mem lg start bl ->
  bl <> [] -> length ds = length bl -> pinned_in dev bl ds P -> log_unpinned dev start P -> (size P < NBUF)%nat ->
  exists s' l', quiet (commit dev) s tt s' /\ AC s' i pid l' (unpins dev (zip bl ds) P) ∅ /\
    wrote (commit_writes dev start bl ds (block_of s (dev, start))) s s' /\
    k_logs s' !! logidx dev = Some (set_lg_n 0 lg).
Proof.
  intros A G Hlg Hm Hne Hlen Hpin Hun Hsz.
  destruct (write_log_spec s i pid l P dev start bl ds lg A G Hlg Hm Hlen Hpin Hun Hsz) as (s1 & l1 & Q1 & A1 & W1 & L1).
  pose proof (g_len _ _ G) as Hmax.
  assert (Hb1 : block_of s1 (dev, start) = block_of s (dev, start)).
  { rewrite (wrote_block _ _ _ _ W1), on_disk_put_ne; [done|]. intros Hin%log_keys. lia. }
  destruct (write_head_spec s1 i pid l1 P dev start bl lg A1 G) as (s2 & l2 & Q2 & A2 & W2 & L2);
    [by rewrite L1|done|done|done|]. rewrite Hb1 in W2.
  assert (Hz1 : (zip bl ds).*1 = bl) by (apply fst_zip; lia).
  assert (HPz : forall b d, (b, d) ∈ zip bl ds -> P !! (dev, b) = Some (1, d)).
  { intros b d (k & b' & d' & [= -> ->] & Hb & Hd)%elem_of_lookup_zip_with. by eapply Hpin. }
  destruct (install_spec s2 i pid l2 P dev start bl ds lg A2 G) as (s3 & l3 & Q3 & A3 & W3 & L3).
  - by rewrite L2, L1.
  - done.
  - done.
  - done.
  - intros k d Hd. assert (Hk : (k < length bl)%nat) by (rewrite <- Hlen; by eapply lookup_lt_Some).
    rewrite (wrote_block _ _ _ _ W2), on_disk_put_ne.
    + change (on_disk (k_disk s1)) with (block_of s1). rewrite (wrote_block _ _ _ _ W1).
      apply on_disk_put_in; [apply log_writes_nodup|]. unfold log_writes. apply elem_of_lookup_imap. eauto.
    + cbn. rewrite list_elem_of_singleton. unfold slot_of. intros [=]. lia.
  - intros b [k Hb]%list_elem_of_lookup. destruct (lookup_lt_is_Some_2 ds k) as [d Hd];
      [rewrite Hlen; by eapply lookup_lt_Some|]. unfold pin. by rewrite (Hpin _ _ _ Hb Hd).
  - intros k b Hb. destruct (lookup_lt_is_Some_2 ds k) as [d Hd]; [rewrite Hlen; by eapply lookup_lt_Some|].
    split; [|left; by rewrite (Hpin _ _ _ Hb Hd)]. eapply Nat.le_lt_trans; [apply size_unpins_pinned|done].
    + rewrite fmap_take, Hz1. pose proof (g_nodup _ _ G) as Hnd. rewrite <- (take_drop k bl) in Hnd.
      by apply list.NoDup_app in Hnd as [Hnd _].
    + intros b' d' Hin. apply elem_of_take in Hin as (j & Hj & _). exists (1, d'). apply HPz.
      by eapply list_elem_of_lookup_2.
  - set (s4 := set_k_logs (alter (set_lg_n 0) (logidx dev) (k_logs s3)) s3).
    assert (Hlg3 : k_logs s3 !! logidx dev = Some lg) by by rewrite L3, L2, L1.
    assert (Hlg4 : k_logs s4 !! logidx dev = Some (set_lg_n 0 lg)).
    { cbn. by rewrite list_lookup_alter_eq, Hlg3. }
    assert (HzP : (size (unpins dev (zip bl ds) P) < NBUF)%nat).
    { eapply Nat.le_lt_trans; [apply size_unpins_pinned|done]; [rewrite Hz1; apply G|].
      intros b d Hin. exists (1, d). by apply HPz. }
    destruct (write_head_spec s4 i pid l3 (unpins dev (zip bl ds) P) dev start [] (set_lg_n 0 lg)) as
      (s5 & l5 & Q5 & A5 & W5 & L5).
    + by apply ac_logs.
    + by eapply geom_nil.
    + done.
    + by eapply log_mem_clear.
    + intros n Hn. rewrite unpins_ne; [by apply Hun|]. intros b d Hin [= ->].
      apply HPz in Hin. by rewrite Hun in Hin.
    + done.
    + exists s5, l5. split_and!; [|done| |].
      * unfold commit. eapply quiet_bind; [by apply quiet_glog|]. rewrite (lm_n _ _ _ Hm).
        replace (0 <? Z.of_nat (length bl)) with true by (destruct bl; [done|cbn; lia]). cbn [when].
        eapply quiet_bind; [exact Q1|]. eapply quiet_bind; [exact Q2|]. eapply quiet_bind; [exact Q3|].
        apply quiet_ulog. exact Q5.
      * unfold commit_writes. apply (wrote_trans _ _ _ _ _ W1), (wrote_trans _ _ _ _ _ W2), (wrote_trans _ _ _ _ _ W3).
        change (block_of s4) with (block_of s3) in W5. rewrite (wrote_block _ _ _ _ W3), on_disk_put_ne in W5.
        { change (on_disk (k_disk s2)) with (block_of s2) in W5. by rewrite (wrote_last _ _ _ _ W2) in W5. }
        intros Hin%home_keys. destruct (g_home _ _ G _ Hin). unfold LOGSIZE, MAXOPBLOCKS in *. lia.
      * by rewrite L5.
Qed.

(** ** Recovery *)
(** The header block [d] names the blocks [bl]. *)
Definition head_is (d : list Z) (bl : list Z) : Prop :=
  lh_n d = Z.of_nat (length bl) /\ forall k b, bl !! k = Some b -> lh_block d (Z.of_nat k) = b.

Lemma read_head_spec s i pid l dev start bl lg :
  AC s i pid l ∅ ∅ -> geom start bl -> k_logs s !! logidx dev = Some lg -> lg_start lg = start ->
  length (lg_block lg) = Z.to_nat LOGSIZE -> head_is (block_of s (dev, start)) bl ->
  exists s' l' lg', quiet (read_head dev) s tt s' /\ AC s' i pid l' ∅ ∅ /\ wrote [] s s' /\
    k_logs s' !! logidx dev = Some lg' /\ log_mem lg' start bl.
Proof.
  intros A G Hlg Hst Hlen [Hn Hbl]. pose proof (g_start _ _ G) as Hs0. pose proof (g_end _ _ G) as Hs1.
  assert (Us : u32 start = start) by (unfold LOGSIZE, MAXOPBLOCKS in *; sz).
  destruct (log_bread s i pid l ∅ ∅ dev start A) as (b & x & s1 & _ & Kx & Dx & Q1 & A1 & Bx & _ & W1 & L1).
  { set_solver. } { right. rewrite !size_empty. vm_compute. lia. }
  rewrite union_empty_r_L in A1. rewrite shown_empty in Dx.
  set (s2 := set_k_logs (alter (set_lg_n (lh_n (b_data x))) (logidx dev) (k_logs s1)) s1).
  destruct (quiet_for_tail dev (length bl) (fun i => set_lh_block dev i (lh_block (b_data x) i))
    (fun k s' => AC s' i pid l ∅ {[b]} /\ k_bufs s' !! b = Some x /\ exists lg', k_logs s' !! logidx dev = Some lg' /\
       lg_start lg' = start /\ lg_n lg' = Z.of_nat (length bl) /\ length (lg_block lg') = Z.to_nat LOGSIZE /\
       forall j v, (j < k)%nat -> bl !! j = Some v -> lg_block lg' !! j = Some v) (fun _ => []) s2)
    as (s3 & Q3 & (A3 & B3 & lg3 & Hlg3 & H1 & H2 & H3 & H4) & W3).
  - pose proof (g_len _ _ G). lia.
  - intros k t Hk (At & Bt & lgt & Hlgt & E1 & E2 & E3 & E4). destruct (lookup_lt_is_Some_2 bl k Hk) as [v Hv].
    pose proof (g_len _ _ G) as Hmax.
    set (lgu := set_lg_block (<[k := v]> (lg_block lgt)) lgt).
    exists (set_k_logs (<[logidx dev := lgu]> (k_logs t)) t).
    assert (Hld : (logidx dev < length (k_logs t))%nat) by by eapply lookup_lt_Some.
    split_and!; [|by apply ac_logs|done| |by apply wrote_nil].
    + eapply quiet_bind; [by apply quiet_glog|]. replace (Z.of_nat k <? LOGSIZE) with true by lia.
      rewrite Nat2Z.id, Dx, (Hbl _ _ Hv).
      replace (s32 v) with v.
      2: { destruct (g_home _ _ G v) as [Hv1 _]; [by eapply list_elem_of_lookup_2|].
           unfold s32, swrap. change (2 ^ (32 - 1)) with (2 ^ 31). rewrite Z.mod_small by lia. case_if; lia. }
      unfold lgu. rewrite <- (list_alter_insert (fun lg => set_lg_block (<[k := v]> (lg_block lg)) lg) _ _ _ Hlgt).
      apply quiet_modify, _.
    + exists lgu. cbn. rewrite list_lookup_insert_eq by done. split_and!; [done|done|done|by rewrite length_insert|].
      intros j v' Hj Hv'. destruct (decide (j = k)) as [->|Hjk].
      * rewrite list_lookup_insert_eq by lia. congruence.
      * rewrite list_lookup_insert_ne by done. apply E4; [lia|done].
  - intros k t (_ & _ & lgt & Hlgt & _ & E2 & _). by exists lgt.
  - split_and!; [by apply ac_logs|done|]. exists (set_lg_n (lh_n (b_data x)) lg).
    cbn. rewrite list_lookup_alter_eq, L1, Hlg. split_and!; [done|done|by rewrite Dx|done|lia].
  - replace (concat ((fun _ : nat => []) <$> seq 0 (length bl))) with ([] : list (Z * Z * list Z)) in W3
      by (clear; generalize 0%nat; induction (length bl) as [|n IH]; intros m; [done|apply IH]).
    destruct (log_brelse s3 i pid l ∅ {[b]} b x A3 ltac:(set_solver) B3) as (s4 & l4 & Q4 & A4 & _ & W4 & L4).
    { rewrite Kx, Dx, shown_empty, (wrote_nil_block _ _ _ W3). change (block_of s2) with (block_of s1).
      by rewrite (wrote_nil_block _ _ _ W1). }
    exists s4, l4, lg3. split_and!.
    + unfold read_head. eapply quiet_bind; [by apply quiet_glog|]. rewrite Hst, Us.
      eapply quiet_bind; [exact Q1|]. eapply quiet_bind; [by apply quiet_get_buf|]. apply quiet_ulog.
      eapply quiet_bind; [exact Q3|exact Q4].
    + by rewrite difference_diag_L in A4.
    + apply (wrote_trans _ _ _ _ _ W1 (wrote_trans _ _ s2 _ _ W3 W4)).
    + by rewrite L4.
    + split; [done|done| |done]. intros j v Hv. apply H4; [|done]. by eapply lookup_lt_Some.
Qed.

Definition recovery_writes (dev start : Z) (bl : list Z) (ds : list (list Z)) (hb : list Z) :=
  home_writes dev bl ds ++ [((dev, start), head_bytes [] hb)].

(** recover_from_log copies every logged block home and empties the header.
    Each block it installs leaves a buffer that is never recycled, so that a
    log of NBUF blocks would exhaust the cache. *)
Lemma recover_spec s i pid l dev start bl lg :
  let ds := imap (fun k _ => block_of s (dev, slot_of start k)) bl in
  AC s i pid l ∅ ∅ -> geom start bl -> (length bl < NBUF)%nat ->
  k_logs s !! logidx dev = Some lg -> lg_start lg = start -> length (lg_block lg) = Z.to_nat LOGSIZE ->
  head_is (block_of s (dev, start)) bl ->
  exists s' l', quiet (recover_from_log dev) s tt s' /\
    AC s' i pid l' (unpins dev (zip bl ds) ∅) ∅ /\
    wrote (recovery_writes dev start bl ds (block_of s (dev, start))) s s'.
Proof.
  intros ds A G Hmax Hlg Hst Hlen Hhd.
  assert (Hdl : length ds = length bl) by apply length_imap.
  destruct (read_head_spec s i pid l dev start bl lg A G Hlg Hst Hlen Hhd) as (s1 & l1 & lg1 & Q1 & A1 & W1 & Hlg1 & Hm1).
  assert (Hsz : forall k, (k <= length bl)%nat -> (size (unpins dev (take k (zip bl ds)) ∅) <= k)%nat).
  { intros k Hk. pose proof (size_unpins dev (take k (zip bl ds)) ∅) as H.
    rewrite map_size_empty, length_take, length_zip_with in H. lia. }
  destruct (install_spec s1 i pid l1 ∅ dev start bl ds lg1 A1 G Hlg1 Hm1 Hdl) as (s2 & l2 & Q2 & A2 & W2 & L2).
  - intros n _. apply lookup_empty.
  - intros k d. unfold ds. rewrite list_lookup_imap. destruct (bl !! k); [|done]. intros [= <-].
    by apply wrote_nil_block.
  - intros b _. unfold pin. by rewrite lookup_empty.
  - intros k b Hb%lookup_lt_Some. pose proof (Hsz k ltac:(lia)). cbn zeta. split; [|right]; lia.
  - set (s3 := set_k_logs (alter (set_lg_n 0) (logidx dev) (k_logs s2)) s2).
    destruct (write_head_spec s3 i pid l2 (unpins dev (zip bl ds) ∅) dev start [] (set_lg_n 0 lg1)) as
      (s4 & l4 & Q4 & A4 & W4 & L4).
    + by apply ac_logs.
    + by eapply geom_nil.
    + cbn. by rewrite list_lookup_alter_eq, L2, Hlg1.
    + by eapply log_mem_clear.
    + intros n Hn. rewrite unpins_ne; [apply lookup_empty|].
      intros b d (k & b' & d' & [= -> ->] & Hb & _)%elem_of_lookup_zip_with [= ->].
      destruct (g_home _ _ G b') as [_ Hg]; [by eapply list_elem_of_lookup_2|]. lia.
    + pose proof (Hsz (length bl) ltac:(lia)) as H. rewrite take_ge in H by (rewrite length_zip_with; lia). lia.
    + exists s4, l4. split_and!; [|done|].
      * unfold recover_from_log. eapply quiet_bind; [exact Q1|]. eapply quiet_bind; [exact Q2|].
        apply quiet_ulog. exact Q4.
      * apply (wrote_trans _ _ _ _ _ W1), (wrote_trans _ _ _ s3 _ W2).
        change (block_of s3) with (block_of s2) in W4. rewrite (wrote_block _ _ _ _ W2), on_disk_put_ne in W4.
        { change (on_disk (k_disk s1)) with (block_of s1) in W4. by rewrite (wrote_nil_block _ _ _ W1) in W4. }
        intros Hin%home_keys. destruct (g_home _ _ G _ Hin). unfold LOGSIZE, MAXOPBLOCKS in *. lia.
Qed.
End LogProofs.
