(* ===== verification/LogCrash.v ===== *)
(** * Crash safety of the log

    A crash keeps a prefix of the disk writes made so far (each block write is
    atomic); on restart the cache is empty and recover_from_log runs, and may
    crash in turn.  [crash_disk] collects the disks that any number of such
    crashes can leave; [commit_crash_atomic] says that a recovery that runs to
    its end always finds the transaction either absent or complete. *)
From S2P Require Import Prelude Mem Riscv State Spinlock Kalloc Vm Proc ProcProofs Sleeplock SleeplockProofs Bio BioProofs BioSpec Log LogProofs.

(** ** 32-bit fields of a block *)
Lemma length_put32 d off v : 0 <= off -> off + 4 <= Z.of_nat (length d) -> length (put32 d off v) = length d.
Proof. intros H1 H2. unfold put32. apply length_splice. rewrite length_Z_to_le. lia. Qed.
Lemma get32_put32_eq d off v : 0 <= off -> off + 4 <= Z.of_nat (length d) -> get32 (put32 d off v) off = u32 v.
Proof.
  intros H1 H2. unfold get32, put32.
  pose proof (slice_splice d (Z.to_nat off) (Z_to_le 4 v) ltac:(lia)) as E. rewrite length_Z_to_le in E.
  by rewrite E, le_to_Z_to_le.
Qed.
Lemma get32_put32_ne d off off' v :
  0 <= off -> 0 <= off' -> off + 4 <= Z.of_nat (length d) -> off + 4 <= off' \/ off' + 4 <= off ->
  get32 (put32 d off v) off' = get32 d off'.
Proof.
  intros H1 H2 H3 H4. unfold get32, put32. rewrite slice_splice_disjoint; [done|..]; rewrite ?length_Z_to_le; lia.
Qed.

(** ** The header that write_head writes is the one read_head reads *)
Lemma head_from_length bl : forall k d, 4 + 4 * Z.of_nat (k + length bl) <= Z.of_nat (length d) ->
  length (head_from k bl d) = length d.
Proof.
  induction bl as [|b bl IH]; intros k d H; [done|]. cbn [length head_from] in *.
  rewrite IH; rewrite length_put32; lia.
Qed.
Lemma head_from_before bl : forall k d off, 4 + 4 * Z.of_nat (k + length bl) <= Z.of_nat (length d) ->
  0 <= off -> off + 4 <= 4 + 4 * Z.of_nat k -> get32 (head_from k bl d) off = get32 d off.
Proof.
  induction bl as [|b bl IH]; intros k d off H H0 H1; [done|]. cbn [length head_from] in *.
  rewrite IH by (rewrite ?length_put32; lia). apply get32_put32_ne; lia.
Qed.
Lemma head_from_at bl : forall k d j b, 4 + 4 * Z.of_nat (k + length bl) <= Z.of_nat (length d) ->
  bl !! j = Some b -> get32 (head_from k bl d) (4 + 4 * Z.of_nat (k + j)) = u32 b.
Proof.
  induction bl as [|c bl IH]; intros k d j b H Hb; [done|]. cbn [length head_from] in *.
  destruct j as [|j]; cbn in Hb.
  - injection Hb as ->. rewrite Nat.add_0_r, head_from_before by (rewrite ?length_put32; lia).
    apply get32_put32_eq; lia.
  - replace (k + S j)%nat with (S k + j)%nat by lia. apply IH; [rewrite length_put32; lia|done].
Qed.
Lemma s32_u32_small v : 0 <= v < 2 ^ 31 -> s32 (u32 v) = v.
Proof.
  intros H. unfold s32, swrap, u32. change (2 ^ (32 - 1)) with (2 ^ 31). rewrite Z.mod_mod by lia.
  rewrite Z.mod_small by lia. case_if; lia.
Qed.

Definition block_size (d : list Z) : Prop := length d = Z.to_nat BSIZE.
Lemma head_bytes_length bl d : block_size d -> (length bl <= Z.to_nat LOGSIZE)%nat -> block_size (head_bytes bl d).
Proof.
  unfold block_size, head_bytes, BSIZE, LOGSIZE, MAXOPBLOCKS. intros H Hl.
  rewrite head_from_length; rewrite length_put32; lia.
Qed.
Lemma head_bytes_is bl d :
  block_size d -> (length bl <= Z.to_nat LOGSIZE)%nat -> (forall b, b ∈ bl -> 0 <= b < 2 ^ 31) ->
  head_is (head_bytes bl d) bl.
Proof.
  unfold block_size, BSIZE, LOGSIZE, MAXOPBLOCKS. intros H Hl Hb. unfold head_bytes. split.
  - unfold lh_n. rewrite head_from_before, get32_put32_eq by (rewrite ?length_put32; lia).
    apply s32_u32_small. lia.
  - intros k b Hk. unfold lh_block. rewrite (head_from_at bl 0 _ k b); [|rewrite ?length_put32; lia|done].
    apply s32_u32_small, Hb. by eapply list_elem_of_lookup_2.
Qed.

(** ** Prefixes of the write sequences *)
Lemma prefix_app_inv {A} (p a b : list A) : p `prefix_of` a ++ b ->
  p `prefix_of` a \/ exists c, p = a ++ c /\ c `prefix_of` b.
Proof.
  revert a. induction p as [|x p IH]; intros a H; [left; apply prefix_nil|].
  destruct a as [|y a]; [right; by exists (x :: p)|].
  apply prefix_cons_inv_1 in H as E. apply prefix_cons_inv_2 in H. subst y.
  destruct (IH a H) as [Hp|(c & -> & Hc)]; [left; by apply prefix_cons|right; by exists c].
Qed.
Lemma prefix_single {A} (p : list A) x : p `prefix_of` [x] -> p = [] \/ p = [x].
Proof.
  destruct p as [|y p]; [by left|]. intros H. right. apply prefix_cons_inv_1 in H as E.
  apply prefix_cons_inv_2, prefix_nil_inv in H. by subst.
Qed.
Lemma prefix_fmap_elem {A B} (f : A -> B) (p l : list A) x : p `prefix_of` l -> x ∈ f <$> p -> x ∈ f <$> l.
Proof. intros [k ->] H. rewrite fmap_app. set_solver. Qed.

Section Crash.
Context `{DL : DiskLaws}.
(** The device, the log's place, the blocks of the transaction and their new
    contents, and the disk before the commit. *)
Variables (dev start : Z) (bl : list Z) (ds : list (list Z)) (D0 : gmap (Z * Z) (list Z)).

Definition in_log (k : Z * Z) : Prop := k.1 = dev /\ start <= k.2 < start + LOGSIZE.
Definition new_disk : gmap (Z * Z) (list Z) := put_writes (home_writes dev bl ds) D0.

(** What a crash can leave: the transaction is absent, is in the log, or is
    installed. *)
Definition clean (D C : gmap (Z * Z) (list Z)) : Prop :=
  head_is (on_disk D (dev, start)) [] /\ forall k, ~ in_log k -> on_disk D k = on_disk C k.
Definition logged (D : gmap (Z * Z) (list Z)) : Prop :=
  head_is (on_disk D (dev, start)) bl /\
  (forall j d, ds !! j = Some d -> on_disk D (dev, slot_of start j) = d) /\
  forall k, ~ in_log k -> (k ∉ (home_writes dev bl ds).*1) -> on_disk D k = on_disk D0 k.
Definition crash_inv (D : gmap (Z * Z) (list Z)) : Prop :=
  block_size (on_disk D (dev, start)) /\ (clean D D0 \/ logged D \/ clean D new_disk).

Hypothesis (G : geom start bl) (Hlen : length ds = length bl).

Lemma home_not_log k : k ∈ (home_writes dev bl ds).*1 -> ~ in_log k.
Proof.
  intros (w & -> & Hw)%list_elem_of_fmap [E1 E2].
  apply elem_of_lookup_zip_with in Hw as (j & b & d & -> & Hb & _). cbn in *.
  destruct (g_home _ _ G b) as [_ Hg]; [by eapply list_elem_of_lookup_2|]. lia.
Qed.
Lemma log_in_log k : k ∈ (log_writes dev start ds).*1 -> in_log k /\ k <> (dev, start).
Proof.
  intros (w & -> & Hw)%list_elem_of_fmap. apply elem_of_lookup_imap in Hw as (j & d & -> & Hj).
  apply lookup_lt_Some in Hj. pose proof (g_len _ _ G). cbn. unfold slot_of, in_log. cbn.
  split; [split; [done|lia]|]. intros [=]. lia.
Qed.
Lemma start_in_log : in_log (dev, start).
Proof. split; [done|]. unfold LOGSIZE, MAXOPBLOCKS. cbn. lia. Qed.
Lemma slot_in_log j d : ds !! j = Some d -> in_log (dev, slot_of start j) /\ (dev, slot_of start j) <> (dev, start).
Proof.
  intros H%lookup_lt_Some. pose proof (g_len _ _ G). unfold in_log, slot_of. cbn.
  split; [split; [done|lia]|]. intros [=]. lia.
Qed.

(** Replaying part of the installation keeps a logged disk logged. *)
Lemma logged_install D p : logged D -> p `prefix_of` home_writes dev bl ds -> logged (put_writes p D).
Proof.
  intros (H1 & H2 & H3) Hp. assert (Hsub : forall k, k ∈ p.*1 -> k ∈ (home_writes dev bl ds).*1).
  { intros k. by apply prefix_fmap_elem. }
  split_and!.
  - rewrite on_disk_put_ne; [done|]. intros Hin%Hsub%home_not_log. by apply Hin, start_in_log.
  - intros j d Hd. rewrite on_disk_put_ne; [by apply H2|]. intros Hin%Hsub%home_not_log.
    by apply Hin, (slot_in_log j d).
  - intros k Hk Hn. rewrite on_disk_put_ne; [by apply H3|]. intros Hin. by apply Hn, Hsub.
Qed.
(** Replaying all of it and clearing the header completes the transaction. *)
Lemma logged_finish D h : logged D -> head_is h [] ->
  clean (put_writes (home_writes dev bl ds ++ [((dev, start), h)]) D) new_disk.
Proof.
  intros (H1 & H2 & H3) Hh. rewrite put_writes_app. split.
  - by rewrite (on_disk_put_in [((dev, start), h)] _ _ h); [|apply NoDup_singleton|set_solver].
  - intros k Hk. rewrite on_disk_put_ne.
    2: { cbn. rewrite list_elem_of_singleton. intros ->. by apply Hk, start_in_log. }
    destruct (decide (k ∈ (home_writes dev bl ds).*1)) as [Hin|Hin].
    + apply list_elem_of_fmap in Hin as ([k' d] & -> & Hw). unfold new_disk.
      rewrite !(on_disk_put_in _ _ k' d); try done; apply home_writes_nodup, G.
    + unfold new_disk. rewrite !on_disk_put_ne by done. by apply H3.
Qed.

Lemma logged_block_size D p : p `prefix_of` home_writes dev bl ds ->
  block_size (on_disk D (dev, start)) -> block_size (on_disk (put_writes p D) (dev, start)).
Proof.
  intros Hp H. rewrite on_disk_put_ne; [done|]. intros Hin.
  apply (prefix_fmap_elem fst _ _ _ Hp), home_not_log in Hin. by apply Hin, start_in_log.
Qed.

(** The header write is the commit point. *)
Lemma commit_logged hb :
  block_size hb -> let D1 := put_writes (log_writes dev start ds ++ [((dev, start), head_bytes bl hb)]) D0 in
  logged D1 /\ on_disk D1 (dev, start) = head_bytes bl hb.
Proof.
  intros Hsz D1. pose proof (g_len _ _ G) as Hmax%Nat.lt_le_incl.
  assert (E : on_disk D1 (dev, start) = head_bytes bl hb).
  { unfold D1. rewrite put_writes_app. apply on_disk_put_in; [apply NoDup_singleton|set_solver]. }
  split; [|done]. split_and!.
  - rewrite E. apply head_bytes_is; [done|done|]. intros b Hb. destruct (g_home _ _ G b Hb). lia.
  - intros j d Hd. unfold D1. rewrite put_writes_app, on_disk_put_ne.
    + apply on_disk_put_in; [apply log_writes_nodup|]. apply elem_of_lookup_imap. eauto.
    + cbn. rewrite list_elem_of_singleton. by apply (slot_in_log j d).
  - intros k Hk _. unfold D1. rewrite put_writes_app, !on_disk_put_ne; [done| |].
    + intros [Hin _]%log_in_log. done.
    + cbn. rewrite list_elem_of_singleton. intros ->. by apply Hk, start_in_log.
Qed.
(** All of commit's writes. *)
Lemma commit_finish hb : block_size hb -> clean (put_writes (commit_writes dev start bl ds hb) D0) new_disk.
Proof.
  intros Hsz. destruct (commit_logged hb Hsz) as [HL _]. unfold commit_writes.
  rewrite app_assoc, put_writes_app. apply logged_finish; [done|].
  apply head_bytes_is; [by apply head_bytes_length; [|apply Nat.lt_le_incl, G]|cbn; lia|set_solver].
Qed.

(** Any prefix of commit's writes. *)
Lemma commit_prefix_inv hb p :
  hb = on_disk D0 (dev, start) -> block_size hb -> head_is hb [] ->
  p `prefix_of` commit_writes dev start bl ds hb -> crash_inv (put_writes p D0).
Proof.
  intros Ehb Hsz Hh Hp. pose proof (g_len _ _ G) as Hmax%Nat.lt_le_incl.
  assert (Hb1 : block_size (head_bytes bl hb)) by by apply head_bytes_length.
  assert (Hh0 : head_is (head_bytes [] (head_bytes bl hb)) []) by (apply head_bytes_is; [done|cbn; lia|set_solver]).
  pose proof (commit_logged hb Hsz) as HL. cbn zeta in HL.
  set (D1 := put_writes (log_writes dev start ds ++ [((dev, start), head_bytes bl hb)]) D0) in *.
  destruct HL as [HL E1]. unfold commit_writes in Hp. rewrite app_assoc in Hp.
  apply prefix_app_inv in Hp as [Hp|(c & -> & Hp)].
  - apply prefix_app_inv in Hp as [Hp|(c & -> & Hp)].
    + assert (E : on_disk (put_writes p D0) (dev, start) = hb).
      { rewrite on_disk_put_ne; [done|]. intros Hin.
        apply (prefix_fmap_elem fst _ _ _ Hp), log_in_log in Hin as [_ Hin]. done. }
      split; [by rewrite E|]. left. split; [by rewrite E|]. intros k Hk. apply on_disk_put_ne. intros Hin.
      by apply (prefix_fmap_elem fst _ _ _ Hp), log_in_log in Hin as [Hin _].
    + apply prefix_single in Hp as [->| ->].
      * rewrite app_nil_r. assert (E : on_disk (put_writes (log_writes dev start ds) D0) (dev, start) = hb).
        { rewrite on_disk_put_ne; [done|]. intros [_ Hin]%log_in_log. done. }
        split; [by rewrite E|]. left. split; [by rewrite E|]. intros k Hk. apply on_disk_put_ne.
        by intros [Hin _]%log_in_log.
      * fold D1. split; [by rewrite E1|]. by right; left.
  - rewrite put_writes_app. fold D1. apply prefix_app_inv in Hp as [Hp|(c' & -> & Hp)].
    + split; [apply logged_block_size; [done|by rewrite E1]|]. right; left. by apply logged_install.
    + apply prefix_single in Hp as [->| ->].
      * rewrite app_nil_r. split; [apply logged_block_size; [done|by rewrite E1]|].
        right; left. by apply logged_install.
      * split; [|right; right; by apply logged_finish]. rewrite put_writes_app.
        rewrite (on_disk_put_in [_] _ (dev, start) (head_bytes [] (head_bytes bl hb)));
          [apply head_bytes_length; [done|cbn; lia]|apply NoDup_singleton|set_solver].
Qed.

(** A restarted kernel about to recover from the disk [D]: the cache is
    consistent and empty, and initlog has set the log's place. *)
Definition rebooted (t : kstate) (D : gmap (Z * Z) (list Z)) : Prop :=
  (exists i pid l, AC t i pid l ∅ ∅) /\ k_disk t = D /\
  exists lg, k_logs t !! logidx dev = Some lg /\ lg_start lg = start /\
    length (lg_block lg) = Z.to_nat LOGSIZE.

Lemma clean_recovery t D C :
  rebooted t D -> block_size (on_disk D (dev, start)) -> clean D C ->
  exists t' w, quiet (recover_from_log dev) t tt t' /\ wrote [((dev, start), w)] t t' /\
    block_size w /\ head_is w [].
Proof.
  intros ((i & pid & l & A) & <- & lg & Hlg & Hst & Hll) Hsz [Hh _].
  destruct (recover_spec t i pid l dev start [] lg A (geom_nil _ _ G)) as (t' & l' & Q & _ & W);
    [vm_compute; lia|done|done|done|done|].
  exists t', (head_bytes [] (block_of t (dev, start))). split_and!; [done|done| |].
  - apply head_bytes_length; [done|cbn; lia].
  - apply head_bytes_is; [done|cbn; lia|set_solver].
Qed.
Lemma logged_recovery t D :
  (length bl < NBUF)%nat -> rebooted t D -> block_size (on_disk D (dev, start)) -> logged D ->
  exists t' w, quiet (recover_from_log dev) t tt t' /\
    wrote (home_writes dev bl ds ++ [((dev, start), w)]) t t' /\ block_size w /\ head_is w [].
Proof.
  intros Hmax ((i & pid & l & A) & <- & lg & Hlg & Hst & Hll) Hsz (Hh & Hds & _).
  destruct (recover_spec t i pid l dev start bl lg A G Hmax Hlg Hst Hll Hh) as (t' & l' & Q & _ & W).
  exists t', (head_bytes [] (block_of t (dev, start))). split_and!; [done| | |].
  - replace (imap (fun k _ => block_of t (dev, slot_of start k)) bl) with ds in W; [done|].
    apply list_eq. intros k. rewrite list_lookup_imap. destruct (ds !! k) as [d|] eqn:Ed.
    + destruct (lookup_lt_is_Some_2 bl k) as [b ->]; [rewrite <- Hlen; by eapply lookup_lt_Some|].
      cbn. f_equal. symmetry. by apply Hds.
    + rewrite (lookup_ge_None_2 bl) by (rewrite <- Hlen; by apply lookup_ge_None_1). done.
  - apply head_bytes_length; [done|cbn; lia].
  - apply head_bytes_is; [done|cbn; lia|set_solver].
Qed.

(** A clean disk stays clean when its header is rewritten. *)
Lemma clean_rewrite D C p w : clean D C -> block_size (on_disk D (dev, start)) -> block_size w -> head_is w [] ->
  p `prefix_of` [((dev, start), w)] ->
  clean (put_writes p D) C /\ block_size (on_disk (put_writes p D) (dev, start)).
Proof.
  intros [H1 H2] Hs Hw Hh [->| ->]%prefix_single; [done|].
  assert (E : on_disk (put_writes [((dev, start), w)] D) (dev, start) = w).
  { apply on_disk_put_in; [apply NoDup_singleton|set_solver]. }
  split; [|by rewrite E]. split; [by rewrite E|]. intros k Hk. rewrite on_disk_put_ne; [by apply H2|].
  cbn. rewrite list_elem_of_singleton. intros ->. by apply Hk, start_in_log.
Qed.

(** Recovery from any disk a crash can leave runs to its end; whatever part of
    its writes reaches the disk, the invariant is kept, and once all of them
    have, the disk is clean. *)
Lemma recovery_step t D :
  (length bl < NBUF)%nat -> rebooted t D -> crash_inv D ->
  exists t' ws, quiet (recover_from_log dev) t tt t' /\ wrote ws t t' /\
    (forall p, p `prefix_of` ws -> crash_inv (put_writes p D)) /\
    (clean (put_writes ws D) D0 \/ clean (put_writes ws D) new_disk).
Proof.
  intros Hmax Hr [Hsz [HC|[HL|HC]]].
  - destruct (clean_recovery t D D0 Hr Hsz HC) as (t' & w & Q & W & Hw & Hh).
    eexists t', _. split_and!; [exact Q|exact W| |left; by eapply clean_rewrite].
    intros p Hp. destruct (clean_rewrite D D0 p w HC Hsz Hw Hh Hp). split; [done|by left].
  - destruct (logged_recovery t D Hmax Hr Hsz HL) as (t' & w & Q & W & Hw & Hh).
    eexists t', _. split_and!; [exact Q|exact W| |right; by apply logged_finish].
    intros p [Hp|(c & -> & Hp)]%prefix_app_inv.
    + split; [by apply logged_block_size|right; left; by apply logged_install].
    + apply prefix_single in Hp as [->| ->].
      * rewrite app_nil_r. split; [by apply logged_block_size|right; left; by apply logged_install].
      * split; [|right; right; by apply logged_finish]. rewrite put_writes_app.
        rewrite (on_disk_put_in [_] _ (dev, start) w); [done|apply NoDup_singleton|set_solver].
  - destruct (clean_recovery t D new_disk Hr Hsz HC) as (t' & w & Q & W & Hw & Hh).
    eexists t', _. split_and!; [exact Q|exact W| |right; by eapply clean_rewrite].
    intros p Hp. destruct (clean_rewrite D new_disk p w HC Hsz Hw Hh Hp). split; [done|by right; right].
Qed.

(** The disk writes of a run are determined by its start. *)
Lemma wrote_det {A} (m : M A) s a1 s1 a2 s2 ws1 ws2 :
  quiet m s a1 s1 -> quiet m s a2 s2 -> wrote ws1 s s1 -> wrote ws2 s s2 -> ws1 = ws2.
Proof.
  intros (lk1 & _ & R1)%quiet_runs (lk2 & _ & R2)%quiet_runs [W1 _] [W2 _].
  destruct (runs_det _ _ _ _ _ _ R1 R2) as [_ E].
  assert (k_dwrites s1 = k_dwrites s2) as Ed.
  { change (k_dwrites (set_k_lk lk1 s1) = k_dwrites (set_k_lk lk2 s2)). by rewrite E. }
  rewrite W1, W2 in Ed. by apply app_inv_head in Ed.
Qed.
End Crash.

(** The disks that crashes of the commit run from [s], and of the recoveries
    after them, can leave. *)
Inductive crash_disk `{DiskDriver} (dev start : Z) (s : kstate) : gmap (Z * Z) (list Z) -> Prop :=
  | crash_commit s' ws p :
      quiet (commit dev) s tt s' -> wrote ws s s' -> p `prefix_of` ws ->
      crash_disk dev start s (put_writes p (k_disk s))
  | crash_recovery D t t' ws p :
      crash_disk dev start s D -> rebooted dev start t D ->
      quiet (recover_from_log dev) t tt t' -> wrote ws t t' -> p `prefix_of` ws ->
      crash_disk dev start s (put_writes p D).

(** A transaction ready to commit: the in-memory header names the blocks [bl],
    outside the log, whose new contents [ds] are pinned in the cache; the header
    on disk is empty; and one buffer is left for the log's own blocks. *)
Record committing (s : kstate) (i : nat) (pid : Z) (l : list nat) (P : gmap (Z * Z) (Z * list Z))
    (dev start : Z) (bl : list Z) (ds : list (list Z)) : Prop := {
  co_cache : AC s i pid l P ∅;
  co_geom : geom start bl;
  co_log : exists lg, k_logs s !! logidx dev = Some lg /\ log_mem lg start bl;
  co_some : bl <> [];
  co_len : length ds = length bl;
  co_pins : forall k c d, P !! k = Some (c, d) <-> c = 1 /\ exists j b, bl !! j = Some b /\ ds !! j = Some d /\ k = (dev, b);
  co_size : block_size (block_of s (dev, start));
  co_head : head_is (block_of s (dev, start)) [];
  co_room : (length bl < NBUF)%nat;
}.

Section Atomic.
Context `{DL : DiskLaws}.

Lemma committing_pins s i pid l P dev start bl ds :
  committing s i pid l P dev start bl ds ->
  pinned_in dev bl ds P /\ log_unpinned dev start P /\ (size P < NBUF)%nat.
Proof.
  intros C. assert (Hp : pinned_in dev bl ds P).
  { intros k b d Hb Hd. apply (co_pins _ _ _ _ _ _ _ _ _ C). split; [done|]. by exists k, b. }
  split_and!; [done| |].
  - intros n Hn. destruct (P !! (dev, n)) as [[c d]|] eqn:E; [|done].
    apply (co_pins _ _ _ _ _ _ _ _ _ C) in E as (_ & j & b & Hb & _ & [= ->]).
    destruct (g_home _ _ (co_geom _ _ _ _ _ _ _ _ _ C) b) as [_ Hg]; [by eapply list_elem_of_lookup_2|]. lia.
  - apply (Nat.le_lt_trans _ (length bl)); [|exact (co_room _ _ _ _ _ _ _ _ _ C)]. rewrite <- size_dom, <- (length_fmap (pair dev)).
    assert (Hnd : NoDup (pair dev <$> bl)) by (apply NoDup_fmap_2; [by intros ?? [=]|apply C]).
    rewrite <- (size_list_to_set (C := gset (Z * Z)) _ Hnd). apply subseteq_size. intros k.
    rewrite elem_of_dom, elem_of_list_to_set. intros [[c d] E].
    apply (co_pins _ _ _ _ _ _ _ _ _ C) in E as (_ & j & b & Hb & _ & ->).
    apply list_elem_of_fmap. exists b. split; [done|]. by eapply list_elem_of_lookup_2.
Qed.

(** The contents a completed transaction gives the disk are those the cache
    shows before the commit. *)
Lemma new_disk_shown s i pid l P dev start bl ds k :
  committing s i pid l P dev start bl ds ->
  on_disk (new_disk dev bl ds (k_disk s)) k = shown s P k.
Proof.
  intros C. unfold new_disk, shown.
  destruct (decide (k ∈ (home_writes dev bl ds).*1)) as [Hin|Hin].
  - apply list_elem_of_fmap in Hin as ([k' d] & -> & Hw). cbn.
    rewrite (on_disk_put_in _ _ k' d); [|apply home_writes_nodup, C|done].
    apply elem_of_lookup_zip_with in Hw as (j & b & d' & [= -> ->] & Hb & Hd).
    rewrite (proj2 (co_pins _ _ _ _ _ _ _ _ _ C (dev, b) 1 d')); [done|]. split; [done|]. by exists j, b.
  - rewrite on_disk_put_ne by done. destruct (P !! k) as [[c d]|] eqn:E; [|done].
    apply (co_pins _ _ _ _ _ _ _ _ _ C) in E as (-> & j & b & Hb & Hd & ->). destruct Hin.
    apply list_elem_of_fmap. exists ((dev, b), d). split; [done|]. apply elem_of_lookup_zip_with. by exists j, b, d.
Qed.

(** C1. Transactions are atomic under crashes.  From a transaction ready to
    commit, commit runs to its end.  However many times the machine then
    crashes, during the commit or during the recoveries that follow, each crash
    keeping only a prefix of the block writes made so far, the next
    recover_from_log that is left to finish runs without panicking, leaves an
    empty log header, and leaves every block outside the log with its contents
    from before the transaction, or every block with the contents the cache
    showed when the transaction committed. *)
Theorem commit_crash_atomic s i pid l P dev start bl ds :
  committing s i pid l P dev start bl ds ->
  (exists s' ws, quiet (commit dev) s tt s' /\ wrote ws s s') /\
  forall D t, crash_disk dev start s D -> rebooted dev start t D ->
  exists t', quiet (recover_from_log dev) t tt t' /\ head_is (block_of t' (dev, start)) [] /\
    ((forall k, ~ in_log dev start k -> block_of t' k = block_of s k) \/
     (forall k, ~ in_log dev start k -> block_of t' k = shown s P k)).
Proof.
  intros C. pose proof (co_geom _ _ _ _ _ _ _ _ _ C) as G. pose proof (co_len _ _ _ _ _ _ _ _ _ C) as Hlen.
  destruct (committing_pins _ _ _ _ _ _ _ _ _ C) as (Hp & Hu & Hsz).
  destruct (co_log _ _ _ _ _ _ _ _ _ C) as (lg & Hlg & Hm).
  destruct (commit_spec s i pid l P dev start bl ds lg) as (s' & l' & Q & _ & W & _); try done; try apply C.
  split; [by eexists s', _|]. intros D t HD.
  assert (Inv : crash_inv dev start bl ds (k_disk s) D).
  { induction HD as [s2 ws p Q2 W2 Hpre|D t0 t1 ws p HD IH Hr Q1 W1 Hpre].
    - rewrite (wrote_det _ _ _ _ _ _ _ _ Q2 Q W2 W) in Hpre.
      eapply commit_prefix_inv; [done..| |apply C|exact Hpre]. apply C.
    - destruct (recovery_step dev start bl ds (k_disk s) G Hlen t0 D (co_room _ _ _ _ _ _ _ _ _ C) Hr IH)
        as (t2 & ws2 & Q2 & W2 & Hinv & _).
      rewrite (wrote_det _ _ _ _ _ _ _ _ Q1 Q2 W1 W2) in Hpre. by apply Hinv. }
  intros Hr.
  destruct (recovery_step dev start bl ds (k_disk s) G Hlen t D (co_room _ _ _ _ _ _ _ _ _ C) Hr Inv)
    as (t' & ws & Qt & Wt & _ & HC).
  assert (Et : forall k, block_of t' k = on_disk (put_writes ws D) k).
  { intros k. rewrite (wrote_block _ _ _ _ Wt). by destruct Hr as (_ & -> & _). }
  exists t'. split; [done|]. rewrite Et. destruct HC as [[H1 H2]|[H1 H2]]; (split; [done|]).
  - left. intros k Hk. by rewrite Et, H2.
  - right. intros k Hk. rewrite Et, H2 by done. by eapply new_disk_shown.
Qed.
End Atomic.

(** ** A concrete transaction *)
Definition wdata : list Z := 7 :: replicate 1023 0.
Definition wlog (n : Z) : log := mk_log 2 30 0 0 0 n (100 :: replicate 29 0).
(** Block 100 is in buffer 0, changed and pinned. *)
Definition wcommit : kstate :=
  set_k_logs [wlog 1; log0]
    (set_k_bufs (<[0%nat := mk_buf 1 0 0 100 sleeplock0 1 1 NBUF wdata]> (k_bufs wcache)) wcache).
Definition wreboot : kstate := set_k_logs [wlog 0; log0] wcache.
Definition wpins : gmap (Z * Z) (Z * list Z) := {[ (0, 100) := (1, wdata) ]}.

Lemma wcommit_buf j x : k_bufs wcommit !! j = Some x ->
  (j = 0%nat /\ x = mk_buf 1 0 0 100 sleeplock0 1 1 NBUF wdata) \/ (j <> 0%nat /\ x = wbuf j).
Proof.
  change (k_bufs wcommit) with (<[0%nat := mk_buf 1 0 0 100 sleeplock0 1 1 NBUF wdata]> (k_bufs wcache)).
  destruct (decide (j = 0%nat)) as [->|Hj].
  - rewrite list_lookup_insert_eq by (vm_compute; lia). intros [= <-]. by left.
  - rewrite list_lookup_insert_ne by done. intros [-> _]%wcache_buf. by right.
Qed.
Lemma wpins_other j : wpins !! key (wbuf j) = None.
Proof. done. Qed.
Lemma wcommit_cache : AC wcommit 0 0 (rev (seq 0 NBUF)) wpins ∅.
Proof.
  split.
  - destruct wcache_ctx as [C1 C2 [C3 C4] C5]. split; [exact C1|exact C2|split; [exact C3|exact C4]|done].
  - vm_compute. repeat split.
  - symmetry. apply Permutation_rev.
  - intros a b x y _ _ [[-> ->]|[Ha ->]]%wcommit_buf [[-> ->]|[Hb ->]]%wcommit_buf H1 H2; try done.
  - intros j x _ [[-> ->]|[Ha ->]]%wcommit_buf; (split; [set_solver|]); intros _.
    + split_and!; done.
    + split_and!; [done|done|]. by rewrite wpins_other.
  - intros k c d. unfold wpins. intros [<- [= <- <-]]%lookup_singleton_Some. split; [done|]. split; [by left|].
    eexists 0%nat, _. split_and!; [vm_compute; lia|reflexivity|done].
  - set_solver.
Qed.
Lemma wcommit_ready : committing wcommit 0 0 (rev (seq 0 NBUF)) wpins 0 2 [100] [wdata].
Proof.
  split.
  - exact wcommit_cache.
  - split; [done|done| |apply NoDup_singleton|vm_compute; lia].
    intros b ->%list_elem_of_singleton. split; [lia|right; vm_compute; done].
  - exists (wlog 1). split; [done|]. split; [done|done| |done].
    intros [|i] b; [by intros [= <-]|by destruct i].
  - done.
  - done.
  - intros k c d. unfold wpins. rewrite lookup_singleton_Some. split.
    + intros [<- [= <- <-]]. split; [done|]. by exists 0%nat, 100.
    + intros (-> & [|j] & b & Hb & Hd & ->); [|by destruct j]. by injection Hb as <-; injection Hd as <-.
  - done.
  - split; [done|]. by intros k b.
  - vm_compute. lia.
Qed.
Lemma wreboot_ready : rebooted 0 2 wreboot (k_disk wcommit).
Proof.
  split; [|split; [done|by exists (wlog 0)]]. exists 0%nat, 0, (rev (seq 0 NBUF)).
  apply ac_logs, wcache_ok.
Qed.

Lemma commit_crash_atomic_witness :
  (exists s', quiet (commit (DD := ideal) 0) wcommit tt s') /\
  exists t', quiet (recover_from_log (DD := ideal) 0) wreboot tt t' /\ head_is (block_of t' (0, 2)) [].
Proof.
  destruct (commit_crash_atomic (DD := ideal) wcommit 0 0 _ wpins 0 2 [100] [wdata] wcommit_ready)
    as [(s' & ws & H1 & W) H2].
  split; [exists s'; exact H1|]. destruct (H2 (k_disk wcommit) wreboot) as (t' & Ht & Hh & _).
  - exact (crash_commit 0 2 wcommit s' ws [] H1 W (prefix_nil _)).
  - exact wreboot_ready.
  - exists t'. split; [exact Ht|exact Hh].
Defined.
