(* ===== verification/Txn.v ===== *)
(** * Transactions: begin_op, log_write, end_op

    What a file system operation sees of the log: between begin_op and end_op
    it reads and changes blocks through the cache; log_write records each block
    once and pins it; the last end_op commits. *)
From S2P Require Import Prelude Mem Riscv State Spinlock Kalloc Vm Proc ProcProofs Sleeplock SleeplockProofs Bio BioProofs BioSpec Log LogProofs LogCrash.

(** The position log_write finds. *)
Fixpoint idx (n : Z) (bl : list Z) : nat :=
  match bl with [] => 0%nat | b :: t => if b =? n then 0%nat else S (idx n t) end.
Definition record_block (n : Z) (bl : list Z) : list Z := if decide (n ∈ bl) then bl else bl ++ [n].

Lemma idx_in n bl : n ∈ bl -> bl !! idx n bl = Some n /\ (idx n bl < length bl)%nat.
Proof.
  induction bl as [|b bl IH]; [set_solver|]. intros H. cbn. bdestr (b =? n); [by subst; split; [|lia]|].
  destruct IH as [I1 I2]; [set_solver|]. cbn. split; [done|lia].
Qed.
Lemma idx_out n bl : n ∉ bl -> idx n bl = length bl.
Proof. induction bl as [|b bl IH]; [done|]. intros H. cbn. bdestr (b =? n); [set_solver|]. rewrite IH; set_solver. Qed.

Section Txn.
Context `{DL : DiskLaws}.

Lemma quiet_absorb dev start bl lg n s :
  k_logs s !! logidx dev = Some lg -> log_mem lg start bl -> (forall b, b ∈ bl -> u32 b = b) ->
  forall m k fuel, (k + m = length bl)%nat -> (m < fuel)%nat ->
  quiet (absorb fuel dev n (Z.of_nat k)) s (Z.of_nat (k + idx n (drop k bl))) s.
Proof.
  intros Hlg Hm Hu m. induction m as [|m IH]; intros k [|fuel] Hk Hf; try lia; cbn [absorb];
    (eapply quiet_bind; [by apply quiet_glog|]); rewrite (lm_n _ _ _ Hm).
  - replace (negb _) with true by lia. rewrite drop_ge by lia. cbn. rewrite Nat.add_0_r. apply quiet_ret.
  - replace (negb _) with false by lia. destruct (lookup_lt_is_Some_2 bl k) as [b Hb]; [lia|].
    eapply quiet_bind; [eapply quiet_get_lh; [done|rewrite Nat2Z.id; by apply (lm_block _ _ _ Hm)]|].
    rewrite Hu by by eapply list_elem_of_lookup_2. rewrite (drop_S _ _ _ Hb). cbn [idx].
    bdestr (b =? n); [rewrite Nat.add_0_r; apply quiet_ret|].
    replace (Z.of_nat k + 1) with (Z.of_nat (S k)) by lia.
    replace (k + S (idx n (drop (S k) bl)))%nat with (S k + idx n (drop (S k) bl))%nat by lia. apply IH; lia.
Qed.

Lemma quiet_bpin s b x : ready s Lbcache -> k_bufs s !! b = Some x ->
  quiet (bpin b) s tt (set_k_bufs (<[b := set_b_refcnt (u32 (b_refcnt x + 1)) x]> (k_bufs s)) s).
Proof.
  intros Hr Hx. unfold bpin. apply quiet_acquire; [done|].
  by apply (hquiet_set_buf Lbcache b (fun x => set_b_refcnt (u32 (b_refcnt x + 1)) x) x s).
Qed.

Lemma hquiet_ulog {B} l dev f (k : unit -> M B) s b s2 :
  hquiet l (k tt) (set_k_logs (alter f (logidx dev) (k_logs s)) s) b s2 -> hquiet l (ulog dev f ≫= k) s b s2.
Proof. intros Hk. by apply hquiet_modify; [apply _|done|]. Qed.
Lemma hquiet_glog {B} l dev lg (k : log -> M B) s b s2 :
  k_logs s !! logidx dev = Some lg -> hquiet l (k lg) s b s2 -> hquiet l (glog dev ≫= k) s b s2.
Proof. intros H Hk. eapply hquiet_same; [|done]. by apply quiet_glog. Qed.
Lemma hquiet_assoc {A B C} l (m : M A) (f : A -> M B) (k : B -> M C) s c s2 :
  hquiet l (m ≫= (fun a => f a ≫= k)) s c s2 -> hquiet l ((m ≫= f) ≫= k) s c s2.
Proof.
  intros [H1 H2]. split; [done|]. intros lk Hlk. destruct (H2 lk Hlk) as (lk' & Hl & Hr).
  exists lk'. split; [done|]. intros env. specialize (Hr env). unfold mbind, M_bind in *.
  by destruct (m (set_k_lk lk s) env).
Qed.

(** The in-memory header after log_write of block [n]. *)
Definition log_after (lg : log) (n : Z) (bl : list Z) : log :=
  if decide (n ∈ bl) then set_lg_block (<[idx n bl := n]> (lg_block lg)) lg
  else set_lg_n (lg_n lg + 1) (set_lg_block (<[idx n bl := n]> (lg_block lg)) lg).
Lemma log_after_mem lg start n bl :
  log_mem lg start bl -> (length bl < Z.to_nat LOGSIZE)%nat ->
  log_mem (log_after lg n bl) start (record_block n bl).
Proof.
  intros Hm Hlt. unfold log_after, record_block. case_decide as Hin.
  - destruct (idx_in n bl Hin) as [Hi Hl]. split; [apply Hm|apply Hm| |cbn; rewrite length_insert; apply Hm].
    cbn. rewrite list_insert_id; [apply Hm|]. by apply (lm_block _ _ _ Hm).
  - rewrite (idx_out n bl Hin). split; [apply Hm| | |cbn; rewrite length_insert; apply Hm].
    + cbn. rewrite (lm_n _ _ _ Hm), length_app. cbn. lia.
    + cbn. intros i b Hb. destruct (decide (i = length bl)) as [->|Hi].
      * rewrite list_lookup_middle in Hb by done. injection Hb as <-.
        apply list_lookup_insert_eq. rewrite (lm_len _ _ _ Hm). lia.
      * rewrite list_lookup_insert_ne by done. apply (lm_block _ _ _ Hm).
        apply lookup_lt_Some in Hb as Hb'. rewrite length_app in Hb'. cbn in Hb'.
        rewrite lookup_app_l in Hb by lia. done.
Qed.

Lemma log_write_spec s i pid l P H dev start bl lg b x :
  AC s i pid l P H -> b ∈ H -> k_bufs s !! b = Some x -> 0 <= dev < 2 ^ 31 -> b_dev x = dev ->
  0 < b_blockno x < 2 ^ 31 -> pin P (key x) <> -1 ->
  k_logs s !! logidx dev = Some lg -> log_mem lg start bl -> (forall b, b ∈ bl -> 0 <= b < 2 ^ 31) ->
  (b_blockno x ∈ bl <-> is_Some (P !! key x)) ->
  (length bl < Z.to_nat LOGSIZE)%nat -> Z.of_nat (length bl) < lg_size lg - 1 -> 1 <= lg_outstanding lg ->
  exists s' y, quiet (log_write b) s tt s' /\ AC s' i pid l (<[key x := (1, b_data x)]> P) H /\
    k_bufs s' !! b = Some y /\ key y = key x /\ b_data y = b_data x /\
    k_logs s' !! logidx dev = Some (log_after lg (b_blockno x) bl) /\ wrote [] s s' /\
    forall j, j <> b -> k_bufs s' !! j = k_bufs s !! j.
Proof.
  intros A Hb Hx Hdev Hdx Hn Hpin Hlg Hm Hbl Hin Hlen Hsz Hout. set (n := b_blockno x) in *.
  pose proof (ac_held _ _ _ _ _ _ A b Hb) as Hlt. assert (Hbl' : (b < length (k_bufs s))%nat) by by eapply lookup_lt_Some.
  assert (Hd32 : s32 (b_dev x) = dev).
  { rewrite Hdx. rewrite <- (s32_u32_small dev) at 2 by lia. unfold s32, swrap, u32. by rewrite Z.mod_mod by lia. }
  assert (Hn32 : s32 n = n).
  { rewrite <- (s32_u32_small n) at 2 by lia. unfold s32, swrap, u32. by rewrite Z.mod_mod by lia. }
  assert (Hk0 : key x <> (0, 0)) by (unfold key; intros [=]; lia).
  set (lg1 := set_lg_block (<[idx n bl := n]> (lg_block lg)) lg).
  set (s1 := set_k_logs (<[logidx dev := lg1]> (k_logs s)) s).
  assert (Hldx : (logidx dev < length (k_logs s))%nat) by by eapply lookup_lt_Some.
  assert (Hlg1 : k_logs s1 !! logidx dev = Some lg1) by by apply list_lookup_insert_eq.
  assert (Hi : (idx n bl < Z.to_nat LOGSIZE)%nat).
  { destruct (decide (n ∈ bl)) as [E|E]; [destruct (idx_in n bl E); lia|rewrite (idx_out n bl E); lia]. }
  (* up to the test for a new block *)
  assert (Hpre : forall s2, hquiet (Llog (logidx dev))
      (when (Z.of_nat (idx n bl) =? lg_n lg1)
        (bpin b ;; ulog dev (fun lg => set_lg_n (lg_n lg + 1) lg)) ;; release (Llog (logidx dev))) s1 tt s2 ->
      quiet (log_write b) s tt s2).
  { intros s2 Hq. unfold log_write. eapply quiet_bind; [by apply quiet_get_buf|]. cbv zeta. rewrite Hd32.
    eapply quiet_bind; [by apply quiet_glog|]. rewrite (lm_n _ _ _ Hm). do 2 if_lia.
    apply quiet_acquire; [apply A|].
    eapply hquiet_same.
    { apply (quiet_absorb dev start bl lg n (taken _ s) Hlg Hm) with (m := length bl) (k := 0%nat); [|lia|lia].
      intros c Hc. apply Hbl in Hc. unfold u32. by apply Z.mod_small; lia. }
    rewrite drop_0, Nat.add_0_l. apply hquiet_assoc. eapply hquiet_glog; [exact Hlg|].
    replace (Z.of_nat (idx n bl) <? LOGSIZE) with true by lia. apply hquiet_ulog.
    rewrite Nat2Z.id. fold n. rewrite Hn32.
    rewrite (list_alter_insert (fun lg => set_lg_block (<[idx n bl := n]> (lg_block lg)) lg) _ _ _ Hlg). fold lg1. fold s1.
    eapply hquiet_glog; [exact Hlg1|]. exact Hq. }
  destruct (decide (n ∈ bl)) as [E|E].
  - exists s1, x. destruct (idx_in n bl E) as [_ Hi2]. split_and!; [| |done|done|done| |by apply wrote_nil|done].
    + apply Hpre. replace (Z.of_nat (idx n bl) =? lg_n lg1) with false by (change (lg_n lg1) with (lg_n lg); rewrite (lm_n _ _ _ Hm); lia).
      cbn [when]. eapply hquiet_same; [apply quiet_ret|]. apply hquiet_end, A.
    + apply ac_logs. eapply (ac_repin s); [exact A|exact Hb|exact Hx|done| | |].
      * intros k Hk. by rewrite lookup_insert_ne.
      * unfold pin in *. rewrite lookup_insert_eq. apply Hin in E as [[c d] HP]. rewrite HP in *.
        destruct (ac_pins _ _ _ _ _ _ A _ _ _ HP) as (_ & Hc & _). lia.
      * rewrite lookup_insert_eq. intros c d [= <- <-]. by left.
    + unfold log_after. rewrite decide_True by done. exact Hlg1.
  - assert (HP : P !! key x = None).
    { destruct (P !! key x) eqn:HP; [|done]. by destruct E; apply Hin. }
    set (s2 := set_k_bufs (<[b := set_b_refcnt 2 x]> (k_bufs s1)) s1).
    destruct (bpin_spec s1 i pid l P H b x (b_data x) (ac_logs _ _ _ _ _ _ _ A) Hb Hx Hk0 HP) as [_ A2].
    destruct (ac_buf _ _ _ _ _ _ A b x Hlt Hx) as [O1 _]. destruct (O1 Hb) as (_ & _ & Hr).
    unfold pin in Hr. rewrite HP in Hr.
    exists (set_k_logs (<[logidx dev := log_after lg n bl]> (k_logs s2)) s2), (set_b_refcnt 2 x).
    split_and!; [|by apply ac_logs| |done|done| |by apply wrote_nil|intros j Hj; by apply list_lookup_insert_ne].
    + apply Hpre. replace (Z.of_nat (idx n bl) =? lg_n lg1) with true
        by (change (lg_n lg1) with (lg_n lg); rewrite (lm_n _ _ _ Hm), (idx_out _ _ E); lia).
      cbn [when]. apply hquiet_assoc.
      eapply (hquiet_bind _ _ _ s1 tt s2); [done|done| |].
      { pose proof (quiet_bpin (taken (Llog (logidx dev)) s1) b x) as Hq. rewrite Hr in Hq.
        apply Hq; [apply ready_taken; [done|apply A]|exact Hx]. }
      apply hquiet_ulog. change (k_logs s2) with (k_logs s1). rewrite (list_alter_insert _ _ _ _ Hlg1).
      unfold log_after. rewrite decide_False by done. apply hquiet_end, A.
    + by apply list_lookup_insert_eq.
    + cbn. rewrite list_lookup_insert_eq; [done|]. by rewrite length_insert.
Qed.

(** ** A whole transaction *)
(** How fs.c changes a block. *)
Definition txn_block (dev n : Z) (dt : list Z) : M unit :=
  b ← bread dev n;
  upd_buf b (set_b_data dt) ;;
  log_write b ;;
  brelse b.
Fixpoint txn_blocks (dev : Z) (ws : list (Z * list Z)) : M unit :=
  match ws with [] => mret tt | (n, dt) :: ws' => txn_block dev n dt ;; txn_blocks dev ws' end.
Definition transaction (dev : Z) (ws : list (Z * list Z)) : M unit :=
  begin_op dev ;; txn_blocks dev ws ;; end_op dev.

Definition txn_put (dev : Z) (disk : Z * Z -> list Z) (w : Z * list Z) : Z * Z -> list Z :=
  fun k => if decide (k = (dev, w.1)) then w.2 else disk k.

(** The log between transactions, and within one that has changed [bl]. *)
Record log_ready (lg : log) (start out : Z) (bl : list Z) : Prop := {
  lr_mem : log_mem lg start bl;
  lr_out : lg_outstanding lg = out;
  lr_committing : lg_committing lg = 0;
  lr_size : LOGSIZE <= lg_size lg;
}.
Record in_txn (s : kstate) (i : nat) (pid : Z) (l : list nat) (P : gmap (Z * Z) (Z * list Z))
    (H : gset nat) (dev start out : Z) (bl : list Z) : Prop := {
  it_cache : AC s i pid l P H;
  it_geom : geom start bl;
  it_log : exists lg, k_logs s !! logidx dev = Some lg /\ log_ready lg start out bl;
  it_pins : forall k c d, P !! k = Some (c, d) -> c = 1 /\ exists b, b ∈ bl /\ k = (dev, b);
  it_logged : forall b, b ∈ bl -> is_Some (P !! (dev, b));
}.
Lemma it_size s i pid l P H dev start out bl : in_txn s i pid l P H dev start out bl -> (size P <= length bl)%nat.
Proof.
  intros I. rewrite <- size_dom, <- (length_fmap (pair dev)).
  assert (Hnd : NoDup (pair dev <$> bl)) by (apply NoDup_fmap_2; [by intros ?? [=]|apply (it_geom _ _ _ _ _ _ _ _ _ _ I)]).
  rewrite <- (size_list_to_set (C := gset (Z * Z)) _ Hnd). apply subseteq_size. intros k.
  rewrite elem_of_dom, elem_of_list_to_set. intros [[c d] E].
  apply (it_pins _ _ _ _ _ _ _ _ _ _ I) in E as (_ & b & Hb & ->). apply list_elem_of_fmap. eauto.
Qed.
Lemma geom_record start bl n : geom start bl -> (S (length bl) < Z.to_nat LOGSIZE)%nat ->
  0 < n < 2 ^ 31 -> n < start \/ start + LOGSIZE <= n -> geom start (record_block n bl).
Proof.
  intros G Hl Hn Hout. unfold record_block. case_decide; [done|]. split; try apply G.
  - intros b [Hb| ->%list_elem_of_singleton]%elem_of_app; [by apply G|done].
  - apply list.NoDup_app. split_and!; [apply G|set_solver|apply NoDup_singleton].
  - rewrite length_app. cbn. lia.
Qed.

(** ** Block operations, with other buffers held

    fs.c may hold other buffers while it works on a block (bmap holds the
    indirect block while it allocates): they keep their block and contents. *)
(** The buffers in [H] have the blocks and the contents they had. *)
Definition keeps (H : gset nat) (s s' : kstate) : Prop :=
  forall j x, j ∈ H -> k_bufs s !! j = Some x ->
    exists y, k_bufs s' !! j = Some y /\ key y = key x /\ b_data y = b_data x.
(** No buffer in [H] is for block [k]. *)
Definition not_held (s : kstate) (H : gset nat) (k : Z * Z) : Prop :=
  forall j x, j ∈ H -> k_bufs s !! j = Some x -> key x <> k.

Lemma keeps_refl H s : keeps H s s.
Proof. intros j x _ Hx. eauto. Qed.
Lemma keeps_trans H s1 s2 s3 : keeps H s1 s2 -> keeps H s2 s3 -> keeps H s1 s3.
Proof.
  intros K1 K2 j x Hj Hx. destruct (K1 j x Hj Hx) as (y & Hy & E1 & E2).
  destruct (K2 j y Hj Hy) as (z & Hz & E3 & E4). exists z. split_and!; [done|congruence|congruence].
Qed.
Lemma keeps_mono H H' s s' : H' ⊆ H -> keeps H s s' -> keeps H' s s'.
Proof. intros Hs K j x Hj. apply K. set_solver. Qed.
Lemma keeps_eq H s s' : (forall j, j ∈ H -> k_bufs s' !! j = k_bufs s !! j) -> keeps H s s'.
Proof. intros E j x Hj Hx. exists x. by rewrite E. Qed.
Lemma keeps_key (H : gset nat) s s' j x : keeps H s s' -> j ∈ H -> k_bufs s !! j = Some x ->
  exists y, k_bufs s' !! j = Some y /\ key y = key x /\ b_data y = b_data x.
Proof. auto. Qed.


(** A held buffer of the new state was held before, with the same block. *)
Lemma not_held_keeps s s' i pid l P H k :
  AC s i pid l P H -> keeps H s s' -> not_held s H k -> not_held s' H k.
Proof.
  intros A K N j y Hj Hy.
  destruct (ac_lookup _ _ _ _ _ _ j A) as [x Hx]; [pose proof (ac_held _ _ _ _ _ _ A j Hj); lia|].
  destruct (K j x Hj Hx) as (z & Hz & E & _). rewrite Hy in Hz. injection Hz as <-. rewrite E. by apply (N j x).
Qed.

Lemma in_txn_bread s i pid l P H dev start out bl n :
  in_txn s i pid l P H dev start out bl -> (length bl + size H < NBUF)%nat -> not_held s H (dev, n) ->
  exists b x s1, (b ∉ H) /\ quiet (bread dev n) s b s1 /\ wrote [] s s1 /\ keeps H s s1 /\
    k_bufs s1 !! b = Some x /\ key x = (dev, n) /\ b_data x = shown s P (dev, n) /\
    in_txn s1 i pid l P ({[b]} ∪ H) dev start out bl.
Proof.
  intros I Hlen HN. pose proof (it_size _ _ _ _ _ _ _ _ _ _ I) as Hsz.
  destruct I as [A G (lg & Hlg & Hr) Hp1 Hp2] eqn:EI.
  destruct (log_bread s i pid l P H dev n A) as (b & x & s1 & Hb & Kx & Dx & Q1 & A1 & Bx & Hk & W1 & L1).
  { intros j x Hj Hx. split; [by apply (HN j)|]. unfold pin. destruct (P !! key x) as [[c d]|] eqn:E; [|done].
    apply Hp1 in E as (-> & _). done. }
  { right. lia. }
  exists b, x, s1. split_and!; try done; [by apply keeps_eq|]. split; try done. exists lg. by rewrite L1.
Qed.
Lemma in_txn_brelse s i pid l P H dev start out bl b x :
  in_txn s i pid l P H dev start out bl -> b ∈ H -> k_bufs s !! b = Some x -> b_data x = shown s P (key x) ->
  exists s' l', quiet (brelse b) s tt s' /\ wrote [] s s' /\ keeps (H ∖ {[b]}) s s' /\
    in_txn s' i pid l' P (H ∖ {[b]}) dev start out bl.
Proof.
  intros [A G (lg & Hlg & Hr) Hp1 Hp2] Hb Bx Dx.
  destruct (log_brelse s i pid l P H b x A Hb Bx Dx) as (s' & l' & Q & A' & K & W & L).
  exists s', l'. split_and!; [done|done|done|]. split; try done. exists lg. by rewrite L.
Qed.
Lemma in_txn_upd_buf s i pid l P H dev start out bl b x f dt :
  in_txn s i pid l P H dev start out bl -> b ∈ H -> k_bufs s !! b = Some x -> f x = set_b_data dt x ->
  exists s', quiet (upd_buf b f) s tt s' /\ wrote [] s s' /\ keeps (H ∖ {[b]}) s s' /\
    k_bufs s' !! b = Some (set_b_data dt x) /\ in_txn s' i pid l P H dev start out bl.
Proof.
  intros [A G (lg & Hlg & Hr) Hp1 Hp2] Hb Bx Hf.
  destruct (log_upd_data s i pid l P H b x dt f A Hb Bx Hf) as (s' & Q & A' & Bx' & K & W & L).
  exists s'. split_and!; [done|done| |done|].
  - apply keeps_eq. intros j Hj. apply K. set_solver.
  - split; try done. exists lg. by rewrite L.
Qed.
(** The transaction once a block has been recorded. *)
Lemma in_txn_logged s s' i pid l P H dev start out bl lg n d :
  in_txn s i pid l P H dev start out bl -> AC s' i pid l (<[(dev, n) := (1, d)]> P) H ->
  k_logs s !! logidx dev = Some lg -> k_logs s' !! logidx dev = Some (log_after lg n bl) ->
  (S (length bl) < Z.to_nat LOGSIZE)%nat -> 0 < n < 2 ^ 31 -> n < start \/ start + LOGSIZE <= n ->
  in_txn s' i pid l (<[(dev, n) := (1, d)]> P) H dev start out (record_block n bl).
Proof.
  intros [_ G (lg0 & Hlg0 & [Hm Ho Hc Hs]) Hp1 Hp2] A' Hlg Hlg' Hlen Hn Hout. rewrite Hlg in Hlg0. injection Hlg0 as <-.
  split; [done|by apply geom_record| | |].
  - exists (log_after lg n bl). split; [done|]. split; [apply log_after_mem; [done|lia]|..];
      unfold log_after; case_decide; done.
  - intros k c d'. rewrite lookup_insert_Some. unfold record_block. intros [[<- [= <- <-]]|[_ HP]].
    + split; [done|]. exists n. split; [|done]. case_decide; [done|set_solver].
    + apply Hp1 in HP as (-> & b' & Hb' & ->). split; [done|]. exists b'.
      split; [|done]. case_decide; [done|set_solver].
  - intros b' Hb'. destruct (decide (b' = n)) as [->|Hne]; [by rewrite lookup_insert_eq|].
    rewrite lookup_insert_ne by congruence. apply Hp2.
    unfold record_block in Hb'. case_decide; [done|set_solver].
Qed.
Lemma in_txn_log_write s i pid l P H dev start out bl b x n :
  in_txn s i pid l P H dev start out bl -> 1 <= out -> b ∈ H -> k_bufs s !! b = Some x -> key x = (dev, n) ->
  (length bl < Z.to_nat MAXOPBLOCKS)%nat -> 0 <= dev < 2 ^ 31 -> 0 < n < 2 ^ 31 -> n < start \/ start + LOGSIZE <= n ->
  exists s' y, quiet (log_write b) s tt s' /\ wrote [] s s' /\ keeps (H ∖ {[b]}) s s' /\
    k_bufs s' !! b = Some y /\ key y = (dev, n) /\ b_data y = b_data x /\
    in_txn s' i pid l (<[(dev, n) := (1, b_data x)]> P) H dev start out (record_block n bl).
Proof.
  intros I Ho1 Hb Bx Kx Hlen Hdev Hn Hout. pose proof I as [A G (lg & Hlg & [Hm Ho Hc Hs]) Hp1 Hp2].
  assert (Hl29 : (S (length bl) < Z.to_nat LOGSIZE)%nat) by (unfold LOGSIZE, MAXOPBLOCKS in *; lia).
  assert (Hl30 : (length bl < Z.to_nat LOGSIZE)%nat) by lia.
  assert (E2 : b_dev x = dev /\ b_blockno x = n) by (unfold key in Kx; by injection Kx). destruct E2 as [Ed En].
  destruct (log_write_spec s i pid l P H dev start bl lg b x A Hb Bx Hdev Ed)
    as (s' & y & Q & A' & By & Ky & Dy & Hlg' & W & K); rewrite ?Kx, ?En; try done.
  { unfold pin. destruct (P !! (dev, n)) as [[c d]|] eqn:E; [|done]. by apply Hp1 in E as (-> & _). }
  { intros c Hc'. destruct (g_home _ _ G c Hc'). lia. }
  { split; [apply Hp2|]. intros [[c d] E]. apply Hp1 in E as (_ & b' & Hb' & [= ->]). done. }
  { lia. } { lia. }
  rewrite Kx in A', Ky. rewrite En in Hlg'. exists s', y. split_and!; try done.
  { apply keeps_eq. intros j Hj. apply K. set_solver. }
  by apply (in_txn_logged s s' i pid l P H dev start out bl lg).
Qed.

(** Giving a buffer back unchanged. *)
Lemma in_txn_give_back s i pid l P H dev start out bl b x :
  in_txn s i pid l P ({[b]} ∪ H) dev start out bl -> b ∉ H -> k_bufs s !! b = Some x -> b_data x = shown s P (key x) ->
  exists s' l', quiet (brelse b) s tt s' /\ wrote [] s s' /\ keeps H s s' /\ in_txn s' i pid l' P H dev start out bl.
Proof.
  intros I Hb Bx Dx. assert (E : ({[b]} ∪ H) ∖ {[b]} = H) by set_solver.
  destruct (in_txn_brelse s i pid l P _ dev start out bl b x I ltac:(set_solver) Bx Dx) as (s' & l' & Q & W & K & I').
  rewrite E in K, I'. by exists s', l'.
Qed.
(** Changing it, logging it and giving it back. *)
Lemma in_txn_put_back s i pid l P H dev start out bl b x f n dt :
  in_txn s i pid l P ({[b]} ∪ H) dev start out bl -> 1 <= out -> b ∉ H -> k_bufs s !! b = Some x -> key x = (dev, n) ->
  f x = set_b_data dt x -> (length bl < Z.to_nat MAXOPBLOCKS)%nat -> 0 <= dev < 2 ^ 31 ->
  0 < n < 2 ^ 31 -> n < start \/ start + LOGSIZE <= n ->
  exists s2 s3 s' l', quiet (upd_buf b f) s tt s2 /\ quiet (log_write b) s2 tt s3 /\ quiet (brelse b) s3 tt s' /\
    wrote [] s s' /\ keeps H s s' /\ in_txn s' i pid l' (<[(dev, n) := (1, dt)]> P) H dev start out (record_block n bl).
Proof.
  intros I Ho HbH Bx Kx Hf Hlen Hdev Hn Hout. assert (Hb : b ∈ {[b]} ∪ H) by set_solver.
  assert (E : ({[b]} ∪ H) ∖ {[b]} = H) by set_solver.
  destruct (in_txn_upd_buf s i pid l P _ dev start out bl b x f dt I Hb Bx Hf) as (s2 & Q2 & W2 & K2 & Bx2 & I2).
  destruct (in_txn_log_write s2 i pid l P _ dev start out bl b _ n I2 Ho Hb Bx2 Kx Hlen Hdev Hn Hout)
    as (s3 & y & Q3 & W3 & K3 & By & Ky & Dy & I3).
  destruct (in_txn_brelse s3 i pid l _ _ dev start out _ b y I3 Hb By) as (s4 & l4 & Q4 & W4 & K4 & I4).
  { rewrite Ky, Dy. unfold shown. by rewrite lookup_insert_eq. }
  rewrite E in *. exists s2, s3, s4, l4. split_and!; [done|done|done| | |done].
  - apply (wrote_trans _ _ _ _ _ W2 (wrote_trans _ _ _ _ _ W3 W4)).
  - apply (keeps_trans _ _ _ _ K2 (keeps_trans _ _ _ _ K3 K4)).
Qed.

Lemma shown_put s s' P k dt : wrote [] s s' -> forall k',
  shown s' (<[k := (1, dt)]> P) k' = if decide (k' = k) then dt else shown s P k'.
Proof.
  intros W k'. unfold shown. case_decide as E; [subst; by rewrite lookup_insert_eq|].
  rewrite lookup_insert_ne by done. destruct (P !! k') as [[]|]; [done|]. by apply wrote_nil_block.
Qed.

Lemma txn_block_spec s i pid l P H dev start out bl n dt :
  in_txn s i pid l P H dev start out bl -> 1 <= out -> (size H < 10)%nat -> not_held s H (dev, n) ->
  (length bl < Z.to_nat MAXOPBLOCKS)%nat -> 0 <= dev < 2 ^ 31 -> 0 < n < 2 ^ 31 -> n < start \/ start + LOGSIZE <= n ->
  exists s' l', quiet (txn_block dev n dt) s tt s' /\ wrote [] s s' /\ keeps H s s' /\
    in_txn s' i pid l' (<[(dev, n) := (1, dt)]> P) H dev start out (record_block n bl).
Proof.
  intros I Ho HH HN Hlen Hdev Hn Hout.
  destruct (in_txn_bread s i pid l P H dev start out bl n I) as (b & x & s1 & Hb & Q1 & W1 & K1 & Bx & Kx & _ & I1); [|done|].
  { assert (20 < NBUF)%nat by (vm_compute; lia). unfold MAXOPBLOCKS in Hlen. lia. }
  destruct (in_txn_put_back s1 i pid l P H dev start out bl b x (set_b_data dt) n dt I1 Ho Hb Bx Kx eq_refl Hlen Hdev Hn Hout)
    as (s2 & s3 & s4 & l4 & Q2 & Q3 & Q4 & W4 & K4 & I4).
  exists s4, l4. split_and!; [|exact (wrote_trans _ _ _ _ _ W1 W4)|by eapply keeps_trans|done].
  unfold txn_block. eapply quiet_bind; [exact Q1|]. eapply quiet_bind; [exact Q2|].
  eapply quiet_bind; [exact Q3|exact Q4].
Qed.
Lemma txn_blocks_spec dev start i pid ws : 0 <= dev < 2 ^ 31 ->
  Forall (fun w => 0 < w.1 < 2 ^ 31 /\ (w.1 < start \/ start + LOGSIZE <= w.1)) ws ->
  forall s l P bl disk, in_txn s i pid l P ∅ dev start 1 bl ->
  (length bl + length ws <= Z.to_nat MAXOPBLOCKS)%nat -> (forall k, shown s P k = disk k) ->
  exists s' l' P' bl', quiet (txn_blocks dev ws) s tt s' /\ wrote [] s s' /\
    in_txn s' i pid l' P' ∅ dev start 1 bl' /\ (length bl' <= Z.to_nat MAXOPBLOCKS)%nat /\
    forall k, shown s' P' k = foldl (txn_put dev) disk ws k.
Proof.
  intros Hdev Hws. induction Hws as [|[n dt] ws [Hn Hout] Hws IH]; intros s l P bl disk I Hlen Hd; cbn [length] in Hlen.
  { exists s, l, P, bl. split_and!; [apply quiet_ret|by apply wrote_nil|done|lia|done]. }
  destruct (txn_block_spec s i pid l P ∅ dev start 1 bl n dt I) as (s1 & l1 & Q1 & W1 & _ & I1);
    [done|rewrite size_empty; lia|intros j; set_solver|lia|done|done|done|].
  destruct (IH s1 l1 _ _ (txn_put dev disk (n, dt)) I1) as (s2 & l2 & P2 & bl2 & Q2 & W2 & I2 & Hl2 & Hd2).
  - unfold record_block. case_decide; [lia|]. rewrite length_app. cbn. lia.
  - intros k. unfold shown, txn_put. cbn. case_decide as E.
    + subst. by rewrite lookup_insert_eq.
    + rewrite lookup_insert_ne by done. rewrite <- Hd. unfold shown.
      destruct (P !! k) as [[]|]; [done|]. by apply wrote_nil_block.
  - exists s2, l2, P2, bl2. split_and!; [|exact (wrote_trans _ _ _ _ _ W1 W2)|done|done|done].
    cbn [txn_blocks]. eapply quiet_bind; [exact Q1|exact Q2].
Qed.

(** ** begin_op and end_op when nobody else is in a transaction *)
Lemma hquiet_waiting {A} l (loop : nat -> M A) (m : M A) s a s' :
  (forall n lk env, loop (S n) (set_k_lk lk s) env = m (set_k_lk lk s) env) ->
  hquiet l m s a s' -> hquiet l (waiting loop) s a s'.
Proof.
  intros Hm [H1 H2]. split; [done|]. intros lk Hlk. destruct (H2 lk Hlk) as (lk' & Hlk' & Hr).
  exists lk'. split; [done|]. intros env. unfold waiting. rewrite Hm. apply Hr.
Qed.
Definition upd_logs (dev : Z) (f : log -> log) (s : kstate) : kstate :=
  set_k_logs (alter f (logidx dev) (k_logs s)) s.

Lemma begin_op_spec s dev lg :
  ready s (Llog (logidx dev)) -> k_logs s !! logidx dev = Some lg -> lg_committing lg = 0 ->
  lg_n lg + (lg_outstanding lg + 1) * MAXOPBLOCKS <= LOGSIZE ->
  quiet (begin_op dev) s tt (upd_logs dev (fun lg => set_lg_outstanding (lg_outstanding lg + 1) lg) s).
Proof.
  intros Hr Hlg Hc Hroom. unfold begin_op. apply quiet_acquire; [done|].
  eapply (hquiet_waiting _ _ (ulog dev (fun lg => set_lg_outstanding (lg_outstanding lg + 1) lg) ;;
    release (Llog (logidx dev)))).
  - intros n lk env. cbn [begin_op_loop]. unfold glog, get_log, gets, mbind, M_bind, reads. cbn [k_logs set_k_lk].
    rewrite Hlg. cbn. rewrite Hc. cbn. by if_lia.
  - apply hquiet_ulog. by apply hquiet_end.
Qed.

(** The last end_op, given what commit does once the lock is free. *)
Lemma end_op_last s s' i pid l dev lg lg' :
  io_ctx s i pid -> k_logs s !! logidx dev = Some lg -> lg_committing lg = 0 -> lg_outstanding lg = 1 ->
  quiet (commit dev) (upd_logs dev (fun lg => set_lg_committing 1 (set_lg_outstanding 0 lg)) s) tt s' ->
  AC s' i pid l ∅ ∅ -> k_logs s' !! logidx dev = Some lg' ->
  quiet (end_op dev) s tt
    (set_k_procs (wake CLog <$> k_procs s') (upd_logs dev (set_lg_committing 0) s')).
Proof.
  intros Hctx Hlg Hc Ho Q A' Hlg'. unfold end_op. apply quiet_acquire; [apply Hctx|].
  apply hquiet_ulog. eapply hquiet_glog.
  { cbn. rewrite list_lookup_alter_eq, Hlg. cbn. rewrite Ho. reflexivity. }
  cbn [lg_committing set_lg_outstanding]. rewrite Hc. cbn [ctrue Z.eqb negb lg_outstanding].
  cbv zeta. cbn [Z.eqb Z.sub Z.add Z.opp Z.pos_sub]. apply hquiet_ulog.
  apply hquiet_release; [apply Hctx|]. cbn [when].
  eapply quiet_bind.
  { cbn [k_logs set_k_logs]. rewrite list_alter_alter_eq.
    erewrite list_alter_ext; [exact Q| |done]. intros x Hx. cbn. cbn in Hx. rewrite Hlg in Hx. injection Hx as <-.
    by rewrite Ho. }
  apply quiet_acquire; [apply A'|]. apply hquiet_ulog.
  eapply (hquiet_bind _ _ _ _ tt (set_k_procs (wake CLog <$> k_procs s') (upd_logs dev (set_lg_committing 0) s')));
    [done|done| |].
  { apply (quiet_wakeup CLog (taken (Llog (logidx dev)) (upd_logs dev (set_lg_committing 0) s'))).
    apply procs_ready_taken; [done|]. split; [apply A'|]. intros j Hj. apply A'. }
  apply hquiet_end, A'.
Qed.

(** Nothing is pinned once every logged block has been installed. *)
Lemma unpins_all dev l : forall P, NoDup l.*1 ->
  (forall k v, P !! k = Some v -> exists b d, (b, d) ∈ l /\ k = (dev, b)) ->
  (forall b d, (b, d) ∈ l -> is_Some (P !! (dev, b))) -> unpins dev l P = ∅.
Proof.
  induction l as [|[b d] l IH]; intros P Hnd H1 H2.
  - apply map_empty. intros k. destruct (P !! k) eqn:E; [|done]. apply H1 in E as (b & d & Hin & _). set_solver.
  - cbn in Hnd. apply list.NoDup_cons in Hnd as [Hb Hnd].
    change (unpins dev ((b, d) :: l) P) with (unpins dev l (unpin (dev, b) d P)). apply IH; [done| |].
    + intros k v Hk. destruct (decide (k = (dev, b))) as [->|Hne].
      * unfold unpin in Hk. destruct (H2 b d) as [w Hw]; [set_solver|]. rewrite Hw, lookup_delete_eq in Hk. done.
      * rewrite unpin_ne in Hk by done. destruct (H1 k v Hk) as (b' & d' & Hin & ->).
        exists b', d'. split; [|done]. apply elem_of_cons in Hin as [[= -> ->]|]; [done|done].
    + intros b' d' Hin. rewrite unpin_ne; [apply (H2 b' d'); set_solver|].
      intros [= ->]. apply Hb, list_elem_of_fmap. by exists (b, d').
Qed.

Lemma in_txn_commit s i pid l P dev start bl lg f :
  in_txn s i pid l P ∅ dev start 1 bl -> (length bl <= Z.to_nat MAXOPBLOCKS)%nat ->
  k_logs s !! logidx dev = Some lg -> log_mem (f lg) start bl -> block_size (block_of s (dev, start)) ->
  head_is (block_of s (dev, start)) [] ->
  exists s' l', quiet (commit dev) (upd_logs dev f s) tt s' /\ AC s' i pid l' ∅ ∅ /\
    k_logs s' !! logidx dev = Some (set_lg_n 0 (f lg)) /\ head_is (block_of s' (dev, start)) [] /\
    forall k, ~ in_log dev start k -> block_of s' k = shown s P k.
Proof.
  intros I Hlen Hlg0 Hm Hbs Hh. set (t := upd_logs dev f s).
  assert (Hlg : k_logs t !! logidx dev = Some (f lg)) by (cbn; by rewrite list_lookup_alter_eq, Hlg0).
  assert (A : AC t i pid l P ∅) by apply ac_logs, I. set (lg1 := f lg) in *. pose proof (it_geom _ _ _ _ _ _ _ _ _ _ I) as G.
  pose proof (it_size _ _ _ _ _ _ _ _ _ _ I) as Hsz. destruct (decide (bl = [])) as [->|Hne].
  { assert (P = ∅) as ->.
    { apply map_empty. intros k. destruct (P !! k) as [[c d]|] eqn:E; [|done].
      apply (it_pins _ _ _ _ _ _ _ _ _ _ I) in E as (_ & b & Hb & _). set_solver. }
    assert (Hn0 : lg_n lg1 = 0) by apply (lm_n _ _ _ Hm).
    exists t, l. split_and!; [|done| |done|intros k _; by rewrite shown_empty].
    - unfold commit. eapply quiet_bind; [by apply quiet_glog|]. rewrite Hn0. apply quiet_ret.
    - rewrite Hlg. f_equal. change lg1 with (set_lg_n (lg_n lg1) lg1) at 1. by rewrite Hn0. }
  set (ds := (fun b => match P !! (dev, b) with Some (_, d) => d | None => [] end) <$> bl).
  assert (Hdl : length ds = length bl) by apply length_fmap.
  assert (Hpin : pinned_in dev bl ds P).
  { intros k b d Hb. unfold ds. rewrite list_lookup_fmap, Hb. intros [= <-].
    destruct (it_logged _ _ _ _ _ _ _ _ _ _ I b) as [[c d] E]; [by eapply list_elem_of_lookup_2|]. rewrite E.
    by destruct (it_pins _ _ _ _ _ _ _ _ _ _ I _ _ _ E) as [-> _]. }
  assert (C : committing t i pid l P dev start bl ds).
  { split; try done; [by exists lg1| |unfold MAXOPBLOCKS in *; assert (10 < NBUF)%nat by (vm_compute; lia); lia].
    intros k c d. split.
    - intros E. destruct (it_pins _ _ _ _ _ _ _ _ _ _ I _ _ _ E) as (-> & b & [j Hb]%list_elem_of_lookup & ->).
      split; [done|]. exists j, b. split_and!; [done| |done]. unfold ds. by rewrite list_lookup_fmap, Hb; cbn; rewrite E.
    - intros (-> & j & b & Hb & Hd & ->). by eapply Hpin. }
  destruct (committing_pins _ _ _ _ _ _ _ _ _ C) as (_ & Hu & HszN).
  destruct (commit_spec t i pid l P dev start bl ds lg1 A G Hlg Hm Hne Hdl Hpin Hu HszN) as (s' & l' & Q & A' & W & Hlg').
  rewrite unpins_all in A'.
  - destruct (commit_finish dev start bl ds (k_disk t) G Hdl (block_of t (dev, start)) Hbs) as [F1 F2].
    exists s', l'. split_and!; [done|done|done|by rewrite (wrote_block _ _ _ _ W)|].
    intros k Hk. rewrite (wrote_block _ _ _ _ W), F2 by done. exact (new_disk_shown t _ _ _ _ _ _ _ _ k C).
  - rewrite fst_zip by lia. apply G.
  - intros k [c d] E. apply (co_pins _ _ _ _ _ _ _ _ _ C) in E as (_ & j & b & Hb & Hd & ->).
    exists b, d. split; [|done]. apply elem_of_lookup_zip_with. by exists j, b, d.
  - intros b d (j & b' & d' & [= -> ->] & Hb & Hd)%elem_of_lookup_zip_with. by rewrite (Hpin _ _ _ Hb Hd).
Qed.

(** Changing the log's counters changes nothing else. *)
Lemma in_txn_upd s i pid l P dev start out out' bl f :
  in_txn s i pid l P ∅ dev start out bl ->
  (forall lg, log_ready lg start out bl -> log_ready (f lg) start out' bl) ->
  in_txn (upd_logs dev f s) i pid l P ∅ dev start out' bl.
Proof.
  intros [I1 I2 (lg & Hlg & Hr) I4 I5] Hf. split; [by apply ac_logs|done| |done|done].
  exists (f lg). split; [cbn; by rewrite list_lookup_alter_eq, Hlg|by apply Hf].
Qed.

(** C4. A transaction alone in the system: begin_op, up to MAXOPBLOCKS block
    changes through log_write (some possibly to the same block) and end_op never
    wait or panic; afterwards the disk holds exactly the changes, in order of
    the writes, on every block outside the log, the on-disk log header is empty,
    nothing is pinned and the log is idle again, ready for the next one. *)
Theorem transaction_durable s i pid l dev start ws :
  in_txn s i pid l ∅ ∅ dev start 0 [] -> block_size (block_of s (dev, start)) ->
  head_is (block_of s (dev, start)) [] -> 0 <= dev < 2 ^ 31 ->
  Forall (fun w => 0 < w.1 < 2 ^ 31 /\ (w.1 < start \/ start + LOGSIZE <= w.1)) ws ->
  (length ws <= Z.to_nat MAXOPBLOCKS)%nat ->
  exists s' l', quiet (transaction dev ws) s tt s' /\ in_txn s' i pid l' ∅ ∅ dev start 0 [] /\
    head_is (block_of s' (dev, start)) [] /\
    forall k, ~ in_log dev start k -> block_of s' k = foldl (txn_put dev) (block_of s) ws k.
Proof.
  intros I Hbs Hh Hdev Hws Hlen. destruct (it_log _ _ _ _ _ _ _ _ _ _ I) as (lg & Hlg & [Hm Ho Hc Hs]).
  pose proof (begin_op_spec s dev lg (io_ready _ _ _ (ac_ctx _ _ _ _ _ _ (it_cache _ _ _ _ _ _ _ _ _ _ I)) _) Hlg Hc) as Q1.
  rewrite Ho, (lm_n _ _ _ Hm) in Q1. specialize (Q1 ltac:(vm_compute; done)).
  set (s1 := upd_logs dev _ s) in Q1.
  assert (I1 : in_txn s1 i pid l ∅ ∅ dev start 1 []).
  { apply (in_txn_upd _ _ _ _ _ _ _ 0); [done|]. intros lg' [M1 M2 M3 M4]. split; [|cbn; lia|done|done].
    split; apply M1. }
  destruct (txn_blocks_spec dev start i pid ws Hdev Hws s1 l ∅ [] (block_of s) I1 Hlen) as
    (s2 & l2 & P2 & bl2 & Q2 & W2 & I2 & Hl2 & Hd2); [intros k; by rewrite shown_empty|].
  destruct (it_log _ _ _ _ _ _ _ _ _ _ I2) as (lg2 & Hlg2 & [Hm2 Ho2 Hc2 Hs2]).
  set (f := fun lg => set_lg_committing 1 (set_lg_outstanding 0 lg)).
  assert (Hb2 : block_of s2 (dev, start) = block_of s (dev, start)) by apply (wrote_nil_block _ _ _ W2).
  destruct (in_txn_commit s2 i pid l2 P2 dev start bl2 lg2 f I2 Hl2 Hlg2) as (s3 & l3 & Q3 & A3 & Hlg3 & Hh3 & Hd3);
    [split; apply Hm2|by rewrite Hb2|by rewrite Hb2|].
  pose proof (end_op_last s2 s3 i pid l3 dev lg2 _ (ac_ctx _ _ _ _ _ _ (it_cache _ _ _ _ _ _ _ _ _ _ I2))
    Hlg2 Hc2 Ho2 Q3 A3 Hlg3) as Q4.
  eexists _, l3. split_and!; [eapply quiet_bind; [exact Q1|]; eapply quiet_bind; [exact Q2|exact Q4]| |exact Hh3|].
  - split.
    + apply ac_procs; [by apply ac_logs|apply wake_pids].
    + by eapply geom_nil, it_geom.
    + exists (set_lg_committing 0 (set_lg_n 0 (f lg2))). split; [cbn; by rewrite list_lookup_alter_eq, Hlg3|].
      split; [split; [apply Hm2|done|done|apply Hm2]|done|done|done].
    + intros k c d. by rewrite lookup_empty.
    + set_solver.
  - intros k Hk. rewrite <- Hd2. exact (Hd3 k Hk).
Qed.
End Txn.

(** Two blocks changed, one of them twice, on the freshly booted cache. *)
Lemma transaction_durable_witness :
  exists s', quiet (transaction (DD := ideal) 0 [(100, wdata); (101, wdata); (100, replicate 1024 5)]) wreboot tt s' /\
    block_of s' (0, 100) = replicate 1024 5 /\ block_of s' (0, 101) = wdata.
Proof.
  destruct (transaction_durable (DD := ideal) wreboot 0 0 (rev (seq 0 NBUF)) 0 2
    [(100, wdata); (101, wdata); (100, replicate 1024 5)]) as (s' & l' & Q & _ & _ & Hd).
  - split; [apply ac_logs, wcache_ok| |exists (wlog 0)|intros k c d; by rewrite lookup_empty|set_solver].
    + exact (geom_nil (DD := ideal) 2 [100] (co_geom _ _ _ _ _ _ _ _ _ wcommit_ready)).
    + split; [done|]. split; [by split|done|done|done].
  - reflexivity.
  - split; [reflexivity|by intros k b].
  - lia.
  - repeat apply Forall_cons_2; [| | |apply Forall_nil_2]; cbn; unfold LOGSIZE, MAXOPBLOCKS; lia.
  - vm_compute. lia.
  - exists s'. split; [exact Q|]. split; rewrite Hd; [reflexivity| |reflexivity|];
      intros [_ H]; cbn in H; unfold LOGSIZE, MAXOPBLOCKS in H; lia.
Defined.
