(* ===== verification/LogLimits.v ===== *)
(** * Two limits of the log

    Recovery drops a reference it never took on every block it installs
    ([recovery_leaks_buffers]); and begin_op admits operations that
    may change one block more than the log has room for ([full_log_panics]). *)
From S2P Require Import Prelude Mem Riscv State Spinlock Kalloc Vm Proc ProcProofs Sleeplock SleeplockProofs Bio BioProofs BioSpec Log LogProofs LogCrash Txn.

Section Leak.
Context `{DL : DiskLaws}.

Lemma unpins_leaked dev l b d : forall P, NoDup l.*1 -> (b, d) ∈ l -> P !! (dev, b) = None ->
  unpins dev l P !! (dev, b) = Some (-1, d).
Proof.
  induction l as [|[b' d'] l IH]; intros P Hnd Hin HP; [set_solver|].
  cbn in Hnd. apply list.NoDup_cons in Hnd as [Hb Hnd].
  change (unpins dev ((b', d') :: l) P) with (unpins dev l (unpin (dev, b') d' P)).
  apply elem_of_cons in Hin as [[= -> ->]|Hin].
  - rewrite unpins_ne; [unfold unpin; by rewrite HP, lookup_insert_eq|].
    intros b'' d'' Hin [= ->]. apply Hb, list_elem_of_fmap. by exists (b'', d'').
  - apply IH; [done|done|]. rewrite unpin_ne; [done|]. intros [= ->]. apply Hb, list_elem_of_fmap. by exists (b', d).
Qed.

(** C35. Recovery leaks buffers: when recover_from_log replays a log with blocks
    [bl], the buffer of each of those blocks is left with nobody using it and a
    reference count of 2^32 - 1, because install_trans calls bunpin although
    nothing was pinned. *)
Theorem recovery_leaks_buffers s i pid l dev start bl lg :
  AC s i pid l ∅ ∅ -> geom start bl -> (length bl < NBUF)%nat ->
  k_logs s !! logidx dev = Some lg -> lg_start lg = start -> length (lg_block lg) = Z.to_nat LOGSIZE ->
  head_is (block_of s (dev, start)) bl ->
  exists s', quiet (recover_from_log dev) s tt s' /\
    forall b, b ∈ bl -> exists j x, k_bufs s' !! j = Some x /\ key x = (dev, b) /\
      sl_locked (b_lock x) = 0 /\ b_refcnt x = 2 ^ 32 - 1.
Proof.
  intros A G Hmax Hlg Hst Hll Hh.
  destruct (recover_spec s i pid l dev start bl lg A G Hmax Hlg Hst Hll Hh) as (s' & l' & Q & A' & _).
  set (ds := imap _ bl) in *. exists s'. split; [done|]. intros b [k Hb]%list_elem_of_lookup.
  assert (Hd : ds !! k = Some (block_of s (dev, slot_of start k))) by (unfold ds; by rewrite list_lookup_imap, Hb).
  assert (Hlen : length ds = length bl) by apply length_imap.
  assert (HP : unpins dev (zip bl ds) ∅ !! (dev, b) = Some (-1, block_of s (dev, slot_of start k))).
  { apply unpins_leaked; [rewrite fst_zip by lia; apply G| |apply lookup_empty].
    apply elem_of_lookup_zip_with. by eexists k, b, _. }
  destruct (ac_pins _ _ _ _ _ _ A' _ _ _ HP) as (_ & _ & j & x & Hj & Hx & Hk).
  exists j, x. split_and!; [done|done| |]; destruct (ac_buf _ _ _ _ _ _ A' j x Hj Hx) as [_ O];
    destruct O as (O1 & O2 & _); [set_solver|done|set_solver|].
  rewrite O2, Hk. unfold pin. by rewrite HP.
Qed.
End Leak.

(** A crash left block 100 in the log. *)
Definition wcrashed : kstate :=
  set_k_disk {[ (0, 2) := head_bytes [100] (replicate 1024 0); (0, 3) := wdata ]} wreboot.
Lemma recovery_leaks_buffers_witness :
  exists s', quiet (recover_from_log (DD := ideal) 0) wcrashed tt s' /\
    exists j x, k_bufs s' !! j = Some x /\ key x = (0, 100) /\ b_refcnt x = 2 ^ 32 - 1.
Proof.
  destruct (recovery_leaks_buffers (DD := ideal) wcrashed 0 0 (rev (seq 0 NBUF)) 0 2 [100] (wlog 0)) as (s' & Q & H).
  - destruct wcache_ok as [[C1 C2 [C3 C4] C5] A1 A2 A3 A4 A5 A6].
    split; [split; [exact C1|exact C2|split; [exact C3|exact C4]|exact C5]|exact A1|exact A2|exact A3| |exact A5|exact A6].
    intros j x Hj Hx. apply wcache_buf in Hx as [-> _]. split; [set_solver|]. intros _.
    split; [reflexivity|]. split; [reflexivity|]. rewrite lookup_empty. intros []. reflexivity.
  - apply wcommit_ready.
  - vm_compute. lia.
  - reflexivity.
  - reflexivity.
  - reflexivity.
  - split; [vm_compute; reflexivity|]. intros [|k] b; [intros [= <-]; vm_compute; reflexivity|by destruct k].
  - exists s'. split; [exact Q|]. destruct (H 100) as (j & x & H1 & H2 & _ & H3); [set_solver|].
    exists j, x. split; [exact H1|]. split; [exact H2|exact H3].
Defined.

(** ** A full log *)
Section Full.
Context `{DL : DiskLaws} (i : nat) (pid dev start : Z).

(** A transaction with [out] operations that has changed the blocks [bl], in a log
    of the size that mkfs lays out: LOGSIZE blocks, the head included. *)
Definition filling (s : kstate) (l : list nat) (P : gmap (Z * Z) (Z * list Z)) (out : Z) (bl : list Z) : Prop :=
  in_txn s i pid l P ∅ dev start out bl /\ exists lg, k_logs s !! logidx dev = Some lg /\ lg_size lg = LOGSIZE.
(** A block outside the log. *)
Definition home_block (n : Z) : Prop := 0 < n < 2 ^ 31 /\ (n < start \/ start + LOGSIZE <= n).

Lemma log_after_size lg n bl : lg_size (log_after lg n bl) = lg_size lg.
Proof. unfold log_after. by case_decide. Qed.

(** The block is read and changed before log_write looks at the log. *)
Lemma fill_start s l P out bl n dt : filling s l P out bl -> (length bl < NBUF)%nat ->
  exists b x s2, quiet (b ← bread dev n; upd_buf b (set_b_data dt) ;; mret b) s b s2 /\ wrote [] s s2 /\ same_logs s s2 /\
    AC s2 i pid l P {[b]} /\ k_bufs s2 !! b = Some (set_b_data dt x) /\ key x = (dev, n).
Proof.
  intros [I _] Hlen. pose proof (it_size _ _ _ _ _ _ _ _ _ _ I) as Hsz.
  destruct (log_bread s i pid l P ∅ dev n (it_cache _ _ _ _ _ _ _ _ _ _ I)) as (b & x & s1 & _ & Kx & _ & Q1 & A1 & Bx & _ & W1 & L1);
    [intros j; set_solver|right; rewrite size_empty; lia|]. rewrite union_empty_r_L in A1.
  destruct (log_upd_data s1 i pid l P {[b]} b x dt (set_b_data dt) A1 ltac:(set_solver) Bx eq_refl) as (s2 & Q2 & A2 & Bx2 & _ & W2 & L2).
  exists b, x, s2. split_and!; [|exact (wrote_trans _ _ _ _ _ W1 W2)|exact (eq_trans L2 L1)|done|done|done].
  eapply quiet_bind; [exact Q1|]. eapply quiet_bind; [exact Q2|apply quiet_ret].
Qed.
Lemma txn_block_split n dt s b s2 r s3 :
  quiet (b ← bread dev n; upd_buf b (set_b_data dt) ;; mret b) s b s2 -> quiet (log_write b ;; brelse b) s2 r s3 ->
  quiet (txn_block dev n dt) s r s3.
Proof.
  intros Q Q'. pose proof (quiet_bind _ (fun b => log_write b ;; brelse b) _ _ _ _ _ Q Q') as [H1 H2]. split; [done|].
  intros lk Hlk. destruct (H2 lk Hlk) as (lk' & Hl & Hr). exists lk'. split; [done|]. intros env. specialize (Hr env).
  unfold txn_block, mbind, M_bind, mret, M_ret in *. destruct (bread dev n (set_k_lk lk s) env) as [b0 t env1|]; [|done].
  by destruct (upd_buf b0 (set_b_data dt) t env1).
Qed.

Lemma fill_block s l P out bl n dt : 0 <= dev < 2 ^ 31 -> filling s l P out bl -> 1 <= out ->
  (S (length bl) < Z.to_nat LOGSIZE)%nat -> home_block n ->
  exists s' l', quiet (txn_block dev n dt) s tt s' /\ wrote [] s s' /\
    filling s' l' (<[(dev, n) := (1, dt)]> P) out (record_block n bl).
Proof.
  intros Hdev F Ho Hlen [Hn Hout]. assert (HN : Z.to_nat LOGSIZE = NBUF) by done.
  destruct (fill_start s l P out bl n dt F ltac:(lia)) as (b & x & s2 & Q2 & W2 & L2 & A2 & Bx & Kx).
  destruct F as [I (lg & Hlg & Hsz)]. assert (E : b_dev x = dev /\ b_blockno x = n) by (unfold key in Kx; by injection Kx). destruct E as [Ed En].
  assert (I2 : in_txn s2 i pid l P {[b]} dev start out bl).
  { destruct I as [_ G (lg0 & Hlg0 & Hr) Hp1 Hp2]. split; try done. exists lg0. by rewrite L2. }
  pose proof I2 as [_ G (lg0 & Hlg0 & [Hm Ho' Hc Hs]) Hp1 Hp2]. pose proof Hlg0 as E0. rewrite L2, Hlg in E0. injection E0 as <-.
  destruct (log_write_spec s2 i pid l P {[b]} dev start bl lg b (set_b_data dt x) A2 ltac:(set_solver) Bx Hdev Ed)
    as (s3 & y & Q3 & A3 & By & Ky & Dy & Hlg3 & W3 & _); cbn [b_blockno set_b_data]; rewrite ?En; try done; try lia.
  { unfold pin. change (key (set_b_data dt x)) with (key x). rewrite Kx. destruct (P !! (dev, n)) as [[c d]|] eqn:E; [|done]. by apply Hp1 in E as (-> & _). }
  { intros c Hc'. destruct (g_home _ _ G c Hc'). lia. }
  { change (key (set_b_data dt x)) with (key x). rewrite Kx. split; [apply Hp2|]. intros [[c d] E]. apply Hp1 in E as (_ & b' & Hb' & [= ->]). done. }
  change (key (set_b_data dt x)) with (key x) in *. cbn [b_blockno b_data set_b_data] in *. rewrite ?Kx, ?En in *.
  pose proof (in_txn_logged s2 s3 i pid l P {[b]} dev start out bl lg n dt I2 A3 Hlg0 Hlg3 Hlen Hn Hout) as I3.
  destruct (log_brelse s3 i pid l _ {[b]} b y A3 ltac:(set_solver) By) as (s4 & l4 & Q4 & A4 & _ & W4 & L4).
  { rewrite Ky, Dy. unfold shown. by rewrite lookup_insert_eq. }
  rewrite difference_diag_L in A4. exists s4, l4.
  split; [eapply txn_block_split; [exact Q2|]; eapply quiet_bind; [exact Q3|exact Q4]|].
  split; [exact (wrote_trans _ _ _ _ _ W2 (wrote_trans _ _ _ _ _ W3 W4))|]. split.
  - destruct I3 as [_ G3 Hl3 Hp3 Hp4]. split; try done. by rewrite L4.
  - exists (log_after lg n bl). rewrite L4, log_after_size. done.
Qed.
Lemma fill_blocks ws : 0 <= dev < 2 ^ 31 -> Forall (fun w => home_block w.1) ws ->
  forall s l P out bl disk, filling s l P out bl -> 1 <= out -> (length bl + length ws < Z.to_nat LOGSIZE)%nat ->
  (forall k, shown s P k = disk k) ->
  exists s' l' P', quiet (txn_blocks dev ws) s tt s' /\ wrote [] s s' /\
    filling s' l' P' out (foldl (flip record_block) bl ws.*1) /\ forall k, shown s' P' k = foldl (txn_put dev) disk ws k.
Proof.
  intros Hdev Hws. induction Hws as [|[n dt] ws Hn Hws IH]; intros s l P out bl disk F Ho Hlen Hd; cbn [length] in Hlen.
  { exists s, l, P. split_and!; [apply quiet_ret|by apply wrote_nil|done|done]. }
  destruct (fill_block s l P out bl n dt Hdev F Ho ltac:(lia) Hn) as (s1 & l1 & Q1 & W1 & F1).
  destruct (IH s1 l1 _ out _ (txn_put dev disk (n, dt)) F1 Ho) as (s2 & l2 & P2 & Q2 & W2 & F2 & Hd2).
  - unfold record_block. case_decide; [lia|]. rewrite length_app. cbn. lia.
  - intros k. rewrite (shown_put s s1) by done. unfold txn_put. cbn. by rewrite Hd.
  - exists s2, l2, P2. split_and!; [|exact (wrote_trans _ _ _ _ _ W1 W2)|exact F2|exact Hd2].
    cbn [txn_blocks]. eapply quiet_bind; [exact Q1|exact Q2].
Qed.
(** Distinct blocks are all recorded. *)
Lemma record_distinct ns : forall bl, NoDup (bl ++ ns) -> foldl (flip record_block) bl ns = bl ++ ns.
Proof.
  induction ns as [|n ns IH]; intros bl Hnd; [by rewrite app_nil_r|]. cbn [foldl flip].
  assert (n ∉ bl) as Hn by (apply list.NoDup_app in Hnd as (_ & H & _); intros Hin; apply (H n Hin); by left).
  unfold record_block at 2. rewrite decide_False by done. rewrite IH, <- app_assoc; [done|]. by rewrite <- app_assoc.
Qed.
Lemma full_block_panics s l P out bl n dt : 0 <= dev < 2 ^ 31 -> filling s l P out bl -> S (length bl) = Z.to_nat LOGSIZE ->
  panics_with "too big a transaction" (txn_block dev n dt) s.
Proof.
  intros Hdev F Hlen. assert (HN : Z.to_nat LOGSIZE = NBUF) by done.
  destruct (fill_start s l P out bl n dt F ltac:(lia)) as (b & x & s2 & Q2 & _ & L2 & _ & Bx & Kx).
  destruct F as [I (lg & Hlg & Hsz)]. destruct (it_log _ _ _ _ _ _ _ _ _ _ I) as (lg0 & Hlg0 & Hr). rewrite Hlg in Hlg0. injection Hlg0 as <-.
  assert (Hp : panics_with "too big a transaction" (log_write b ;; brelse b) s2).
  { apply panics_with_halt. unfold log_write. eapply panics_with_bind; [by apply quiet_get_buf|]. cbv zeta. cbn [b_dev set_b_data].
    assert (s32 (b_dev x) = dev) as ->.
    { injection Kx as -> _. rewrite <- (s32_u32_small dev) at 2 by lia. unfold s32, swrap, u32. by rewrite Z.mod_mod by lia. }
    eapply panics_with_bind; [apply quiet_glog; by rewrite L2|]. rewrite Hsz, (lm_n _ _ _ (lr_mem _ _ _ _ Hr)).
    replace ((LOGSIZE <=? _) || _) with true by (unfold LOGSIZE, MAXOPBLOCKS in *; lia). apply panics_with_panic. }
  pose proof (panics_with_bind _ _ (fun b => log_write b ;; brelse b) _ _ _ Q2 Hp) as Hb. intros lk Hlk env. destruct (Hb lk Hlk env) as (s' & E).
  exists s'. unfold txn_block, mbind, M_bind, mret, M_ret in *. destruct (bread dev n (set_k_lk lk s) env) as [b0 t env1|]; [|done].
  by destruct (upd_buf b0 (set_b_data dt) t env1).
Qed.

(** begin_op admits an operation when every one admitted can change MAXOPBLOCKS blocks. *)
Lemma fill_begin s l P out bl : filling s l P out bl -> Z.of_nat (length bl) + (out + 1) * MAXOPBLOCKS <= LOGSIZE ->
  exists s', quiet (begin_op dev) s tt s' /\ filling s' l P (out + 1) bl /\ forall k, shown s' P k = shown s P k.
Proof.
  intros [I (lg & Hlg & Hsz)] Hroom. destruct (it_log _ _ _ _ _ _ _ _ _ _ I) as (lg0 & Hlg0 & [Hm Ho Hc Hs]). rewrite Hlg in Hlg0. injection Hlg0 as <-.
  pose proof (begin_op_spec s dev lg (io_ready _ _ _ (ac_ctx _ _ _ _ _ _ (it_cache _ _ _ _ _ _ _ _ _ _ I)) _) Hlg Hc) as Q1.
  rewrite Ho, (lm_n _ _ _ Hm) in Q1. specialize (Q1 Hroom). eexists. split; [exact Q1|]. split; [split|done].
  - apply (in_txn_upd _ _ _ _ _ _ _ out); [done|]. intros lg' [M1 M2 M3 M4]. split; [split; apply M1|cbn; lia|done|done].
  - eexists. split; [cbn; rewrite list_lookup_alter_eq, Hlg; reflexivity|done].
Qed.

(** Three operations that begin_op has admitted change the blocks [ws]. *)
Definition three_ops (ws : list (Z * list Z)) : M unit :=
  begin_op dev ;; begin_op dev ;; begin_op dev ;; txn_blocks dev ws.
Lemma three_begin s l : filling s l ∅ 0 [] -> exists s', filling s' l ∅ 3 [] /\ (forall k, shown s' ∅ k = block_of s k) /\
  (forall ws r t, quiet (txn_blocks dev ws) s' r t -> quiet (three_ops ws) s r t) /\
  forall ws msg, panics_with msg (txn_blocks dev ws) s' -> panics_with msg (three_ops ws) s.
Proof.
  intros F. destruct (fill_begin s l ∅ 0 [] F ltac:(done)) as (s1 & Q1 & F1 & E1). destruct (fill_begin s1 l ∅ 1 [] F1 ltac:(done)) as (s2 & Q2 & F2 & E2).
  destruct (fill_begin s2 l ∅ 2 [] F2 ltac:(done)) as (s3 & Q3 & F3 & E3). exists s3. split; [done|]. split; [intros k; by rewrite E3, E2, E1, shown_empty|].
  split; intros ws.
  - intros r t Q. do 3 (eapply quiet_bind; [eassumption|]). exact Q.
  - intros msg Hp. do 3 (eapply panics_with_bind; [eassumption|]). exact Hp.
Qed.

(** With more distinct blocks than fit, the first that does not fit is not recorded. *)
Lemma overfull_panics ws : 0 <= dev < 2 ^ 31 -> Forall (fun w => home_block w.1) ws ->
  forall s l P out bl, filling s l P out bl -> 1 <= out -> NoDup (bl ++ ws.*1) -> (Z.to_nat LOGSIZE <= length bl + length ws)%nat ->
  panics_with "too big a transaction" (txn_blocks dev ws) s.
Proof.
  intros Hdev Hws. induction Hws as [|[n dt] ws Hn Hws IH]; intros s l P out bl F Ho Hnd Hlen; cbn [length fmap list_fmap fst] in Hlen, Hnd;
    pose proof (g_len _ _ (it_geom _ _ _ _ _ _ _ _ _ _ (proj1 F))) as HG; [lia|].
  cbn [txn_blocks]. destruct (decide (S (length bl) = Z.to_nat LOGSIZE)) as [Hfull|Hroom].
  - apply panics_with_halt. by eapply full_block_panics.
  - destruct (fill_block s l P out bl n dt Hdev F Ho ltac:(lia) Hn) as (s1 & l1 & Q1 & _ & F1).
    assert (n ∉ bl) as Hin by (apply list.NoDup_app in Hnd as (_ & H & _); intros Hin; apply (H n Hin); by left).
    assert (record_block n bl = bl ++ [n]) as E by (unfold record_block; by rewrite decide_False).
    rewrite E in F1. eapply panics_with_bind; [exact Q1|]. apply (IH s1 l1 _ out (bl ++ [n]) F1 Ho).
    + by rewrite <- app_assoc.
    + rewrite length_app. cbn. lia.
Qed.

(** C36. begin_op admits one block more than the log holds: from any state with a
    consistent buffer cache and an idle log of the size that mkfs lays out
    (LOGSIZE blocks, head included), it admits three operations together, for
    each of which it reserves MAXOPBLOCKS blocks.  If these change fewer than
    LOGSIZE distinct blocks (none in the log), every change is recorded, and read
    as written; but if they change LOGSIZE = 3 * MAXOPBLOCKS distinct blocks,
    log_write panics with the message too big a transaction. *)
Theorem full_log_panics s l ws :
  0 <= dev < 2 ^ 31 -> filling s l ∅ 0 [] -> Forall (fun w => home_block w.1) ws -> NoDup ws.*1 ->
  ((length ws < Z.to_nat LOGSIZE)%nat -> exists s' l' P',
     quiet (three_ops ws) s tt s' /\ filling s' l' P' 3 ws.*1 /\ forall k, shown s' P' k = foldl (txn_put dev) (block_of s) ws k) /\
  (length ws = 3 * Z.to_nat MAXOPBLOCKS -> panics_with "too big a transaction" (three_ops ws) s)%nat.
Proof.
  intros Hdev F Hws Hnd. destruct (three_begin s l F) as (s1 & F1 & E1 & HQ & HP). split.
  - intros Hlen. destruct (fill_blocks ws Hdev Hws s1 l ∅ 3 [] (block_of s) F1 ltac:(lia) Hlen E1) as (s' & l' & P' & Q & _ & F' & Hd).
    rewrite record_distinct in F' by done. exists s', l', P'. split_and!; [by apply HQ|exact F'|exact Hd].
  - intros Hlen. apply HP. apply (overfull_panics ws Hdev Hws s1 l ∅ 3 []); [done|lia|done|]. rewrite Hlen. done.
Qed.
End Full.

(** Thirty blocks on the freshly booted system. *)
Lemma full_log_panics_witness :
  panics_with "too big a transaction" (three_ops (DD := ideal) 0 ((fun k => (Z.of_nat k, wdata)) <$> seq 100 30)) wreboot.
Proof.
  apply (full_log_panics (DD := ideal) 0 0 0 2 wreboot (rev (seq 0 NBUF))).
  - lia.
  - split; [|exists (wlog 0); split; reflexivity].
    split; [apply ac_logs, wcache_ok| |exists (wlog 0)|intros k c d; by rewrite lookup_empty|set_solver].
    + exact (geom_nil (DD := ideal) 2 [100] (co_geom _ _ _ _ _ _ _ _ _ wcommit_ready)).
    + split; [done|]. split; [by split|done|done|done].
  - apply list.Forall_forall. intros w (k & -> & Hk%elem_of_seq)%list_elem_of_fmap. unfold home_block, LOGSIZE, MAXOPBLOCKS. cbn. lia.
  - rewrite <- list_fmap_compose. apply NoDup_fmap_2; [intros x y H; cbn in H; lia|apply NoDup_seq].
  - reflexivity.
Defined.
