(* ===== verification/PipeProofs.v ===== *)
(** * A pipe is a bounded FIFO queue of bytes

    [pipe_bytes p] is what is in the pipe: the bytes from position nread to
    position nwrite, both counters modulo 2^32, in the ring of PIPESIZE bytes. *)
From S2P Require Import Prelude Mem Riscv State Spinlock Kalloc Vm Proc PageTable VmProofs UserCopy ProcProofs SleeplockProofs Pipe.

#[local] Arguments nthZ : simpl never.

Definition pipe_len (p : pipe) : nat := Z.to_nat (u32 (pi_nwrite p - pi_nread p)).
Definition pipe_bytes (p : pipe) : list Z :=
  (fun i => nthZ (pi_data p) ((pi_nread p + Z.of_nat i) mod PIPESIZE)) <$> seq 0 (pipe_len p).
Record pipe_wf (p : pipe) : Prop := {
  pw_data : length (pi_data p) = Z.to_nat PIPESIZE;
  pw_bytes : Forall is_byte (pi_data p);
  pw_nread : 0 <= pi_nread p < 2 ^ 32;
  pw_nwrite : 0 <= pi_nwrite p < 2 ^ 32;
  pw_len : (pipe_len p <= Z.to_nat PIPESIZE)%nat;
}.

(** ** The ring *)
Lemma length_pipe_bytes p : length (pipe_bytes p) = pipe_len p.
Proof. unfold pipe_bytes. by rewrite length_fmap, length_seq. Qed.
Lemma pipe_full_len p : pipe_wf p -> pipe_full p = bool_decide (pipe_len p = Z.to_nat PIPESIZE).
Proof.
  intros [_ _ H1 H2 H3]. unfold pipe_full, pipe_len, PIPESIZE in *. case_bool_decide as E.
  - apply Z.eqb_eq. sz.
  - apply Z.eqb_neq. sz.
Qed.
Lemma pipe_empty_len p : pipe_wf p -> pipe_empty p = bool_decide (pipe_len p = 0%nat).
Proof.
  intros [_ _ H1 H2 H3]. unfold pipe_empty, pipe_len, PIPESIZE in *. case_bool_decide as E.
  - apply Z.eqb_eq. sz.
  - apply Z.eqb_neq. sz.
Qed.

Lemma nthZ_insert l i j v : (i < length l)%nat -> 0 <= j ->
  nthZ (<[i := v]> l) j = if decide (j = Z.of_nat i) then v else nthZ l j.
Proof.
  intros Hi Hj. unfold nthZ. case_decide as E.
  - subst. rewrite Nat2Z.id. by apply nth_lookup_Some, list_lookup_insert_eq.
  - rewrite !nth_lookup, list_lookup_insert_ne by lia. done.
Qed.

(** Writing a byte into a pipe that is not full. *)
Lemma pipe_put_bytes p ch : pipe_wf p -> (pipe_len p < Z.to_nat PIPESIZE)%nat ->
  pipe_wf (pipe_put ch p) /\ pipe_bytes (pipe_put ch p) = pipe_bytes p ++ [u8 ch].
Proof.
  intros [W1 W2 W3 W4 W5] Hlt. unfold pipe_len in *.
  assert (Hlen : pipe_len (pipe_put ch p) = S (pipe_len p)).
  { unfold pipe_len, PIPESIZE in *. cbn. sz. }
  split.
  - split; [cbn; by rewrite length_insert| |done| |rewrite Hlen; unfold pipe_len; lia].
    + cbn. apply Forall_insert; [done|]. unfold is_byte, u8. change (2 ^ 8) with 256. lia.
    + cbn. unfold u32. lia.
  - unfold pipe_bytes. rewrite Hlen, seq_S, fmap_app. f_equal.
    + apply list_fmap_ext. intros k i Hi. apply lookup_seq in Hi as [-> Hi]. cbn.
      rewrite nthZ_insert; [|rewrite W1; unfold PIPESIZE; lia|unfold PIPESIZE; lia].
      rewrite decide_False; [done|]. unfold pipe_len, PIPESIZE in *. sz.
    + cbn. rewrite nthZ_insert; [|rewrite W1; unfold PIPESIZE; lia|unfold PIPESIZE; lia].
      rewrite decide_True; [done|]. unfold pipe_len, PIPESIZE in *. sz.
Qed.
(** Reading one from a pipe that is not empty. *)
Lemma pipe_pop_bytes p : pipe_wf p -> pipe_len p <> 0%nat ->
  pipe_wf (pipe_pop p) /\ pipe_bytes p = pipe_head p :: pipe_bytes (pipe_pop p) /\ is_byte (pipe_head p).
Proof.
  intros [W1 W2 W3 W4 W5] Hlt. unfold pipe_len in *.
  assert (Hlen : pipe_len p = S (pipe_len (pipe_pop p))).
  { unfold pipe_len, PIPESIZE in *. cbn. sz. }
  split_and!.
  - split; [done|done| |done|unfold pipe_len in *; lia]. cbn. unfold u32. lia.
  - unfold pipe_bytes. rewrite Hlen. cbn [seq fmap list_fmap]. f_equal.
    + unfold pipe_head. do 2 f_equal. lia.
    + rewrite <- fmap_S_seq, <- list_fmap_compose. apply list_fmap_ext. intros k i _. cbn.
      f_equal. unfold PIPESIZE. sz.
  - unfold pipe_head, nthZ. destruct (lookup_lt_is_Some_2 (pi_data p) (Z.to_nat (pi_nread p mod PIPESIZE))) as [b Hb].
    { rewrite W1. unfold PIPESIZE. lia. }
    rewrite (nth_lookup_Some _ _ _ _ Hb). by eapply (list.Forall_lookup_1 is_byte).
Qed.

Definition puts (bs : list Z) (p : pipe) : pipe := foldl (fun p b => pipe_put b p) p bs.
Lemma puts_bytes bs : forall p, pipe_wf p -> (pipe_len p + length bs <= Z.to_nat PIPESIZE)%nat ->
  pipe_wf (puts bs p) /\ pipe_bytes (puts bs p) = pipe_bytes p ++ (u8 <$> bs).
Proof.
  induction bs as [|b bs IH]; intros p W Hl; [by rewrite app_nil_r|]. cbn in Hl.
  destruct (pipe_put_bytes p b W) as [W1 E1]; [lia|].
  destruct (IH (pipe_put b p) W1) as [W2 E2].
  { rewrite <- length_pipe_bytes, E1, length_app, length_pipe_bytes. cbn. lia. }
  split; [done|]. change (puts (b :: bs) p) with (puts bs (pipe_put b p)). by rewrite E2, E1, <- app_assoc.
Qed.

(** ** pipewrite *)
Lemma map_alter_Some {A} (f : A -> A) (m : gmap Z A) i x : m !! i = Some x -> alter f i m = <[i := f x]> m.
Proof.
  intros H. apply map_eq. intros j. destruct (decide (i = j)) as [<-|].
  - by rewrite lookup_alter_eq, H, lookup_insert_eq.
  - by rewrite lookup_alter_ne, lookup_insert_ne.
Qed.
Definition set_pipe (pi : Z) (p : pipe) (s : kstate) : kstate := set_k_pipes (<[pi := p]> (k_pipes s)) s.
Lemma quiet_get_pipe s pi p : k_pipes s !! pi = Some p -> quiet (get_pipe pi) s p s.
Proof. intros H. eapply quiet_bind; [apply quiet_reads, _|]. rewrite H. apply quiet_ret. Qed.
Lemma get_pipe_eq s pi p env : k_pipes s !! pi = Some p -> get_pipe pi s env = Done p s env.
Proof. intros H. unfold get_pipe, gets, mbind, M_bind, reads. by rewrite H. Qed.
Lemma quiet_upd_pipe {B} pi f p (k : unit -> M B) s b s2 :
  k_pipes s !! pi = Some p -> quiet (k tt) (set_pipe pi (f p) s) b s2 -> quiet (upd_pipe pi f ≫= k) s b s2.
Proof.
  intros Hp Hk. eapply quiet_bind; [apply quiet_modify, _|]. by rewrite (map_alter_Some _ _ _ _ Hp).
Qed.
Lemma set_pipe_twice pi p q s : set_pipe pi p (set_pipe pi q s) = set_pipe pi p s.
Proof. unfold set_pipe, set_k_pipes. cbn. f_equal. apply insert_insert_eq. Qed.
Lemma set_pipe_same pi p s : k_pipes s !! pi = Some p -> set_pipe pi p s = s.
Proof. intros H. unfold set_pipe. rewrite insert_id by done. by destruct s. Qed.

Section PipeProofs.
Context `{LD : Linker}.

Lemma quiet_copyin1 s pt va : pt_wf (k_mem s) pt -> 0 <= va ->
  (umapped (k_mem s) pt va /\ quiet (copyin pt va 1) s (0, [getb (k_mem s) (uaddr (k_mem s) pt va)]) s) \/
  (~ umapped (k_mem s) pt va /\ exists bs, quiet (copyin pt va 1) s (-1, bs) s).
Proof.
  intros Hw Hv. destruct (copyin_loop_spec (copy_fuel 1) s pt va 1 []) as (r & bs & Hq & [(-> & Hm & ->)|(-> & k & Hk & Hn & _)]);
    [done|done|lia|by apply enough_start|..].
  - left. split; [replace va with (va + 0) by lia; apply Hm; lia|].
    unfold copyin. replace (ubytes (k_mem s) pt va (Z.to_nat 1)) with [getb (k_mem s) (uaddr (k_mem s) pt va)] in Hq;
      [exact Hq|]. unfold ubytes. change (seq 0 (Z.to_nat 1)) with [0%nat]. cbn [fmap list_fmap].
      change (Z.of_nat 0) with 0. by rewrite Z.add_0_r.
  - right. replace (va + k) with va in Hn by lia. split; [done|]. by exists bs.
Qed.

(** The loop of pipewrite, when there is room: it takes bytes up to the first
    that is not mapped. *)
Lemma quiet_pipewrite_loop pi pt n : forall s p addr,
  k_pipes s !! pi = Some p -> pipe_wf p -> (pipe_len p + n <= Z.to_nat PIPESIZE)%nat ->
  pt_wf (k_mem s) pt -> 0 <= addr ->
  exists k, (k <= n)%nat /\
    (forall i, 0 <= i < Z.of_nat k -> umapped (k_mem s) pt (addr + i)) /\
    (k = n \/ ~ umapped (k_mem s) pt (addr + Z.of_nat k)) /\
    quiet (pipewrite_loop pi pt addr n) s true (set_pipe pi (puts (ubytes (k_mem s) pt addr k) p) s).
Proof.
  induction n as [|n IH]; intros s p addr Hp W Hroom Hpt Ha.
  { exists 0%nat. split_and!; [lia|lia|by left|]. cbn. rewrite set_pipe_same by done. apply quiet_ret. }
  cbn [pipewrite_loop].
  assert (Hwait : quiet (waiting (pipewrite_wait pi)) s true s).
  { eapply (quiet_waiting _ (mret true)); [|apply quiet_ret]. intros m lk env. cbn [pipewrite_wait].
    unfold mbind, M_bind. rewrite (get_pipe_eq _ _ p) by done.
    rewrite pipe_full_len by done. by rewrite bool_decide_eq_false_2 by lia. }
  destruct (quiet_copyin1 s pt addr Hpt Ha) as [[Hm Hq]|[Hm [bs Hq]]].
  - set (b := getb (k_mem s) (uaddr (k_mem s) pt addr)) in *. set (s1 := set_pipe pi (pipe_put b p) s).
    destruct (pipe_put_bytes p b W) as [W1 E1]; [lia|].
    assert (Hl1 : (pipe_len (pipe_put b p) + n <= Z.to_nat PIPESIZE)%nat).
    { rewrite <- length_pipe_bytes, E1, length_app, length_pipe_bytes. cbn. lia. }
    assert (Hu : u64 (addr + 1) = addr + 1).
    { pose proof (umapped_max _ _ _ Hm). pose proof (PGROUNDDOWN_range addr). unfold MAXVA, PGSIZE in *.
      change (Z.shiftl 1 (9 + 9 + 9 + 12 - 1)) with 274877906944 in *. sz. }
    destruct (IH s1 (pipe_put b p) (addr + 1)) as (k & Hk & Hmap & Hend & Hqk);
      [unfold s1; cbn; by rewrite lookup_insert_eq|done|done|done|lia|].
    exists (S k). split_and!; [lia| | |].
    + intros i Hi. destruct (decide (i = 0)) as [->|]; [by rewrite Z.add_0_r|].
      replace (addr + i) with (addr + 1 + (i - 1)) by lia. apply Hmap. lia.
    + replace (addr + Z.of_nat (S k)) with (addr + 1 + Z.of_nat k) by lia.
      destruct Hend as [->|Hend]; [by left|by right].
    + eapply quiet_bind; [exact Hwait|]. cbn [negb]. eapply quiet_bind; [exact Hq|].
      cbn [fst snd Z.eqb chr]. eapply quiet_upd_pipe; [done|]. rewrite Hu. unfold s1 in Hqk. rewrite set_pipe_twice in Hqk.
      change (S k) with (1 + k)%nat. rewrite ubytes_app.
      unfold ubytes at 1. cbn [seq fmap list_fmap]. change (Z.of_nat 0) with 0. change (Z.of_nat 1) with 1.
      rewrite Z.add_0_r. exact Hqk.
  - exists 0%nat. split_and!; [lia|lia|right; by rewrite Z.add_0_r|]. cbn [ubytes seq fmap list_fmap puts foldl].
    unfold ubytes. cbn. rewrite set_pipe_same by done.
    eapply quiet_bind; [exact Hwait|]. cbn [negb]. eapply quiet_bind; [exact Hq|]. apply quiet_ret.
Qed.

(** ** piperead *)
Lemma quiet_copyout1 s pt va ch : user_wf (k_mem s) pt -> 0 <= va ->
  exists r m', quiet (copyout pt va [ch] 1) s r (set_k_mem m' s) /\
  (forall a, is_node (k_mem s) pt a -> same_page (k_mem s) m' a) /\
  ((r = 0 /\ umapped (k_mem s) pt va /\ copied (k_mem s) m' pt va [ch]) \/
   (r = -1 /\ ~ umapped (k_mem s) pt va /\ m' = k_mem s)).
Proof.
  intros Hw Hv. unfold copyout.
  destruct (copyout_loop_spec (copy_fuel 1) s pt va [ch] 1) as (r & m' & Hq & Hs & Hr);
    [done|done|done|by apply enough_start|].
  destruct Hr as [(-> & Hm & Hc)|(-> & k & Hk & Hn & _)].
  - exists 0, m'. split_and!; [done|done|]. left. split_and!; [done| |done].
    replace va with (va + 0) by lia. apply Hm. lia.
  - replace (va + k) with va in Hn by lia. exists (-1), (k_mem s). split_and!; [|done|by right].
    change (set_k_mem (k_mem s) s) with s. destruct (copy_fuel 1) as [|fuel] eqn:Ef; [by vm_compute in Ef|].
    cbn [copyout_loop]. change (negb (0 <? 1)) with false. cbv iota.
    eapply quiet_bind; [apply quiet_walkaddr; [apply Hw|by apply down_nonneg]|].
    unfold umapped in Hn. destruct (upage (k_mem s) pt (PGROUNDDOWN va) =? 0) eqn:E; [apply quiet_ret|].
    apply Z.eqb_neq in E. done.
Qed.

(** The loop of piperead: it delivers bytes in order until the pipe is empty,
    [n] have been delivered, or a destination is not mapped; in the last case
    one more byte has been taken out. *)
Definition read_result (s : kstate) (pt addr : Z) (n : nat) (p p' : pipe) (m' : mem) (k : nat) : Prop :=
  pipe_wf p' /\ (k <= n)%nat /\ (k <= pipe_len p)%nat /\
  (forall i, 0 <= i < Z.of_nat k -> umapped (k_mem s) pt (addr + i)) /\
  copied (k_mem s) m' pt addr (take k (pipe_bytes p)) /\
  ((k = n \/ k = pipe_len p) /\ pipe_bytes p' = drop k (pipe_bytes p) \/
   ~ umapped (k_mem s) pt (addr + Z.of_nat k) /\ pipe_bytes p' = drop (S k) (pipe_bytes p)).

Lemma quiet_piperead_loop pi pt n : forall s p addr i,
  k_pipes s !! pi = Some p -> pipe_wf p -> user_wf (k_mem s) pt -> 0 <= addr ->
  exists k p' m', read_result s pt addr n p p' m' k /\
    quiet (piperead_loop pi pt addr i n) s (i + Z.of_nat k) (set_pipe pi p' (set_k_mem m' s)).
Proof.
  induction n as [|n IH]; intros s p addr i Hp W Hu Ha.
  { exists 0%nat, p, (k_mem s). rewrite Z.add_0_r. split.
    - split_and!; [done|lia|lia|lia|apply copied_nil|]. left. split; [by left|done].
    - change (set_k_mem (k_mem s) s) with s. rewrite set_pipe_same by done. apply quiet_ret. }
  cbn [piperead_loop]. destruct (decide (pipe_len p = 0%nat)) as [E0|E0].
  { exists 0%nat, p, (k_mem s). rewrite Z.add_0_r. split.
    - split_and!; [done|lia|lia|lia|apply copied_nil|]. left. split; [by right|done].
    - change (set_k_mem (k_mem s) s) with s. rewrite set_pipe_same by done.
      eapply quiet_bind; [by apply quiet_get_pipe|]. rewrite pipe_empty_len by done.
      rewrite bool_decide_eq_true_2 by done. apply quiet_ret. }
  destruct (pipe_pop_bytes p W E0) as (W1 & E1 & Hb). set (ch := pipe_head p) in *.
  set (s1 := set_pipe pi (pipe_pop p) s).
  assert (Hl : pipe_len p = S (pipe_len (pipe_pop p))).
  { by rewrite <- !length_pipe_bytes, E1. }
  destruct (quiet_copyout1 s1 pt addr ch Hu Ha) as (r & m1 & Hq & Hs & [(-> & Hm & Hc)|(-> & Hn & ->)]);
    change (k_mem s1) with (k_mem s) in *.
  - assert (Hu64 : u64 (addr + 1) = addr + 1).
    { pose proof (umapped_max _ _ _ Hm). pose proof (PGROUNDDOWN_range addr). unfold MAXVA, PGSIZE in *.
      change (Z.shiftl 1 (9 + 9 + 9 + 12 - 1)) with 274877906944 in *. sz. }
    set (s2 := set_k_mem m1 s1).
    assert (Hup : forall va, upage m1 pt va = upage (k_mem s) pt va) by by apply upage_frame.
    assert (Hum : forall va, umapped m1 pt va <-> umapped (k_mem s) pt va) by (intros va; unfold umapped; by rewrite Hup).
    destruct (IH s2 (pipe_pop p) (addr + 1) (i + 1)) as (k & p' & m' & (R1 & R2 & R3 & R4 & R5 & R6) & Qk);
      [cbn; by rewrite lookup_insert_eq|done|by apply (user_wf_frame (k_mem s) m1)|lia|].
    change (k_mem s2) with m1 in *.
    assert (Hmap : forall j, 0 <= j < Z.of_nat (S k) -> umapped (k_mem s) pt (addr + j)).
    { intros j Hj. destruct (decide (j = 0)) as [->|]; [by rewrite Z.add_0_r|].
      replace (addr + j) with (addr + 1 + (j - 1)) by lia. apply Hum, R4. lia. }
    exists (S k), p', m'. split.
    + split_and!; [done|lia|lia|done| |].
      * rewrite E1. cbn [take]. change (ch :: ?l) with ([ch] ++ l).
        apply (copied_trans _ m1); [done|done| |done|done].
        intros j Hj. apply Hmap. rewrite length_take, length_pipe_bytes in Hj. cbn in Hj. lia.
      * replace (addr + Z.of_nat (S k)) with (addr + 1 + Z.of_nat k) by lia. rewrite E1. cbn [drop].
        destruct R6 as [[R6 R7]|[R6 R7]]; [left; split; [lia|done]|right; split; [by rewrite <- Hum|done]].
    + eapply quiet_bind; [by apply quiet_get_pipe|]. rewrite pipe_empty_len by done.
      rewrite bool_decide_eq_false_2 by done. cbv zeta. eapply quiet_upd_pipe; [done|].
      eapply quiet_bind; [exact Hq|]. cbn [Z.eqb]. rewrite Hu64.
      replace (i + Z.of_nat (S k)) with (i + 1 + Z.of_nat k) by lia.
      replace (set_pipe pi p' (set_k_mem m' s)) with (set_pipe pi p' (set_k_mem m' s2)); [exact Qk|].
      unfold s2, s1, set_pipe, set_k_mem, set_k_pipes. cbn. f_equal. apply insert_insert_eq.
  - exists 0%nat, (pipe_pop p), (k_mem s). rewrite Z.add_0_r. split.
    + split_and!; [done|lia|lia|lia|apply copied_nil|]. right. rewrite Z.add_0_r. split; [done|]. by rewrite E1.
    + eapply quiet_bind; [by apply quiet_get_pipe|]. rewrite pipe_empty_len by done.
      rewrite bool_decide_eq_false_2 by done. cbv zeta. eapply quiet_upd_pipe; [done|].
      eapply quiet_bind; [exact Hq|]. apply quiet_ret.
Qed.

(** ** The system calls' view *)
Record pipe_ctx (s : kstate) (i : nat) (pr : proc) (pi : Z) (p : pipe) : Prop := {
  pc_ready : forall l, ready s l;
  pc_procs : length (k_procs s) = NPROC;
  pc_current : current s i;
  pc_proc : k_procs s !! i = Some pr;
  pc_pipe : k_pipes s !! pi = Some p;
  pc_wf : pipe_wf p;
}.
Lemma hquiet_wakeup_release {A} l c s (a : A) :
  (forall l, ready s l) -> length (k_procs s) = NPROC -> (forall i, l <> Lproc i) ->
  hquiet l (wakeup c ;; release l ;; mret a) s a (set_k_procs (wake c <$> k_procs s) s).
Proof.
  intros Hr Hp Hl. eapply (hquiet_bind _ _ _ _ tt (set_k_procs (wake c <$> k_procs s) s)); [done|done| |].
  - apply (quiet_wakeup c (taken l s)). apply procs_ready_taken; [done|]. split; [done|]. intros j _. apply Hr.
  - apply hquiet_release; [apply (Hr l)|apply quiet_ret].
Qed.

(** C18. Writing to a pipe with room for all [n] bytes never waits: pipewrite
    appends the process's bytes, in order, to what is in the pipe, up to the
    first one that is not mapped, wakes the readers, and returns [n]. *)
Theorem pipewrite_appends s i pr pi p addr n :
  pipe_ctx s i pr pi p -> 0 <= n -> 0 <= addr -> pt_wf (k_mem s) (p_pagetable pr) ->
  (pipe_len p + Z.to_nat n <= Z.to_nat PIPESIZE)%nat ->
  exists k p', (k <= Z.to_nat n)%nat /\
    (forall j, 0 <= j < Z.of_nat k -> umapped (k_mem s) (p_pagetable pr) (addr + j)) /\
    (k = Z.to_nat n \/ ~ umapped (k_mem s) (p_pagetable pr) (addr + Z.of_nat k)) /\
    quiet (pipewrite pi addr n) s n (set_k_procs (wake (CPipeR pi) <$> k_procs s) (set_pipe pi p' s)) /\
    pipe_wf p' /\ pipe_bytes p' = pipe_bytes p ++ (u8 <$> ubytes (k_mem s) (p_pagetable pr) addr k).
Proof.
  intros [C1 C2 C3 C4 C5 C6] Hn Ha Hpt Hroom.
  destruct (quiet_pipewrite_loop pi (p_pagetable pr) (Z.to_nat n) (taken (Lpipe pi) s) p addr C5 C6 Hroom Hpt Ha)
    as (k & Hk & Hm & He & Hq).
  set (p' := puts (ubytes (k_mem s) (p_pagetable pr) addr k) p).
  destruct (puts_bytes (ubytes (k_mem s) (p_pagetable pr) addr k) p C6) as [W E].
  { rewrite length_ubytes. lia. }
  exists k, p'. split_and!; [done|done|done| |done|done].
  unfold pipewrite. eapply quiet_bind; [by apply quiet_myproc|]. apply quiet_acquire; [done|].
  eapply hquiet_get_proc; [exact C4|].
  eapply (hquiet_bind _ _ _ s true (set_pipe pi p' s)); [done|done|exact Hq|]. cbn [negb].
  by apply (hquiet_wakeup_release (Lpipe pi) (CPipeR pi) (set_pipe pi p' s) n).
Qed.

(** C17. Reading from a pipe that has bytes, or whose writers are gone, never
    waits: piperead delivers the oldest bytes in order to the process's memory
    and removes them, until [n] are delivered or the pipe is empty, wakes the
    writers and returns how many it delivered (0 at end of file); if it meets an
    address that is not mapped, it stops there and the byte it was about to
    deliver is lost. *)
Theorem piperead_takes s i pr pi p addr n :
  pipe_ctx s i pr pi p -> 0 <= n -> 0 <= addr -> user_wf (k_mem s) (p_pagetable pr) ->
  pipe_len p <> 0%nat \/ pi_writeopen p = 0 ->
  exists k p' m', read_result s (p_pagetable pr) addr (Z.to_nat n) p p' m' k /\
    quiet (piperead pi addr n) s (Z.of_nat k)
      (set_k_procs (wake (CPipeW pi) <$> k_procs s) (set_pipe pi p' (set_k_mem m' s))).
Proof.
  intros [C1 C2 C3 C4 C5 C6] Hn Ha Hu Hor.
  destruct (quiet_piperead_loop pi (p_pagetable pr) (Z.to_nat n) (taken (Lpipe pi) s) p addr 0 C5 C6 Hu Ha)
    as (k & p' & m' & Hr & Hq).
  exists k, p', m'. split; [exact Hr|].
  unfold piperead. eapply quiet_bind; [by apply quiet_myproc|]. apply quiet_acquire; [done|].
  eapply hquiet_same.
  { eapply (quiet_waiting _ (mret true)); [|apply quiet_ret]. intros m lk env. cbn [piperead_wait].
    unfold mbind, M_bind. rewrite (get_pipe_eq _ _ p) by done. rewrite pipe_empty_len by done.
    destruct Hor as [H| ->]; [by rewrite bool_decide_eq_false_2|by rewrite andb_false_r]. }
  cbn [negb]. eapply hquiet_get_proc; [exact C4|].
  eapply (hquiet_bind _ _ _ s (Z.of_nat k) (set_pipe pi p' (set_k_mem m' s))); [done|done|exact Hq|].
  by apply (hquiet_wakeup_release (Lpipe pi) (CPipeW pi) (set_pipe pi p' (set_k_mem m' s)) (Z.of_nat k)).
Qed.
End PipeProofs.

(** ** A pipe whose counters are about to wrap *)
Definition wpipe : pipe := mk_pipe (replicate 512 0) (2 ^ 32 - 1) (2 ^ 32 - 1) 1 1.
Lemma wpipe_wf : pipe_wf wpipe.
Proof.
  split; [done| |done|done|vm_compute; lia]. apply Forall_replicate. unfold is_byte. lia.
Qed.
Definition wpipe_state (m : mem) (p : pipe) : kstate :=
  set_k_pipes {[ 0 := p ]} (set_k_mem m
    (set_k_procs (<[0%nat := set_p_pagetable wroot proc0]> (k_procs kstate0))
      (set_k_lk (set_l_cpus (replicate NCPU (mk_cpu (Some 0%nat) 0 0)) lkstate0) kstate0))).
Lemma wpipe_ctx m p : pipe_wf p -> pipe_ctx (wpipe_state m p) 0 (set_p_pagetable wroot proc0) 0 p.
Proof.
  intros W. assert (Hh : hart_ok (k_lk (wpipe_state m p)) (k_hart (wpipe_state m p))).
  { exists (mk_cpu (Some 0%nat) 0 0), 0. split_and!; [done..|]. by intros []. }
  split; [by intros l|done| |done|done|done]. split; [done|by exists (mk_cpu (Some 0%nat) 0 0)].
Qed.

Lemma pipewrite_appends_witness :
  exists m s' p', quiet (pipewrite 0 0x1000 3) (wpipe_state m wpipe) 3 s' /\ k_pipes s' !! 0 = Some p' /\
    length (pipe_bytes p') = 3%nat.
Proof.
  destruct wmapped as (s & Hw & Hm). exists (k_mem s).
  destruct (pipewrite_appends (LD := linker0) (wpipe_state (k_mem s) wpipe) 0 (set_p_pagetable wroot proc0) 0 wpipe 0x1000 3)
    as (k & p' & Hk & _ & He & Hq & _ & Hb).
  - exact (wpipe_ctx _ _ wpipe_wf).
  - lia.
  - lia.
  - apply Hw.
  - vm_compute. lia.
  - eexists _, p'. split; [exact Hq|]. split; [reflexivity|]. rewrite Hb, length_app, length_fmap, length_ubytes.
    destruct He as [->|He]; [reflexivity|]. exfalso. apply He. apply Hm.
    change (Z.to_nat 3) with 3%nat in Hk. rewrite PGROUNDDOWN_eq. unfold PGSIZE. lia.
Defined.
Lemma piperead_takes_witness :
  exists m p' m', quiet (piperead 0 0x1000 9) (wpipe_state m (pipe_put 7 wpipe)) 1
    (set_k_procs (wake (CPipeW 0) <$> k_procs (wpipe_state m (pipe_put 7 wpipe)))
      (set_pipe 0 p' (set_k_mem m' (wpipe_state m (pipe_put 7 wpipe))))) /\ pipe_bytes p' = [].
Proof.
  destruct wmapped as (s & Hw & Hm). exists (k_mem s).
  destruct (pipe_put_bytes wpipe 7 wpipe_wf) as [W E]; [vm_compute; lia|].
  destruct (piperead_takes (LD := linker0) (wpipe_state (k_mem s) (pipe_put 7 wpipe)) 0 (set_p_pagetable wroot proc0) 0 (pipe_put 7 wpipe) 0x1000 9)
    as (k & p' & m' & (_ & Hk1 & Hk2 & _ & _ & Hr) & Hq).
  - exact (wpipe_ctx _ _ W).
  - lia.
  - lia.
  - exact Hw.
  - left. vm_compute. lia.
  - change (pipe_len (pipe_put 7 wpipe)) with 1%nat in *. change (Z.to_nat 9) with 9%nat in *.
    destruct Hr as [[[Hr|Hr] Hb]|[Hr _]]; [lia| |].
    + subst k. exists p', m'. split; [exact Hq|]. rewrite Hb, E. reflexivity.
    + exfalso. apply Hr, Hm. rewrite PGROUNDDOWN_eq. unfold PGSIZE. lia.
Defined.
