(* ===== verification/SleepConc.v ===== *)
(** * sleep and wakeup on two harts: no wakeup is lost

    One process waits for a condition protected by a spinlock, the way every
    caller of sleep does (acquiresleep, piperead, begin_op, ...):

      acquire(lk); while(!cond) sleep(chan, lk); ... release(lk)

    while a thread on another hart makes the condition true and wakes it, the
    way every caller of wakeup does (releasesleep, pipewrite, end_op, ...):

      acquire(lk); cond = 1; wakeup(chan); release(lk)

    A step is one of the shared-memory operations of kernel/proc.c's sleep,
    sched, scheduler and wakeup; spinlocks are taken by one thread at a time. *)
From S2P Require Import Prelude Mem State Proc.

(** Who holds a lock. *)
Inductive thread := Sleeper | Waker.
#[export] Instance thread_eq_dec : EqDecision thread.
Proof. solve_decision. Defined.

(** Where the sleeper is. *)
Inductive spc :=
  | SAcquire    (** acquire(lk) *)
  | STest       (** while(!cond) *)
  | SAcqProc    (** sleep: acquire(&p->lock) *)
  | SRelLk      (** sleep: release(lk) *)
  | SMark       (** sleep: p->chan = chan; p->state = SLEEPING *)
  | SSwitch     (** sched(): swtch to the scheduler, which releases p->lock *)
  | SOff        (** off the hart *)
  | SResumed    (** back in sleep, holding p->lock: p->chan = 0; release(&p->lock) *)
  | SReturned.  (** the loop is left with lk held *)
(** Where the waker is. *)
Inductive wpc :=
  | WAcquire | WSet | WAcqProc | WWake | WRelProc | WRelLk | WDone.
#[export] Instance spc_eq_dec : EqDecision spc.
Proof. solve_decision. Defined.
#[export] Instance wpc_eq_dec : EqDecision wpc.
Proof. solve_decision. Defined.

Record sw := mk_sw {
  w_lk : option thread;      (** lk *)
  w_pl : option thread;      (** p->lock *)
  w_cond : bool;
  w_state : procstate;
  w_chan : bool;             (** p->chan == chan *)
  w_s : spc;
  w_w : wpc;
}.
Definition sw0 : sw := mk_sw None None false RUNNING false SAcquire WAcquire.

(** One operation of one of the threads. *)
Inductive swstep : sw -> sw -> Prop :=
  | s_acquire pl c st ch w :
      swstep (mk_sw None pl c st ch SAcquire w) (mk_sw (Some Sleeper) pl c st ch STest w)
  | s_test lk pl (c : bool) st ch w :
      swstep (mk_sw lk pl c st ch STest w) (mk_sw lk pl c st ch (if c then SReturned else SAcqProc) w)
  | s_acqproc lk c st ch w :
      swstep (mk_sw lk None c st ch SAcqProc w) (mk_sw lk (Some Sleeper) c st ch SRelLk w)
  | s_rellk lk pl c st ch w :
      swstep (mk_sw lk pl c st ch SRelLk w) (mk_sw None pl c st ch SMark w)
  | s_mark lk pl c st ch w :
      swstep (mk_sw lk pl c st ch SMark w) (mk_sw lk pl c SLEEPING true SSwitch w)
  | s_switch lk pl c st ch w :
      swstep (mk_sw lk pl c st ch SSwitch w) (mk_sw lk None c st ch SOff w)
  | s_resume lk c ch w :
      swstep (mk_sw lk None c RUNNABLE ch SOff w) (mk_sw lk (Some Sleeper) c RUNNING ch SResumed w)
  | s_return lk pl c st ch w :
      swstep (mk_sw lk pl c st ch SResumed w) (mk_sw lk None c st false SAcquire w)
  | w_acquire pl c st ch s :
      swstep (mk_sw None pl c st ch s WAcquire) (mk_sw (Some Waker) pl c st ch s WSet)
  | w_set lk pl c st ch s :
      swstep (mk_sw lk pl c st ch s WSet) (mk_sw lk pl true st ch s WAcqProc)
  | w_acqproc lk c st ch s :
      swstep (mk_sw lk None c st ch s WAcqProc) (mk_sw lk (Some Waker) c st ch s WWake)
  | w_wake lk pl c st (ch : bool) s :
      swstep (mk_sw lk pl c st ch s WWake)
        (mk_sw lk pl c (if bool_decide (st = SLEEPING) && ch then RUNNABLE else st) ch s WRelProc)
  | w_relproc lk pl c st ch s :
      swstep (mk_sw lk pl c st ch s WRelProc) (mk_sw lk None c st ch s WRelLk)
  | w_rellk lk pl c st ch s :
      swstep (mk_sw lk pl c st ch s WRelLk) (mk_sw None pl c st ch s WDone).
Definition swreach : sw -> Prop := rtc swstep sw0.

(** ** The invariant *)
Definition s_holds_lk (p : spc) : bool :=
  match p with STest | SAcqProc | SRelLk | SReturned => true | _ => false end.
Definition s_holds_pl (p : spc) : bool :=
  match p with SRelLk | SMark | SSwitch | SResumed => true | _ => false end.
Definition w_holds_lk (p : wpc) : bool :=
  match p with WAcquire | WDone => false | _ => true end.
Definition w_holds_pl (p : wpc) : bool := match p with WWake | WRelProc => true | _ => false end.
(** The waker has looked at the sleeper. *)
Definition w_looked (p : wpc) : bool := match p with WRelProc | WRelLk | WDone => true | _ => false end.

Record sw_inv (x : sw) : Prop := {
  si_lk : match w_lk x with
          | Some Sleeper => s_holds_lk (w_s x) = true /\ w_holds_lk (w_w x) = false
          | Some Waker => w_holds_lk (w_w x) = true /\ s_holds_lk (w_s x) = false
          | None => s_holds_lk (w_s x) = false /\ w_holds_lk (w_w x) = false end;
  si_pl : match w_pl x with
          | Some Sleeper => s_holds_pl (w_s x) = true /\ w_holds_pl (w_w x) = false
          | Some Waker => w_holds_pl (w_w x) = true /\ s_holds_pl (w_s x) = false
          | None => s_holds_pl (w_s x) = false /\ w_holds_pl (w_w x) = false end;
  si_cond : w_cond x = match w_w x with WAcquire | WSet => false | _ => true end;
  (* a sleeper past its test, but not yet back, has not seen the condition *)
  si_sleep : match w_s x with
             | SSwitch | SOff => w_chan x = true /\
                 (w_state x = SLEEPING /\ w_looked (w_w x) = false \/ w_state x = RUNNABLE)
             | SAcqProc | SRelLk | SMark => w_looked (w_w x) = false /\ w_state x = RUNNING
             | _ => w_state x = RUNNING end;
  (* the switch happens before anyone can wake it *)
  si_switch : w_s x = SSwitch -> w_state x = SLEEPING;
  (* past the test the condition was false under lk *)
  si_test : match w_s x with SAcqProc | SRelLk => w_cond x = false | _ => True end;
}.

Lemma sw_inv_init : sw_inv sw0.
Proof. by split; cbn. Qed.
Lemma sw_inv_step x y : sw_inv x -> swstep x y -> sw_inv y.
Proof.
  intros [I1 I2 I3 I4 I5 I6] H. destruct H; cbn in *.
  all: try (destruct lk as [[]|]); try (destruct pl as [[]|]); try destruct s; try destruct w;
    cbn in *; try (destruct c); try tauto; try naive_solver; destruct_and?; try discriminate.
  all: split; cbn in *; try tauto; try naive_solver; subst; try discriminate.
Qed.
Lemma swreach_inv x : swreach x -> sw_inv x.
Proof.
  unfold swreach. intros H. cut (forall y z, rtc swstep y z -> sw_inv y -> sw_inv z).
  { intros Hc. eapply Hc; [exact H|apply sw_inv_init]. }
  induction 1 as [|a b c Hab _ IH]; [done|]. intros Ha. apply IH. by eapply sw_inv_step.
Qed.

(** How far the sleeper is from returning once it has been woken. *)
Definition to_return (p : spc) : nat :=
  match p with SOff => 4 | SResumed => 3 | SAcquire => 2 | STest => 1 | SReturned => 0 | _ => 5 end%nat.

(** C5. No wakeup is lost: however the operations of sleep and wakeup on two
    harts interleave, once the waker has made the condition true and returned
    from wakeup and released the lock, the process is not asleep, and while it
    is off the hart it is runnable. *)
Theorem no_lost_wakeup x :
  swreach x -> w_w x = WDone -> w_state x <> SLEEPING /\ (w_s x = SOff -> w_state x = RUNNABLE).
Proof.
  intros [I1 I2 I3 I4 I5 I6]%swreach_inv Hw. destruct x as [lk pl c st ch s w]; cbn in *.
  subst w. destruct s; cbn in *; intuition congruence.
Qed.
(** An interleaving in which the waker runs while the process is asleep. *)
Lemma no_lost_wakeup_witness : exists x, swreach x /\ w_w x = WDone /\ w_s x = SOff /\ w_state x = RUNNABLE.
Proof.
  set (x := mk_sw None None true RUNNABLE true SOff WDone).
  assert (H : swreach x).
  { repeat (eapply rtc_l; [first [apply s_acquire | apply (s_test _ _ false) | apply s_acqproc | apply s_rellk
      | apply s_mark | apply s_switch | apply w_acquire | apply w_set | apply w_acqproc | apply w_wake
      | apply w_relproc | apply w_rellk]|]; cbn).
    apply rtc_refl. }
  exists x. destruct (no_lost_wakeup x H eq_refl) as [_ H2].
  split; [exact H|]. split; [reflexivity|]. split; [reflexivity|exact (H2 eq_refl)].
Defined.

(** C38. The wakeup is delivered: from then on the waiting process can always
    take a step until its loop is left with the lock held, and every step brings
    it nearer, so that it returns from the wait after at most four of them. *)
Theorem wakeup_delivered x :
  swreach x -> w_w x = WDone ->
  (to_return (w_s x) <= 4)%nat /\ (w_s x = SReturned \/ exists y, swstep x y) /\
  forall y, swstep x y -> w_w y = WDone /\ (to_return (w_s y) < to_return (w_s x))%nat.
Proof.
  intros [I1 I2 I3 I4 I5 I6]%swreach_inv Hw. destruct x as [lk pl c st ch s w]; cbn in *. subst w.
  destruct s; cbn in *; destruct_and?; try discriminate; subst c; try specialize (I5 eq_refl).
  all: destruct_or?; destruct_and?; try discriminate; subst; try discriminate.
  all: destruct lk as [[]|], pl as [[]|]; cbn in *; destruct_and?; try discriminate.
  all: split_and!; [lia|first [by left | right; eexists; first [apply s_acquire | apply s_test | apply s_return | apply s_resume]]|].
  all: intros y Hy; inversion Hy; subst; cbn; split; first [done | lia].
Qed.
Lemma wakeup_delivered_witness : exists x, swreach x /\ w_w x = WDone /\ (to_return (w_s x) <= 4)%nat.
Proof.
  set (x := mk_sw None None true RUNNING false SAcquire WDone).
  assert (H : swreach x).
  { repeat (eapply rtc_l; [first [apply w_acquire | apply w_set | apply w_acqproc | apply w_wake
      | apply w_relproc | apply w_rellk]|]; cbn).
    apply rtc_refl. }
  exists x. destruct (wakeup_delivered x H eq_refl) as [H2 _].
  split; [exact H|]. split; [reflexivity|exact H2].
Defined.
