(* ===== verification/FsProofs.v ===== *)
(** * Path names, on-disk inodes and the block bitmap: theorems *)
From S2P Require Import Prelude Mem Riscv State Spinlock Kalloc Vm Proc Sleeplock Bio Log Fs.

(** ** Path names *)
(** The reference: the maximal runs of characters other than '/', in order. *)
Fixpoint split_path (cur : list Z) (path : list Z) : list (list Z) :=
  match path with
  | [] => [rev cur]
  | c :: t => if c =? slash then rev cur :: split_path [] t else split_path (c :: cur) t
  end.
Definition components (path : list Z) : list (list Z) :=
  List.filter (fun e => negb (bool_decide (e = []))) (split_path [] path).
(** The name a directory entry is compared with: at most DIRSIZ characters. *)
Definition entry_name (name : list Z) : list Z := cstr (take DIRSIZ name).

Definition no_nul (l : list Z) : Prop := Forall (fun c => c <> 0) l.

Lemma split_cur path : forall cur, split_path cur path =
  match split_path [] path with [] => [] | e :: es => (rev cur ++ e) :: es end.
Proof.
  induction path as [|c t IH]; intros cur; cbn; [by rewrite app_nil_r|].
  destruct (c =? slash); [cbn; by rewrite app_nil_r|]. rewrite (IH (c :: cur)), (IH [c]).
  destruct (split_path [] t); [done|]. cbn. by rewrite <- app_assoc.
Qed.
Lemma components_slash t : components (slash :: t) = components t.
Proof. done. Qed.
Lemma components_skip path : components (skip_slashes path) = components path.
Proof.
  induction path as [|c t IH]; [done|]. cbn [skip_slashes]. bdestr (c =? slash); [subst; by rewrite components_slash|done].
Qed.
Lemma skip_slashes_head path : chr (skip_slashes path) <> slash.
Proof. induction path as [|c t IH]; [done|]. cbn. bdestr (c =? slash); done. Qed.
Lemma skip_slashes_no_nul path : no_nul path -> no_nul (skip_slashes path).
Proof. unfold no_nul. induction 1 as [|c t Hc Ht IH]; [constructor|]. cbn. destruct (c =? slash); [done|by constructor]. Qed.
Lemma skip_slashes_idem path : chr path <> slash -> skip_slashes path = path.
Proof. destruct path as [|c t]; [done|]. cbn. intros H. by rewrite (proj2 (Z.eqb_neq _ _) H). Qed.

Lemma split_nonempty path : forall cur, split_path cur path <> [].
Proof. induction path as [|c t IH]; intros cur; cbn; [done|]. by destruct (c =? slash). Qed.

Lemma take_elem_spec path : no_nul path ->
  exists e rest, take_elem path = (e, rest) /\ path = e ++ rest /\ no_nul rest /\
    Forall (fun c => c <> slash) e /\ (rest = [] \/ exists t, rest = slash :: t).
Proof.
  unfold no_nul. induction 1 as [|c t Hc Ht IH]; [exists [], []; split_and!; [done|done|done|constructor|by left]|].
  cbn. rewrite (proj2 (Z.eqb_neq _ _) Hc), orb_false_r. bdestr (c =? slash).
  - subst. exists [], (slash :: t). split_and!; [done|done|by constructor|constructor|right; by exists t].
  - destruct IH as (e & rest & -> & -> & H1 & H2 & H3). exists (c :: e), rest. split_and!; [done|done|done|by constructor|done].
Qed.
Lemma split_elem e rest : Forall (fun c => c <> slash) e -> (rest = [] \/ exists t, rest = slash :: t) ->
  exists es, split_path [] (e ++ rest) = e :: es /\
    components rest = List.filter (fun e => negb (bool_decide (e = []))) es.
Proof.
  intros He Hr. induction He as [|c e Hc He IH].
  - destruct Hr as [->|[t ->]]; [by exists []|]. exists (split_path [] t). by split.
  - destruct IH as (es & IH & Hcs). exists es. split; [|done]. cbn. rewrite (proj2 (Z.eqb_neq _ _) Hc).
    by rewrite split_cur, IH.
Qed.

Lemma cstr_cons c t : c <> 0 -> cstr (c :: t) = c :: cstr t.
Proof. intros Hc. unfold cstr. cbn. unfold ctrue. by rewrite (proj2 (Z.eqb_neq _ _) Hc). Qed.
Lemma cstr_no_nul l : no_nul l -> cstr l = l.
Proof. unfold no_nul. induction 1 as [|c t Hc Ht IH]; [done|]. by rewrite cstr_cons, IH. Qed.
Lemma cstr_nul l r : no_nul l -> cstr (l ++ 0 :: r) = l.
Proof. unfold no_nul. induction 1 as [|c t Hc Ht IH]; [done|]. cbn [app]. by rewrite cstr_cons, IH. Qed.

(** The name buffer after skipelem. *)
Lemma entry_name_splice name e : length name = DIRSIZ -> no_nul e ->
  let name' := if (DIRSIZ <=? length e)%nat then splice name 0 (take DIRSIZ e) else splice name 0 (e ++ [0]) in
  entry_name name' = take DIRSIZ e /\ length name' = DIRSIZ.
Proof.
  intros Hn He name'. unfold name', entry_name, splice. rewrite !take_0, !app_nil_l, !Nat.add_0_l.
  destruct (Nat.leb_spec DIRSIZ (length e)).
  - rewrite length_take, Nat.min_l by lia. rewrite (drop_ge name) by lia. rewrite app_nil_r.
    rewrite take_take, Nat.min_id, length_take. split; [|lia]. apply cstr_no_nul. by apply Forall_take.
  - rewrite length_app. cbn. split.
    + rewrite take_ge by (rewrite !length_app, length_drop; cbn; lia). rewrite <- app_assoc. cbn.
      rewrite cstr_nul by done. by rewrite take_ge by lia.
    + rewrite !length_app, length_drop. cbn. lia.
Qed.

(** skipelem agrees with splitting the path at slashes: on a path without
    NUL bytes it fails exactly when there are no components left; otherwise the
    name it leaves in the buffer is the first component, cut to DIRSIZ
    characters as directory entries are, the rest of the path has exactly the
    other components, does not start with a slash, and is shorter, so that a
    walk along a path ends. *)
Lemma skipelem_splits path name :
  no_nul path -> length name = DIRSIZ ->
  match components path with
  | [] => skipelem path name = None
  | e :: es => exists rest name', skipelem path name = Some (rest, name') /\
      entry_name name' = take DIRSIZ e /\ length name' = DIRSIZ /\ components rest = es /\
      no_nul rest /\ chr rest <> slash /\ (length rest < length path)%nat
  end.
Proof.
  intros Hp Hn. unfold skipelem. rewrite <- (components_skip path).
  pose proof (skip_slashes_no_nul path Hp) as Hp1. pose proof (skip_slashes_head path) as Hh.
  assert (Hle : forall q, (length (skip_slashes q) <= length q)%nat).
  { induction q as [|c t IH]; [done|]. cbn. destruct (c =? slash); cbn; lia. }
  pose proof (Hle path) as Hl. set (q := skip_slashes path) in *. destruct q as [|c t]; [done|].
  assert (Hc : c <> 0) by (unfold no_nul in Hp1; by apply list.Forall_cons in Hp1 as [? _]). cbn [chr] in *.
  rewrite (proj2 (Z.eqb_neq _ _) Hc).
  destruct (take_elem_spec (c :: t) Hp1) as (e & rest & Ht & Eq & Hr & He & Hrest).
  destruct (split_elem e rest He Hrest) as (es & Hs & Hcs).
  assert (e <> []) as Hne. { intros ->. cbn in Eq. destruct Hrest as [->|[u ->]]; [done|]. by injection Eq as -> _. }
  rewrite Ht. unfold components. rewrite Eq, Hs. cbn. rewrite bool_decide_eq_false_2 by done. cbn.
  assert (Hne0 : no_nul e) by (unfold no_nul in *; rewrite Eq in Hp1; by apply list.Forall_app in Hp1 as [? _]).
  destruct (entry_name_splice name e Hn Hne0) as [E1 E2].
  eexists _, _. split; [reflexivity|]. split_and!; [done|done| |by apply skip_slashes_no_nul|apply skip_slashes_head|].
  - rewrite <- Hcs. apply components_skip.
  - pose proof (Hle rest) as Hlr. apply (f_equal length) in Eq. rewrite length_app in Eq.
    destruct e; [done|]. cbn in *. lia.
Qed.
Lemma skipelem_splits_witness :
  components (zs "///a//bb") = [zs "a"; zs "bb"] /\
  exists rest name', skipelem (zs "///a//bb") (replicate 14 0) = Some (rest, name') /\ rest = zs "bb".
Proof.
  split; [reflexivity|]. pose proof (skipelem_splits (zs "///a//bb") (replicate 14 0)) as H.
  destruct H as (rest & name' & H & _).
  - repeat constructor; discriminate.
  - reflexivity.
  - exists rest, name'. split; [exact H|]. vm_compute in H. injection H as <- _. reflexivity.
Defined.
