(* ===== verification/BallocProofs.v ===== *)
(** * The block allocator: balloc and bfree

    [used sb view b]: block [b] is marked in the bitmap, where [view] gives the
    contents of the blocks as the transaction shows them. *)
From S2P Require Import Prelude Mem Riscv State Spinlock Kalloc Vm Proc ProcProofs Sleeplock SleeplockProofs Bio BioProofs BioSpec Log LogProofs LogCrash Txn Fs PipeProofs.

(** ** Bits of a bitmap block *)
Definition bit (d : list Z) (bi : Z) : bool := Z.testbit (nthZ d (bi / 8)) (bi mod 8).
Definition used (dev : Z) (sb : superblock) (view : Z * Z -> list Z) (b : Z) : bool :=
  bit (view (dev, BBLOCK b sb)) (b mod BPB).

Lemma land_bit x k : 0 <= k -> (Z.land x (Z.shiftl 1 k) =? 0) = negb (Z.testbit x k).
Proof.
  intros Hk. rewrite Z.shiftl_1_l. destruct (Z.testbit x k) eqn:E; cbn.
  - apply Z.eqb_neq. intros H. apply (f_equal (fun z => Z.testbit z k)) in H.
    rewrite Z.land_spec, E, Z.pow2_bits_true, Z.bits_0 in H by done. done.
  - apply Z.eqb_eq. apply Z.bits_inj'. intros j Hj. rewrite Z.land_spec, Z.bits_0.
    rewrite Z.pow2_bits_eqb by done. bdestr (k =? j); [subst; by rewrite E|by rewrite andb_false_r].
Qed.

(** The first clear bit. *)
Lemma find_clear_spec d b size n : forall bi, 0 <= bi -> bi + Z.of_nat n = BPB -> 0 <= b -> 0 <= size -> b + BPB < 2 ^ 32 ->
  match find_clear d b size bi n with
  | Some k => bi <= k < BPB /\ b + k < size /\ bit d k = false /\ forall j, bi <= j < k -> bit d j = true
  | None => forall j, bi <= j < BPB -> b + j < size -> bit d j = true
  end.
Proof.
  induction n as [|n IH]; intros bi H0 Hn Hb Hs Hm; cbn [find_clear]; [intros j Hj; lia|].
  assert (Hu : u32 (b + bi) = b + bi) by sz. rewrite Hu.
  bdestr (b + bi <? size); cbn [negb]; [|intros j Hj Hsz; lia].
  rewrite land_bit by lia. fold (bit d bi). destruct (bit d bi) eqn:Eb; cbn [negb].
  - specialize (IH (bi + 1) ltac:(lia) ltac:(lia) Hb Hs Hm).
    destruct (find_clear d b size (bi + 1) n) as [k|].
    + destruct IH as (I1 & I2 & I3 & I4). split_and!; [lia|lia|done|done|].
      intros j Hj. destruct (decide (j = bi)) as [->|]; [done|]. apply I4. lia.
    + intros j Hj Hsz. destruct (decide (j = bi)) as [->|]; [done|]. apply IH; [lia|done].
  - split_and!; [lia|lia|done|done|]. intros j Hj. lia.
Qed.

(** Setting and clearing one bit. *)
Lemma nthZ_byte l i : Forall is_byte l -> is_byte (nthZ l i).
Proof.
  intros H. unfold nthZ. rewrite nth_lookup. destruct (l !! Z.to_nat i) as [v|] eqn:E; cbn; [|unfold is_byte; lia].
  by eapply (list.Forall_lookup_1 is_byte).
Qed.
Lemma testbit_u8 x k : 0 <= k < 8 -> Z.testbit (u8 x) k = Z.testbit x k.
Proof. intros H. unfold u8. by rewrite Z.mod_pow2_bits_low by lia. Qed.
Lemma bit_set d bi k : 0 <= bi -> 0 <= k -> (Z.to_nat (bi / 8) < length d)%nat ->
  bit (set_bit d bi) k = if decide (k = bi) then true else bit d k.
Proof.
  intros Hb Hk Hl. unfold bit, set_bit. rewrite nthZ_insert by (try done; lia).
  destruct (decide (k / 8 = Z.of_nat (Z.to_nat (bi / 8)))) as [E|E].
  - rewrite testbit_u8 by lia. rewrite Z.lor_spec, Z.shiftl_1_l, Z.pow2_bits_eqb by lia.
    replace (k / 8) with (bi / 8) by lia. case_decide as E2.
    + subst. by rewrite Z.eqb_refl, orb_true_r.
    + replace (bi mod 8 =? k mod 8) with false by lia. apply orb_false_r.
  - rewrite decide_False by (intros ->; lia). done.
Qed.
Lemma bit_clear d bi k : 0 <= bi -> 0 <= k -> (Z.to_nat (bi / 8) < length d)%nat ->
  bit (clear_bit d bi) k = if decide (k = bi) then false else bit d k.
Proof.
  intros Hb Hk Hl. unfold bit, clear_bit. rewrite nthZ_insert by (try done; lia).
  destruct (decide (k / 8 = Z.of_nat (Z.to_nat (bi / 8)))) as [E|E].
  - rewrite testbit_u8 by lia. rewrite Z.land_spec, Z.lnot_spec, Z.shiftl_1_l, Z.pow2_bits_eqb by lia.
    replace (k / 8) with (bi / 8) by lia. case_decide as E2.
    + subst. by rewrite Z.eqb_refl, andb_false_r.
    + replace (bi mod 8 =? k mod 8) with false by lia. apply andb_true_r.
  - rewrite decide_False by (intros ->; lia). done.
Qed.

(** ** The layout the allocator relies on *)
Record layout (dev start : Z) (sb : superblock) (view : Z * Z -> list Z) : Prop := {
  ly_dev : 0 <= dev < 2 ^ 31;
  ly_size : 0 <= sb_size sb < 2 ^ 31;
  (* the bitmap's blocks are blocks of the disk outside the log, of full length *)
  ly_bmap : forall b, 0 <= b < sb_size sb -> BBLOCK b sb = b / BPB + sb_bmapstart sb /\ 0 < BBLOCK b sb < 2 ^ 31 /\
    (BBLOCK b sb < start \/ start + LOGSIZE <= BBLOCK b sb) /\ block_size (view (dev, BBLOCK b sb));
  (* boot, super, log, inode and bitmap blocks are marked in use *)
  ly_free : forall b, 0 <= b < sb_size sb -> used dev sb view b = false ->
    0 < b /\ (b < start \/ start + LOGSIZE <= b) /\ forall b', 0 <= b' < sb_size sb -> b <> BBLOCK b' sb;
}.

Lemma frame_sb s s' ws : wrote ws s s' -> k_sb s' = k_sb s.
Proof. intros (_ & _ & E). change (k_sb (frame s') = k_sb (frame s)). by rewrite E. Qed.

Section Balloc.
Context `{DL : DiskLaws}.

Lemma quiet_gets_sb s : quiet (gets k_sb) s (k_sb s) s.
Proof. apply quiet_reads, _. Qed.

(** The buffers held while balloc runs are for blocks that are in use and not
    part of the bitmap. *)
Definition held_used (s : kstate) (H : gset nat) (dev : Z) (sb : superblock) (view : Z * Z -> list Z) : Prop :=
  forall n, 0 <= n < sb_size sb ->
    not_held s H (dev, BBLOCK n sb) /\ (used dev sb view n = false -> not_held s H (dev, n)).
Lemma held_used_none s dev sb view : held_used s ∅ dev sb view.
Proof. intros n _. split; [|intros _]; intros j; set_solver. Qed.
Lemma shown_same s s' P k : wrote [] s s' -> shown s' P k = shown s P k.
Proof. intros W. unfold shown. destruct (P !! k) as [[]|]; [done|]. by apply wrote_nil_block. Qed.
Lemma layout_ext dev start sb v v' : (forall k, v' k = v k) -> layout dev start sb v -> layout dev start sb v'.
Proof.
  intros E [L1 L2 L3 L4]. split; [done|done| |].
  - intros j Hj. rewrite E. by apply L3.
  - intros j Hj Hu. apply L4; [done|]. unfold used in *. by rewrite <- E.
Qed.

(** The blocks from [b] on, when all below are in use. *)
Lemma balloc_loop_spec i pid dev start sb H fuel : (size H < 9)%nat -> forall s l P bl b,
  in_txn s i pid l P H dev start 1 bl -> k_sb s = sb -> layout dev start sb (shown s P) ->
  held_used s H dev sb (shown s P) ->
  (length bl + 2 <= Z.to_nat MAXOPBLOCKS)%nat -> 0 <= b -> b mod BPB = 0 -> sb_size sb + BPB < b + Z.of_nat fuel * BPB ->
  (forall j, 0 <= j < b -> j < sb_size sb -> used dev sb (shown s P) j = true) ->
  (exists j, 0 <= j < sb_size sb /\ used dev sb (shown s P) j = false) ->
  exists n s' l' P', quiet (balloc_loop fuel dev b) s n s' /\ wrote [] s s' /\ keeps H s s' /\
    in_txn s' i pid l' P' H dev start 1 (record_block n (record_block (BBLOCK n sb) bl)) /\
    0 <= n < sb_size sb /\ used dev sb (shown s P) n = false /\
    (forall j, 0 <= j < n -> used dev sb (shown s P) j = true) /\
    forall k, shown s' P' k =
      if decide (k = (dev, n)) then zero_block
      else if decide (k = (dev, BBLOCK n sb)) then set_bit (shown s P k) (n mod BPB) else shown s P k.
Proof.
  assert (HBPB : BPB = 8192) by reflexivity. assert (HNB : (20 < NBUF)%nat) by (vm_compute; lia). intros HH.
  induction fuel as [|fuel IH]; intros s l P bl b I Hsb LY HU Hlen Hb0 Hb Hf Hused Hex; rewrite HBPB in Hf.
  { destruct Hex as (j & Hj & Hjf). rewrite Hused in Hjf by lia. done. }
  cbn [balloc_loop]. pose proof (it_cache _ _ _ _ _ _ _ _ _ _ I) as A.
  assert (Hbs : b < sb_size sb).
  { destruct Hex as (j & Hj & Hjf). destruct (decide (b < sb_size sb)); [done|]. rewrite Hused in Hjf by lia. done. }
  pose proof (ly_size _ _ _ _ LY) as Hsz. destruct (ly_bmap _ _ _ _ LY b ltac:(lia)) as (EB & HB0 & HBlog & HBlen).
  destruct (in_txn_bread s i pid l P H dev start 1 bl (BBLOCK b sb) I) as (bp & x & s1 & HbH & Q1 & W1 & K1 & Bx & Kx & Dx & I1).
  { unfold MAXOPBLOCKS in Hlen. lia. }
  { exact (proj1 (HU b ltac:(lia))). }
  set (d := b_data x) in *.
  assert (Hsame : forall j, 0 <= j < BPB -> b + j < sb_size sb -> used dev sb (shown s P) (b + j) = bit d j).
  { intros j Hj Hjs. unfold used. destruct (ly_bmap _ _ _ _ LY (b + j) ltac:(lia)) as (EBj & _).
    assert (E1 : BBLOCK (b + j) sb = BBLOCK b sb) by (rewrite EBj, EB; f_equal; rewrite HBPB in *; lia).
    rewrite E1, <- Dx. f_equal. rewrite HBPB in *. lia. }
  pose proof (find_clear_spec d b (sb_size sb) (Z.to_nat BPB) 0 ltac:(lia) ltac:(rewrite HBPB; lia) Hb0 ltac:(lia) ltac:(rewrite HBPB; lia)) as Hfc.
  destruct (find_clear d b (sb_size sb) 0 (Z.to_nat BPB)) as [bi|] eqn:Ef.
  - destruct Hfc as (Hbi & Hbis & Hclr & Hmin). set (n := b + bi) in *.
    assert (Hn : used dev sb (shown s P) n = false) by (unfold n; rewrite Hsame by lia; done).
    assert (Hnb : n mod BPB = bi /\ BBLOCK n sb = BBLOCK b sb).
    { destruct (ly_bmap _ _ _ _ LY n ltac:(lia)) as (En & _). rewrite En, EB. unfold n. rewrite HBPB in *. split; [lia|f_equal; lia]. }
    destruct Hnb as [Hnb HnB].
    destruct (ly_free _ _ _ _ LY n ltac:(lia) Hn) as (Hn0 & Hnlog & HnBB).
    destruct (in_txn_put_back s1 i pid l P H dev start 1 bl bp x (fun x => set_b_data (set_bit (b_data x) bi) x) (BBLOCK b sb)
      (set_bit d bi) I1 ltac:(lia) HbH Bx Kx eq_refl ltac:(lia) (ly_dev _ _ _ _ LY) HB0 HBlog)
      as (s2 & s3 & s4 & l4 & Q2 & Q3 & Q4 & W4 & K4 & I4).
    pose proof (wrote_trans _ _ _ _ _ W1 W4) as W14. pose proof (keeps_trans _ _ _ _ K1 K4) as K14.
    destruct (txn_block_spec s4 i pid l4 _ H dev start 1 _ n zero_block I4 ltac:(lia)) as (s5 & l5 & Q5 & W5 & K5 & I5);
      [lia|eapply not_held_keeps; [exact A|exact K14|exact (proj2 (HU n ltac:(lia)) Hn)]|
       unfold record_block; case_decide; rewrite ?length_app; cbn; lia|apply LY|lia|done|].
    eexists n, s5, l5, _. rewrite HnB.
    split_and!; [|exact (wrote_trans _ _ _ _ _ W14 W5)|exact (keeps_trans _ _ _ _ K14 K5)|exact I5|lia|lia|done| |].
    + eapply quiet_bind; [apply quiet_gets_sb|]. rewrite Hsb. replace (negb (b <? sb_size sb)) with false by lia.
      eapply quiet_bind; [exact Q1|]. eapply quiet_bind; [by apply quiet_get_buf|]. fold d. rewrite Ef.
      eapply quiet_bind; [exact Q2|]. eapply quiet_bind; [exact Q3|]. eapply quiet_bind; [exact Q4|].
      replace (u32 (b + bi)) with n by (unfold n; sz). eapply quiet_bind; [|apply quiet_ret].
      unfold bzero. replace (u32 (b + bi)) with n by (unfold n; sz). exact Q5.
    + intros j Hj. destruct (decide (j < b)); [apply Hused; lia|].
      replace j with (b + (j - b)) by lia. rewrite Hsame by lia. apply Hmin. lia.
    + intros k. rewrite (shown_put s4 s5 _ _ _ W5). case_decide; [done|].
      rewrite (shown_put s s4 P _ _ W14). case_decide as E; [|done]. subst k. by rewrite <- Dx, Hnb.
  - destruct (in_txn_give_back s1 i pid l P H dev start 1 bl bp x I1 HbH Bx) as (s2 & l2 & Q2 & W2 & K2 & I2).
    { fold d. rewrite Dx, Kx. symmetry. by apply shown_same. }
    pose proof (wrote_trans _ _ _ _ _ W1 W2) as W12. pose proof (keeps_trans _ _ _ _ K1 K2) as K12.
    assert (Hsh : forall k, shown s2 P k = shown s P k) by (intros k; by apply shown_same).
    assert (Hus : forall j, used dev sb (shown s2 P) j = used dev sb (shown s P) j).
    { intros j. unfold used. by rewrite Hsh. }
    destruct (IH s2 l2 P bl (b + BPB) I2) as (n & s' & l' & P' & Q3 & W3 & K3 & I3 & Hn1 & Hn2 & Hn3 & Hn4).
    + by rewrite (frame_sb _ _ _ W12).
    + by apply (layout_ext _ _ _ (shown s P)).
    + intros n Hn. destruct (HU n Hn) as [U1 U2]. rewrite Hus.
      split; [|intros Hf'; specialize (U2 Hf')]; eapply not_held_keeps; eauto.
    + done.
    + lia.
    + rewrite HBPB in *. lia.
    + rewrite HBPB. lia.
    + intros j Hj Hjs. rewrite Hus. destruct (decide (j < b)); [apply Hused; lia|].
      replace j with (b + (j - b)) by lia. rewrite Hsame by lia. apply Hfc; lia.
    + destruct Hex as (j & Hj & Hjf). exists j. by rewrite Hus.
    + exists n, s', l', P'. split_and!;
        [|exact (wrote_trans _ _ _ _ _ W12 W3)|exact (keeps_trans _ _ _ _ K12 K3)|done|lia|lia|by rewrite <- Hus| |].
      * eapply quiet_bind; [apply quiet_gets_sb|]. rewrite Hsb. replace (negb (b <? sb_size sb)) with false by lia.
        eapply quiet_bind; [exact Q1|]. eapply quiet_bind; [by apply quiet_get_buf|]. fold d. rewrite Ef.
        eapply quiet_bind; [exact Q2|exact Q3].
      * intros j Hj. rewrite <- Hus. by apply Hn3.
      * intros k. rewrite Hn4, Hsh. done.
Qed.

(** What changing the bit of [n] does to the map of used blocks. *)
Lemma used_changed dev start sb (v v' : Z * Z -> list Z) n (g : list Z -> Z -> list Z) (val : bool) :
  layout dev start sb v -> 0 <= n < sb_size sb ->
  (forall d k, block_size d -> 0 <= k < BPB -> bit (g d (n mod BPB)) k = if decide (k = n mod BPB) then val else bit d k) ->
  (forall j, 0 <= j < sb_size sb -> v' (dev, BBLOCK j sb) =
     if decide (BBLOCK j sb = BBLOCK n sb) then g (v (dev, BBLOCK j sb)) (n mod BPB) else v (dev, BBLOCK j sb)) ->
  forall j, 0 <= j < sb_size sb -> used dev sb v' j = if decide (j = n) then val else used dev sb v j.
Proof.
  intros LY Hn Hg Hv j Hj. unfold used. rewrite Hv by done.
  destruct (ly_bmap _ _ _ _ LY j Hj) as (Ej & _ & _ & Lj). destruct (ly_bmap _ _ _ _ LY n Hn) as (En & _).
  assert (HBPB : BPB = 8192) by reflexivity. rewrite Ej, En in *. rewrite HBPB in *. destruct (decide (_ = _)) as [E|E].
  - rewrite Hg by (try done; lia). repeat case_decide; try done; lia.
  - rewrite decide_False by lia. done.
Qed.
Lemma block_bits d k : block_size d -> 0 <= k < BPB -> (Z.to_nat (k / 8) < length d)%nat.
Proof. unfold block_size, BPB, BSIZE. intros -> H. lia. Qed.

(** balloc, with the buffers [H] held. *)
Lemma balloc_spec s i pid l P H dev start bl :
  in_txn s i pid l P H dev start 1 bl -> (size H < 9)%nat -> layout dev start (k_sb s) (shown s P) ->
  held_used s H dev (k_sb s) (shown s P) -> (length bl + 2 <= Z.to_nat MAXOPBLOCKS)%nat ->
  (exists j, 0 <= j < sb_size (k_sb s) /\ used dev (k_sb s) (shown s P) j = false) ->
  exists n s' l' P', quiet (balloc dev) s n s' /\ wrote [] s s' /\ keeps H s s' /\
    in_txn s' i pid l' P' H dev start 1 (record_block n (record_block (BBLOCK n (k_sb s)) bl)) /\
    0 <= n < sb_size (k_sb s) /\ used dev (k_sb s) (shown s P) n = false /\
    (forall j, 0 <= j < n -> used dev (k_sb s) (shown s P) j = true) /\
    shown s' P' (dev, n) = zero_block /\
    (forall j, 0 <= j < sb_size (k_sb s) ->
       used dev (k_sb s) (shown s' P') j = if decide (j = n) then true else used dev (k_sb s) (shown s P) j) /\
    (forall k, k <> (dev, n) -> k <> (dev, BBLOCK n (k_sb s)) -> shown s' P' k = shown s P k) /\
    layout dev start (k_sb s) (shown s' P').
Proof.
  intros I HH LY HU Hlen Hex. set (sb := k_sb s) in *. assert (HBPB : BPB = 8192) by reflexivity.
  pose proof (ly_size _ _ _ _ LY) as Hsz.
  destruct (balloc_loop_spec i pid dev start sb H (S (S (Z.to_nat (sb_size sb / BPB)))) HH s l P bl 0 I eq_refl LY HU Hlen)
    as (n & s' & l' & P' & Q & W & K & I' & Hn & Hfree & Hmin & Hview); [lia|done|rewrite HBPB; lia|intros; lia|done|].
  destruct (ly_free _ _ _ _ LY n Hn Hfree) as (Hn0 & _ & HnBB).
  assert (HU' : forall j, 0 <= j < sb_size sb ->
    used dev sb (shown s' P') j = if decide (j = n) then true else used dev sb (shown s P) j).
  { apply (used_changed dev start sb _ _ n set_bit true LY Hn).
    - intros d k Hd Hk. apply bit_set; [lia|lia|]. apply block_bits; [done|lia].
    - intros j Hj. rewrite Hview, decide_False by (intros [= E]; by apply (HnBB j Hj)).
      destruct (decide (BBLOCK j sb = BBLOCK n sb)) as [E|E]; [by rewrite decide_True by congruence|].
      by rewrite decide_False by congruence. }
  exists n, s', l', P'. split_and!; [|done|done|done|lia|lia|done|done| |done| |].
  - unfold balloc. eapply quiet_bind; [apply quiet_gets_sb|]. exact Q.
  - rewrite Hview. by rewrite decide_True.
  - intros k H1 H2. rewrite Hview. by rewrite !decide_False.
  - split; [apply LY|apply LY| |].
    + intros j Hj. destruct (ly_bmap _ _ _ _ LY j Hj) as (B1 & B2 & B3 & B4). split_and!; [done|lia|lia|done|].
      rewrite Hview. repeat case_decide; [done| |done]. unfold block_size, set_bit. by rewrite length_insert.
    + intros j Hj Hu. apply (ly_free _ _ _ _ LY j Hj). rewrite HU' in Hu by done. by case_decide.
Qed.

(** C16. Inside a transaction on a well-formed file system with a free block and
    room for two more logged blocks, balloc returns the lowest-numbered block
    that the bitmap marks free.  Afterwards that block is marked used and reads
    as zeroes, no other block's mark has changed, and every block outside the
    bitmap other than it has its old contents; all of this is part of the
    transaction, and nothing has been written to the disk yet. *)
Theorem balloc_allocates s i pid l P dev start bl :
  in_txn s i pid l P ∅ dev start 1 bl -> layout dev start (k_sb s) (shown s P) ->
  (length bl + 2 <= Z.to_nat MAXOPBLOCKS)%nat ->
  (exists j, 0 <= j < sb_size (k_sb s) /\ used dev (k_sb s) (shown s P) j = false) ->
  exists n s' l' P' bl', quiet (balloc dev) s n s' /\ wrote [] s s' /\ in_txn s' i pid l' P' ∅ dev start 1 bl' /\
    0 <= n < sb_size (k_sb s) /\ used dev (k_sb s) (shown s P) n = false /\
    (forall j, 0 <= j < n -> used dev (k_sb s) (shown s P) j = true) /\
    shown s' P' (dev, n) = zero_block /\
    (forall j, 0 <= j < sb_size (k_sb s) ->
       used dev (k_sb s) (shown s' P') j = if decide (j = n) then true else used dev (k_sb s) (shown s P) j) /\
    (forall k, k <> (dev, n) -> k <> (dev, BBLOCK n (k_sb s)) -> shown s' P' k = shown s P k).
Proof.
  intros I LY Hlen Hex.
  destruct (balloc_spec s i pid l P ∅ dev start bl I) as (n & s' & l' & P' & Q & W & _ & I' & Hrest);
    [rewrite size_empty; lia|done|apply held_used_none|done|done|].
  destruct Hrest as (R1 & R2 & R3 & R4 & R5 & R6 & _).
  by exists n, s', l', P', (record_block n (record_block (BBLOCK n (k_sb s)) bl)).
Qed.

(** C39. bfree of a block marked used clears its mark in the transaction's view
    and changes no other mark and no block outside the bitmap. *)
Theorem bfree_frees s i pid l P dev start bl n :
  in_txn s i pid l P ∅ dev start 1 bl -> layout dev start (k_sb s) (shown s P) ->
  (length bl < Z.to_nat MAXOPBLOCKS)%nat -> 0 <= n < sb_size (k_sb s) ->
  used dev (k_sb s) (shown s P) n = true ->
  exists s' l' P' bl', quiet (bfree dev n) s tt s' /\ wrote [] s s' /\ in_txn s' i pid l' P' ∅ dev start 1 bl' /\
    (forall j, 0 <= j < sb_size (k_sb s) ->
       used dev (k_sb s) (shown s' P') j = if decide (j = n) then false else used dev (k_sb s) (shown s P) j) /\
    (forall k, k <> (dev, BBLOCK n (k_sb s)) -> shown s' P' k = shown s P k).
Proof.
  intros I LY Hlen Hn Hused. set (sb := k_sb s) in *. assert (HBPB : BPB = 8192) by reflexivity.
  assert (HNB : (10 < NBUF)%nat) by (vm_compute; lia).
  destruct (ly_bmap _ _ _ _ LY n Hn) as (EB & HB0 & HBlog & HBlen).
  destruct (in_txn_bread s i pid l P ∅ dev start 1 bl (BBLOCK n sb) I) as (bp & x & s1 & Hb & Q1 & W1 & _ & Bx & Kx & Dx & I1).
  { unfold MAXOPBLOCKS in Hlen. rewrite size_empty. lia. }
  { intros j. set_solver. }
  destruct (in_txn_put_back s1 i pid l P ∅ dev start 1 bl bp x (fun x => set_b_data (clear_bit (b_data x) (n mod BPB)) x) (BBLOCK n sb)
    (clear_bit (b_data x) (n mod BPB)) I1 ltac:(lia) Hb Bx Kx eq_refl Hlen (ly_dev _ _ _ _ LY) HB0 HBlog)
    as (s2 & s3 & s4 & l4 & Q2 & Q3 & Q4 & W4 & _ & I4).
  pose proof (wrote_trans _ _ _ _ _ W1 W4) as W14. pose proof (shown_put s s4 P (dev, BBLOCK n sb) (clear_bit (b_data x) (n mod BPB)) W14) as Hv.
  eexists s4, l4, _, _. split_and!; [|exact W14|exact I4| |].
  - unfold bfree. eapply quiet_bind; [apply quiet_gets_sb|]. fold sb. eapply quiet_bind; [exact Q1|]. cbv zeta.
    eapply quiet_bind; [by apply quiet_get_buf|]. rewrite land_bit by (rewrite HBPB; lia).
    unfold used, bit in Hused. rewrite <- Dx in Hused. rewrite Hused. cbn [negb].
    eapply quiet_bind; [exact Q2|]. eapply quiet_bind; [exact Q3|exact Q4].
  - apply (used_changed dev start sb _ _ n clear_bit false LY Hn).
    + intros d k Hd Hk. apply bit_clear; [rewrite HBPB; lia|lia|]. apply block_bits; [done|rewrite HBPB; lia].
    + intros j Hj. rewrite Hv. destruct (decide (BBLOCK j sb = BBLOCK n sb)) as [E|E].
      * rewrite decide_True by congruence. by rewrite Dx, E.
      * by rewrite decide_False by congruence.
  - intros k Hk. rewrite Hv. by rewrite decide_False.
Qed.
End Balloc.

(** ** A small file system: 300 blocks, log from 2 to 31, bitmap in block 45,
    and the first 46 blocks in use *)
Definition wsb : superblock := mk_superblock FSMAGIC 300 200 64 30 2 32 45.
Definition wbitmap : list Z := replicate 5 255 ++ [63] ++ replicate 1018 0.
Definition wfs : kstate :=
  set_k_logs [set_lg_outstanding 1 (wlog 0); log0]
    (set_k_sb wsb (set_k_disk {[ (0, 45) := wbitmap ]} wcache)).
Lemma wfs_txn : in_txn wfs 0 0 (rev (seq 0 NBUF)) ∅ ∅ 0 2 1 [].
Proof.
  split; [|exact (geom_nil (DD := ideal) 2 [100] (co_geom _ _ _ _ _ _ _ _ _ wcommit_ready))| |intros k c d; by rewrite lookup_empty|set_solver].
  - apply ac_logs. destruct wcache_ok as [[C1 C2 [C3 C4] C5] A1 A2 A3 A4 A5 A6].
    split; [split; [exact C1|exact C2|split; [exact C3|exact C4]|exact C5]|exact A1|exact A2|exact A3| |exact A5|exact A6].
    intros j x Hj Hx. apply wcache_buf in Hx as [-> _]. split; [set_solver|]. intros _. split_and!; [done|done|].
    rewrite lookup_empty. by intros [].
  - exists (set_lg_outstanding 1 (wlog 0)). split; [done|]. split; [by split|done|done|done].
Qed.
Lemma wfs_bits j : 0 <= j < 300 -> bit wbitmap j = (j <? 46).
Proof.
  intros Hj. assert (H : forallb (fun k => Bool.eqb (bit wbitmap (Z.of_nat k)) (Z.of_nat k <? 46)) (seq 0 300) = true)
    by (vm_compute; reflexivity).
  rewrite forallb_forall in H. specialize (H (Z.to_nat j)). rewrite in_seq in H.
  rewrite Z2Nat.id in H by lia. apply Bool.eqb_prop, H. lia.
Qed.
Lemma wfs_used j : 0 <= j < 300 -> used 0 wsb (shown wfs ∅) j = (j <? 46).
Proof.
  intros Hj. unfold used. replace (BBLOCK j wsb) with 45.
  - change (shown wfs ∅ (0, 45)) with wbitmap. change BPB with 8192. rewrite Z.mod_small by lia. by apply wfs_bits.
  - unfold BBLOCK. cbn [sb_bmapstart wsb]. change BPB with 8192. sz.
Qed.
Lemma wfs_layout : layout 0 2 wsb (shown wfs ∅).
Proof.
  split; [lia|cbn; lia| |].
  - intros b Hb. cbn in Hb. assert (E : BBLOCK b wsb = 45).
    { unfold BBLOCK. cbn [sb_bmapstart wsb]. change BPB with 8192. sz. }
    rewrite E. change (shown wfs ∅ (0, 45)) with wbitmap. split_and!; [|lia|lia|right; vm_compute; done|vm_compute; done].
    cbn [sb_bmapstart wsb]. change BPB with 8192. lia.
  - intros b Hb. cbn in Hb. rewrite wfs_used by lia. intros Hf. split_and!; [lia|right; unfold LOGSIZE, MAXOPBLOCKS; lia|].
    intros b' Hb'. cbn in Hb'. unfold BBLOCK. cbn [sb_bmapstart wsb]. change BPB with 8192. sz.
Qed.
Lemma balloc_allocates_witness :
  exists n s', quiet (balloc (DD := ideal) 0) wfs n s' /\ n = 46.
Proof.
  destruct (balloc_allocates (DD := ideal) wfs 0 0 _ ∅ 0 2 [] wfs_txn wfs_layout)
    as (n & s' & l' & P' & bl' & Q & _ & _ & Hn & Hf & Hm & _).
  - vm_compute. lia.
  - exists 46. split; [cbn; lia|]. apply wfs_used. lia.
  - exists n, s'. split; [exact Q|]. change (k_sb wfs) with wsb in *. cbn in Hn. rewrite wfs_used in Hf by lia.
    destruct (decide (46 < n)); [|lia]. specialize (Hm 46 ltac:(lia)). rewrite wfs_used in Hm by lia. discriminate Hm.
Defined.
Lemma bfree_frees_witness : exists s', quiet (bfree (DD := ideal) 0 40) wfs tt s'.
Proof.
  destruct (bfree_frees (DD := ideal) wfs 0 0 _ ∅ 0 2 [] 40 wfs_txn wfs_layout) as (s' & l' & P' & bl' & Q & _).
  - vm_compute. lia.
  - cbn. lia.
  - apply wfs_used. lia.
  - exists s'. exact Q.
Defined.
