(* ===== verification/InodeProofs.v ===== *)
(** * On-disk inodes: iupdate's encoding is ilock's *)
From S2P Require Import Prelude Mem Riscv State Spinlock Kalloc Vm Proc Sleeplock Bio Log Fs.

Record dinode_wf (ip : inode) : Prop := {
  dw_type : - 2 ^ 15 <= i_type ip < 2 ^ 15;
  dw_major : - 2 ^ 15 <= i_major ip < 2 ^ 15;
  dw_minor : - 2 ^ 15 <= i_minor ip < 2 ^ 15;
  dw_nlink : - 2 ^ 15 <= i_nlink ip < 2 ^ 15;
  dw_size : 0 <= i_size ip < 2 ^ 32;
  dw_addrs : length (i_addrs ip) = 13%nat /\ Forall (fun a => 0 <= a < 2 ^ 32) (i_addrs ip);
}.
(** What ilock loads of [src] into the cached inode [ip]. *)
Definition with_content (src ip : inode) : inode :=
  mk_inode (i_dev ip) (i_inum ip) (i_ref ip) (i_lock ip) (i_valid ip)
    (i_type src) (i_major src) (i_minor src) (i_nlink src) (i_size src) (i_addrs src).

(** ** Slices of a record written into a block *)
Lemma slice_splice_in {A} (l : list A) o l' k n :
  (o <= length l)%nat -> (k + n <= length l')%nat -> slice (splice l o l') (o + k) n = slice l' k n.
Proof.
  intros Ho Hk. unfold slice, splice. rewrite <- drop_drop.
  rewrite drop_app_length' by (rewrite length_take; lia). rewrite drop_app_le by lia.
  rewrite take_app_le by (rewrite length_drop; lia). done.
Qed.
Lemma slice_app_r {A} (a b : list A) k n : slice (a ++ b) (length a + k) n = slice b k n.
Proof. unfold slice. by rewrite drop_app_add'. Qed.
Lemma slice_app_here {A} (a b : list A) : slice (a ++ b) 0 (length a) = a.
Proof. unfold slice. rewrite drop_0. apply take_app_length. Qed.
Lemma slice_addrs l k a b : l !! k = Some a -> slice (addrs_bytes l ++ b) (4 * k) 4 = Z_to_le 4 a.
Proof.
  revert k. induction l as [|c l IH]; intros [|k] H; try done.
  - injection H as ->. unfold addrs_bytes. cbn [fmap list_fmap concat]. rewrite <- app_assoc.
    pose proof (slice_app_here (Z_to_le 4 a) (concat (Z_to_le 4 <$> l) ++ b)) as E. rewrite length_Z_to_le in E. exact E.
  - unfold addrs_bytes in *. cbn [fmap list_fmap concat]. rewrite <- app_assoc.
    pose proof (slice_app_r (Z_to_le 4 c) (concat (Z_to_le 4 <$> l) ++ b) (4 * k) 4) as E.
    rewrite length_Z_to_le in E. replace (4 * S k)%nat with (4 + 4 * k)%nat by lia. rewrite E. by apply IH.
Qed.
Lemma length_addrs_bytes l : length (addrs_bytes l) = (4 * length l)%nat.
Proof.
  unfold addrs_bytes. induction l as [|a l IH]; [done|]. cbn [fmap list_fmap concat].
  rewrite length_app, length_Z_to_le, IH. cbn. lia.
Qed.
Lemma length_dinode_bytes ip : length (i_addrs ip) = 13%nat -> length (dinode_bytes ip) = 64%nat.
Proof.
  intros H. unfold dinode_bytes. rewrite !length_app, !length_Z_to_le, length_addrs_bytes, H. done.
Qed.

Lemma s16_le v : - 2 ^ 15 <= v < 2 ^ 15 -> s16 (le_to_Z (Z_to_le 2 v)) = v.
Proof.
  intros H. rewrite le_to_Z_to_le. change (2 ^ (8 * Z.of_nat 2)) with 65536. unfold s16, swrap.
  change (2 ^ 16) with 65536. change (2 ^ (16 - 1)) with 32768. rewrite Z.mod_mod by lia. case_if; lia.
Qed.
Lemma u32_le v : 0 <= v < 2 ^ 32 -> le_to_Z (Z_to_le 4 v) = v.
Proof. intros H. rewrite le_to_Z_to_le. by apply Z.mod_small. Qed.

(** The fields of the encoded inode. *)
Lemma dinode_fields ip : let b := dinode_bytes ip in
  slice b 0 2 = Z_to_le 2 (i_type ip) /\ slice b 2 2 = Z_to_le 2 (i_major ip) /\
  slice b 4 2 = Z_to_le 2 (i_minor ip) /\ slice b 6 2 = Z_to_le 2 (i_nlink ip) /\
  slice b 8 4 = Z_to_le 4 (i_size ip) /\
  forall k a, i_addrs ip !! k = Some a -> slice b (12 + 4 * k) 4 = Z_to_le 4 a.
Proof.
  intros b. unfold b, dinode_bytes.
  split_and!; try reflexivity. intros k a Hk. cbn [Z_to_le app]. unfold slice. cbn [drop Nat.add].
  change (take 4 (drop (4 * k) (addrs_bytes (i_addrs ip))) = Z_to_le 4 a).
  rewrite <- (app_nil_r (addrs_bytes (i_addrs ip))). by apply slice_addrs.
Qed.

Lemma dinode_splice ip ip0 d inum :
  dinode_wf ip -> length d = Z.to_nat BSIZE -> 0 <= inum ->
  let d' := splice d (Z.to_nat (dinode_off inum)) (dinode_bytes ip) in
  load_dinode d' (dinode_off inum) ip0 = with_content ip ip0 /\
  (forall inum', 0 <= inum' -> inum' mod IPB <> inum mod IPB ->
     load_dinode d' (dinode_off inum') ip0 = load_dinode d (dinode_off inum') ip0) /\
  length d' = length d.
Proof.
  intros [W1 W2 W3 W4 W5 [W6 W7]] Hd Hi d'. unfold BSIZE in Hd.
  assert (Ho : 0 <= dinode_off inum /\ dinode_off inum + 64 <= 1024).
  { unfold dinode_off, dinode_size. change IPB with 16. lia. }
  set (o := dinode_off inum) in *. pose proof (length_dinode_bytes ip W6) as Hlen.
  assert (Hsl : forall k n, (k + n <= 64)%nat -> slice d' (Z.to_nat (o + Z.of_nat k)) n = slice (dinode_bytes ip) k n).
  { intros k n Hk. unfold d'. replace (Z.to_nat (o + Z.of_nat k)) with (Z.to_nat o + k)%nat by lia.
    apply slice_splice_in; lia. }
  destruct (dinode_fields ip) as (F1 & F2 & F3 & F4 & F5 & F6). split_and!.
  - unfold load_dinode, with_content, get16, get32. f_equal.
    + rewrite <- (Z.add_0_r o). rewrite (Hsl 0%nat) by lia. rewrite F1. by apply s16_le.
    + rewrite (Hsl 2%nat) by lia. rewrite F2. by apply s16_le.
    + rewrite (Hsl 4%nat) by lia. rewrite F3. by apply s16_le.
    + rewrite (Hsl 6%nat) by lia. rewrite F4. by apply s16_le.
    + rewrite (Hsl 8%nat) by lia. rewrite F5. by apply u32_le.
    + apply list_eq. intros k. rewrite list_lookup_fmap. destruct (decide (k < 13)%nat) as [Hk|Hk].
      * rewrite lookup_seq_lt by done. cbn [fmap option_fmap option_map].
        destruct (lookup_lt_is_Some_2 (i_addrs ip) k) as [a Ha]; [lia|]. rewrite Ha. f_equal.
        replace (o + 12 + 4 * Z.of_nat (0 + k)) with (o + Z.of_nat (12 + 4 * k)) by lia.
        rewrite Hsl by lia. rewrite (F6 k a Ha). apply u32_le. by eapply (list.Forall_lookup_1 _ _ _ _ W7).
      * rewrite lookup_seq_ge by lia. by rewrite lookup_ge_None_2 by lia.
  - intros inum' Hi' Hne.
    assert (Hsd : forall k n, (k + n <= 64)%nat ->
      slice d' (Z.to_nat (dinode_off inum' + Z.of_nat k)) n = slice d (Z.to_nat (dinode_off inum' + Z.of_nat k)) n).
    { intros k n Hk. unfold d'. apply slice_splice_disjoint; rewrite Hlen; [lia|].
      unfold o, dinode_off, dinode_size in *. change IPB with 16 in *. lia. }
    set (o' := dinode_off inum') in *. unfold load_dinode, get16, get32. f_equal.
    + pose proof (Hsd 0%nat 2%nat ltac:(lia)) as E. rewrite Z.add_0_r in E. by rewrite E.
    + by rewrite (Hsd 2%nat) by lia.
    + by rewrite (Hsd 4%nat) by lia.
    + by rewrite (Hsd 6%nat) by lia.
    + by rewrite (Hsd 8%nat) by lia.
    + apply list_fmap_ext. intros k j Hj. apply lookup_seq in Hj as [-> Hj].
      replace (o' + 12 + 4 * Z.of_nat (0 + k)) with (o' + Z.of_nat (12 + 4 * k)) by lia. by rewrite Hsd by lia.
  - unfold d'. apply length_splice. lia.
Qed.

(** C40. The on-disk inode format round-trips: writing an inode with in-range
    fields into its slot of an inode block, as iupdate does, and loading the
    slot again, as ilock does, gives back its type, device numbers, link count,
    size and block addresses; every other slot of the block loads as before. *)
Theorem dinode_roundtrip ip ip0 d inum :
  dinode_wf ip -> length d = Z.to_nat BSIZE -> 0 <= inum ->
  let d' := splice d (Z.to_nat (dinode_off inum)) (dinode_bytes ip) in
  load_dinode d' (dinode_off inum) ip0 = with_content ip ip0 /\
  (forall inum', 0 <= inum' -> inum' mod IPB <> inum mod IPB ->
     load_dinode d' (dinode_off inum') ip0 = load_dinode d (dinode_off inum') ip0) /\
  length d' = length d.
Proof. apply dinode_splice. Qed.
Lemma dinode_roundtrip_witness :
  let ip := mk_inode 0 3 1 sleeplock0 1 T_FILE 0 (-1) 2 70000 (seqZ 100 13) in
  load_dinode (splice (replicate 1024 9) (Z.to_nat (dinode_off 19)) (dinode_bytes ip)) (dinode_off 19) inode0
    = with_content ip inode0.
Proof.
  intros ip. destruct (dinode_roundtrip ip inode0 (replicate 1024 9) 19) as (H & _).
  - split; unfold ip, T_FILE; cbn; try lia. split; [reflexivity|]. repeat constructor; lia.
  - reflexivity.
  - lia.
  - exact H.
Defined.
