(* ===== verification/BmapProofs.v ===== *)
(** * The blocks of a file: bmap

    [baddr view ip bn] is the disk block that holds block [bn] of the file with
    inode [ip], through the indirect block from NDIRECT on, 0 if there is none;
    [fblock] its contents, zeroes where there is no block.  [file_ok] says that
    these blocks are distinct blocks of the data area marked in use.  bmap finds
    or makes a block and changes the contents of no block of the file. *)
From S2P Require Import Prelude Mem Riscv State Spinlock Kalloc Vm Proc ProcProofs Sleeplock SleeplockProofs Bio BioProofs BioSpec Log LogProofs LogCrash Txn Fs PipeProofs BallocProofs InodeProofs.

#[local] Arguments nthZ : simpl never.

(** ** 32-bit entries of a block *)
Lemma get32_put32 d o v : 0 <= o -> o + 4 <= Z.of_nat (length d) -> 0 <= v < 2 ^ 32 -> get32 (put32 d o v) o = v.
Proof.
  intros Ho Hl Hv. unfold get32, put32.
  pose proof (slice_splice d (Z.to_nat o) (Z_to_le 4 v) ltac:(lia)) as E. rewrite length_Z_to_le in E. rewrite E.
  by apply u32_le.
Qed.
Lemma get32_zero o : 0 <= o -> get32 zero_block o = 0.
Proof.
  intros Ho. unfold get32, slice, zero_block. rewrite drop_replicate, take_replicate.
  set (k := (4 `min` _)%nat). assert (k <= 4)%nat by (unfold k; lia). clearbody k.
  do 5 (destruct k as [|k]; [done|]). lia.
Qed.

(** ** What the inode operations leave alone *)
Definition fsw (s s' : kstate) : Prop := wrote [] (set_k_inodes (k_inodes s') s) s'.
Lemma wrote_inodes ws s s' : wrote ws s s' -> k_inodes s' = k_inodes s.
Proof. intros (_ & _ & E). change (k_inodes (frame s') = k_inodes (frame s)). by rewrite E. Qed.
Lemma fsw_wrote s s' : wrote [] s s' -> fsw s s'.
Proof. intros W. unfold fsw. rewrite (wrote_inodes _ _ _ W). exact W. Qed.
Lemma wrote_set_inodes ins s s' : wrote [] s s' -> wrote [] (set_k_inodes ins s) (set_k_inodes ins s').
Proof.
  intros (E1 & E2 & E3). split_and!; [exact E1|exact E2|].
  change (set_k_inodes ins (frame s') = set_k_inodes ins (frame s)). by rewrite E3.
Qed.
Lemma fsw_trans s1 s2 s3 : fsw s1 s2 -> fsw s2 s3 -> fsw s1 s3.
Proof.
  unfold fsw. intros W1 W2. apply (wrote_set_inodes (k_inodes s3)) in W1.
  exact (wrote_trans [] [] _ _ _ W1 W2).
Qed.
Lemma fsw_set_inodes s ins : fsw s (set_k_inodes ins s).
Proof. by apply wrote_nil. Qed.
Lemma fsw_sb s s' : fsw s s' -> k_sb s' = k_sb s.
Proof. intros W. by rewrite (frame_sb _ _ _ W). Qed.
Lemma fsw_shown s s' P k : fsw s s' -> shown s' P k = shown s P k.
Proof. intros W. rewrite (shown_same _ _ P k W). done. Qed.

Lemma filter_ext_in {A} (P Q : A -> Prop) `{!forall x, Decision (P x), !forall x, Decision (Q x)} (l : list A) :
  (forall x, x ∈ l -> P x <-> Q x) -> filter P l = filter Q l.
Proof.
  induction l as [|x l IH]; intros HPQ; [done|]. rewrite !filter_cons.
  pose proof (HPQ x ltac:(apply list_elem_of_here)) as Hx. rewrite IH; [by repeat case_decide; try tauto|].
  intros y Hy. apply HPQ. by apply elem_of_cons; right.
Qed.

(** ** Files *)
Section Files.
Context (dev start : Z) (sb : superblock).
Implicit Types (view : Z * Z -> list Z) (ip : inode).

Definition ind_of ip : Z := nthZ (i_addrs ip) NDIRECT.
Definition baddr view ip (bn : Z) : Z :=
  if bn <? NDIRECT then nthZ (i_addrs ip) bn
  else if ind_of ip =? 0 then 0 else get32 (view (dev, ind_of ip)) (4 * (bn - NDIRECT)).
Definition fblock view ip (bn : Z) : list Z :=
  if baddr view ip bn =? 0 then zero_block else view (dev, baddr view ip bn).

(** A block of the disk, marked in use, that is neither in the log nor in the
    bitmap. *)
Record plain_block view (a : Z) : Prop := {
  pb_range : 0 < a < sb_size sb;
  pb_used : used dev sb view a = true;
  pb_log : a < start \/ start + LOGSIZE <= a;
  pb_bmap : forall b, 0 <= b < sb_size sb -> a <> BBLOCK b sb;
  pb_size : block_size (view (dev, a));
}.
Record file_ok view ip : Prop := {
  fo_dev : i_dev ip = dev;
  fo_len : length (i_addrs ip) = 13%nat;
  fo_ind : ind_of ip <> 0 -> plain_block view (ind_of ip) /\ ind_of ip <> IBLOCK (i_inum ip) sb;
  fo_data : forall bn, 0 <= bn < MAXFILE -> baddr view ip bn <> 0 ->
    plain_block view (baddr view ip bn) /\ baddr view ip bn <> IBLOCK (i_inum ip) sb /\
    baddr view ip bn <> ind_of ip;
  fo_inj : forall bn bn', 0 <= bn < MAXFILE -> 0 <= bn' < MAXFILE ->
    baddr view ip bn <> 0 -> baddr view ip bn = baddr view ip bn' -> bn = bn';
  fo_inode : plain_block view (IBLOCK (i_inum ip) sb);
}.

(** The number of free blocks. *)
Definition nfree view : nat :=
  length (filter (fun b => used dev sb view (Z.of_nat b) = false) (seq 0 (Z.to_nat (sb_size sb)))).
Lemma nfree_pos view : (0 < nfree view)%nat -> exists j, 0 <= j < sb_size sb /\ used dev sb view j = false.
Proof.
  unfold nfree. intros H. destruct (filter _ _) as [|b l] eqn:E; [cbn in H; lia|].
  assert (Hb : b ∈ filter (fun b => used dev sb view (Z.of_nat b) = false) (seq 0 (Z.to_nat (sb_size sb))))
    by (rewrite E; apply list_elem_of_here).
  apply list_elem_of_filter in Hb as [Hu Hb]. apply elem_of_seq in Hb. exists (Z.of_nat b). split; [lia|done].
Qed.
Lemma nfree_take view view' n :
  0 <= n < sb_size sb -> used dev sb view n = false ->
  (forall j, 0 <= j < sb_size sb -> used dev sb view' j = if decide (j = n) then true else used dev sb view j) ->
  nfree view = S (nfree view').
Proof.
  intros Hn Hf Hu. unfold nfree.
  assert (Hs : seq 0 (Z.to_nat (sb_size sb)) = seq 0 (Z.to_nat n) ++ Z.to_nat n :: seq (S (Z.to_nat n)) (Z.to_nat (sb_size sb) - S (Z.to_nat n))).
  { replace (Z.to_nat (sb_size sb)) with (Z.to_nat n + S (Z.to_nat (sb_size sb) - S (Z.to_nat n)))%nat at 1 by lia.
    by rewrite seq_app. }
  assert (Hsame : forall a k, (forall b, (a <= b < a + k)%nat -> b <> Z.to_nat n /\ Z.of_nat b < sb_size sb) ->
    filter (fun b => used dev sb view' (Z.of_nat b) = false) (seq a k) = filter (fun b => used dev sb view (Z.of_nat b) = false) (seq a k)).
  { intros a k Hab. apply filter_ext_in. intros b Hb%elem_of_seq.
    destruct (Hab b) as [H1 H2]; [lia|]. rewrite Hu by lia. by rewrite decide_False by lia. }
  rewrite Hs, !list.filter_app, !length_app. rewrite Hsame by lia.
  rewrite filter_cons_True by (by rewrite Z2Nat.id by lia).
  rewrite filter_cons_False by (rewrite Z2Nat.id, Hu, decide_True by lia; done).
  rewrite Hsame by lia. cbn [length]. lia.
Qed.

(** [n] has been allocated between [view] and [view']. *)
Record allocated view view' (n : Z) : Prop := {
  al_range : 0 <= n < sb_size sb;
  al_free : used dev sb view n = false;
  al_zero : view' (dev, n) = zero_block;
  al_used : forall j, 0 <= j < sb_size sb -> used dev sb view' j = if decide (j = n) then true else used dev sb view j;
  al_same : forall k, k <> (dev, n) -> k <> (dev, BBLOCK n sb) -> view' k = view k;
  al_layout : layout dev start sb view';
}.
Lemma allocated_plain view view' n a : allocated view view' n -> plain_block view a ->
  view' (dev, a) = view (dev, a) /\ a <> n /\ plain_block view' a.
Proof.
  intros [A1 A2 A3 A4 A5 A6] [B1 B2 B3 B4 B5]. assert (Hne : a <> n) by (intros ->; congruence).
  assert (E : view' (dev, a) = view (dev, a)) by (apply A5; [congruence|]; intros [= E]; by apply (B4 n)).
  split_and!; [done|done|]. split; [done| |done|done|by rewrite E].
  rewrite A4 by lia. by case_decide.
Qed.
Lemma allocated_new view view' n : layout dev start sb view -> allocated view view' n -> plain_block view' n.
Proof.
  intros LY [A1 A2 A3 A4 A5 A6]. destruct (ly_free _ _ _ _ LY n A1 A2) as (F1 & F2 & F3). split; [lia| |done|done|].
  - rewrite A4 by lia. by rewrite decide_True.
  - by rewrite A3.
Qed.

(** One more step of a file: its contents are the same, and so is everything
    outside it that was in use, but for the bitmap. *)
Record file_step view ip view' ip' : Prop := {
  fs_ok : file_ok view' ip';
  fs_layout : layout dev start sb view';
  fs_fields : ip' = set_i_addrs (i_addrs ip') ip;
  fs_blocks : forall bn, 0 <= bn < MAXFILE -> fblock view' ip' bn = fblock view ip bn;
  fs_mapped : forall bn, 0 <= bn < MAXFILE -> baddr view ip bn <> 0 -> baddr view' ip' bn = baddr view ip bn;
  fs_ind : ind_of ip' = ind_of ip \/ ind_of ip = 0 /\ used dev sb view (ind_of ip') = false;
  fs_frame : forall b, plain_block view b -> b <> ind_of ip -> view' (dev, b) = view (dev, b);
  fs_plain : forall b, plain_block view b -> plain_block view' b;
  fs_other : forall k, k.1 <> dev -> view' k = view k;
  fs_used : forall b, 0 <= b < sb_size sb -> used dev sb view b = true -> used dev sb view' b = true;
  fs_new : forall bn, 0 <= bn < MAXFILE -> baddr view' ip' bn = baddr view ip bn \/
    baddr view' ip' bn <> 0 /\ used dev sb view (baddr view' ip' bn) = false;
}.
Lemma file_step_refl view ip : file_ok view ip -> layout dev start sb view -> file_step view ip view ip.
Proof. intros H L. split; try done; by left. Qed.
(** Only what the view shows matters. *)
Lemma baddr_ext view view' ip bn : (forall k, view' k = view k) -> baddr view' ip bn = baddr view ip bn.
Proof. intros E. unfold baddr. by rewrite E. Qed.
Lemma used_ext view view' b : (forall k, view' k = view k) -> used dev sb view' b = used dev sb view b.
Proof. intros E. unfold used. by rewrite E. Qed.
Lemma nfree_ext view view' : (forall k, view' k = view k) -> nfree view = nfree view'.
Proof. intros E. unfold nfree. f_equal. apply filter_ext_in. intros j _. by rewrite (used_ext view view'). Qed.
Lemma nfree_used view view' : (forall b, 0 <= b < sb_size sb -> used dev sb view' b = used dev sb view b) ->
  nfree view = nfree view'.
Proof. intros E. unfold nfree. f_equal. apply filter_ext_in. intros j Hj%elem_of_seq. by rewrite E by lia. Qed.
Lemma plain_block_ext view view' a : (forall k, view' k = view k) -> plain_block view a -> plain_block view' a.
Proof. intros E [P1 P2 P3 P4 P5]. split; [done|by rewrite (used_ext view)|done|done|by rewrite E]. Qed.
Lemma file_ok_ext view view' ip : (forall k, view' k = view k) -> file_ok view ip -> file_ok view' ip.
Proof.
  intros E [F1 F2 F3 F4 F5 F6]. assert (Hp := fun a => plain_block_ext view view' a E).
  split; [done|done| | | |auto].
  - intros H. destruct (F3 H). auto.
  - intros bn Hb. rewrite (baddr_ext view) by done. intros H. destruct (F4 bn Hb H) as (? & ? & ?). auto.
  - intros b1 b2. rewrite (baddr_ext view view' ip b1), (baddr_ext view view' ip b2) by done. apply F5.
Qed.
Lemma file_step_view view ip view' ip' view'' : (forall k, view'' k = view' k) ->
  file_step view ip view' ip' -> file_step view ip view'' ip'.
Proof.
  intros E [A1 A2 A3 A4 A5 A6 A7 A8 A9 A10 A11]. split; [by apply (file_ok_ext view')|by apply (layout_ext _ _ _ view')|done| | |done| | | | |].
  - intros bn Hb. unfold fblock. rewrite (baddr_ext view'), E by done. by apply A4.
  - intros bn Hb Hne. rewrite (baddr_ext view') by done. by apply A5.
  - intros b P Hb. rewrite E. by apply A7.
  - intros b P. apply (plain_block_ext view'); auto.
  - intros k Hk. rewrite E. by apply A9.
  - intros b Hb Hu. rewrite (used_ext view') by done. by apply A10.
  - intros bn Hb. rewrite (baddr_ext view') by done. by apply A11.
Qed.
Lemma file_step_trans v1 ip1 v2 ip2 v3 ip3 :
  file_step v1 ip1 v2 ip2 -> file_step v2 ip2 v3 ip3 -> file_step v1 ip1 v3 ip3.
Proof.
  intros [A1 A2 A3 A4 A5 A6 A7 A8 A9 A10 A11] [B1 B2 B3 B4 B5 B6 B7 B8 B9 B10 B11].
  assert (Hi : forall b, plain_block v1 b -> b <> ind_of ip1 -> b <> ind_of ip2).
  { intros b [P1 P2 P3 P4 P5] Hb. destruct A6 as [->|[_ Hu]]; [done|]. intros ->. congruence. }
  assert (Hu : ind_of ip2 = 0 -> ind_of ip1 = 0).
  { destruct A6 as [<-|[? _]]; done. }
  split; [done|done| | | | | |by auto| |by auto|].
  - rewrite B3, A3. done.
  - intros bn Hbn. by rewrite B4, A4.
  - intros bn Hbn Hne. rewrite B5 by (rewrite ?A5; done). by apply A5.
  - destruct B6 as [->|[E U]]; [done|]. destruct (decide (ind_of ip3 = 0)) as [E3|E3]; [left; rewrite Hu; done|].
    right. split; [by apply Hu|]. destruct (used dev sb v1 (ind_of ip3)) eqn:E1; [|done].
    destruct (fo_ind _ _ B1 E3) as [[R _ _ _ _] _]. rewrite A10 in U by (done || lia). done.
  - intros b Hb Hne. rewrite B7 by auto. by apply A7.
  - intros k Hk. by rewrite B9, A9.
  - intros bn Hb. destruct (B11 bn Hb) as [->|[N U]]; [by apply A11|right]. split; [done|].
    destruct (used dev sb v1 (baddr v3 ip3 bn)) eqn:E1; [|done].
    destruct (fo_data _ _ B1 bn Hb N) as ([R _ _ _ _] & _). rewrite A10 in U by (done || lia). done.
Qed.

(** A block entry that was missing. *)
Lemma file_ok_extend view ip view' ip' bn n :
  file_ok view ip -> i_dev ip' = i_dev ip -> i_inum ip' = i_inum ip -> length (i_addrs ip') = 13%nat ->
  ind_of ip' = ind_of ip -> (forall a, plain_block view a -> plain_block view' a) ->
  plain_block view' n -> used dev sb view n = false ->
  (forall bn', 0 <= bn' < MAXFILE -> baddr view' ip' bn' = if decide (bn' = bn) then n else baddr view ip bn') ->
  file_ok view' ip'.
Proof.
  intros [F1 F2 F3 F4 F5 F6] Hd Hi Hl Hind Hp Hn Hfree Hb.
  assert (Hne : forall a, plain_block view a -> a <> n) by (intros a [_ U _ _ _] ->; congruence).
  split; [congruence|done|rewrite Hind, Hi; intros H; destruct (F3 H); auto| | |rewrite Hi; auto].
  - intros bn' Hbn. rewrite Hb by done. rewrite Hi, Hind. destruct (decide (bn' = bn)) as [Eb|Eb].
    + intros _. split_and!; [done|by intros E; apply (Hne _ F6)|].
      intros E. assert (H0 : ind_of ip <> 0) by (destruct Hn as [R _ _ _ _]; lia).
      by apply (Hne _ (proj1 (F3 H0))).
    + intros H. destruct (F4 bn' Hbn H) as (P1 & P2 & P3). auto.
  - intros b1 b2 R1 R2. rewrite !Hb by done.
    destruct (decide (b1 = bn)) as [->|E1], (decide (b2 = bn)) as [->|E2]; try done.
    + intros _ E. exfalso. destruct (decide (n = 0)) as [E0|E0]; [destruct Hn as [R _ _ _ _]; lia|].
      apply (Hne (baddr view ip b2)); [|done]. apply F4; [done|congruence].
    + intros H E. exfalso. apply (Hne (baddr view ip b1)); [|done]. by apply F4.
    + by apply F5.
Qed.

Lemma nthZ_insert_at l k j v : 0 <= k < Z.of_nat (length l) -> 0 <= j ->
  nthZ (<[Z.to_nat k := v]> l) j = if decide (j = k) then v else nthZ l j.
Proof. intros Hk Hj. rewrite nthZ_insert by lia. repeat case_decide; try done; lia. Qed.

(** A direct block. *)
Lemma file_step_direct view view' ip bn n :
  layout dev start sb view -> file_ok view ip -> 0 <= bn < NDIRECT -> baddr view ip bn = 0 ->
  allocated view view' n ->
  let ip' := set_i_addrs (<[Z.to_nat bn := n]> (i_addrs ip)) ip in
  file_step view ip view' ip' /\ baddr view' ip' bn = n.
Proof.
  intros LY F Hbn H0 A ip'. pose proof (fo_len _ _ F) as Hl. change NDIRECT with 12 in *.
  assert (Hind : ind_of ip' = ind_of ip).
  { unfold ind_of, ip'. cbn [i_addrs set_i_addrs]. change NDIRECT with 12. rewrite nthZ_insert_at by lia. by rewrite decide_False by lia. }
  assert (Hb : forall bn', 0 <= bn' < MAXFILE -> baddr view' ip' bn' = if decide (bn' = bn) then n else baddr view ip bn').
  { intros bn' Hr. unfold baddr. rewrite Hind. change NDIRECT with 12. bdestr (bn' <? 12).
    - unfold ip'. cbn [i_addrs set_i_addrs]. by apply nthZ_insert_at; lia.
    - rewrite decide_False by lia. bdestr (ind_of ip =? 0); [done|].
      destruct (fo_ind _ _ F E0) as [P _]. by rewrite (proj1 (allocated_plain _ _ _ _ A P)). }
  split; [|rewrite Hb by (unfold MAXFILE, NDIRECT, NINDIRECT, BSIZE; lia); by rewrite decide_True].
  split.
  - apply (file_ok_extend view ip view' ip' bn n); try done.
    + unfold ip'. cbn. by rewrite length_insert.
    + intros a Pa. by apply (allocated_plain _ _ _ _ A).
    + by apply (allocated_new view).
    + apply A.
  - apply A.
  - done.
  - intros b Hr. unfold fblock. rewrite Hb by done. destruct (decide (b = bn)) as [->|Hne].
    + rewrite H0. cbn. bdestr (n =? 0); [done|]. apply A.
    + bdestr (baddr view ip b =? 0); [done|]. destruct (fo_data _ _ F b Hr E) as (P & _).
      apply (allocated_plain _ _ _ _ A P).
  - intros b Hr Hne. rewrite Hb by done. rewrite decide_False; [done|congruence].
  - by left.
  - intros b P _. apply (allocated_plain _ _ _ _ A P).
  - intros b P. apply (allocated_plain _ _ _ _ A P).
  - intros k Hk. apply A; intros ->; done.
  - intros b Hr Hu. rewrite (al_used _ _ _ A) by done. by case_decide.
  - intros b Hr. rewrite Hb by done. case_decide; [right|by left]. split; [|apply A].
    pose proof (pb_range _ _ (allocated_new _ _ _ LY A)). lia.
Qed.

(** The indirect block itself. *)
Lemma file_step_indirect view view' ip n :
  layout dev start sb view -> file_ok view ip -> ind_of ip = 0 -> allocated view view' n ->
  let ip' := set_i_addrs (<[Z.to_nat NDIRECT := n]> (i_addrs ip)) ip in
  file_step view ip view' ip' /\ ind_of ip' = n /\
  (forall bn, 0 <= bn < MAXFILE -> baddr view' ip' bn = baddr view ip bn).
Proof.
  intros LY F H0 A ip'. pose proof (fo_len _ _ F) as Hl.
  pose proof (allocated_new _ _ _ LY A) as Hn. assert (Hn0 : n <> 0) by (destruct Hn as [R _ _ _ _]; lia).
  assert (Hind : ind_of ip' = n).
  { unfold ind_of, ip'. cbn [i_addrs set_i_addrs]. change NDIRECT with 12 in *. rewrite nthZ_insert_at by lia. by rewrite decide_True by lia. }
  assert (Hb : forall bn, 0 <= bn < MAXFILE -> baddr view' ip' bn = baddr view ip bn).
  { intros bn Hr. unfold baddr. rewrite Hind, H0. change NDIRECT with 12. bdestr (bn <? 12).
    - unfold ip'. cbn [i_addrs set_i_addrs]. change NDIRECT with 12. rewrite nthZ_insert_at by lia. by rewrite decide_False by lia.
    - rewrite Z.eqb_refl. replace (n =? 0) with false by lia. rewrite (al_zero _ _ _ A). apply get32_zero. lia. }
  split; [|done]. split.
  - destruct F as [F1 F2 F3 F4 F5 F6]. split.
    + done.
    + unfold ip'. cbn. by rewrite length_insert.
    + rewrite Hind. intros _. split; [done|]. intros E. by apply (allocated_plain _ _ _ _ A F6).
    + intros bn Hr. rewrite Hb, Hind by done. intros H. destruct (F4 bn Hr H) as (P1 & P2 & P3).
      destruct (allocated_plain _ _ _ _ A P1) as (_ & G2 & G3). done.
    + intros b1 b2 R1 R2. rewrite !Hb by done. by apply F5.
    + apply (allocated_plain _ _ _ _ A F6).
  - apply A.
  - done.
  - intros b Hr. unfold fblock. rewrite Hb by done. bdestr (baddr view ip b =? 0); [done|].
    destruct (fo_data _ _ F b Hr E) as (P & _). apply (allocated_plain _ _ _ _ A P).
  - auto.
  - right. split; [done|]. rewrite Hind. apply A.
  - intros b P _. apply (allocated_plain _ _ _ _ A P).
  - intros b P. apply (allocated_plain _ _ _ _ A P).
  - intros k Hk. apply A; intros ->; done.
  - intros b Hr Hu. rewrite (al_used _ _ _ A) by done. by case_decide.
  - intros b Hr. left. auto.
Qed.

(** An entry of the indirect block. *)
Lemma file_step_entry view view1 view' ip bn n :
  layout dev start sb view -> file_ok view ip -> NDIRECT <= bn < MAXFILE -> ind_of ip <> 0 -> baddr view ip bn = 0 ->
  sb_size sb < 2 ^ 32 -> allocated view view1 n ->
  (forall k, view' k = if decide (k = (dev, ind_of ip)) then put32 (view (dev, ind_of ip)) (4 * (bn - NDIRECT)) n else view1 k) ->
  file_step view ip view' ip /\ baddr view' ip bn = n.
Proof.
  intros LY F Hbn Hi H0 Hsz A Hv. pose proof (fo_len _ _ F) as Hl.
  pose proof (al_range _ _ _ A) as Hn. destruct (fo_ind _ _ F Hi) as [Pi Pi2].
  destruct (allocated_plain _ _ _ _ A Pi) as (Ei & Nei & Pi1).
  assert (Hlen : length (view (dev, ind_of ip)) = 1024%nat) by apply Pi.
  assert (HM : MAXFILE = 268) by reflexivity. change NDIRECT with 12 in *.
  assert (Hvp : forall a, plain_block view a -> a <> ind_of ip -> view' (dev, a) = view (dev, a)).
  { intros a P Ha. rewrite Hv, decide_False by congruence. apply (allocated_plain _ _ _ _ A P). }
  assert (Hu : forall j, 0 <= j < sb_size sb -> used dev sb view' j = used dev sb view1 j).
  { intros j Hj. unfold used. rewrite Hv, decide_False; [done|]. intros [= E]. by apply (pb_bmap _ _ Pi j Hj). }
  assert (Hpl : forall a, plain_block view1 a -> plain_block view' a).
  { intros a [P1 P2 P3 P4 P5]. split; [done|rewrite Hu by lia; done|done|done|]. rewrite Hv. case_decide as E; [|done].
    unfold block_size in *. rewrite length_put32 by lia. by rewrite Hlen. }
  assert (Hb : forall bn', 0 <= bn' < MAXFILE -> baddr view' ip bn' = if decide (bn' = bn) then n else baddr view ip bn').
  { intros bn' Hr. unfold baddr. change NDIRECT with 12. bdestr (bn' <? 12); [by rewrite decide_False by lia|].
    replace (ind_of ip =? 0) with false by lia. rewrite Hv, decide_True by done. case_decide as E2.
    - subst. apply get32_put32; lia.
    - apply get32_put32_ne; lia. }
  split; [|rewrite Hb by lia; by rewrite decide_True].
  split.
  - apply (file_ok_extend view ip view' ip bn n); try done.
    + intros a Pa. by apply Hpl, (allocated_plain _ _ _ _ A).
    + by apply Hpl, (allocated_new view).
    + apply A.
  - destruct (al_layout _ _ _ A) as [L1 L2 L3 L4]. split; [done|done| |].
    + intros j Hj. destruct (L3 j Hj) as (B1 & B2 & B3 & B4). split_and!; try done; try lia.
      rewrite Hv, decide_False; [done|]. intros [= E]. by apply (pb_bmap _ _ Pi j Hj).
    + intros j Hj. rewrite Hu by done. by apply L4.
  - done.
  - intros b Hr. unfold fblock. rewrite Hb by done. destruct (decide (b = bn)) as [->|Hne].
    + rewrite H0. cbn. bdestr (n =? 0); [done|]. rewrite Hv, decide_False by congruence. apply A.
    + bdestr (baddr view ip b =? 0); [done|]. destruct (fo_data _ _ F b Hr E) as (P & _ & Hni). by apply Hvp.
  - intros b Hr Hne. rewrite Hb by done. rewrite decide_False; [done|congruence].
  - by left.
  - intros b P Hne. by apply Hvp.
  - intros b P. by apply Hpl, (allocated_plain _ _ _ _ A).
  - intros k Hk. rewrite Hv, decide_False by (intros ->; done). apply A; intros ->; done.
  - intros b Hr Hub. rewrite Hu, (al_used _ _ _ A) by done. by case_decide.
  - intros b Hr. rewrite Hb by done. case_decide; [right|by left]. split; [|apply A].
    pose proof (pb_range _ _ (allocated_new _ _ _ LY A)). lia.
Qed.
End Files.

(** ** Room in the transaction *)
(** Whether block [n] is yet to be logged. *)
Definition newb (n : Z) (bl : list Z) : nat := if decide (n ∈ bl) then 0 else 1.
Lemma length_record n bl : length (record_block n bl) = (length bl + newb n bl)%nat.
Proof. unfold record_block, newb. case_decide; [lia|]. rewrite length_app. cbn. lia. Qed.
Lemma in_record n bl x : x ∈ record_block n bl <-> x = n \/ x ∈ bl.
Proof.
  unfold record_block. case_decide as H; [naive_solver|]. rewrite elem_of_app, list_elem_of_singleton. tauto.
Qed.
Lemma newb_record n bl x : newb x (record_block n bl) = if decide (x = n) then 0%nat else newb x bl.
Proof. unfold newb. repeat case_decide; rewrite ?in_record in *; try done; exfalso; naive_solver. Qed.
Lemma newb_le n bl : (newb n bl <= 1)%nat.
Proof. unfold newb. case_decide; lia. Qed.

(** The blocks logged so far, and the bitmap and the indirect block if they are
    still to come. *)
Definition log_need (sb : superblock) (ip : inode) (bl : list Z) : nat :=
  length bl + newb (BBLOCK 0 sb) bl + (if decide (ind_of ip = 0) then 1 else newb (ind_of ip) bl).

Section Bmap.
Context `{DL : DiskLaws} (i : nat) (pid dev start : Z).

Lemma quiet_get_inode s ii ip : k_inodes s !! ii = Some ip -> quiet (get_inode ii) s ip s.
Proof. intros H. eapply quiet_bind; [apply quiet_reads, _|]. rewrite H. apply quiet_ret. Qed.
Lemma quiet_upd_inode s ii ip f : k_inodes s !! ii = Some ip ->
  quiet (upd_inode ii f) s tt (set_k_inodes (<[ii := f ip]> (k_inodes s)) s).
Proof. intros H. rewrite <- (list_alter_insert f _ _ _ H). apply quiet_modify, _. Qed.
Lemma in_txn_inodes s l P H out bl ins :
  in_txn s i pid l P H dev start out bl -> in_txn (set_k_inodes ins s) i pid l P H dev start out bl.
Proof.
  intros [A G Hlg H1 H2]. split; [|exact G|exact Hlg|exact H1|exact H2].
  destruct A as [[C1 C2 [C3 C4] C5] A1 A2 A3 A4 A5 A6].
  split; [split; [exact C1|exact C2|split; [exact C3|exact C4]|exact C5]|exact A1|exact A2|exact A3|exact A4|exact A5|exact A6].
Qed.

Lemma balloc_alloc s l P H bl :
  in_txn s i pid l P H dev start 1 bl -> (size H < 9)%nat -> layout dev start (k_sb s) (shown s P) ->
  held_used s H dev (k_sb s) (shown s P) -> (length bl + 2 <= Z.to_nat MAXOPBLOCKS)%nat ->
  (0 < nfree dev (k_sb s) (shown s P))%nat ->
  exists n s' l' P', quiet (balloc dev) s n s' /\ wrote [] s s' /\ keeps H s s' /\
    in_txn s' i pid l' P' H dev start 1 (record_block n (record_block (BBLOCK n (k_sb s)) bl)) /\
    allocated dev start (k_sb s) (shown s P) (shown s' P') n.
Proof.
  intros I HH LY HU Hl Hf.
  destruct (balloc_spec s i pid l P H dev start bl I HH LY HU Hl (nfree_pos _ _ _ Hf))
    as (n & s' & l' & P' & Q & W & K & I' & R1 & R2 & R3 & R4 & R5 & R6 & R7).
  exists n, s', l', P'. by split_and!.
Qed.

(** With one bitmap block, every balloc logs the same one. *)
Lemma one_bitmap sb view n : layout dev start sb view -> sb_size sb <= BPB -> 0 <= n < sb_size sb ->
  BBLOCK n sb = BBLOCK 0 sb.
Proof.
  intros LY Hs Hn. rewrite (proj1 (ly_bmap _ _ _ _ LY n Hn)), (proj1 (ly_bmap _ _ _ _ LY 0 ltac:(lia))).
  change BPB with 8192 in *. f_equal. lia.
Qed.

(** *** A block that is there *)
Lemma bmap_mapped s l P out bl ii ip bn :
  in_txn s i pid l P ∅ dev start out bl -> (length bl <= 10)%nat -> k_inodes s !! ii = Some ip -> i_dev ip = dev ->
  0 <= bn < MAXFILE -> baddr dev (shown s P) ip bn <> 0 ->
  exists s' l', quiet (bmap ii bn) s (baddr dev (shown s P) ip bn) s' /\ wrote [] s s' /\
    in_txn s' i pid l' P ∅ dev start out bl.
Proof.
  intros I Hlen Hip Hd Hbn Hne. unfold bmap. unfold baddr in *. bdestr (bn <? NDIRECT).
  - exists s, l. split_and!; [|by apply wrote_nil|done]. eapply quiet_bind; [by apply quiet_get_inode|].
    replace (bn <? NDIRECT) with true by lia. cbv zeta. replace (nthZ (i_addrs ip) bn =? 0) with false by lia.
    apply quiet_ret.
  - unfold ind_of in *. set (ind := nthZ (i_addrs ip) NDIRECT) in *. bdestr (ind =? 0); [done|].
    destruct (in_txn_bread s i pid l P ∅ dev start out bl ind I) as (bp & x & s1 & Hb & Q1 & W1 & _ & Bx & Kx & Dx & I1).
    { rewrite size_empty. assert (20 < NBUF)%nat by (vm_compute; lia). lia. }
    { intros j. set_solver. }
    destruct (in_txn_give_back s1 i pid l P ∅ dev start out bl bp x I1 Hb Bx) as (s2 & l2 & Q2 & W2 & _ & I2).
    { rewrite Dx, Kx. symmetry. by apply shown_same. }
    exists s2, l2. split_and!; [|exact (wrote_trans _ _ _ _ _ W1 W2)|done].
    eapply quiet_bind; [by apply quiet_get_inode|]. replace (bn <? NDIRECT) with false by lia. cbv zeta.
    change MAXFILE with (NDIRECT + NINDIRECT) in Hbn. replace (bn - NDIRECT <? NINDIRECT) with true by lia.
    fold ind. replace (ind =? 0) with false by lia. eapply quiet_bind; [apply quiet_ret|].
    rewrite Hd. eapply quiet_bind; [exact Q1|]. eapply quiet_bind; [by apply quiet_get_buf|]. rewrite Dx.
    replace (get32 _ _ =? 0) with false by lia. eapply quiet_bind; [apply quiet_ret|].
    eapply quiet_bind; [exact Q2|apply quiet_ret].
Qed.

(** *** Allocating a block into the inode *)
Definition alloc_addr (ii : nat) (k : Z) : M Z := addr ← balloc dev; set_addr ii k addr ;; mret addr.
Lemma alloc_addr_spec s l P bl ii ip k :
  in_txn s i pid l P ∅ dev start 1 bl -> k_inodes s !! ii = Some ip -> layout dev start (k_sb s) (shown s P) ->
  (length bl + 2 <= Z.to_nat MAXOPBLOCKS)%nat -> (0 < nfree dev (k_sb s) (shown s P))%nat ->
  exists n s' l' P', quiet (alloc_addr ii k) s n s' /\ fsw s s' /\
    in_txn s' i pid l' P' ∅ dev start 1 (record_block n (record_block (BBLOCK n (k_sb s)) bl)) /\
    k_inodes s' = <[ii := set_i_addrs (<[Z.to_nat k := n]> (i_addrs ip)) ip]> (k_inodes s) /\
    allocated dev start (k_sb s) (shown s P) (shown s' P') n.
Proof.
  intros I Hip LY Hl Hf.
  destruct (balloc_alloc s l P ∅ bl I) as (n & s1 & l1 & P1 & Q & W & _ & I1 & A1);
    [rewrite size_empty; lia|done|apply held_used_none|done|done|].
  pose proof (wrote_inodes _ _ _ W) as Ei. rewrite <- Ei in Hip.
  set (ip' := set_i_addrs (<[Z.to_nat k := n]> (i_addrs ip)) ip).
  exists n, (set_k_inodes (<[ii := ip']> (k_inodes s1)) s1), l1, P1. split_and!.
  - unfold alloc_addr. eapply quiet_bind; [exact Q|]. eapply quiet_bind; [|apply quiet_ret].
    unfold set_addr. by apply (quiet_upd_inode s1 ii ip (fun ip => set_i_addrs (<[Z.to_nat k := n]> (i_addrs ip)) ip)).
  - eapply fsw_trans; [by apply fsw_wrote|apply fsw_set_inodes].
  - by apply in_txn_inodes.
  - cbn. by rewrite Ei.
  - exact A1.
Qed.
Definition fneed (ip : inode) : nat := if decide (ind_of ip = 0) then 1 else 0.

(** What bmap promises: a block of the file, with its potential costs. *)
Record bmap_post (s : kstate) (P : gmap (Z * Z) (Z * list Z)) (bl : list Z) (ii : nat) (ip : inode) (bn a : Z)
    (s' : kstate) (P' : gmap (Z * Z) (Z * list Z)) (bl' : list Z) (ip' : inode) : Prop := {
  bp_fsw : fsw s s';
  bp_txn : exists l', in_txn s' i pid l' P' ∅ dev start 1 bl';
  bp_inode : k_inodes s' = <[ii := ip']> (k_inodes s);
  bp_step : file_step dev start (k_sb s) (shown s P) ip (shown s' P') ip';
  bp_addr : baddr dev (shown s' P') ip' bn = a /\ a <> 0;
  bp_log : (log_need (k_sb s) ip' bl' + newb a bl' <= log_need (k_sb s) ip bl + 1)%nat;
  bp_free : (nfree dev (k_sb s) (shown s P) + fneed ip' <= nfree dev (k_sb s) (shown s' P') + 1 + fneed ip)%nat;
}.

Lemma record_need sb ip ip' bl n bm : bm = BBLOCK 0 sb -> ind_of ip' = ind_of ip ->
  (log_need sb ip' (record_block n (record_block bm bl)) + newb n (record_block n (record_block bm bl)) <= log_need sb ip bl + 1)%nat.
Proof.
  intros -> Hi. unfold log_need. rewrite Hi, !length_record, !newb_record. repeat case_decide; try lia;
  pose proof (newb_le n bl); pose proof (newb_le (BBLOCK 0 sb) bl); pose proof (newb_le (ind_of ip) bl); lia.
Qed.

Lemma bmap_direct s l P bl ii ip bn :
  in_txn s i pid l P ∅ dev start 1 bl -> k_inodes s !! ii = Some ip -> layout dev start (k_sb s) (shown s P) ->
  file_ok dev start (k_sb s) (shown s P) ip -> sb_size (k_sb s) <= BPB -> 0 <= bn < NDIRECT ->
  baddr dev (shown s P) ip bn = 0 ->
  (length bl + 2 <= Z.to_nat MAXOPBLOCKS)%nat -> (0 < nfree dev (k_sb s) (shown s P))%nat ->
  exists a s' P' bl' ip', quiet (bmap ii bn) s a s' /\ bmap_post s P bl ii ip bn a s' P' bl' ip'.
Proof.
  intros I Hip LY F Hs Hbn H0 Hl Hf.
  destruct (alloc_addr_spec s l P bl ii ip bn I Hip LY Hl Hf) as (n & s' & l' & P' & Q & W & I' & Ei & A).
  destruct (file_step_direct dev start (k_sb s) _ _ ip bn n LY F Hbn H0 A) as [St Ea].
  set (ip' := set_i_addrs (<[Z.to_nat bn := n]> (i_addrs ip)) ip) in *.
  assert (Hind : ind_of ip' = ind_of ip).
  { pose proof (fo_len _ _ _ _ _ F). unfold ind_of, ip'. cbn [i_addrs set_i_addrs]. change NDIRECT with 12 in *.
    rewrite nthZ_insert_at by lia. by rewrite decide_False by lia. }
  exists n, s', P', (record_block n (record_block (BBLOCK n (k_sb s)) bl)), ip'. split.
  - unfold bmap. eapply quiet_bind; [by apply quiet_get_inode|]. replace (bn <? NDIRECT) with true by lia. cbv zeta.
    unfold baddr in H0. replace (bn <? NDIRECT) with true in H0 by lia. rewrite H0. cbn [Z.eqb].
    rewrite (fo_dev _ _ _ _ _ F). exact Q.
  - split; [done|by exists l'|done|done| | |].
    + split; [done|]. pose proof (pb_range _ _ _ _ _ (allocated_new _ _ _ _ _ _ LY A)). lia.
    + apply record_need; [|done]. apply (one_bitmap _ _ _ LY Hs), A.
    + rewrite (nfree_take _ _ _ _ n (al_range _ _ _ _ _ _ A) (al_free _ _ _ _ _ _ A) (al_used _ _ _ _ _ _ A)).
      unfold fneed. rewrite Hind. lia.
Qed.

(** *** Allocating a block into the indirect block *)
(** The end of bmap, with the indirect block at [ind]. *)
Definition ind_entry (ind k : Z) : M Z :=
  bp ← bread dev ind;
  x ← get_buf bp;
  let addr := get32 (b_data x) (4 * k) in
  addr ← (if addr =? 0 then
            addr ← balloc dev;
            upd_buf bp (fun x => set_b_data (put32 (b_data x) (4 * k) addr) x) ;;
            log_write bp ;;
            mret addr
          else mret addr);
  brelse bp ;;
  mret addr.

Lemma held_ind s l P H bl sb (view : Z * Z -> list Z) ind bp x :
  in_txn s i pid l P H dev start 1 bl -> H = {[bp]} -> k_bufs s !! bp = Some x -> key x = (dev, ind) ->
  plain_block dev start sb view ind -> held_used s H dev sb view.
Proof.
  intros I -> Bx Kx [P1 P2 P3 P4 P5] n Hn. split; [|intros Hf]; intros j y ->%elem_of_singleton Hy;
    rewrite Bx in Hy; injection Hy as <-; rewrite Kx; intros [= E].
  - by apply (P4 n).
  - congruence.
Qed.

Lemma record_need_entry sb ip bl n bm : bm = BBLOCK 0 sb -> ind_of ip <> 0 ->
  let bl' := record_block (ind_of ip) (record_block n (record_block bm bl)) in
  (log_need sb ip bl' + newb n bl' <= log_need sb ip bl + 1)%nat.
Proof.
  intros -> Hi bl'. unfold bl', log_need. rewrite !decide_False by done. rewrite !length_record, !newb_record.
  pose proof (newb_le n bl). repeat case_decide; try lia; subst; lia.
Qed.

Lemma ind_entry_spec s l P bl ii ip bn :
  in_txn s i pid l P ∅ dev start 1 bl -> k_inodes s !! ii = Some ip -> layout dev start (k_sb s) (shown s P) ->
  file_ok dev start (k_sb s) (shown s P) ip -> sb_size (k_sb s) <= BPB -> NDIRECT <= bn < MAXFILE ->
  ind_of ip <> 0 -> baddr dev (shown s P) ip bn = 0 ->
  (log_need (k_sb s) ip bl + 2 <= Z.to_nat MAXOPBLOCKS)%nat -> (0 < nfree dev (k_sb s) (shown s P))%nat ->
  exists a s' P' bl', quiet (ind_entry (ind_of ip) (bn - NDIRECT)) s a s' /\ bmap_post s P bl ii ip bn a s' P' bl' ip.
Proof.
  intros I Hip LY F Hs Hbn Hi H0 Hl Hf. set (ind := ind_of ip) in *. set (sb := k_sb s) in *.
  destruct (fo_ind _ _ _ _ _ F Hi) as [Pi _]. assert (HNB : (20 < NBUF)%nat) by (vm_compute; lia).
  assert (Hlen : (length bl + 2 <= Z.to_nat MAXOPBLOCKS)%nat) by (unfold log_need in Hl; lia).
  change (Z.to_nat MAXOPBLOCKS) with 10%nat in *.
  destruct (in_txn_bread s i pid l P ∅ dev start 1 bl ind I) as (bp & x & s1 & Hb & Q1 & W1 & _ & Bx & Kx & Dx & I1).
  { rewrite size_empty. lia. } { intros j. set_solver. }
  rewrite union_empty_r_L in I1.
  assert (Hsh1 : forall k, shown s1 P k = shown s P k) by (intros k; by apply shown_same).
  assert (Hsb1 : k_sb s1 = sb) by apply (frame_sb _ _ _ W1).
  assert (LY1 : layout dev start (k_sb s1) (shown s1 P)) by (rewrite Hsb1; by apply (layout_ext _ _ _ (shown s P))).
  assert (Hus : forall j, used dev sb (shown s1 P) j = used dev sb (shown s P) j) by (intros j; unfold used; by rewrite Hsh1).
  destruct (balloc_alloc s1 l P {[bp]} bl I1) as (n & s2 & l2 & P2 & Q2 & W2 & K2 & I2 & A2); rewrite ?Hsb1 in *.
  { rewrite size_singleton. lia. } { done. }
  { apply (held_ind s1 l P {[bp]} bl sb _ ind bp x I1 eq_refl Bx Kx).
    destruct Pi as [P1 P2 P3 P4 P5]. split; [done|by rewrite Hus|done|done|by rewrite Hsh1]. }
  { unfold MAXOPBLOCKS. lia. }
  { unfold nfree in *. erewrite filter_ext_in; [exact Hf|]. intros j _. cbn. by rewrite Hus. }
  (* the same allocation, seen from s *)
  assert (A : allocated dev start sb (shown s P) (shown s2 P2) n).
  { destruct A2 as [B1 B2 B3 B4 B5 B6]. split; [done|by rewrite <- Hus|done| |intros k k1 k2; by rewrite B5|done].
    intros j Hj. by rewrite B4, Hus. }
  destruct (K2 bp x ltac:(set_solver) Bx) as (y & By & Ky & Dy). rewrite Kx in Ky. rewrite Dx in Dy.
  assert (Ep : ({[bp]} : gset nat) = {[bp]} ∪ ∅) by set_solver. rewrite Ep in I2.
  set (dt := put32 (shown s P (dev, ind)) (4 * (bn - NDIRECT)) n).
  destruct (in_txn_put_back s2 i pid l2 P2 ∅ dev start 1 _ bp y
    (fun x => set_b_data (put32 (b_data x) (4 * (bn - NDIRECT)) n) x) ind dt I2 ltac:(lia) ltac:(set_solver) By Ky)
    as (s3 & s4 & s5 & l5 & Q3 & Q4 & Q5 & W5 & _ & I5).
  { by rewrite Dy. }
  { rewrite !length_record, newb_record. pose proof (newb_le n bl). pose proof (newb_le (BBLOCK n sb) bl).
    unfold log_need in Hl. rewrite decide_False in Hl by done. rewrite (one_bitmap _ _ _ LY Hs) in * by apply A.
    change (Z.to_nat MAXOPBLOCKS) with 10%nat. case_decide; lia. }
  { apply LY. } { destruct Pi as [R _ _ _ _], LY as [_ ? _ _]. lia. } { apply Pi. }
  destruct (file_step_entry dev start sb (shown s P) (shown s2 P2)
    (shown s5 (<[(dev, ind) := (1, dt)]> P2)) ip bn n LY F Hbn Hi H0) as [St Ea].
  { destruct LY as [_ ? _ _]. lia. } { exact A. }
  { intros k. by rewrite (shown_put s2 s5 P2 _ _ W5). }
  exists n, s5, (<[(dev, ind) := (1, dt)]> P2), (record_block ind (record_block n (record_block (BBLOCK n sb) bl))).
  assert (W15 : wrote [] s s5) by apply (wrote_trans [] [] _ _ _ W1 (wrote_trans [] [] _ _ _ W2 W5)).
  split.
  - unfold ind_entry. eapply quiet_bind; [exact Q1|]. eapply quiet_bind; [by apply quiet_get_buf|]. rewrite Dx.
    unfold baddr in H0. replace (bn <? NDIRECT) with false in H0 by lia. fold ind in H0.
    replace (ind =? 0) with false in H0 by lia. rewrite H0. cbn [Z.eqb]. cbv zeta.
    eapply (quiet_bind _ _ _ n s4); [|eapply quiet_bind; [exact Q5|apply quiet_ret]].
    eapply quiet_bind; [exact Q2|]. eapply quiet_bind; [exact Q3|]. eapply quiet_bind; [exact Q4|apply quiet_ret].
  - split; [by apply fsw_wrote|by exists l5| |done| | |].
    + rewrite (wrote_inodes _ _ _ W15). by rewrite list_insert_id.
    + split; [done|]. pose proof (pb_range _ _ _ _ _ (allocated_new _ _ _ _ _ _ LY A)). lia.
    + apply record_need_entry; [|done]. apply (one_bitmap _ _ _ LY Hs), A.
    + fold sb. rewrite (nfree_take _ _ _ _ n (al_range _ _ _ _ _ _ A) (al_free _ _ _ _ _ _ A) (al_used _ _ _ _ _ _ A)).
      assert (nfree dev sb (shown s2 P2) = nfree dev sb (shown s5 (<[(dev, ind) := (1, dt)]> P2))) as ->; [|lia].
      unfold nfree. f_equal. apply filter_ext_in. intros j Hj%elem_of_seq. unfold used.
      rewrite (shown_put s2 s5 P2 _ _ W5), decide_False; [done|]. intros [= E].
      apply (pb_bmap _ _ _ _ _ Pi (Z.of_nat j)); [lia|done].
Qed.

Lemma bmap_post_refl s l P bl ii ip bn :
  in_txn s i pid l P ∅ dev start 1 bl -> k_inodes s !! ii = Some ip -> layout dev start (k_sb s) (shown s P) ->
  file_ok dev start (k_sb s) (shown s P) ip -> (length bl <= 10)%nat -> 0 <= bn < MAXFILE ->
  baddr dev (shown s P) ip bn <> 0 ->
  exists s', quiet (bmap ii bn) s (baddr dev (shown s P) ip bn) s' /\
    bmap_post s P bl ii ip bn (baddr dev (shown s P) ip bn) s' P bl ip.
Proof.
  intros I Hip LY F Hl Hbn Hne.
  destruct (bmap_mapped s l P 1 bl ii ip bn I Hl Hip (fo_dev _ _ _ _ _ F) Hbn Hne) as (s' & l' & Q & W & I').
  assert (Hsh : forall k, shown s' P k = shown s P k) by (intros k; by apply shown_same).
  exists s'. split; [done|]. split.
  - by apply fsw_wrote.
  - by exists l'.
  - rewrite (wrote_inodes _ _ _ W). by rewrite list_insert_id.
  - pose proof (file_step_refl _ _ _ _ ip F LY) as St. by apply (file_step_view _ _ _ _ _ (shown s P)).
  - split; [|done]. by apply baddr_ext.
  - pose proof (newb_le (baddr dev (shown s P) ip bn) bl). lia.
  - rewrite (nfree_ext _ _ (shown s P) (shown s' P)) by done. lia.
Qed.

(** bmap: the block is there, or it is made. *)
Lemma bmap_spec s l P bl ii ip bn :
  in_txn s i pid l P ∅ dev start 1 bl -> k_inodes s !! ii = Some ip -> layout dev start (k_sb s) (shown s P) ->
  file_ok dev start (k_sb s) (shown s P) ip -> sb_size (k_sb s) <= BPB -> 0 <= bn < MAXFILE ->
  (log_need (k_sb s) ip bl + 2 <= Z.to_nat MAXOPBLOCKS)%nat -> (fneed ip < nfree dev (k_sb s) (shown s P))%nat ->
  exists a s' P' bl' ip', quiet (bmap ii bn) s a s' /\ bmap_post s P bl ii ip bn a s' P' bl' ip'.
Proof.
  intros I Hip LY F Hs Hbn Hl Hf.
  assert (Hlen : (length bl + 2 <= Z.to_nat MAXOPBLOCKS)%nat) by (unfold log_need in Hl; lia).
  destruct (decide (baddr dev (shown s P) ip bn = 0)) as [H0|H0].
  2:{ destruct (bmap_post_refl s l P bl ii ip bn I Hip LY F) as (s' & Q & B); try done.
      { change (Z.to_nat MAXOPBLOCKS) with 10%nat in *. lia. } eauto 10. }
  destruct (decide (bn < NDIRECT)) as [Hd|Hd].
  { apply (bmap_direct s l P bl ii ip bn); try done; lia. }
  change MAXFILE with (NDIRECT + NINDIRECT) in Hbn.
  assert (Hcode : forall ind s1 a s2, quiet (if ind_of ip =? 0 then alloc_addr ii NDIRECT else mret (ind_of ip)) s ind s1 ->
    quiet (ind_entry ind (bn - NDIRECT)) s1 a s2 -> quiet (bmap ii bn) s a s2).
  { intros ind s1 a s2 R1 R2. unfold bmap. eapply quiet_bind; [by apply quiet_get_inode|].
    replace (bn <? NDIRECT) with false by lia. cbv zeta. replace (bn - NDIRECT <? NINDIRECT) with true by lia.
    rewrite (fo_dev _ _ _ _ _ F). fold (ind_of ip). eapply quiet_bind; [exact R1|exact R2]. }
  destruct (decide (ind_of ip = 0)) as [Hi|Hi].
  - unfold fneed in Hf. rewrite decide_True in Hf by done.
    destruct (alloc_addr_spec s l P bl ii ip NDIRECT I Hip LY Hlen ltac:(lia)) as (n & s1 & l1 & P1 & Q1 & W1 & I1 & Ei & A).
    destruct (file_step_indirect dev start (k_sb s) _ _ ip n LY F Hi A) as (St & Eind & Eb).
    set (ip1 := set_i_addrs (<[Z.to_nat NDIRECT := n]> (i_addrs ip)) ip) in *.
    pose proof (pb_range _ _ _ _ _ (allocated_new _ _ _ _ _ _ LY A)) as Hn.
    pose proof (nfree_take _ _ _ _ n (al_range _ _ _ _ _ _ A) (al_free _ _ _ _ _ _ A) (al_used _ _ _ _ _ _ A)) as Hnf.
    pose proof (fsw_sb _ _ W1) as Hsb. set (bl1 := record_block n (record_block (BBLOCK n (k_sb s)) bl)) in *.
    assert (Hneed : (log_need (k_sb s) ip1 bl1 <= log_need (k_sb s) ip bl)%nat).
    { unfold log_need, bl1. rewrite Eind, Hi, decide_False, decide_True by (done || lia).
      rewrite (one_bitmap _ _ _ LY Hs) by lia. rewrite !length_record, !newb_record.
      pose proof (newb_le n bl). repeat case_decide; try done; lia. }
    destruct (ind_entry_spec s1 l1 P1 bl1 ii ip1 bn I1) as (a & s2 & P2 & bl2 & Q2 & B); rewrite ?Hsb; try done.
    { rewrite Ei. apply list_lookup_insert_eq. by eapply lookup_lt_Some. }
    { apply A. } { apply St. } { unfold MAXFILE. lia. } { rewrite Eind. lia. } { rewrite Eb; [done|]. unfold MAXFILE. lia. }
    { lia. } { lia. }
    rewrite Eind in Q2. exists a, s2, P2, bl2, ip1. split; [apply (Hcode n s1); [by rewrite Hi|done]|].
    destruct B as [B1 B2 B3 B4 B5 B6 B7]. rewrite Hsb in *. split; [by eapply fsw_trans|done| | |done| |].
    + rewrite B3, Ei. by rewrite list_insert_insert_eq.
    + by eapply file_step_trans.
    + lia.
    + assert (fneed ip1 = 0%nat) as E1 by (unfold fneed; rewrite Eind; by rewrite decide_False by lia).
      assert (fneed ip = 1%nat) as E2 by (unfold fneed; by rewrite decide_True). rewrite E1, E2 in *. lia.
  - destruct (ind_entry_spec s l P bl ii ip bn I Hip LY F Hs ltac:(unfold MAXFILE; lia) Hi H0 Hl ltac:(lia)) as (a & s2 & P2 & bl2 & Q2 & B).
    exists a, s2, P2, bl2, ip. split; [|done]. apply (Hcode (ind_of ip) s); [|done].
    replace (ind_of ip =? 0) with false by lia. apply quiet_ret.
Qed.
End Bmap.
