(* ===== verification/FileIO.v ===== *)
(** * Reading and writing a file: readi and writei

    [fbytes view ip off n]: the [n] bytes of the file from [off] on, where [view]
    gives the blocks as the transaction shows them.  readi copies these bytes to
    its destination; writei changes exactly the bytes it is given.  What the two
    need of a destination or a source (user memory, or a variable of the kernel)
    is stated by the classes [Sink] and [Source], whose instances are discharged
    by the theorems about copyout and copyin. *)
From S2P Require Import Prelude Mem Riscv State Spinlock Kalloc Vm PageTable VmProofs UserCopy Proc ProcProofs Sleeplock SleeplockProofs Bio BioProofs BioSpec Log LogProofs LogCrash Txn Fs PipeProofs BallocProofs InodeProofs BmapProofs.

#[local] Arguments nthZ : simpl never.

(** ** The bytes of a file *)
Definition fbyte (dev : Z) (view : Z * Z -> list Z) (ip : inode) (o : Z) : Z :=
  nthZ (fblock dev view ip (o / BSIZE)) (o mod BSIZE).
Definition fbytes (dev : Z) (view : Z * Z -> list Z) (ip : inode) (off : Z) (n : nat) : list Z :=
  (fun k => fbyte dev view ip (off + Z.of_nat k)) <$> seq 0 n.

Lemma length_fbytes dev view ip off n : length (fbytes dev view ip off n) = n.
Proof. unfold fbytes. by rewrite length_fmap, length_seq. Qed.
Lemma fbytes_app dev view ip off n k :
  fbytes dev view ip off (n + k) = fbytes dev view ip off n ++ fbytes dev view ip (off + Z.of_nat n) k.
Proof.
  unfold fbytes. rewrite seq_app, fmap_app. apply (f_equal (app _)).
  rewrite (Nat.add_comm 0 n), <- fmap_add_seq, <- list_fmap_compose.
  apply list_fmap_ext. intros j x _. unfold compose. f_equal. lia.
Qed.
Lemma lookup_fbytes dev view ip off n k : (k < n)%nat ->
  fbytes dev view ip off n !! k = Some (fbyte dev view ip (off + Z.of_nat k)).
Proof. intros H. unfold fbytes. by rewrite list_lookup_fmap, lookup_seq_lt. Qed.
Lemma fbytes_ext dev view view' ip ip' off n :
  (forall o, off <= o < off + Z.of_nat n -> fbyte dev view ip o = fbyte dev view' ip' o) ->
  fbytes dev view ip off n = fbytes dev view' ip' off n.
Proof.
  intros H. unfold fbytes. apply list_fmap_ext. intros j x Hj. apply lookup_seq in Hj as [-> Hj]. apply H. lia.
Qed.

(** The part of one block that a read copies. *)
Lemma slice_fbytes dev view ip off m :
  0 <= off -> off mod BSIZE + Z.of_nat m <= BSIZE -> block_size (fblock dev view ip (off / BSIZE)) ->
  slice (fblock dev view ip (off / BSIZE)) (Z.to_nat (off mod BSIZE)) m = fbytes dev view ip off m.
Proof.
  intros Ho Hm Hs. unfold block_size in Hs. unfold BSIZE in *. apply list_eq. intros k.
  destruct (decide (k < m)%nat) as [Hk|Hk].
  - rewrite lookup_fbytes by done. unfold slice. rewrite lookup_take_lt, lookup_drop by done.
    unfold fbyte, BSIZE. replace ((off + Z.of_nat k) / 1024) with (off / 1024) by lia.
    replace ((off + Z.of_nat k) mod 1024) with (off mod 1024 + Z.of_nat k) by lia.
    set (d := fblock dev view ip (off / 1024)) in *.
    destruct (lookup_lt_is_Some_2 d (Z.to_nat (off mod 1024) + k)) as [v Hv]; [lia|]. rewrite Hv. f_equal.
    symmetry. apply (nthZ_lookup d (Z.to_nat (off mod 1024) + k)) in Hv. rewrite <- Hv. f_equal. lia.
  - rewrite !lookup_ge_None_2; [done|rewrite length_fbytes; lia|]. rewrite length_slice; lia.
Qed.

(** ** Where the bytes go, and where they come from *)
(** [I t d rem acc]: [acc] has been copied, and [rem] more bytes can be. *)
Class Sink (I : kstate -> iodst -> Z -> list Z -> Prop) : Prop := {
  sink_stable t t' d rem acc : wrote [] t t' -> I t d rem acc -> I t' d rem acc;
  sink_copy t d rem acc bs : I t d rem acc -> 0 < Z.of_nat (length bs) <= rem ->
    exists m', quiet (copy_to d bs (Z.of_nat (length bs))) t 0 (set_k_mem m' t) /\
      I (set_k_mem m' t) (dst_add d (Z.of_nat (length bs))) (rem - Z.of_nat (length bs)) (acc ++ bs);
}.
(** [J t d data]: the bytes [data] are to be had from [d]. *)
Class Source (J : kstate -> iosrc -> list Z -> Prop) : Prop := {
  source_stable t t' d data : fsw t t' -> J t d data -> J t' d data;
  source_copy t d data m : J t d data -> (0 < m <= length data)%nat ->
    quiet (copy_from d (Z.of_nat m)) t (0, take m data) t /\ J t (src_add d (Z.of_nat m)) (drop m data);
}.

(** A local variable. *)
Definition local_sink (t : kstate) (d : iodst) (rem : Z) (acc : list Z) : Prop := d = ToLocal.
#[export] Instance local_sink_ok : Sink local_sink.
Proof.
  split.
  - intros t t' d rem acc _ ->. done.
  - intros t d rem acc bs -> H. exists (k_mem t). split; [apply quiet_ret|done].
Qed.
Definition local_source (t : kstate) (d : iosrc) (data : list Z) : Prop := d = FromLocal data.
#[export] Instance local_source_ok : Source local_source.
Proof.
  split.
  - intros t t' d data _ ->. done.
  - intros t d data m -> Hm. cbn. rewrite Nat2Z.id. split; [apply quiet_ret|done].
Qed.

(** ** readi *)
(** What a read may change: buffers, and the memory it copies to. *)
Definition rdw (s s' : kstate) : Prop := wrote [] (set_k_mem (k_mem s') s) s'.
Lemma wrote_mem ws s s' : wrote ws s s' -> k_mem s' = k_mem s.
Proof. intros (_ & _ & E). change (k_mem (frame s') = k_mem (frame s)). by rewrite E. Qed.
Lemma rdw_wrote s s' : wrote [] s s' -> rdw s s'.
Proof. intros W. unfold rdw. rewrite (wrote_mem _ _ _ W). exact W. Qed.
Lemma wrote_set_mem m s s' : wrote [] s s' -> wrote [] (set_k_mem m s) (set_k_mem m s').
Proof.
  intros (E1 & E2 & E3). split_and!; [exact E1|exact E2|].
  change (set_k_mem m (frame s') = set_k_mem m (frame s)). by rewrite E3.
Qed.
Lemma rdw_trans s1 s2 s3 : rdw s1 s2 -> rdw s2 s3 -> rdw s1 s3.
Proof.
  unfold rdw. intros W1 W2. apply (wrote_set_mem (k_mem s3)) in W1. exact (wrote_trans [] [] _ _ _ W1 W2).
Qed.
Lemma rdw_set_mem s m : rdw s (set_k_mem m s).
Proof. by apply wrote_nil. Qed.
Lemma rdw_inodes s s' : rdw s s' -> k_inodes s' = k_inodes s.
Proof. intros W. by rewrite (wrote_inodes _ _ _ W). Qed.
Lemma rdw_shown s s' P k : rdw s s' -> shown s' P k = shown s P k.
Proof. intros W. by rewrite (shown_same _ _ P k W). Qed.

Section FileIO.
Context `{DL : DiskLaws} (i : nat) (pid dev start : Z).

Lemma in_txn_mem s l P H out bl m :
  in_txn s i pid l P H dev start out bl -> in_txn (set_k_mem m s) i pid l P H dev start out bl.
Proof.
  intros [A G Hlg H1 H2]. split; [|exact G|exact Hlg|exact H1|exact H2].
  destruct A as [[C1 C2 [C3 C4] C5] A1 A2 A3 A4 A5 A6].
  split; [split; [exact C1|exact C2|split; [exact C3|exact C4]|exact C5]|exact A1|exact A2|exact A3|exact A4|exact A5|exact A6].
Qed.

(** The blocks of the bytes from [off] to [off + n] exist and are whole. *)
Definition readable (view : Z * Z -> list Z) (ip : inode) (off n : Z) : Prop :=
  0 <= off /\ off + n <= MAXFILE * BSIZE /\
  forall o, off <= o < off + n -> baddr dev view ip (o / BSIZE) <> 0 /\ block_size (view (dev, baddr dev view ip (o / BSIZE))).

Lemma readi_loop_spec (I : kstate -> iodst -> Z -> list Z -> Prop) `{!Sink I} P out bl ii ip view n fuel :
  (length bl <= 10)%nat -> i_dev ip = dev -> forall s l off tot d acc,
  in_txn s i pid l P ∅ dev start out bl -> k_inodes s !! ii = Some ip -> (forall k, shown s P k = view k) ->
  0 <= tot <= n -> readable view ip off (n - tot) ->
  (1 <= fuel)%nat -> tot = n \/ off mod BSIZE + (n - tot) <= BSIZE * (Z.of_nat fuel - 1) -> I s d (n - tot) acc ->
  let r := acc ++ fbytes dev view ip off (Z.to_nat (n - tot)) in
  exists s' l' d', quiet (readi_loop fuel ii d off n tot acc) s r s' /\ rdw s s' /\
    in_txn s' i pid l' P ∅ dev start out bl /\ I s' d' 0 r.
Proof.
  intros Hbl Hd. assert (HNB : (20 < NBUF)%nat) by (vm_compute; lia).
  induction fuel as [|fuel IH]; intros s l off tot d acc It Hip Hv Htot HR Hf1 Hf HI r; [lia|].
  cbn [readi_loop]. bdestr (tot <? n); cbn [negb].
  2:{ unfold r. replace (n - tot) with 0 in HI |- * by lia.
      change (fbytes dev view ip off (Z.to_nat 0)) with (@nil Z). rewrite app_nil_r. exists s, l, d.
      split_and!; [apply quiet_ret|by apply rdw_wrote, wrote_nil|done|done]. }
  destruct HR as (Ho & Hmax & HR). destruct (HR off ltac:(lia)) as [Hne Hbs].
  assert (HB : BSIZE = 1024) by reflexivity. assert (HM : MAXFILE = 268) by reflexivity.
  set (a := baddr dev view ip (off / BSIZE)) in *.
  assert (Ea : baddr dev (shown s P) ip (off / BSIZE) = a) by (apply baddr_ext; done).
  destruct (bmap_mapped i pid dev start s l P out bl ii ip (off / BSIZE) It Hbl Hip Hd) as (s1 & l1 & Q1 & W1 & I1);
    [rewrite HB, HM in *; lia|by rewrite Ea|]. rewrite Ea in Q1.
  destruct (in_txn_bread s1 i pid l1 P ∅ dev start out bl a I1) as (bp & x & s2 & Hb & Q2 & W2 & _ & Bx & Kx & Dx & I2).
  { rewrite size_empty. lia. } { intros j. set_solver. }
  pose proof (wrote_trans [] [] _ _ _ W1 W2) as W12.
  assert (Dx' : b_data x = view (dev, a)) by (rewrite Dx, (shown_same _ _ P _ W1); apply Hv).
  set (m := Z.min (n - tot) (BSIZE - off mod BSIZE)).
  assert (Hm : 0 < m <= n - tot /\ off mod BSIZE + m <= BSIZE) by (unfold m; rewrite HB; lia).
  assert (Ebs : slice (b_data x) (Z.to_nat (off mod BSIZE)) (Z.to_nat m) = fbytes dev view ip off (Z.to_nat m)).
  { rewrite Dx'. assert (Efb : view (dev, a) = fblock dev view ip (off / BSIZE)).
    { unfold fblock. fold a. by replace (a =? 0) with false by lia. }
    rewrite Efb. apply slice_fbytes; [done|lia|]. by rewrite <- Efb. }
  destruct (sink_copy s2 d (n - tot) acc (fbytes dev view ip off (Z.to_nat m))) as (m' & Q3 & HI3).
  { by apply (sink_stable s). } { rewrite length_fbytes. lia. }
  rewrite length_fbytes, Z2Nat.id in Q3, HI3 by lia.
  set (s3 := set_k_mem m' s2) in *.
  destruct (in_txn_give_back s3 i pid l1 P ∅ dev start out bl bp x) as (s4 & l4 & Q4 & W4 & _ & I4).
  { by apply in_txn_mem. } { done. } { done. }
  { rewrite Kx, Dx'. change (shown s3 P (dev, a)) with (shown s2 P (dev, a)). by rewrite (shown_same _ _ P _ W12), Hv. }
  assert (R4 : rdw s s4).
  { eapply rdw_trans; [apply rdw_wrote, W12|]. eapply rdw_trans; [apply (rdw_set_mem s2 m')|by apply rdw_wrote]. }
  destruct (IH s4 l4 (off + m) (tot + m) (dst_add d m) (acc ++ fbytes dev view ip off (Z.to_nat m)))
    as (s5 & l5 & d5 & Q5 & R5 & I5 & HI5).
  - done.
  - by rewrite (rdw_inodes _ _ R4).
  - intros k. by rewrite (rdw_shown _ _ _ _ R4).
  - lia.
  - split_and!; [lia|lia|]. intros o Ho'. apply HR. lia.
  - destruct Hf as [->|Hf]; [lia|]. rewrite HB in *. lia.
  - destruct (decide (tot + m = n)) as [|Hne2]; [by left|right]. destruct Hf as [->|Hf]; [lia|].
    assert (Em : m = BSIZE - off mod BSIZE) by (unfold m; lia). clearbody m. rewrite HB in *. lia.
  - apply (sink_stable s3 s4 _ _ _ W4). by replace (n - (tot + m)) with (n - tot - m) by lia.
  - assert (Er : acc ++ fbytes dev view ip off (Z.to_nat m) ++ fbytes dev view ip (off + m) (Z.to_nat (n - (tot + m))) = r).
    { unfold r. f_equal. replace (Z.to_nat (n - tot)) with (Z.to_nat m + Z.to_nat (n - (tot + m)))%nat by lia.
      rewrite fbytes_app. by rewrite Z2Nat.id by lia. }
    rewrite <- app_assoc, Er in Q5, HI5. exists s5, l5, d5. split_and!; [|by eapply rdw_trans|done|done].
    eapply quiet_bind; [exact Q1|]. eapply quiet_bind; [apply quiet_get_inode; by rewrite (wrote_inodes _ _ _ W1)|].
    rewrite Hd. eapply quiet_bind; [exact Q2|]. cbv zeta. fold m. eapply quiet_bind; [by apply quiet_get_buf|].
    rewrite Ebs. eapply quiet_bind; [exact Q3|]. cbn [Z.eqb]. eapply quiet_bind; [exact Q4|exact Q5].
Qed.
End FileIO.

(** ** What a write does to a file *)
Section Written.
Context (dev start : Z) (sb : superblock).
Implicit Types (view : Z * Z -> list Z) (ip : inode).

Definition file_max : Z := MAXFILE * BSIZE.
(** [b] is in use, but not by this file. *)
Definition foreign view ip (b : Z) : Prop :=
  plain_block dev start sb view b /\ b <> ind_of ip /\
  forall bn, 0 <= bn < MAXFILE -> b <> baddr dev view ip bn.
(** The bytes [data] have been written at [off]. *)
Record written view ip view' ip' (off : Z) (data : list Z) : Prop := {
  wr_ok : file_ok dev start sb view' ip';
  wr_layout : layout dev start sb view';
  wr_fields : ip' = set_i_addrs (i_addrs ip') ip;
  wr_bytes : forall o, 0 <= o < file_max -> fbyte dev view' ip' o =
    if (off <=? o) && (o <? off + Z.of_nat (length data)) then nthZ data (o - off) else fbyte dev view ip o;
  wr_mapped : forall bn, 0 <= bn < MAXFILE -> baddr dev view ip bn <> 0 -> baddr dev view' ip' bn <> 0;
  wr_new : forall o, off <= o < off + Z.of_nat (length data) -> baddr dev view' ip' (o / BSIZE) <> 0;
  wr_foreign : forall b, foreign view ip b -> foreign view' ip' b /\ view' (dev, b) = view (dev, b);
  wr_other : forall k, k.1 <> dev -> view' k = view k;
}.

Lemma file_step_written view ip view' ip' off :
  file_step dev start sb view ip view' ip' -> written view ip view' ip' off [].
Proof.
  intros [A1 A2 A3 A4 A5 A6 A7 A8 A9 A10 A11]. split; [done|done|done| | | | |done].
  - intros o Ho. replace ((off <=? o) && _) with false by (cbn [length]; lia). unfold fbyte. rewrite A4; [done|].
    unfold file_max, MAXFILE, NDIRECT, NINDIRECT, BSIZE in *. lia.
  - intros bn Hb Hne. by rewrite A5.
  - cbn. intros o Ho. lia.
  - intros b (Pb & Hi & Hd). split; [|by apply A7]. split_and!; [by apply A8| |].
    + destruct A6 as [->|[_ Hu]]; [done|]. intros ->. destruct Pb as [_ U _ _ _]. congruence.
    + intros bn Hr. destruct (A11 bn Hr) as [->|[_ Hu]]; [by apply Hd|]. intros ->. destruct Pb as [_ U _ _ _]. congruence.
Qed.

Lemma written_trans v1 ip1 v2 ip2 v3 ip3 off d1 d2 :
  0 <= off -> off + Z.of_nat (length d1) <= file_max ->
  written v1 ip1 v2 ip2 off d1 -> written v2 ip2 v3 ip3 (off + Z.of_nat (length d1)) d2 ->
  written v1 ip1 v3 ip3 off (d1 ++ d2).
Proof.
  intros Ho Hmax [A1 A2 A3 A4 A5 A6 A7 A8] [B1 B2 B3 B4 B5 B6 B7 B8].
  split; [done|done|rewrite B3, A3; done| |by auto| | |intros k Hk; by rewrite B8, A8].
  - intros o Hr. rewrite B4, A4, length_app by done. rewrite Nat2Z.inj_add. unfold nthZ.
    bdestr (off <=? o); cbn [andb]; [|by if_lia].
    bdestr (o <? off + Z.of_nat (length d1)).
    + replace (off + Z.of_nat (length d1) <=? o) with false by lia.
      replace (o <? off + (Z.of_nat (length d1) + Z.of_nat (length d2))) with true by lia. cbn [andb].
      by rewrite app_nth1 by lia.
    + replace (off + Z.of_nat (length d1) <=? o) with true by lia. cbn [andb]. rewrite Z.add_assoc.
      destruct (o <? _); [|done]. rewrite app_nth2 by lia. f_equal. lia.
  - intros o Hr. rewrite length_app in Hr. destruct (decide (o < off + Z.of_nat (length d1))).
    + apply B5; [|apply A6; lia]. unfold file_max, BSIZE in *. lia.
    + apply B6. lia.
  - intros b Hb. destruct (A7 b Hb) as [Hb2 E2]. destruct (B7 b Hb2) as [Hb3 E3]. split; [done|congruence].
Qed.

(** One block of the file is changed. *)
Lemma block_written view view' ip off chunk :
  file_ok dev start sb view ip -> layout dev start sb view -> 0 <= off < file_max ->
  off mod BSIZE + Z.of_nat (length chunk) <= BSIZE ->
  let a := baddr dev view ip (off / BSIZE) in
  a <> 0 ->
  (forall k, view' k = if decide (k = (dev, a)) then splice (view (dev, a)) (Z.to_nat (off mod BSIZE)) chunk else view k) ->
  written view ip view' ip off chunk.
Proof.
  intros F LY Hoff Hch a Ha Hv. assert (HM : file_max = 274432) by reflexivity. assert (HMF : MAXFILE = 268) by reflexivity.
  assert (HB : BSIZE = 1024) by reflexivity.
  assert (Hbn : 0 <= off / BSIZE < MAXFILE) by (rewrite HB, HMF; lia).
  destruct (fo_data _ _ _ _ _ F _ Hbn Ha) as (Pa & Hna & Hni). fold a in Pa, Hna, Hni.
  assert (Hlen : length (view (dev, a)) = 1024%nat) by apply Pa.
  assert (Hsl : length (splice (view (dev, a)) (Z.to_nat (off mod BSIZE)) chunk) = 1024%nat).
  { rewrite length_splice; [done|]. rewrite HB in *. lia. }
  assert (Hub : forall b, 0 <= b < sb_size sb -> used dev sb view' b = used dev sb view b).
  { intros b Hb. unfold used. rewrite Hv, decide_False; [done|]. intros [= E]. by apply (pb_bmap _ _ _ _ _ Pa b Hb). }
  assert (Hpl : forall b, plain_block dev start sb view b -> plain_block dev start sb view' b).
  { intros b [P1 P2 P3 P4 P5]. split; [done|rewrite Hub by lia; done|done|done|]. rewrite Hv. by case_decide. }
  assert (Hba : forall bn, baddr dev view' ip bn = baddr dev view ip bn).
  { intros bn. unfold baddr. rewrite Hv, decide_False; [done|congruence]. }
  split.
  - destruct F as [F1 F2 F3 F4 F5 F6]. split; [done|done| | | |by auto].
    + intros H. destruct (F3 H). auto.
    + intros bn Hb. rewrite Hba. intros H. destruct (F4 bn Hb H) as (? & ? & ?). auto.
    + intros b1 b2. rewrite !Hba. apply F5.
  - destruct LY as [L1 L2 L3 L4]. split; [done|done| |].
    + intros b Hb. destruct (L3 b Hb) as (B1 & B2 & B3 & B4). split_and!; try done; try lia. rewrite Hv. by case_decide.
    + intros b Hb. rewrite Hub by done. by apply L4.
  - done.
  - intros o Ho. unfold fbyte, fblock. rewrite Hba. rewrite HM in Ho.
    destruct (decide (o / BSIZE = off / BSIZE)) as [E|E].
    + rewrite E. fold a. replace (a =? 0) with false by lia. rewrite Hv, decide_True by done.
      unfold nthZ. rewrite !nth_lookup. unfold splice. rewrite HB in *.
      assert (Hmo : 0 <= o mod 1024 < 1024) by (apply Z.mod_pos_bound; lia).
      assert (Hmf : 0 <= off mod 1024 < 1024) by (apply Z.mod_pos_bound; lia).
      assert (Hd : o mod 1024 - off mod 1024 = o - off).
      { pose proof (Z.div_mod o 1024 ltac:(lia)). pose proof (Z.div_mod off 1024 ltac:(lia)). lia. }
      clear - Hmo Hmf Hd Hlen Hch. set (mo := o mod 1024) in *. set (mf := off mod 1024) in *. clearbody mo mf.
      destruct ((off <=? o) && (o <? off + Z.of_nat (length chunk))) eqn:Eb.
      * rewrite lookup_app_r by (rewrite length_take; lia). rewrite length_take. rewrite lookup_app_l by lia.
        do 2 f_equal. lia.
      * destruct (decide (o < off)).
        -- rewrite lookup_app_l by (rewrite length_take; lia). by rewrite lookup_take_lt by lia.
        -- rewrite lookup_app_r by (rewrite length_take; lia). rewrite length_take.
           rewrite lookup_app_r by lia. rewrite lookup_drop. do 2 f_equal. lia.
    + assert (Hr : 0 <= o / BSIZE < MAXFILE) by (clear - Ho HB HMF; rewrite HB, HMF; lia).
      replace ((off <=? o) && _) with false by (clear - E Hch HB; rewrite HB in *; lia).
      bdestr (baddr dev view ip (o / BSIZE) =? 0); [done|]. rewrite Hv, decide_False; [done|]. intros [= E2].
      apply E. symmetry in E2. apply (fo_inj _ _ _ _ _ F (o / BSIZE) (off / BSIZE)); done.
  - intros bn Hb. by rewrite Hba.
  - intros o Ho. rewrite Hba. replace (o / BSIZE) with (off / BSIZE); [done|]. rewrite HB in *. lia.
  - intros b (Pb & Hi & Hd). split; [split_and!; [by apply Hpl|done|intros bn Hr; rewrite Hba; by apply Hd]|].
    rewrite Hv, decide_False; [done|]. intros [= E]. by apply (Hd _ Hbn).
  - intros k Hk. rewrite Hv, decide_False; [done|]. by intros ->.
Qed.
End Written.

(** ** writei *)
Section Write.
Context `{DL : DiskLaws} (i : nat) (pid dev start : Z).

Lemma next_chunk off n B : 0 < B -> 0 <= off -> 0 < n -> let m := Z.min n (B - off mod B) in
  0 < m <= n /\ off mod B + m <= B /\ (n = m \/ m = B - off mod B /\ (off + m) mod B = 0).
Proof.
  intros HB Ho Hn m. pose proof (Z.mod_pos_bound off B HB) as Hm. split_and!; [lia|lia|lia|].
  destruct (decide (n = m)) as [|Hne]; [by left|right]. assert (Em : m = B - off mod B) by lia. split; [done|].
  rewrite Em. pose proof (Z.div_mod off B ltac:(lia)).
  replace (off + (B - off mod B)) with ((off / B + 1) * B) by lia. apply Z.mod_mul. lia.
Qed.

Lemma need_record sb ip a bl : (log_need sb ip (record_block a bl) <= log_need sb ip bl + newb a bl)%nat.
Proof.
  unfold log_need. rewrite length_record, !newb_record. repeat case_decide; try lia.
Qed.
Lemma need_length sb ip bl : (length bl <= log_need sb ip bl)%nat.
Proof. unfold log_need. lia. Qed.

(** One round of the loop. *)
Lemma write_round (J : kstate -> iosrc -> list Z -> Prop) `{!Source J} s l P bl ii ip src data off m :
  in_txn s i pid l P ∅ dev start 1 bl -> k_inodes s !! ii = Some ip ->
  layout dev start (k_sb s) (shown s P) -> file_ok dev start (k_sb s) (shown s P) ip -> sb_size (k_sb s) <= BPB ->
  0 <= off -> off + Z.of_nat m <= file_max -> (0 < m <= length data)%nat -> off mod BSIZE + Z.of_nat m <= BSIZE ->
  (log_need (k_sb s) ip bl + 2 <= Z.to_nat MAXOPBLOCKS)%nat -> (fneed ip < nfree dev (k_sb s) (shown s P))%nat ->
  J s src data ->
  exists s' P' bl' ip', (forall B (k0 k : M B) b t, quiet k s' b t ->
      quiet (a ← bmap ii (off / BSIZE);
             ip ← get_inode ii;
             bp ← bread (i_dev ip) a;
             rb ← copy_from src (Z.of_nat m);
             upd_buf bp (fun x => set_b_data (splice (b_data x) (Z.to_nat (off mod BSIZE)) rb.2) x) ;;
             if rb.1 =? -1 then brelse bp ;; k0 else
             log_write bp ;; brelse bp ;; k) s b t) /\
    fsw s s' /\ (exists l', in_txn s' i pid l' P' ∅ dev start 1 bl') /\
    k_inodes s' = <[ii := ip']> (k_inodes s) /\
    written dev start (k_sb s) (shown s P) ip (shown s' P') ip' off (take m data) /\
    (log_need (k_sb s) ip' bl' <= log_need (k_sb s) ip bl + 1)%nat /\
    (nfree dev (k_sb s) (shown s P) + fneed ip' <= nfree dev (k_sb s) (shown s' P') + 1 + fneed ip)%nat /\
    J s' (src_add src (Z.of_nat m)) (drop m data).
Proof.
  intros It Hip LY F Hs Ho Hmax Hm Hmod Hneed Hfree HJ. set (sb := k_sb s) in *.
  assert (HNB : (20 < NBUF)%nat) by (vm_compute; lia).
  assert (Hbn : 0 <= off / BSIZE < MAXFILE).
  { unfold file_max in Hmax. change MAXFILE with 268 in *. change BSIZE with 1024 in *. clear - Ho Hmax Hm. lia. }
  destruct (bmap_spec i pid dev start s l P bl ii ip (off / BSIZE) It Hip LY F Hs Hbn Hneed Hfree)
    as (a & s1 & P1 & bl1 & ip1 & Q1 & [B1 (l1 & I1) B3 St (Ea & Ha) B6 B7]). fold sb in St, B6, B7.
  change (Z.to_nat MAXOPBLOCKS) with 10%nat in *. pose proof (need_length sb ip1 bl1) as Hl1.
  destruct (in_txn_bread s1 i pid l1 P1 ∅ dev start 1 bl1 a I1) as (bp & x & s2 & Hb & Q2 & W2 & _ & Bx & Kx & Dx & I2).
  { rewrite size_empty. lia. } { intros j. set_solver. }
  pose proof (fs_ok _ _ _ _ _ _ _ St) as F1. pose proof (fs_layout _ _ _ _ _ _ _ St) as LY1.
  destruct (fo_data _ _ _ _ _ F1 _ Hbn) as (Pa & _ & _); [by rewrite Ea|]. rewrite Ea in Pa.
  assert (Hd1 : i_dev ip1 = dev) by apply F1.
  destruct (source_copy s2 src data m) as [Q3 HJ3]; [|done|].
  { apply (source_stable s); [|done]. eapply fsw_trans; [exact B1|by apply fsw_wrote]. }
  set (dt := splice (shown s1 P1 (dev, a)) (Z.to_nat (off mod BSIZE)) (take m data)).
  destruct (in_txn_put_back s2 i pid l1 P1 ∅ dev start 1 bl1 bp x
    (fun x => set_b_data (splice (b_data x) (Z.to_nat (off mod BSIZE)) (take m data)) x) a dt I2 ltac:(lia) Hb Bx Kx)
    as (s3 & s4 & s5 & l5 & Q4 & Q5 & Q6 & W5 & _ & I5).
  { by rewrite Dx. } { change (Z.to_nat MAXOPBLOCKS) with 10%nat. lia. } { apply LY. }
  { destruct Pa as [R _ _ _ _], LY as [_ ? _ _]. lia. } { apply Pa. }
  pose proof (wrote_trans [] [] _ _ _ W2 W5) as W25.
  assert (Wr : written dev start sb (shown s1 P1) ip1 (shown s5 (<[(dev, a) := (1, dt)]> P1)) ip1 off (take m data)).
  { apply block_written; [done|done|unfold file_max in *; lia|rewrite length_take; lia|by rewrite Ea|].
    intros k. rewrite Ea. by rewrite (shown_put s1 s5 P1 _ _ W25). }
  exists s5, (<[(dev, a) := (1, dt)]> P1), (record_block a bl1), ip1. split_and!.
  - intros B k0 k b t Hk. eapply quiet_bind; [exact Q1|].
    eapply quiet_bind; [apply quiet_get_inode; rewrite B3; apply list_lookup_insert_eq; by eapply lookup_lt_Some|].
    rewrite Hd1. eapply quiet_bind; [exact Q2|]. eapply quiet_bind; [exact Q3|]. cbn [fst snd Z.eqb].
    eapply quiet_bind; [exact Q4|]. eapply quiet_bind; [exact Q5|]. eapply quiet_bind; [exact Q6|exact Hk].
  - eapply fsw_trans; [exact B1|by apply fsw_wrote].
  - by exists l5.
  - by rewrite (wrote_inodes _ _ _ W25).
  - apply (written_trans dev start sb _ ip (shown s1 P1) ip1 _ ip1 off [] (take m data)); [done|cbn; unfold file_max in *; lia| |].
    + by apply file_step_written.
    + by rewrite Z.add_0_r.
  - pose proof (need_record sb ip1 a bl1). lia.
  - fold sb. rewrite (nfree_used _ _ (shown s1 P1) (shown s5 (<[(dev, a) := (1, dt)]> P1))) in B7; [done|].
    intros b Hb'. unfold used. rewrite (shown_put s1 s5 P1 _ _ W25), decide_False; [done|].
    intros [= E]. by apply (pb_bmap _ _ _ _ _ Pa b Hb').
  - by apply (source_stable s2); [apply fsw_wrote|].
Qed.

Lemma writei_loop_spec (J : kstate -> iosrc -> list Z -> Prop) `{!Source J} ii n fuel : forall k s l P bl ip src data off tot,
  in_txn s i pid l P ∅ dev start 1 bl -> k_inodes s !! ii = Some ip ->
  layout dev start (k_sb s) (shown s P) -> file_ok dev start (k_sb s) (shown s P) ip -> sb_size (k_sb s) <= BPB ->
  0 <= off -> 0 <= tot <= n -> Z.of_nat (length data) = n - tot -> off + (n - tot) <= file_max ->
  tot = n \/ off mod BSIZE + (n - tot) <= BSIZE * Z.of_nat k -> (k + 1 <= fuel)%nat ->
  (log_need (k_sb s) ip bl + k + 1 <= Z.to_nat MAXOPBLOCKS)%nat -> (fneed ip + k <= nfree dev (k_sb s) (shown s P))%nat ->
  J s src data ->
  exists s' l' P' bl' ip', quiet (writei_loop fuel ii src off n tot) s (off + (n - tot)) s' /\ fsw s s' /\
    in_txn s' i pid l' P' ∅ dev start 1 bl' /\ k_inodes s' = <[ii := ip']> (k_inodes s) /\
    written dev start (k_sb s) (shown s P) ip (shown s' P') ip' off data /\
    (log_need (k_sb s) ip' bl' <= log_need (k_sb s) ip bl + k)%nat.
Proof.
  induction fuel as [|fuel IH]; intros k s l P bl ip src data off tot It Hip LY F Hs Ho Htot Hlen Hmax Hk Hfuel Hneed Hfree HJ; [lia|].
  cbn [writei_loop]. bdestr (tot <? n); cbn [negb].
  2:{ assert (tot = n) as -> by lia. rewrite Z.sub_diag, Z.add_0_r. destruct data; [|cbn in Hlen; lia].
      exists s, l, P, bl, ip. split_and!; [apply quiet_ret|by apply fsw_wrote, wrote_nil|done|by rewrite list_insert_id| |lia].
      by apply file_step_written, file_step_refl. }
  destruct Hk as [Hk|Hk]; [lia|]. assert (HB : BSIZE = 1024) by reflexivity.
  pose proof (Z.mod_pos_bound off BSIZE ltac:(lia)) as Hmo.
  destruct k as [|k]; [rewrite HB in *; lia|].
  destruct (next_chunk off (n - tot) BSIZE ltac:(lia) Ho ltac:(lia)) as (Hm1 & Hm2 & Hm3).
  set (m := Z.min (n - tot) (BSIZE - off mod BSIZE)) in *.
  change (Z.to_nat MAXOPBLOCKS) with 10%nat in *.
  destruct (write_round J s l P bl ii ip src data off (Z.to_nat m) It Hip LY F Hs Ho)
    as (s1 & P1 & bl1 & ip1 & Q1 & W1 & (l1 & I1) & E1 & Wr1 & N1 & Fr1 & HJ1);
    [lia|lia|lia|change (Z.to_nat MAXOPBLOCKS) with 10%nat; lia|lia|done|].
  pose proof (fsw_sb _ _ W1) as Hsb. rewrite Z2Nat.id in Q1, HJ1 by lia.
  assert (Hlt : length (take (Z.to_nat m) data) = Z.to_nat m) by (rewrite length_take; lia).
  destruct (IH k s1 l1 P1 bl1 ip1 (src_add src m) (drop (Z.to_nat m) data) (off + m) (tot + m))
    as (s2 & l2 & P2 & bl2 & ip2 & Q2 & W2 & I2 & E2 & Wr2 & N2); rewrite ?Hsb; try done.
  - rewrite E1. apply list_lookup_insert_eq. by eapply lookup_lt_Some.
  - apply Wr1.
  - apply Wr1.
  - lia.
  - lia.
  - rewrite length_drop. lia.
  - lia.
  - destruct Hm3 as [Em|[Em Em2]]; [left; lia|right]. rewrite Em2. rewrite HB in *. lia.
  - lia.
  - change (Z.to_nat MAXOPBLOCKS) with 10%nat. lia.
  - lia.
  - rewrite Hsb in Wr2, N2. replace (off + m + (n - (tot + m))) with (off + (n - tot)) in Q2 by lia.
    exists s2, l2, P2, bl2, ip2. split_and!; [|by eapply fsw_trans|done| | |lia].
    + apply (Q1 _ (mret off)). exact Q2.
    + rewrite E2, E1. by rewrite list_insert_insert_eq.
    + rewrite <- (take_drop (Z.to_nat m) data). eapply written_trans; [done|rewrite Hlt; lia|exact Wr1|].
      rewrite Hlt, Z2Nat.id by lia. exact Wr2.
Qed.
End Write.

(** ** User memory as destination and source *)
Section User.
Context `{LD : Linker} (i : nat) (pt : Z).

(** The running process is [i] and its page table is [pt]. *)
Definition runs_on (t : kstate) : Prop :=
  current t i /\ exists p, k_procs t !! i = Some p /\ p_pagetable p = pt.
Lemma runs_on_frame t t' : runs_on t -> k_lk t' = k_lk t -> k_hart t' = k_hart t ->
  stateless (k_procs t') = stateless (k_procs t) -> runs_on t'.
Proof.
  intros [C (p & Hp & Hpt)] E1 E2 E3. split.
  - unfold current in *. by rewrite E1, E2.
  - assert (H : stateless (k_procs t') !! i = Some (set_p_state RUNNABLE p)).
    { rewrite E3. unfold stateless. by rewrite list_lookup_fmap, Hp. }
    unfold stateless in H. rewrite list_lookup_fmap in H. apply fmap_Some in H as (q & Hq & E).
    exists q. split; [done|]. rewrite <- Hpt. change (p_pagetable (set_p_state RUNNABLE q) = p_pagetable (set_p_state RUNNABLE p)).
    by rewrite E.
Qed.
Lemma wrote_fields ws t t' : wrote ws t t' ->
  k_lk t' = k_lk t /\ k_hart t' = k_hart t /\ stateless (k_procs t') = stateless (k_procs t).
Proof.
  intros (_ & _ & E). split_and!.
  - change (k_lk (frame t') = k_lk (frame t)). by rewrite E.
  - change (k_hart (frame t') = k_hart (frame t)). by rewrite E.
  - change (k_procs (frame t') = k_procs (frame t)). by rewrite E.
Qed.
Lemma runs_on_wrote ws t t' : wrote ws t t' -> runs_on t -> runs_on t'.
Proof. intros (E1 & E2 & E3)%wrote_fields R. by apply (runs_on_frame t). Qed.
Lemma runs_on_fsw t t' : fsw t t' -> runs_on t -> runs_on t'.
Proof. intros W R. by apply (runs_on_wrote [] _ t' W). Qed.
Lemma quiet_runs_on t : runs_on t -> exists p, p_pagetable p = pt /\ quiet myproc_opt t (Some i) t /\ quiet (get_proc i) t p t.
Proof.
  intros [(Hh & c & Hc & Hp) (p & Hi & Hpt)]. exists p. split_and!; [done| |].
  - rewrite <- Hp. by eapply quiet_myproc_opt.
  - eapply quiet_bind; [apply quiet_reads, _|]. rewrite Hi. apply quiet_ret.
Qed.

Definition user_sink (va0 : Z) (t : kstate) (d : iodst) (rem : Z) (acc : list Z) : Prop :=
  let va := va0 + Z.of_nat (length acc) in
  d = ToUser va /\ runs_on t /\ user_wf (k_mem t) pt /\ 0 <= va0 /\ va + rem < 2 ^ 64 /\
  (forall j, 0 <= j < Z.of_nat (length acc) + rem -> umapped (k_mem t) pt (va0 + j)) /\
  ubytes (k_mem t) pt va0 (length acc) = u8 <$> acc.
#[export] Instance user_sink_ok va0 : Sink (user_sink va0).
Proof.
  split.
  - intros t t' d rem acc W (-> & R & H). split; [done|]. rewrite (wrote_mem _ _ _ W). split; [by eapply runs_on_wrote|done].
  - intros t d rem acc bs (-> & R & Hw & H0 & H64 & Hmap & Hb) Hlen.
    set (va := va0 + Z.of_nat (length acc)) in *. destruct (quiet_runs_on t R) as (p & Hpt & Q1 & Q2).
    destruct (copyout_loop_spec (copy_fuel (Z.of_nat (length bs))) t pt va bs (Z.of_nat (length bs)))
      as (r & m' & Q3 & Hs & Hr); [done|lia|done|apply enough_start; lia|].
    destruct Hr as [(-> & _ & Hc)|(-> & j & Hj & Hn & _)].
    2:{ destruct Hn. replace (va + j) with (va0 + (Z.of_nat (length acc) + j)) by lia. apply Hmap. lia. }
    exists m'. split.
    + cbn [copy_to]. unfold either_copyout. eapply quiet_bind; [exact Q1|]. eapply quiet_bind; [apply quiet_ret|].
      eapply quiet_bind; [exact Q2|]. rewrite Hpt. exact Q3.
    + pose proof (upage_frame _ _ _ Hs) as Hu.
      assert (Hum : forall x, umapped m' pt x <-> umapped (k_mem t) pt x) by (intros x; unfold umapped; by rewrite Hu).
      unfold user_sink. rewrite length_app, Nat2Z.inj_add. split_and!.
      * cbn [dst_add]. f_equal. unfold va. sz.
      * by apply (runs_on_frame t).
      * cbn. by eapply user_wf_frame.
      * done.
      * lia.
      * intros j Hj. cbn. rewrite Hum. apply Hmap. lia.
      * cbn [k_mem set_k_mem]. rewrite ubytes_app, fmap_app. f_equal.
        -- rewrite <- Hb. unfold ubytes. apply list_fmap_ext. intros j x Hj. apply lookup_seq in Hj as [-> Hj].
           unfold uaddr. rewrite Hu. fold (uaddr (k_mem t) pt (va0 + Z.of_nat (0 + j))). apply Hc.
           intros j' Hj' E. apply (uaddr_inj _ _ _ _ Hw) in E; [unfold va in E; lia|apply Hmap; lia|].
           unfold va. rewrite <- Z.add_assoc. apply Hmap. lia.
        -- fold va. apply list_eq. intros j. rewrite list_lookup_fmap. destruct (decide (j < length bs)%nat) as [Hj|Hj].
           ++ rewrite lookup_ubytes by done. destruct (lookup_lt_is_Some_2 bs j Hj) as [b Eb]. rewrite Eb. cbn. f_equal.
              unfold uaddr. rewrite Hu. by apply Hc.
           ++ rewrite !lookup_ge_None_2; [done|lia|rewrite length_ubytes; lia].
Qed.

Definition user_source (t : kstate) (d : iosrc) (data : list Z) : Prop :=
  exists va, d = FromUser va /\ runs_on t /\ pt_wf (k_mem t) pt /\ 0 <= va /\ va + Z.of_nat (length data) < 2 ^ 64 /\
  (forall j, 0 <= j < Z.of_nat (length data) -> umapped (k_mem t) pt (va + j)) /\
  data = ubytes (k_mem t) pt va (length data).
#[export] Instance user_source_ok : Source user_source.
Proof.
  split.
  - intros t t' d data W (va & -> & R & H). exists va. split; [done|].
    assert (k_mem t' = k_mem t) as -> by (by rewrite (wrote_mem _ _ _ W)). split; [by eapply runs_on_fsw|done].
  - intros t d data m (va & -> & R & Hw & H0 & H64 & Hmap & Hd) Hm. destruct (quiet_runs_on t R) as (p & Hpt & Q1 & Q2).
    assert (Hsplit : data = ubytes (k_mem t) pt va m ++ ubytes (k_mem t) pt (va + Z.of_nat m) (length data - m)).
    { rewrite <- ubytes_app. by replace (m + (length data - m))%nat with (length data) by lia. }
    destruct (copyin_loop_spec (copy_fuel (Z.of_nat m)) t pt va (Z.of_nat m) []) as (r & bs & Q3 & Hr);
      [done|done|lia|apply enough_start; lia|].
    destruct Hr as [(-> & _ & ->)|(-> & j & Hj & Hn & _)]; [|destruct Hn; apply Hmap; lia]. rewrite Nat2Z.id in Q3. split.
    + cbn [copy_from]. unfold either_copyin. eapply quiet_bind; [exact Q1|]. eapply quiet_bind; [apply quiet_ret|].
      eapply quiet_bind; [exact Q2|]. rewrite Hpt. rewrite Hsplit at 1.
      rewrite take_app_length' by (by rewrite length_ubytes). exact Q3.
    + exists (va + Z.of_nat m). rewrite length_drop. split_and!; [|done|done|lia|lia| |].
      * cbn [src_add]. f_equal. sz.
      * intros j Hj. rewrite <- Z.add_assoc. apply Hmap. lia.
      * rewrite Hsplit at 1. by rewrite drop_app_length' by (by rewrite length_ubytes).
Qed.
End User.

(** ** The two operations *)
Section Ops.
Context `{DL : DiskLaws} (i : nat) (pid dev start : Z).

(** Every byte below the file's size is in a block. *)
Record whole_file (sb : superblock) (view : Z * Z -> list Z) (ip : inode) : Prop := {
  wf_ok : file_ok dev start sb view ip;
  wf_size : 0 <= i_size ip <= file_max;
  wf_blocks : forall o, 0 <= o < i_size ip -> baddr dev view ip (o / BSIZE) <> 0;
}.
Lemma block_index o : 0 <= o < file_max -> 0 <= o / BSIZE < MAXFILE.
Proof. unfold file_max. change MAXFILE with 268. change BSIZE with 1024. intros H. lia. Qed.
Lemma whole_readable sb view ip off n : whole_file sb view ip -> 0 <= off -> off + n <= i_size ip ->
  readable dev view ip off n.
Proof.
  intros [F S B] Ho Hn. split_and!; [done|fold file_max; lia|]. intros o Hr.
  assert (Hne : baddr dev view ip (o / BSIZE) <> 0) by (apply B; lia). split; [done|].
  destruct (fo_data _ _ _ _ _ F (o / BSIZE)) as (Pb & _); [apply block_index; lia|done|]. apply Pb.
Qed.
Lemma rw_fuel_enough off n : 0 <= off -> 0 <= n -> off mod BSIZE + n <= BSIZE * (Z.of_nat (rw_fuel n) - 1).
Proof. intros Ho Hn. unfold rw_fuel. change BSIZE with 1024. lia. Qed.

Lemma readi_spec (I : kstate -> iodst -> Z -> list Z -> Prop) `{!Sink I} s l P out bl ii ip d off n :
  in_txn s i pid l P ∅ dev start out bl -> (length bl <= 10)%nat -> k_inodes s !! ii = Some ip ->
  whole_file (k_sb s) (shown s P) ip -> 0 <= off <= i_size ip -> 0 <= n < 2 ^ 31 ->
  let m := Z.min n (i_size ip - off) in
  let r := fbytes dev (shown s P) ip off (Z.to_nat m) in
  I s d m [] ->
  exists s' l' d', quiet (readi ii d off n) s (m, r) s' /\ rdw s s' /\
    in_txn s' i pid l' P ∅ dev start out bl /\ I s' d' 0 r.
Proof.
  intros It Hbl Hip F Ho Hn m r HI. pose proof (wf_size _ _ _ F) as Hsz. change file_max with 274432 in Hsz.
  assert (Hm : 0 <= m <= n) by lia.
  destruct (readi_loop_spec i pid dev start I P out bl ii ip (shown s P) m (rw_fuel m) Hbl (fo_dev _ _ _ _ _ (wf_ok _ _ _ F))
    s l off 0 d [] It Hip) as (s' & l' & d' & Q & R & I' & HI'); rewrite ?Z.sub_0_r in *; try done.
  - lia.
  - apply (whole_readable (k_sb s)); [done|lia|lia].
  - unfold rw_fuel. lia.
  - right. apply rw_fuel_enough; lia.
  - exists s', l', d'. split_and!; [|done|done|done]. unfold readi. eapply quiet_bind; [by apply quiet_get_inode|].
    assert (Hu : u32 (off + n) = off + n) by sz. rewrite Hu.
    replace ((i_size ip <? off) || (off + n <? off)) with false by lia. cbv zeta.
    assert ((if i_size ip <? off + n then u32 (i_size ip - off) else n) = m) as ->.
    { unfold m. bdestr (i_size ip <? off + n); [|lia]. replace (u32 (i_size ip - off)) with (i_size ip - off) by sz. lia. }
    eapply quiet_bind; [exact Q|].
    replace (s32 m) with m; [apply quiet_ret|]. unfold s32, swrap. change (2 ^ 32) with 4294967296.
    change (2 ^ (32 - 1)) with 2147483648. rewrite Z.mod_small by lia. by if_lia.
Qed.

(** iupdate copies the cached inode into its block. *)
Lemma iupdate_spec s l P bl ii ip :
  in_txn s i pid l P ∅ dev start 1 bl -> k_inodes s !! ii = Some ip -> layout dev start (k_sb s) (shown s P) ->
  file_ok dev start (k_sb s) (shown s P) ip -> (length bl < Z.to_nat MAXOPBLOCKS)%nat ->
  let ib := IBLOCK (i_inum ip) (k_sb s) in
  let dt := splice (shown s P (dev, ib)) (Z.to_nat (dinode_off (i_inum ip))) (dinode_bytes ip) in
  exists s' l' P', quiet (iupdate ii) s tt s' /\ wrote [] s s' /\
    in_txn s' i pid l' P' ∅ dev start 1 (record_block ib bl) /\
    forall k, shown s' P' k = if decide (k = (dev, ib)) then dt else shown s P k.
Proof.
  intros It Hip LY F Hlen ib dt. pose proof (fo_inode _ _ _ _ _ F) as Pi. fold ib in Pi.
  assert (HNB : (20 < NBUF)%nat) by (vm_compute; lia). change (Z.to_nat MAXOPBLOCKS) with 10%nat in *.
  destruct (in_txn_bread s i pid l P ∅ dev start 1 bl ib It) as (bp & x & s1 & Hb & Q1 & W1 & _ & Bx & Kx & Dx & I1).
  { rewrite size_empty. lia. } { intros j. set_solver. }
  destruct (in_txn_put_back s1 i pid l P ∅ dev start 1 bl bp x
    (fun x => set_b_data (splice (b_data x) (Z.to_nat (dinode_off (i_inum ip))) (dinode_bytes ip)) x) ib dt I1 ltac:(lia) Hb Bx Kx)
    as (s3 & s4 & s5 & l5 & Q4 & Q5 & Q6 & W5 & _ & I5).
  { by rewrite Dx. } { change (Z.to_nat MAXOPBLOCKS) with 10%nat. lia. } { apply LY. }
  { destruct Pi as [R _ _ _ _], LY as [_ ? _ _]. lia. } { apply Pi. }
  pose proof (wrote_trans [] [] _ _ _ W1 W5) as W15.
  exists s5, l5, (<[(dev, ib) := (1, dt)]> P). split_and!; [|done|done|].
  - unfold iupdate. eapply quiet_bind; [by apply quiet_get_inode|]. eapply quiet_bind; [apply quiet_gets_sb|].
    rewrite (fo_dev _ _ _ _ _ F). eapply quiet_bind; [exact Q1|].
    eapply quiet_bind; [apply quiet_get_inode; by rewrite (wrote_inodes _ _ _ W1)|].
    eapply quiet_bind; [exact Q4|]. eapply quiet_bind; [exact Q5|exact Q6].
  - intros k. by rewrite (shown_put s s5 P _ _ W15).
Qed.

(** What writei of [data] at [off] leaves. *)
Record write_post (sb : superblock) (view : Z * Z -> list Z) (ip : inode) (view' : Z * Z -> list Z) (ip' : inode)
    (off : Z) (data : list Z) : Prop := {
  wp_file : whole_file sb view' ip';
  wp_layout : layout dev start sb view';
  wp_fields : ip' = set_i_addrs (i_addrs ip') (set_i_size (Z.max (i_size ip) (off + Z.of_nat (length data))) ip);
  wp_bytes : forall o, 0 <= o < file_max -> fbyte dev view' ip' o =
    if (off <=? o) && (o <? off + Z.of_nat (length data)) then nthZ data (o - off) else fbyte dev view ip o;
  wp_inode : let ib := IBLOCK (i_inum ip) sb in
    view' (dev, ib) = splice (view (dev, ib)) (Z.to_nat (dinode_off (i_inum ip))) (dinode_bytes ip');
  wp_foreign : forall b, foreign dev start sb view ip b -> b <> IBLOCK (i_inum ip) sb -> view' (dev, b) = view (dev, b);
  wp_other : forall k, k.1 <> dev -> view' k = view k;
}.

Lemma inode_block_foreign sb view ip : file_ok dev start sb view ip -> foreign dev start sb view ip (IBLOCK (i_inum ip) sb).
Proof.
  intros F. pose proof (fo_inode _ _ _ _ _ F) as Pi. pose proof (pb_range _ _ _ _ _ Pi). split_and!; [done| |].
  - destruct (decide (ind_of ip = 0)) as [->|Hi]; [lia|]. destruct (fo_ind _ _ _ _ _ F Hi). congruence.
  - intros bn Hb. destruct (decide (baddr dev view ip bn = 0)) as [->|Hi]; [lia|].
    destruct (fo_data _ _ _ _ _ F bn Hb Hi) as (_ & ? & _). congruence.
Qed.

(** The end of writei: the new size, and the inode to its block. *)
Lemma write_end sb view ip view1 ip1 view2 off data :
  whole_file sb view ip -> 0 <= off <= i_size ip -> off + Z.of_nat (length data) <= file_max ->
  written dev start sb view ip view1 ip1 off data -> length (i_addrs ip1) = 13%nat ->
  let ip2 := set_i_size (Z.max (i_size ip) (off + Z.of_nat (length data))) ip1 in
  let ib := IBLOCK (i_inum ip) sb in
  (forall k, view2 k = if decide (k = (dev, ib)) then
     splice (view1 (dev, ib)) (Z.to_nat (dinode_off (i_inum ip))) (dinode_bytes ip2) else view1 k) ->
  write_post sb view ip view2 ip2 off data.
Proof.
  intros F Ho Hmax [A1 A2 A3 A4 A5 A6 A7 A8] Hl ip2 ib Hv.
  assert (Ei : i_inum ip1 = i_inum ip) by (by rewrite A3).
  destruct (A7 _ (inode_block_foreign _ _ _ (wf_ok _ _ _ F))) as [(Pi & Hii & Hid) Eib]. fold ib in Pi, Hii, Hid, Eib.
  assert (Hdo : (Z.to_nat (dinode_off (i_inum ip)) + 64 <= 1024)%nat).
  { unfold dinode_off, dinode_size. change IPB with 16. lia. }
  assert (Hdb : length (dinode_bytes ip2) = 64%nat) by (by apply length_dinode_bytes).
  assert (Hne : forall a, a <> ib -> view2 (dev, a) = view1 (dev, a)) by (intros a Ha; rewrite Hv, decide_False; congruence).
  assert (Hub : forall b, 0 <= b < sb_size sb -> used dev sb view2 b = used dev sb view1 b).
  { intros b Hb. unfold used. rewrite Hne; [done|]. intros E. by apply (pb_bmap _ _ _ _ _ Pi b Hb). }
  assert (Hpl : forall b, plain_block dev start sb view1 b -> plain_block dev start sb view2 b).
  { intros b [P1 P2 P3 P4 P5]. split; [done|rewrite Hub by lia; done|done|done|]. rewrite Hv. case_decide as E; [|done].
    unfold block_size. rewrite length_splice; [apply Pi|]. rewrite (pb_size _ _ _ _ _ Pi), Hdb. change (Z.to_nat BSIZE) with 1024%nat. lia. }
  assert (Hba : forall bn, baddr dev view2 ip2 bn = baddr dev view1 ip1 bn).
  { intros bn. change (baddr dev view2 ip1 bn = baddr dev view1 ip1 bn). unfold baddr. by rewrite Hne by congruence. }
  assert (Hfb : forall bn, 0 <= bn < MAXFILE -> fblock dev view2 ip2 bn = fblock dev view1 ip1 bn).
  { intros bn Hb. unfold fblock. rewrite Hba. case_if; [done|]. apply Hne. intros E2. by apply (Hid bn Hb). }
  pose proof (wf_size _ _ _ F) as Hsz. split.
  - split; [| |].
    + destruct A1 as [F1 F2 F3 F4 F5 F6]. split; [done|done| | | |apply Hpl; done].
      * intros H. destruct (F3 H). auto.
      * intros bn Hb. rewrite Hba. intros H. destruct (F4 bn Hb H) as (? & ? & ?). auto.
      * intros b1 b2. rewrite !Hba. apply F5.
    + cbn. lia.
    + intros o Hr. cbn in Hr. rewrite Hba. destruct (decide (o < i_size ip)) as [Hs|Hs].
      * apply A5; [apply block_index; lia|]. apply (wf_blocks _ _ _ F). lia.
      * apply A6. lia.
  - destruct A2 as [L1 L2 L3 L4]. split; [done|done| |].
    + intros b Hb. destruct (L3 b Hb) as (B1 & B2 & B3 & B4). split_and!; try done; try lia.
      rewrite Hne; [done|]. intros E. by apply (pb_bmap _ _ _ _ _ Pi b Hb).
    + intros b Hb. rewrite Hub by done. by apply L4.
  - unfold ip2. rewrite A3. done.
  - intros o Hr. rewrite <- A4 by done. unfold fbyte. by rewrite Hfb by by apply block_index.
  - cbv zeta. fold ib. rewrite Hv, decide_True, Eib by done. done.
  - intros b Hb Hne2. rewrite Hne by done. by apply A7.
  - intros k Hk. rewrite Hv, decide_False by (intros ->; done). by apply A8.
Qed.

(** The number of blocks that [n] bytes from [off] on touch. *)
Definition nblocks (off n : Z) : nat := Z.to_nat ((off mod BSIZE + n + BSIZE - 1) / BSIZE).
Lemma nblocks_enough off n : 0 <= off -> 0 <= n ->
  off mod BSIZE + n <= BSIZE * Z.of_nat (nblocks off n) /\ (nblocks off n + 1 <= rw_fuel n)%nat.
Proof. intros Ho Hn. unfold nblocks, rw_fuel. change BSIZE with 1024. lia. Qed.

Lemma writei_spec (J : kstate -> iosrc -> list Z -> Prop) `{!Source J} s l P bl ii ip src data off :
  let n := Z.of_nat (length data) in
  in_txn s i pid l P ∅ dev start 1 bl -> k_inodes s !! ii = Some ip -> layout dev start (k_sb s) (shown s P) ->
  whole_file (k_sb s) (shown s P) ip -> sb_size (k_sb s) <= BPB ->
  0 <= off <= i_size ip -> 0 < n -> off + n <= file_max ->
  (log_need (k_sb s) ip bl + nblocks off n + 1 <= Z.to_nat MAXOPBLOCKS)%nat ->
  (fneed ip + nblocks off n <= nfree dev (k_sb s) (shown s P))%nat -> J s src data ->
  exists s' l' P' bl' ip', quiet (writei ii src off n) s n s' /\ fsw s s' /\
    in_txn s' i pid l' P' ∅ dev start 1 bl' /\ (length bl' <= Z.to_nat MAXOPBLOCKS)%nat /\
    k_inodes s' = <[ii := ip']> (k_inodes s) /\ write_post (k_sb s) (shown s P) ip (shown s' P') ip' off data.
Proof.
  intros n It Hip LY F Hs Ho Hn Hmax Hneed Hfree HJ. assert (HM : file_max = 274432) by reflexivity.
  destruct (nblocks_enough off n ltac:(lia) ltac:(lia)) as [Hk1 Hk2]. set (k := nblocks off n) in *.
  destruct (writei_loop_spec i pid dev start J ii n (rw_fuel n) k s l P bl ip src data off 0 It Hip LY (wf_ok _ _ _ F) Hs)
    as (s1 & l1 & P1 & bl1 & ip1 & Q1 & W1 & I1 & E1 & Wr & N1); rewrite ?Z.sub_0_r in *; try done; try lia.
  pose proof (fsw_sb _ _ W1) as Hsb. change (Z.to_nat MAXOPBLOCKS) with 10%nat in *.
  pose proof (need_length (k_sb s) ip1 bl1) as Hl1.
  pose proof (wr_fields _ _ _ _ _ _ _ _ _ Wr) as Ef. pose proof (wr_ok _ _ _ _ _ _ _ _ _ Wr) as F1.
  assert (Esz : i_size ip1 = i_size ip) by (by rewrite Ef).
  assert (Hlt : (ii < length (k_inodes s))%nat) by by eapply lookup_lt_Some.
  assert (Hip1 : k_inodes s1 !! ii = Some ip1) by (rewrite E1; by apply list_lookup_insert_eq).
  set (ip2 := set_i_size (Z.max (i_size ip) (off + n)) ip1).
  (* the size *)
  set (s2 := set_k_inodes (<[ii := ip2]> (k_inodes s1)) s1).
  assert (Q2 : quiet (when (i_size ip1 <? off + n) (upd_inode ii (set_i_size (off + n)))) s1 tt s2).
  { rewrite Esz. bdestr (i_size ip <? off + n); cbn [when].
    - replace s2 with (set_k_inodes (<[ii := set_i_size (off + n) ip1]> (k_inodes s1)) s1); [by apply quiet_upd_inode|].
      unfold s2, ip2. by replace (Z.max (i_size ip) (off + n)) with (off + n) by lia.
    - assert (s2 = s1) as ->; [|apply quiet_ret]. unfold s2, ip2.
      replace (Z.max (i_size ip) (off + n)) with (i_size ip1) by lia.
      change (set_i_size (i_size ip1) ip1) with ip1. by rewrite list_insert_id. }
  assert (Hip2 : k_inodes s2 !! ii = Some ip2).
  { cbn. apply list_lookup_insert_eq. rewrite E1. by rewrite length_insert. }
  assert (I2 : in_txn s2 i pid l1 P1 ∅ dev start 1 bl1) by (by apply in_txn_inodes).
  destruct (iupdate_spec s2 l1 P1 bl1 ii ip2 I2 Hip2) as (s3 & l3 & P3 & Q3 & W3 & I3 & V3).
  { change (k_sb s2) with (k_sb s1). rewrite Hsb. apply Wr. }
  { change (k_sb s2) with (k_sb s1). rewrite Hsb. by destruct F1. }
  { change (Z.to_nat MAXOPBLOCKS) with 10%nat. lia. }
  change (k_sb s2) with (k_sb s1) in *. rewrite Hsb in *.
  assert (Ein : i_inum ip2 = i_inum ip) by (change (i_inum ip1 = i_inum ip); by rewrite Ef). rewrite Ein in *.
  exists s3, l3, P3, (record_block (IBLOCK (i_inum ip) (k_sb s)) bl1), ip2. split_and!.
  - unfold writei. eapply quiet_bind; [by apply quiet_get_inode|]. assert (Hu : u32 (off + n) = off + n) by sz. rewrite Hu.
    replace ((i_size ip <? off) || (off + n <? off)) with false by lia. fold file_max.
    replace (file_max <? off + n) with false by lia. eapply quiet_bind; [exact Q1|].
    replace (0 <? n) with true by lia. cbn [when]. rewrite s32_small by lia.
    eapply quiet_bind; [|apply quiet_ret]. eapply quiet_bind; [by apply quiet_get_inode|].
    eapply quiet_bind; [exact Q2|exact Q3].
  - eapply fsw_trans; [exact W1|]. eapply fsw_trans; [apply (fsw_set_inodes s1)|by apply fsw_wrote].
  - done.
  - rewrite length_record. pose proof (newb_le (IBLOCK (i_inum ip) (k_sb s)) bl1). lia.
  - rewrite (wrote_inodes _ _ _ W3). cbn. rewrite E1. by rewrite list_insert_insert_eq.
  - apply (write_end (k_sb s) (shown s P) ip (shown s1 P1) ip1 _ off data); try done. apply F1.
Qed.
End Ops.
