(* ===== verification/FileProofs.v ===== *)
(** * Theorems about file contents: writei and readi *)
From S2P Require Import Prelude Mem Riscv State Spinlock Kalloc Vm PageTable VmProofs UserCopy Proc ProcProofs Sleeplock SleeplockProofs Bio BioProofs BioSpec Log LogProofs LogCrash Txn Fs PipeProofs BallocProofs InodeProofs BmapProofs FileIO.

#[local] Arguments nthZ : simpl never.

(** The process that makes the call has [n] bytes of mapped memory at [va]. *)
Definition user_range (m : mem) (pt va n : Z) : Prop :=
  0 <= va /\ va + n < 2 ^ 64 /\ forall j, 0 <= j < n -> umapped m pt (va + j).

(** A file in a transaction that has room for a write of [n] bytes at [off]: a
    well-formed file on a file system with one bitmap block, the bytes within
    the largest file and not past the end of this one, and room in the log and
    on the disk for the blocks they touch, the bitmap, the indirect block and
    the inode. *)
Record can_write (s : kstate) (P : gmap (Z * Z) (Z * list Z)) (dev start : Z) (bl : list Z) (ii : nat) (ip : inode)
    (off n : Z) : Prop := {
  cw_inode : k_inodes s !! ii = Some ip;
  cw_layout : layout dev start (k_sb s) (shown s P);
  cw_file : whole_file dev start (k_sb s) (shown s P) ip;
  cw_bitmap : sb_size (k_sb s) <= BPB;
  cw_off : 0 <= off <= i_size ip;
  cw_n : 0 < n;
  cw_max : off + n <= file_max;
  cw_log : (log_need (k_sb s) ip bl + nblocks off n + 1 <= Z.to_nat MAXOPBLOCKS)%nat;
  cw_free : (fneed ip + nblocks off n <= nfree dev (k_sb s) (shown s P))%nat;
}.

Section FileProofs.
Context `{DL : DiskLaws} `{LD : Linker} (i : nat) (pid pt dev start : Z).

Lemma user_data s va n : runs_on i pt s -> pt_wf (k_mem s) pt -> 0 <= n -> user_range (k_mem s) pt va n ->
  user_source i pt s (FromUser va) (ubytes (k_mem s) pt va (Z.to_nat n)).
Proof.
  intros R W Hn (H0 & H64 & Hm). exists va. rewrite length_ubytes, Z2Nat.id by lia. split_and!; done.
Qed.
Lemma writei_user s l P bl ii ip va off n :
  in_txn s i pid l P ∅ dev start 1 bl -> can_write s P dev start bl ii ip off n ->
  runs_on i pt s -> pt_wf (k_mem s) pt -> user_range (k_mem s) pt va n ->
  let data := ubytes (k_mem s) pt va (Z.to_nat n) in
  exists s' l' P' bl' ip', quiet (writei ii (FromUser va) off n) s n s' /\ fsw s s' /\
    in_txn s' i pid l' P' ∅ dev start 1 bl' /\ (length bl' <= Z.to_nat MAXOPBLOCKS)%nat /\
    k_inodes s' = <[ii := ip']> (k_inodes s) /\ write_post dev start (k_sb s) (shown s P) ip (shown s' P') ip' off data.
Proof.
  intros It [C1 C2 C3 C4 C5 C6 C7 C8 C9] R W U data.
  pose proof (writei_spec i pid dev start (user_source i pt) s l P bl ii ip (FromUser va) data off) as H. cbv zeta in H.
  unfold data in H. rewrite !length_ubytes, !Z2Nat.id in H by lia. fold data in H. apply H; try done.
  apply user_data; [done|done|lia|done].
Qed.

(** C32. Writing to a file: inside a transaction, let the inode be one of a
    consistent file system whose bitmap is one block, [off] be at most the file's
    size, the end of the write at most the largest size of a file, the user's
    buffer be mapped, and let there be room in the transaction's share of the log
    for the blocks the write can touch and as many free blocks on the disk as it
    can need (balloc panics when there are none).  Then writei of [n] > 0 bytes
    from user memory at offset [off] returns [n]; afterwards the bytes of the file from
    [off] on are those of the user's buffer and all its other bytes are as they
    were, its size has grown if the write went past the end, its on-disk inode
    is the new one, and no block in use by anything else has changed.  The disk
    itself is not written before the transaction commits. *)
Theorem writei_writes_file s l P bl ii ip va off n :
  in_txn s i pid l P ∅ dev start 1 bl -> can_write s P dev start bl ii ip off n ->
  runs_on i pt s -> pt_wf (k_mem s) pt -> user_range (k_mem s) pt va n ->
  exists s' l' P' bl' ip',
    quiet (writei ii (FromUser va) off n) s n s' /\ in_txn s' i pid l' P' ∅ dev start 1 bl' /\
    k_inodes s' = <[ii := ip']> (k_inodes s) /\ k_mem s' = k_mem s /\ k_disk s' = k_disk s /\
    i_size ip' = Z.max (i_size ip) (off + n) /\ whole_file dev start (k_sb s) (shown s' P') ip' /\
    (forall o, 0 <= o < file_max -> fbyte dev (shown s' P') ip' o =
       if (off <=? o) && (o <? off + n) then ubyte (k_mem s) pt (va + (o - off)) else fbyte dev (shown s P) ip o) /\
    shown s' P' (dev, IBLOCK (i_inum ip) (k_sb s)) =
      splice (shown s P (dev, IBLOCK (i_inum ip) (k_sb s))) (Z.to_nat (dinode_off (i_inum ip))) (dinode_bytes ip') /\
    forall b, foreign dev start (k_sb s) (shown s P) ip b -> b <> IBLOCK (i_inum ip) (k_sb s) ->
      shown s' P' (dev, b) = shown s P (dev, b).
Proof.
  intros It C R W U. destruct (writei_user s l P bl ii ip va off n It C R W U)
    as (s' & l' & P' & bl' & ip' & Q & Wf & I' & _ & E & [A1 A2 A3 A4 A5 A6 A7]).
  pose proof (cw_n _ _ _ _ _ _ _ _ _ C) as Hn. rewrite length_ubytes, Z2Nat.id in * by lia.
  exists s', l', P', bl', ip'. split_and!; try done.
  - by rewrite (wrote_mem _ _ _ Wf).
  - by destruct Wf as (_ & Ed & _).
  - by rewrite A3.
  - intros o Ho. rewrite A4 by done. destruct ((off <=? o) && (o <? off + n)) eqn:Eo; [|done].
    unfold ubyte. assert (Hk : (Z.to_nat (o - off) < Z.to_nat n)%nat) by lia.
    pose proof (lookup_ubytes (k_mem s) pt va _ _ Hk) as H. apply nthZ_lookup in H. rewrite Z2Nat.id in H by lia. done.
Qed.

(** C11. What is written is read back: after writei of [n] bytes from the user's
    buffer at [va], a readi of [n] bytes at the same offset into a user buffer at
    [va'] returns [n] and leaves there the bytes that were in the first buffer,
    whatever page boundaries the buffers cross, and whichever direct, indirect,
    old or new blocks of the file the bytes went through. *)
Theorem file_roundtrip s l P bl ii ip va va' off n :
  in_txn s i pid l P ∅ dev start 1 bl -> can_write s P dev start bl ii ip off n ->
  runs_on i pt s -> user_wf (k_mem s) pt -> user_range (k_mem s) pt va n -> user_range (k_mem s) pt va' n ->
  let data := ubytes (k_mem s) pt va (Z.to_nat n) in
  exists s1 s2, quiet (writei ii (FromUser va) off n) s n s1 /\
    quiet (readi ii (ToUser va') off n) s1 (n, data) s2 /\
    ubytes (k_mem s2) pt va' (Z.to_nat n) = u8 <$> data.
Proof.
  intros It C R W U (U0 & U64 & Um) data.
  destruct (writei_user s l P bl ii ip va off n It C R (uw_pt _ _ W) U)
    as (s1 & l1 & P1 & bl1 & ip1 & Q1 & Wf & I1 & Hl1 & E1 & [A1 A2 A3 A4 A5 A6 A7]).
  pose proof (cw_n _ _ _ _ _ _ _ _ _ C) as Hn. pose proof (cw_off _ _ _ _ _ _ _ _ _ C) as Ho.
  pose proof (cw_max _ _ _ _ _ _ _ _ _ C) as Hmax.
  rewrite length_ubytes, Z2Nat.id in * by lia. assert (Hmem : k_mem s1 = k_mem s) by (by rewrite (wrote_mem _ _ _ Wf)).
  assert (Esz : i_size ip1 = Z.max (i_size ip) (off + n)) by (by rewrite A3).
  pose proof (fsw_sb _ _ Wf) as Hsb. assert (HM : file_max = 274432) by reflexivity.
  destruct (readi_spec i pid dev start (user_sink i pt va') s1 l1 P1 1 bl1 ii ip1 (ToUser va') off n I1)
    as (s2 & l2 & d2 & Q2 & _ & _ & HI); rewrite ?Hsb; try done.
  - rewrite E1. apply list_lookup_insert_eq. eapply lookup_lt_Some. apply C.
  - lia.
  - lia.
  - replace (Z.min n (i_size ip1 - off)) with n by lia. unfold user_sink. cbn [length]. rewrite Z.add_0_r, Hmem.
    split_and!; [done|by eapply runs_on_fsw|done|done|done|intros j Hj; apply Um; lia|done].
  - replace (Z.min n (i_size ip1 - off)) with n in * by lia.
    assert (Ed : fbytes dev (shown s1 P1) ip1 off (Z.to_nat n) = data).
    { apply list_eq. intros k. destruct (decide (k < Z.to_nat n)%nat) as [Hk|Hk].
      - rewrite lookup_fbytes, A4 by lia. unfold data. rewrite lookup_ubytes by done. if_lia. f_equal.
        replace (off + Z.of_nat k - off) with (Z.of_nat k) by lia. by apply nthZ_lookup, lookup_ubytes.
      - rewrite !lookup_ge_None_2; [done|unfold data; rewrite length_ubytes; lia|rewrite length_fbytes; lia]. }
    rewrite Ed in Q2, HI. exists s1, s2. split_and!; [done|done|].
    destruct HI as (_ & _ & _ & _ & _ & _ & HI). unfold data in HI. rewrite length_ubytes in HI. exact HI.
Qed.
End FileProofs.

(** ** An empty file and a process with one page *)
Definition wip : inode := mk_inode 0 1 1 sleeplock0 1 T_FILE 0 0 1 0 (replicate 13 0).
Definition wproc : proc := set_p_pagetable wroot proc0.
Definition wio (m : mem) : kstate :=
  set_k_inodes (<[0%nat := wip]> (k_inodes wfs)) (set_k_mem m (set_k_procs (<[0%nat := wproc]> (k_procs wfs)) wfs)).
Lemma wio_txn m : in_txn (wio m) 0 0 (rev (seq 0 NBUF)) ∅ ∅ 0 2 1 [].
Proof.
  apply in_txn_inodes, in_txn_mem. destruct wfs_txn as [A G L H1 H2].
  split; [|exact G|exact L|exact H1|exact H2]. by apply ac_procs.
Qed.
Lemma wip_baddr m bn : baddr 0 (shown (wio m) ∅) wip bn = 0.
Proof.
  assert (H : forall k, nthZ (replicate 13 0) k = 0).
  { intros k. unfold nthZ. rewrite nth_lookup. destruct (replicate 13 0 !! Z.to_nat k) eqn:E; [|done].
    by apply lookup_replicate in E as [-> _]. }
  unfold baddr, ind_of. cbn [i_addrs wip]. rewrite !H. by destruct (bn <? NDIRECT).
Qed.
Lemma wip_file m : whole_file 0 2 wsb (shown (wio m) ∅) wip.
Proof.
  split; [|unfold file_max, MAXFILE, NDIRECT, NINDIRECT, BSIZE; cbn; lia|cbn; intros o Ho; lia].
  split; [done|done|done| | |].
  - intros bn _. by rewrite wip_baddr.
  - intros bn bn' _ _. by rewrite wip_baddr.
  - change (IBLOCK (i_inum wip) wsb) with 32. split; [cbn; lia|exact (wfs_used 32 ltac:(lia))| | |done].
    + right. unfold LOGSIZE, MAXOPBLOCKS. lia.
    + intros b Hb. cbn in Hb. unfold BBLOCK. cbn [sb_bmapstart wsb]. change BPB with 8192. sz.
Qed.
Lemma wio_can_write m : can_write (wio m) ∅ 0 2 [] 0 wip 0 1500.
Proof.
  split; [done|exact wfs_layout|apply wip_file|by vm_compute|cbn; lia|lia| |vm_compute; lia|].
  - unfold file_max, MAXFILE, NDIRECT, NINDIRECT, BSIZE. cbn. lia.
  - assert (E : nfree 0 (k_sb (wio m)) (shown (wio m) ∅) = nfree 0 wsb (shown wfs ∅)) by reflexivity. rewrite E.
    assert (100 <= nfree 0 wsb (shown wfs ∅))%nat as H; [|change (fneed wip + nblocks 0 1500)%nat with 3%nat; lia].
    vm_compute. lia.
Qed.
Lemma wio_runs m : runs_on 0 wroot (wio m).
Proof.
  split; [|by exists wproc]. split; [|by exists (mk_cpu (Some 0%nat) 0 0)].
  exists (mk_cpu (Some 0%nat) 0 0), 0. split_and!; [done..|]. by intros [].
Qed.
Lemma wpage_range m va n : (forall va, umapped m wroot va <-> PGROUNDDOWN va = 0x1000) ->
  0x1000 <= va -> va + n <= 0x2000 -> user_range m wroot va n.
Proof. intros H H1 H2. split_and!; [lia|lia|]. intros j Hj. apply H. rewrite PGROUNDDOWN_eq. unfold PGSIZE. lia. Qed.

Lemma writei_writes_file_witness : exists m s' ip',
  quiet (writei (DD := ideal) 0 (FromUser 0x1000) 0 1500) (wio m) 1500 s' /\ i_size ip' = 1500.
Proof.
  destruct wmapped as (t & Hw & Hm). exists (k_mem t).
  destruct (writei_writes_file (DD := ideal) (LD := linker0) 0 0 wroot 0 2 (wio (k_mem t)) (rev (seq 0 NBUF)) ∅ [] 0 wip 0x1000 0 1500)
    as (s' & l' & P' & bl' & ip' & Q & _ & _ & _ & _ & Hs & _).
  - exact (wio_txn _).
  - exact (wio_can_write _).
  - exact (wio_runs _).
  - apply Hw.
  - apply wpage_range; [exact Hm|lia|lia].
  - exists s', ip'. split; [exact Q|exact Hs].
Defined.
Lemma file_roundtrip_witness : exists m s1 s2 data,
  quiet (writei (DD := ideal) 0 (FromUser 0x1000) 0 1500) (wio m) 1500 s1 /\
  quiet (readi (DD := ideal) 0 (ToUser 0x1900) 0 1500) s1 (1500, data) s2.
Proof.
  destruct wmapped as (t & Hw & Hm). exists (k_mem t).
  destruct (file_roundtrip (DD := ideal) (LD := linker0) 0 0 wroot 0 2 (wio (k_mem t)) (rev (seq 0 NBUF)) ∅ [] 0 wip 0x1000 0x1900 0 1500)
    as (s1 & s2 & Q1 & Q2 & _).
  - exact (wio_txn _).
  - exact (wio_can_write _).
  - exact (wio_runs _).
  - exact Hw.
  - apply wpage_range; [exact Hm|lia|lia].
  - apply wpage_range; [exact Hm|lia|lia].
  - eexists s1, s2, _. split; [exact Q1|exact Q2].
Defined.
