(* ===== verification/DirProofs.v ===== *)
(** * The inode cache and directories: iget, dirlookup, dirlink

    [icache_ok]: no two referenced entries of the inode cache are for the same
    inode.  A directory is a file of 16-byte entries; [dent view dp j] is the
    [j]-th, and [matches name] says that it is in use and has the name. *)
From S2P Require Import Prelude Mem Riscv State Spinlock Kalloc Vm PageTable VmProofs UserCopy Proc ProcProofs Sleeplock SleeplockProofs Bio BioProofs BioSpec Log LogProofs LogCrash Txn Fs PipeProofs BallocProofs InodeProofs BmapProofs FileIO FileProofs.

#[local] Arguments nthZ : simpl never.

(** ** The inode cache *)
Definition caches (dev inum : Z) (ip : inode) : Prop := 0 < i_ref ip /\ i_dev ip = dev /\ i_inum ip = inum.
Record icache_ok (ips : list inode) : Prop := {
  ic_ref : forall j ip, ips !! j = Some ip -> 0 <= i_ref ip;
  ic_uniq : forall j k a b dev inum, ips !! j = Some a -> ips !! k = Some b ->
    caches dev inum a -> caches dev inum b -> j = k;
}.

Lemma cachesb dev inum ip :
  (0 <? i_ref ip) && (i_dev ip =? dev) && (i_inum ip =? inum) = true <-> caches dev inum ip.
Proof. unfold caches. rewrite !andb_true_iff, Z.ltb_lt, !Z.eqb_eq. tauto. Qed.

Lemma iget_scan_spec dev inum ips : forall i e,
  match iget_scan ips dev inum i e with
  | inl k => exists j ip, k = (i + j)%nat /\ ips !! j = Some ip /\ caches dev inum ip
  | inr r => (forall j ip, ips !! j = Some ip -> ~ caches dev inum ip) /\
      match r with
      | None => e = None /\ forall j ip, ips !! j = Some ip -> i_ref ip <> 0
      | Some k => e = Some k \/ e = None /\ exists j ip, k = (i + j)%nat /\ ips !! j = Some ip /\ i_ref ip = 0
      end
  end.
Proof.
  induction ips as [|ip ips IH]; intros i e; cbn [iget_scan].
  { split; [done|]. destruct e; [by left|done]. }
  destruct ((0 <? i_ref ip) && (i_dev ip =? dev) && (i_inum ip =? inum)) eqn:E.
  { exists O, ip. split_and!; [lia|done|by apply cachesb]. }
  set (e' := match e with None => if i_ref ip =? 0 then Some i else None | _ => e end).
  specialize (IH (S i) e'). destruct (iget_scan ips dev inum (S i) e') as [k|r].
  - destruct IH as (j & x & -> & Hj & Hc). exists (S j), x. split_and!; [lia|done|done].
  - destruct IH as [H1 H2]. split.
    + intros [|j] x Hj; [injection Hj as <-; intros Hc; apply cachesb in Hc; congruence|by apply (H1 j)].
    + destruct r as [k|].
      * unfold e' in H2. destruct e as [k0|]; [destruct H2 as [H2|[H2 _]]; [by left|done]|].
        bdestr (i_ref ip =? 0).
        -- destruct H2 as [[= <-]|[H2 _]]; [|done]. right. split; [done|]. exists O, ip. split_and!; [lia|done|done].
        -- destruct H2 as [H2|(_ & j & x & -> & Hj & Hx)]; [done|]. right. split; [done|]. exists (S j), x. split_and!; [lia|done|done].
      * unfold e' in H2. destruct e; [by destruct H2|]. bdestr (i_ref ip =? 0); [by destruct H2|]. destruct H2 as [_ H2].
        split; [done|]. intros [|j] x Hj; [by injection Hj as <-|by apply (H2 j)].
Qed.

(** The entry iget makes or finds. *)
Definition iget_entry (dev inum : Z) (old new : inode) : Prop :=
  caches dev inum old /\ new = set_i_ref (i_ref old + 1) old \/
  i_ref old = 0 /\ new = set_i_valid 0 (set_i_ref 1 (set_i_inum inum (set_i_dev dev old))).

Lemma hquiet_upd_inode {B} l ii ip f (k : unit -> M B) s b s2 : k_inodes s !! ii = Some ip ->
  hquiet l (k tt) (set_k_inodes (<[ii := f ip]> (k_inodes s)) s) b s2 -> hquiet l (upd_inode ii f ≫= k) s b s2.
Proof.
  intros H Hk. apply hquiet_modify; [apply _|done|]. by rewrite (list_alter_insert f _ _ _ H).
Qed.

Lemma iget_entry_caches dev inum old new : iget_entry dev inum old new -> caches dev inum new.
Proof. unfold iget_entry, caches. intros [[(H1 & H2 & H3) ->]|[_ ->]]; cbn; lia. Qed.

Lemma iget_spec s dev inum :
  ready s Licache -> icache_ok (k_inodes s) ->
  (exists j ip, k_inodes s !! j = Some ip /\ (caches dev inum ip \/ i_ref ip = 0)) ->
  exists j old new, quiet (iget dev inum) s j (set_k_inodes (<[j := new]> (k_inodes s)) s) /\
    k_inodes s !! j = Some old /\ iget_entry dev inum old new /\
    caches dev inum new /\ icache_ok (<[j := new]> (k_inodes s)).
Proof.
  intros Hr OK (j0 & ip0 & H0 & Hslot). set (ips := k_inodes s) in *.
  pose proof (iget_scan_spec dev inum ips 0 None) as Hscan.
  assert (Hnew : forall j old new, ips !! j = Some old -> caches dev inum new ->
    (forall k b, ips !! k = Some b -> k <> j -> ~ caches dev inum b) -> icache_ok (<[j := new]> ips)).
  { intros j old new Hj Hc Hno. destruct OK as [O1 O2]. assert (j < length ips)%nat by by eapply lookup_lt_Some.
    assert (Hcase : forall k b, <[j := new]> ips !! k = Some b -> k = j /\ b = new \/ k <> j /\ ips !! k = Some b).
    { intros k b Hb. destruct (decide (k = j)) as [->|Hne]; [left|right].
      - rewrite list_lookup_insert_eq in Hb by done. by injection Hb as <-.
      - by rewrite list_lookup_insert_ne in Hb by done. }
    split.
    - intros k b [[-> ->]|[_ Hb]]%Hcase; [destruct Hc; lia|by apply (O1 k)].
    - intros k1 k2 a b d n [[-> ->]|[N1 H1]]%Hcase [[-> ->]|[N2 H2]]%Hcase C1 C2; try done.
      + exfalso. apply (Hno k2 b H2 N2). destruct Hc as (_ & <- & <-), C1 as (_ & -> & ->). exact C2.
      + exfalso. apply (Hno k1 a H1 N1). destruct Hc as (_ & <- & <-), C2 as (_ & -> & ->). exact C1.
      + by apply (O2 k1 k2 a b d n). }
  destruct (iget_scan ips dev inum 0 None) as [k|r] eqn:Es.
  - destruct Hscan as (j & ip & -> & Hj & Hc). cbn [Nat.add]. exists j, ip, (set_i_ref (i_ref ip + 1) ip).
    assert (Hcn : caches dev inum (set_i_ref (i_ref ip + 1) ip)) by (destruct Hc as (? & ? & ?); split_and!; cbn; done || lia).
    split_and!; [|done|by left|done|].
    + unfold iget. apply quiet_acquire; [done|]. apply hquiet_reads; [apply _|]. fold ips. rewrite Es. cbn [Nat.add].
      eapply hquiet_upd_inode; [exact Hj|]. apply hquiet_release; [done|apply quiet_ret].
    + apply (Hnew j ip); [done|done|]. intros k b Hb Hne Hcb. apply Hne. by apply (ic_uniq _ OK k j b ip dev inum).
  - destruct Hscan as [Hno Hr2]. destruct r as [k|].
    2:{ exfalso. destruct Hr2 as [_ Hr2]. destruct Hslot as [Hc|Hz]; [by apply (Hno j0 ip0)|by apply (Hr2 j0 ip0)]. }
    destruct Hr2 as [?|(_ & j & ip & -> & Hj & Hz)]; [done|]. cbn [Nat.add] in *.
    set (new := set_i_valid 0 (set_i_ref 1 (set_i_inum inum (set_i_dev dev ip)))).
    assert (Hjl : (j < length ips)%nat) by by eapply lookup_lt_Some.
    exists j, ip, new. split_and!; [|done|by right|by unfold new, caches; cbn|].
    + unfold iget. apply quiet_acquire; [done|]. apply hquiet_reads; [apply _|]. fold ips. rewrite Es.
      eapply hquiet_upd_inode; [exact Hj|]. fold ips.
      eapply hquiet_upd_inode; [by apply list_lookup_insert_eq|]. cbn [k_inodes set_k_inodes]. rewrite list_insert_insert_eq.
      eapply hquiet_upd_inode; [by apply list_lookup_insert_eq|]. cbn [k_inodes set_k_inodes]. rewrite list_insert_insert_eq.
      eapply hquiet_upd_inode; [by apply list_lookup_insert_eq|]. cbn [k_inodes set_k_inodes]. rewrite list_insert_insert_eq.
      apply hquiet_release; [done|apply quiet_ret].
    + apply (Hnew j ip); [done|by unfold new, caches; cbn|]. intros k b Hb _. by apply (Hno k).
Qed.

(** Every entry is referenced, and none is for the inode. *)
Definition icache_full (dev inum : Z) (ips : list inode) : Prop :=
  forall j ip, ips !! j = Some ip -> i_ref ip <> 0 /\ ~ caches dev inum ip.
Lemma icache_cases dev inum ips :
  (exists j ip, ips !! j = Some ip /\ (caches dev inum ip \/ i_ref ip = 0)) \/ icache_full dev inum ips.
Proof.
  pose proof (iget_scan_spec dev inum ips 0 None) as Hs. destruct (iget_scan ips dev inum 0 None) as [k|[k|]].
  - left. destruct Hs as (j & ip & _ & Hj & Hc). eauto.
  - left. destruct Hs as [_ [?|(_ & j & ip & _ & Hj & Hz)]]; [done|eauto].
  - right. destruct Hs as [H1 [_ H2]]. intros j ip Hj. split; [by apply (H2 j)|by apply (H1 j)].
Qed.
Lemma iget_panics s dev inum : ready s Licache -> icache_full dev inum (k_inodes s) ->
  panics_with "iget: no inodes" (iget dev inum) s.
Proof.
  intros Hr Hf. unfold iget. apply panics_acquire; [done|]. eapply panics_with_bind; [apply quiet_reads, _|]. cbn [k_inodes taken set_k_lk].
  pose proof (iget_scan_spec dev inum (k_inodes s) 0 None) as Hs. destruct (iget_scan (k_inodes s) dev inum 0 None) as [k|[k|]].
  - destruct Hs as (j & ip & _ & Hj & Hc). by destruct (Hf j ip Hj).
  - destruct Hs as [_ [?|(_ & j & ip & _ & Hj & Hz)]]; [done|]. by destruct (Hf j ip Hj).
  - apply panics_with_panic.
Qed.

(** ** Directories *)
Section Dir.
Context `{DL : DiskLaws} (i : nat) (pid dev start : Z).

Definition dent (view : Z * Z -> list Z) (dp : inode) (j : nat) : list Z := fbytes dev view dp (16 * Z.of_nat j) 16.
Definition matches (name de : list Z) : Prop := de_inum de <> 0 /\ namecmp name (de_name de) = 0.
Record dir_ok (sb : superblock) (view : Z * Z -> list Z) (dp : inode) (nent : nat) : Prop := {
  do_file : whole_file dev start sb view dp;
  do_type : i_type dp = T_DIR;
  do_size : i_size dp = 16 * Z.of_nat nent;
}.
(** The thread is in a transaction, or in none, and holds the directory. *)
Record dir_ctx (s : kstate) (P : gmap (Z * Z) (Z * list Z)) (out : Z) (bl : list Z) (d : nat) (dp : inode) (nent : nat) : Prop := {
  dc_txn : exists l, in_txn s i pid l P ∅ dev start out bl;
  dc_len : (length bl <= 10)%nat;
  dc_inode : k_inodes s !! d = Some dp;
  dc_dir : dir_ok (k_sb s) (shown s P) dp nent;
}.
Lemma rdw_sb s s' : rdw s s' -> k_sb s' = k_sb s.
Proof. intros W. by rewrite (frame_sb _ _ _ W). Qed.
Lemma dir_ok_ext sb view view' dp nent : (forall k, view' k = view k) -> dir_ok sb view dp nent -> dir_ok sb view' dp nent.
Proof.
  intros E [[F1 F2 F3] T S]. split; [split; [by apply (file_ok_ext _ _ _ view)|done|]|done|done].
  intros o Ho. rewrite (baddr_ext _ view) by done. by apply F3.
Qed.

(** Reading an entry. *)
Lemma readi_dent s P out bl d dp nent j : dir_ctx s P out bl d dp nent -> (j < nent)%nat ->
  exists s', quiet (readi d ToLocal (16 * Z.of_nat j) dirent_size) s (dirent_size, dent (shown s P) dp j) s' /\ rdw s s' /\
    dir_ctx s' P out bl d dp nent /\ forall k, shown s' P k = shown s P k.
Proof.
  intros [(l & It) Hl Hd D] Hj. pose proof (do_size _ _ _ _ D) as Hs. pose proof (wf_size _ _ _ _ _ (do_file _ _ _ _ D)) as Hmax.
  destruct (readi_spec i pid dev start local_sink s l P out bl d dp ToLocal (16 * Z.of_nat j) 16 It Hl Hd (do_file _ _ _ _ D))
    as (s' & l' & d' & Q & R & I' & _); [lia|lia|done|].
  rewrite Hs in Q. replace (Z.min 16 (16 * Z.of_nat nent - 16 * Z.of_nat j)) with 16 in Q by lia.
  assert (Hsh : forall k, shown s' P k = shown s P k) by (intros k; by apply rdw_shown).
  exists s'. split_and!; [exact Q|done| |done]. split; [by exists l'|done|by rewrite (rdw_inodes _ _ R)|].
  rewrite (rdw_sb _ _ R). by apply (dir_ok_ext _ (shown s P)).
Qed.

Lemma dent_ext view view' dp j : (forall k, view' k = view k) -> dent view' dp j = dent view dp j.
Proof.
  intros E. apply fbytes_ext. intros o Ho. unfold fbyte, fblock. by rewrite (baddr_ext _ view), E by done.
Qed.

(** The loop of dirlookup: no entry from [j] on matches, or [k] is the first. *)
Lemma dirlookup_loop_none name P out bl d dp nent fuel : forall s j,
  dir_ctx s P out bl d dp nent -> (nent - j < fuel)%nat -> (j <= nent)%nat ->
  (forall k, (j <= k < nent)%nat -> ~ matches name (dent (shown s P) dp k)) ->
  exists s', quiet (dirlookup_loop fuel d name (16 * Z.of_nat j)) s None s' /\ rdw s s' /\ dir_ctx s' P out bl d dp nent.
Proof.
  induction fuel as [|fuel IH]; intros s j C Hf Hj Hno; [lia|]. cbn [dirlookup_loop].
  pose proof (do_size _ _ _ _ (dc_dir _ _ _ _ _ _ _ C)) as Hs.
  destruct (decide (j = nent)) as [->|Hne].
  { exists s. split_and!; [|by apply rdw_wrote, wrote_nil|done].
    eapply quiet_bind; [apply quiet_get_inode, C|]. rewrite Hs. if_lia. apply quiet_ret. }
  destruct (readi_dent s P out bl d dp nent j C ltac:(lia)) as (s1 & Q1 & R1 & C1 & E1).
  destruct (IH s1 (S j) C1) as (s2 & Q2 & R2 & C2); [lia|lia| |].
  { intros k Hk. rewrite (dent_ext (shown s P)) by done. apply Hno. lia. }
  exists s2. split_and!; [|by eapply rdw_trans|done].
  eapply quiet_bind; [apply quiet_get_inode, C|]. rewrite Hs.
  replace (16 * Z.of_nat j <? 16 * Z.of_nat nent) with true by lia. cbn [negb].
  eapply quiet_bind; [exact Q1|]. cbn [fst snd]. rewrite Z.eqb_refl. cbn [negb]. cbv zeta.
  replace (16 * Z.of_nat (S j)) with (16 * Z.of_nat j + dirent_size) in Q2 by (unfold dirent_size; lia).
  pose proof (Hno j ltac:(lia)) as Hm. unfold matches in Hm.
  bdestr (de_inum (dent (shown s P) dp j) =? 0); [exact Q2|].
  bdestr (namecmp name (de_name (dent (shown s P) dp j)) =? 0); [tauto|exact Q2].
Qed.
Lemma dirlookup_loop_some name P out bl d dp nent k fuel : forall s j,
  dir_ctx s P out bl d dp nent -> (k - j < fuel)%nat -> (j <= k < nent)%nat ->
  (forall j', (j <= j' < k)%nat -> ~ matches name (dent (shown s P) dp j')) -> matches name (dent (shown s P) dp k) ->
  ready s Licache -> icache_ok (k_inodes s) ->
  (exists j ip, k_inodes s !! j = Some ip /\ (caches dev (de_inum (dent (shown s P) dp k)) ip \/ i_ref ip = 0)) ->
  exists s1 c old new, quiet (dirlookup_loop fuel d name (16 * Z.of_nat j)) s (Some (c, 16 * Z.of_nat k))
      (set_k_inodes (<[c := new]> (k_inodes s)) s1) /\ rdw s s1 /\ dir_ctx s1 P out bl d dp nent /\
    k_inodes s !! c = Some old /\ iget_entry dev (de_inum (dent (shown s P) dp k)) old new /\
    icache_ok (<[c := new]> (k_inodes s)).
Proof.
  induction fuel as [|fuel IH]; intros s j C Hf Hj Hno Hyes Hr OK Hslot; [lia|]. cbn [dirlookup_loop].
  pose proof (do_size _ _ _ _ (dc_dir _ _ _ _ _ _ _ C)) as Hs.
  destruct (readi_dent s P out bl d dp nent j C ltac:(lia)) as (s1 & Q1 & R1 & C1 & E1).
  pose proof (rdw_inodes _ _ R1) as Ei.
  assert (Hready : ready s1 Licache).
  { destruct (wrote_fields _ _ _ R1) as (L1 & L2 & _). unfold ready in *. by rewrite L1, L2. }
  assert (Hstep : forall r t, quiet (let de := dent (shown s P) dp j in
        if de_inum de =? 0 then dirlookup_loop fuel d name (16 * Z.of_nat j + dirent_size) else
        if namecmp name (de_name de) =? 0 then
          ip ← get_inode d; c ← iget (i_dev ip) (de_inum de); mret (Some (c, 16 * Z.of_nat j))
        else dirlookup_loop fuel d name (16 * Z.of_nat j + dirent_size)) s1 r t ->
      quiet (dirlookup_loop (S fuel) d name (16 * Z.of_nat j)) s r t).
  { intros r t Hq. cbn [dirlookup_loop]. eapply quiet_bind; [apply quiet_get_inode, C|]. rewrite Hs.
    replace (16 * Z.of_nat j <? 16 * Z.of_nat nent) with true by lia. cbn [negb].
    eapply quiet_bind; [exact Q1|]. cbn [fst snd]. rewrite Z.eqb_refl. exact Hq. }
  destruct (decide (j = k)) as [->|Hne].
  - destruct Hyes as [Y1 Y2]. set (inum := de_inum (dent (shown s P) dp k)) in *.
    destruct (iget_spec s1 dev inum Hready) as (c & old & new & Q & Hc & He & _ & OK'); [by rewrite Ei|by rewrite Ei|].
    rewrite Ei in Q, Hc, OK'. exists s1, c, old, new. split_and!; [|done|done|done|done|done].
    apply Hstep. cbv zeta. fold inum. replace (inum =? 0) with false by lia. rewrite Y2. cbn [Z.eqb].
    eapply quiet_bind; [apply quiet_get_inode; rewrite Ei; apply C|].
    rewrite (fo_dev _ _ _ _ _ (wf_ok _ _ _ _ _ (do_file _ _ _ _ (dc_dir _ _ _ _ _ _ _ C)))).
    eapply quiet_bind; [exact Q|apply quiet_ret].
  - destruct (IH s1 (S j) C1) as (s2 & c & old & new & Q2 & R2 & C2 & Hc & He & OK'); rewrite ?Ei; try done; try lia.
    { intros j' Hj'. rewrite (dent_ext (shown s P)) by done. apply Hno. lia. }
    { by rewrite (dent_ext (shown s P)). }
    { by rewrite (dent_ext (shown s P)). }
    rewrite (dent_ext (shown s P)) in He by done. rewrite Ei in Q2, Hc, OK'.
    exists s2, c, old, new. split_and!; [|by eapply rdw_trans|done|done|done|done]. apply Hstep. cbv zeta.
    replace (16 * Z.of_nat (S j)) with (16 * Z.of_nat j + dirent_size) in Q2 by (unfold dirent_size; lia).
    pose proof (Hno j ltac:(lia)) as Hm. unfold matches in Hm.
    bdestr (de_inum (dent (shown s P) dp j) =? 0); [exact Q2|].
    bdestr (namecmp name (de_name (dent (shown s P) dp j)) =? 0); [tauto|exact Q2].
Qed.


(** *** dirlookup *)
Lemma dirlookup_none s name P out bl d dp nent :
  dir_ctx s P out bl d dp nent -> (forall k, (k < nent)%nat -> ~ matches name (dent (shown s P) dp k)) ->
  exists s', quiet (dirlookup d name) s None s' /\ rdw s s' /\ dir_ctx s' P out bl d dp nent.
Proof.
  intros C Hno. pose proof (dc_dir _ _ _ _ _ _ _ C) as [_ T Sz].
  destruct (dirlookup_loop_none name P out bl d dp nent (S (S (Z.to_nat (i_size dp / dirent_size)))) s 0 C) as (s' & Q & R & C').
  { rewrite Sz. unfold dirent_size. lia. } { lia. } { intros k Hk. apply Hno. lia. }
  exists s'. split_and!; [|done|done]. unfold dirlookup. eapply quiet_bind; [apply quiet_get_inode, C|]. rewrite T. exact Q.
Qed.
Lemma dirlookup_some s name P out bl d dp nent k :
  dir_ctx s P out bl d dp nent -> (k < nent)%nat -> (forall j, (j < k)%nat -> ~ matches name (dent (shown s P) dp j)) ->
  matches name (dent (shown s P) dp k) -> ready s Licache -> icache_ok (k_inodes s) ->
  (exists j ip, k_inodes s !! j = Some ip /\ (caches dev (de_inum (dent (shown s P) dp k)) ip \/ i_ref ip = 0)) ->
  exists s1 c old new, quiet (dirlookup d name) s (Some (c, 16 * Z.of_nat k)) (set_k_inodes (<[c := new]> (k_inodes s)) s1) /\
    rdw s s1 /\ dir_ctx s1 P out bl d dp nent /\ k_inodes s !! c = Some old /\
    iget_entry dev (de_inum (dent (shown s P) dp k)) old new /\ icache_ok (<[c := new]> (k_inodes s)).
Proof.
  intros C Hk Hno Hyes Hr OK Hslot. pose proof (dc_dir _ _ _ _ _ _ _ C) as [_ T Sz].
  destruct (dirlookup_loop_some name P out bl d dp nent k (S (S (Z.to_nat (i_size dp / dirent_size)))) s 0 C)
    as (s1 & c & old & new & Q & H); try done; try lia.
  { rewrite Sz. unfold dirent_size. lia. } { intros j Hj. apply Hno. lia. }
  exists s1, c, old, new. split; [|exact H]. unfold dirlookup. eapply quiet_bind; [apply quiet_get_inode, C|]. rewrite T. exact Q.
Qed.


(** *** dirlink *)
Lemma dirlink_find_spec P out bl d dp nent fuel : forall s j de,
  dir_ctx s P out bl d dp nent -> (nent - j < fuel)%nat -> (j <= nent)%nat -> length de = 16%nat ->
  exists k de' s', quiet (dirlink_find fuel d (16 * Z.of_nat j) de) s (16 * Z.of_nat k, de') s' /\ rdw s s' /\
    dir_ctx s' P out bl d dp nent /\ length de' = 16%nat /\ (j <= k <= nent)%nat /\
    ((k < nent)%nat -> de_inum (dent (shown s P) dp k) = 0).
Proof.
  induction fuel as [|fuel IH]; intros s j de C Hf Hj Hde; [lia|]. cbn [dirlink_find].
  pose proof (do_size _ _ _ _ (dc_dir _ _ _ _ _ _ _ C)) as Hs.
  destruct (decide (j = nent)) as [->|Hne].
  { exists nent, de, s. split_and!; [|by apply rdw_wrote, wrote_nil|done|done|lia|lia|lia].
    eapply quiet_bind; [apply quiet_get_inode, C|]. rewrite Hs. if_lia. apply quiet_ret. }
  destruct (readi_dent s P out bl d dp nent j C ltac:(lia)) as (s1 & Q1 & R1 & C1 & E1).
  assert (Hstep : forall r t, quiet (if de_inum (dent (shown s P) dp j) =? 0 then mret (16 * Z.of_nat j, dent (shown s P) dp j)
        else dirlink_find fuel d (16 * Z.of_nat j + dirent_size) (dent (shown s P) dp j)) s1 r t ->
      quiet (dirlink_find (S fuel) d (16 * Z.of_nat j) de) s r t).
  { intros r t Hq. cbn [dirlink_find]. eapply quiet_bind; [apply quiet_get_inode, C|]. rewrite Hs.
    replace (16 * Z.of_nat j <? 16 * Z.of_nat nent) with true by lia. cbn [negb].
    eapply quiet_bind; [exact Q1|]. cbn [fst snd]. rewrite Z.eqb_refl. exact Hq. }
  bdestr (de_inum (dent (shown s P) dp j) =? 0).
  - exists j, (dent (shown s P) dp j), s1. split_and!; [|done|done|apply length_fbytes|lia|lia|done].
    apply Hstep. apply quiet_ret.
  - destruct (IH s1 (S j) (dent (shown s P) dp j) C1) as (k & de' & s2 & Q2 & R2 & C2 & L2 & K2 & Z2); [lia|lia|apply length_fbytes|].
    exists k, de', s2. split_and!; [|by eapply rdw_trans|done|done|lia|lia|].
    + apply Hstep. by replace (16 * Z.of_nat (S j)) with (16 * Z.of_nat j + dirent_size) in Q2 by (unfold dirent_size; lia).
    + intros Hk. rewrite <- (dent_ext (shown s P) (shown s1 P)) by done. by apply Z2.
Qed.
End Dir.

(** A name compares equal to its copy in an entry. *)
Lemma strncmp_strncpy n : forall s t, (n <= length s)%nat -> strncmp t (strncpy s t n) n = 0.
Proof.
  induction n as [|n IH]; intros s t Hs; [done|]. destruct s as [|x s]; [cbn in Hs; lia|]. cbn in Hs. cbn [strncpy strncmp chr tail].
  unfold ctrue. bdestr (chr t =? 0); cbn [negb andb].
  - rewrite E. done.
  - rewrite Z.eqb_refl. replace (chr t =? 0) with false by lia. cbn [negb]. apply IH. lia.
Qed.
Lemma length_strncpy_pad n : forall s, length (strncpy_pad s n) = length s.
Proof. induction n as [|n IH]; intros [|x s]; try done. cbn. by rewrite IH. Qed.
Lemma length_strncpy n : forall s t, length (strncpy s t n) = length s.
Proof.
  induction n as [|n IH]; intros [|x s] t; try done. cbn. destruct (ctrue _); [by rewrite IH|by rewrite length_strncpy_pad].
Qed.

Section Dirlink.
Context `{DL : DiskLaws} (i : nat) (pid dev start : Z).

(** A directory with room for one more entry in the transaction. *)
Record can_link (s : kstate) (P : gmap (Z * Z) (Z * list Z)) (bl : list Z) (d : nat) (dp : inode) (nent : nat) : Prop := {
  cl_ctx : dir_ctx i pid dev start s P 1 bl d dp nent;
  cl_layout : layout dev start (k_sb s) (shown s P);
  cl_bitmap : sb_size (k_sb s) <= BPB;
  cl_size : i_size dp + 16 <= file_max;
  cl_log : (log_need (k_sb s) dp bl + 2 <= Z.to_nat MAXOPBLOCKS)%nat;
  cl_free : (fneed dp < nfree dev (k_sb s) (shown s P))%nat;
}.
Definition entry_for (name : list Z) (inum : Z) (de : list Z) : Prop := de_inum de = inum /\ matches name de.

Lemma nblocks_entry k : nblocks (16 * Z.of_nat k) 16 = 1%nat.
Proof. unfold nblocks. change BSIZE with 1024. lia. Qed.
Lemma new_entry name inum de : length de = 16%nat -> 0 < inum < 2 ^ 16 ->
  let e := Z_to_le 2 inum ++ strncpy (de_name de) name DIRSIZ in
  length e = 16%nat /\ entry_for name inum e.
Proof.
  intros Hl Hi e. assert (Hn : length (de_name de) = 14%nat) by (unfold de_name; rewrite length_drop; lia).
  assert (He : length e = 16%nat) by (unfold e; rewrite length_app, length_Z_to_le, length_strncpy; lia).
  assert (Hin : de_inum e = inum).
  { unfold de_inum, get16, e, slice. change (Z.to_nat 0) with 0%nat. rewrite drop_0.
    rewrite take_app_length' by (by rewrite length_Z_to_le). rewrite le_to_Z_to_le. apply Z.mod_small. lia. }
  split; [done|]. split; [done|]. split; [lia|]. unfold namecmp, de_name at 1. unfold e.
  rewrite drop_app_length' by (by rewrite length_Z_to_le). apply strncmp_strncpy. unfold DIRSIZ. lia.
Qed.

Lemma dirlink_spec s P bl d dp nent name inum :
  can_link s P bl d dp nent -> 0 < inum < 2 ^ 16 ->
  (forall k, (k < nent)%nat -> ~ matches name (dent dev (shown s P) dp k)) ->
  exists k s' P' bl' dp', quiet (dirlink d name inum) s 0 s' /\ (k <= nent)%nat /\
    dir_ctx i pid dev start s' P' 1 bl' d dp' (Nat.max nent (S k)) /\
    k_inodes s' = <[d := dp']> (k_inodes s) /\ dp' = set_i_addrs (i_addrs dp') (set_i_size (i_size dp') dp) /\
    k_lk s' = k_lk s /\ k_hart s' = k_hart s /\
    ((k < nent)%nat -> de_inum (dent dev (shown s P) dp k) = 0) /\
    entry_for name inum (dent dev (shown s' P') dp' k) /\
    forall j, (j < nent)%nat -> j <> k -> dent dev (shown s' P') dp' j = dent dev (shown s P) dp j.
Proof.
  intros [C LY Hbm Hsz Hlog Hfree] Hi Hno. pose proof (dc_dir _ _ _ _ _ _ _ _ _ _ _ C) as [_ T Sz].
  destruct (dirlookup_none i pid dev start s name P 1 bl d dp nent C Hno) as (s1 & Q1 & R1 & C1).
  destruct (dirlink_find_spec i pid dev start P 1 bl d dp nent (S (S (Z.to_nat (i_size dp / dirent_size)))) s1 0
    (replicate (Z.to_nat dirent_size) 0) C1) as (k & de & s2 & Q2 & R2 & C2 & Hde & Hk & Hz).
  { rewrite Sz. unfold dirent_size. lia. } { lia. } { done. }
  pose proof (rdw_trans _ _ _ R1 R2) as R. assert (Hsh : forall x, shown s2 P x = shown s P x) by (intros x; by apply rdw_shown).
  assert (Hsh1 : forall x, shown s1 P x = shown s P x) by (intros x; by apply rdw_shown).
  pose proof (rdw_sb _ _ R) as Hsb. destruct (new_entry name inum de Hde Hi) as [He Hfor].
  set (e := Z_to_le 2 inum ++ strncpy (de_name de) name DIRSIZ) in *.
  destruct C2 as [(l2 & I2) Hl2 Hd2 D2].
  pose proof (writei_spec i pid dev start local_source s2 l2 P bl d dp (FromLocal e) e (16 * Z.of_nat k)) as HW.
  cbv zeta in HW. rewrite He, Hsb in HW. change (Z.of_nat 16) with 16 in HW. rewrite nblocks_entry in HW.
  assert (HM : file_max = 274432) by reflexivity. change (Z.to_nat MAXOPBLOCKS) with 10%nat in *.
  destruct HW as (s3 & l3 & P3 & bl3 & dp3 & Q3 & W3 & I3 & Hl3 & E3 & [A1 A2 A3 A4 A5 A6 A7]); try done; try lia.
  { by apply (layout_ext _ _ _ (shown s P)). }
  { rewrite Hsb in D2. apply D2. }
  { rewrite <- (nfree_ext dev (k_sb s) (shown s P) (shown s2 P)) by done. lia. }
  rewrite He in A3, A4. change (Z.of_nat 16) with 16 in *.
  assert (Esz : i_size dp3 = 16 * Z.of_nat (Nat.max nent (S k))) by (rewrite A3; cbn; lia).
  assert (Hbyte : forall o, 0 <= o < file_max -> fbyte dev (shown s3 P3) dp3 o =
    if (16 * Z.of_nat k <=? o) && (o <? 16 * Z.of_nat k + 16) then nthZ e (o - 16 * Z.of_nat k) else fbyte dev (shown s P) dp o).
  { intros o Ho. rewrite A4 by done. destruct (_ && _); [done|]. unfold fbyte, fblock. by rewrite (baddr_ext _ (shown s P)), Hsh by done. }
  assert (Hek : dent dev (shown s3 P3) dp3 k = e).
  { apply list_eq. intros j. destruct (decide (j < 16)%nat) as [Hj|Hj].
    - unfold dent. rewrite lookup_fbytes, Hbyte by lia. if_lia. destruct (lookup_lt_is_Some_2 e j) as [v Hv]; [lia|].
      rewrite Hv. f_equal. replace (16 * Z.of_nat k + Z.of_nat j - 16 * Z.of_nat k) with (Z.of_nat j) by lia. by apply nthZ_lookup.
    - unfold dent. rewrite !lookup_ge_None_2; [done|lia|rewrite length_fbytes; lia]. }
  destruct (wrote_fields _ _ _ R) as (F1 & F2 & _). destruct (wrote_fields _ _ _ W3) as (G1 & G2 & _).
  exists k, s3, P3, bl3, dp3. split_and!.
  - unfold dirlink. eapply quiet_bind; [exact Q1|].
    eapply quiet_bind; [apply quiet_get_inode, C1|]. eapply quiet_bind; [exact Q2|]. cbn [fst snd]. cbv zeta. fold e.
    eapply quiet_bind; [exact Q3|]. change (negb (16 =? dirent_size)) with false. apply quiet_ret.
  - lia.
  - split; [by exists l3|done| |].
    + rewrite E3. apply list_lookup_insert_eq. by eapply lookup_lt_Some.
    + rewrite (fsw_sb _ _ W3), Hsb. split; [done|by rewrite A3|done].
  - by rewrite E3, (rdw_inodes _ _ R).
  - by rewrite A3.
  - exact (eq_trans G1 F1).
  - exact (eq_trans G2 F2).
  - intros Hlt. rewrite <- (dent_ext dev (shown s P) (shown s1 P)) by done. by apply Hz.
  - by rewrite Hek.
  - intros j Hj Hne. apply fbytes_ext. intros o Ho. rewrite Hbyte by lia. by if_lia.
Qed.
End Dirlink.

(** ** Theorems *)
Section DirTheorems.
Context `{DL : DiskLaws} (i : nat) (pid dev start : Z).

#[local] Instance matches_dec name de : Decision (matches name de).
Proof. apply _. Qed.


(** C33. The inode cache has one entry per inode: iget of an inode that is cached,
    or for which there is an unused entry, returns an entry for that inode and
    takes a reference to it, creates no second entry for any inode, and leaves
    all other entries as they were; when the inode is not cached and every entry
    is referenced it panics with the message iget: no inodes. *)
Theorem iget_one_entry s inum :
  ready s Licache -> icache_ok (k_inodes s) ->
  (exists j old new, quiet (iget dev inum) s j (set_k_inodes (<[j := new]> (k_inodes s)) s) /\
     k_inodes s !! j = Some old /\ iget_entry dev inum old new /\ caches dev inum new /\
     icache_ok (<[j := new]> (k_inodes s))) \/
  ((forall j ip, k_inodes s !! j = Some ip -> i_ref ip <> 0 /\ ~ caches dev inum ip) /\
   panics_with "iget: no inodes" (iget dev inum) s).
Proof.
  intros Hr OK. destruct (icache_cases dev inum (k_inodes s)) as [Hs|Hf]; [left; by apply iget_spec|right].
  split; [exact Hf|by apply iget_panics].
Qed.


(** C12. A name that was linked is found: dirlink of a name that a directory in use
    does not have, in a transaction with room for it (in its share of the log, in
    the free blocks of a disk whose bitmap is one block, and in the directory,
    below the largest size of a file), returns 0, and a dirlookup of that name afterwards returns the inode it
    was linked to, provided the inode cache has it or has an unused entry, at an
    offset where the directory had no entry in use.  The directory after dirlink,
    as the transaction shows it, has the new entry there, and every other entry
    is as before. *)
Theorem dirlink_dirlookup s P bl d dp nent name inum :
  can_link i pid dev start s P bl d dp nent -> 0 < inum < 2 ^ 16 ->
  (forall k, (k < nent)%nat -> ~ matches name (dent dev (shown s P) dp k)) ->
  ready s Licache -> icache_ok (k_inodes s) -> 0 < i_ref dp ->
  (exists j ip, k_inodes s !! j = Some ip /\ (caches dev inum ip \/ i_ref ip = 0)) ->
  exists k s1 s2 P1 bl1 dp1 c new, quiet (dirlink d name inum) s 0 s1 /\
    quiet (dirlookup d name) s1 (Some (c, 16 * Z.of_nat k)) s2 /\
    k_inodes s2 !! c = Some new /\ caches dev inum new /\
    dir_ctx i pid dev start s1 P1 1 bl1 d dp1 (Nat.max nent (S k)) /\ k_inodes s1 = <[d := dp1]> (k_inodes s) /\
    entry_for name inum (dent dev (shown s1 P1) dp1 k) /\
    ((k < nent)%nat -> de_inum (dent dev (shown s P) dp k) = 0) /\
    forall j, (j < nent)%nat -> j <> k -> dent dev (shown s1 P1) dp1 j = dent dev (shown s P) dp j.
Proof.
  intros CL Hi Hno Hr OK Href (j & ip & Hj & Hz). pose proof (dc_inode _ _ _ _ _ _ _ _ _ _ _ (cl_ctx _ _ _ _ _ _ _ _ _ _ CL)) as Hd.
  destruct (dirlink_spec i pid dev start s P bl d dp nent name inum CL Hi Hno)
    as (k & s1 & P1 & bl1 & dp1 & Q1 & Hk & C1 & E1 & Ef & L1 & L2 & Hz1 & [Hin Hm] & Hrest).
  assert (Hlen : (d < length (k_inodes s))%nat) by by eapply lookup_lt_Some.
  assert (Hsame : i_ref dp1 = i_ref dp /\ i_dev dp1 = i_dev dp /\ i_inum dp1 = i_inum dp) by (by rewrite Ef).
  destruct Hsame as (S1 & S2 & S3).
  assert (OK1 : icache_ok (k_inodes s1)).
  { rewrite E1. destruct OK as [O1 O2].
    assert (Hcase : forall x b, <[d := dp1]> (k_inodes s) !! x = Some b -> exists b0, k_inodes s !! x = Some b0 /\
      i_ref b = i_ref b0 /\ i_dev b = i_dev b0 /\ i_inum b = i_inum b0).
    { intros x b Hb. destruct (decide (x = d)) as [->|Hne].
      - rewrite list_lookup_insert_eq in Hb by done. injection Hb as <-. eauto.
      - rewrite list_lookup_insert_ne in Hb by done. eauto. }
    split.
    - intros x b (b0 & Hb0 & -> & _)%Hcase. by apply (O1 x).
    - intros x y a b dv n (a0 & Ha & A1 & A2 & A3)%Hcase (b0 & Hb & B1 & B2 & B3)%Hcase Ca Cb.
      unfold caches in *. rewrite A1, A2, A3 in Ca. rewrite B1, B2, B3 in Cb. by apply (O2 x y a0 b0 dv n). }
  destruct (dirlookup_some i pid dev start s1 name P1 1 bl1 d dp1 (Nat.max nent (S k)) k C1)
    as (s2 & c & old & new & Q2 & _ & _ & Hc & He & _); try done.
  - lia.
  - intros x Hx. destruct (decide (x < nent)%nat); [|lia]. rewrite Hrest by lia. by apply Hno.
  - unfold ready in *. by rewrite L1, L2.
  - rewrite E1, Hin. destruct (decide (j = d)) as [->|Hne].
    + exists d, dp1. rewrite list_lookup_insert_eq by done. split; [done|]. rewrite Hd in Hj. injection Hj as <-.
      unfold caches. by rewrite S1, S2, S3.
    + exists j, ip. by rewrite list_lookup_insert_ne by done.
  - exists k, s1, (set_k_inodes (<[c := new]> (k_inodes s1)) s2), P1, bl1, dp1, c, new. rewrite Hin in He.
    split; [done|]. split; [done|]. split; [cbn; apply list_lookup_insert_eq; by eapply lookup_lt_Some|].
    split; [by eapply iget_entry_caches|]. split; [done|]. split; [done|]. split; [done|]. split; done.
Qed.
End DirTheorems.

(** ** An empty directory in the inode cache, with one other entry unused *)
Definition wdp : inode := set_i_type T_DIR wip.
Definition wdir : kstate := set_k_inodes [wdp; set_i_ref 0 wip] (wio (k_mem wfs)).
Lemma wdir_whole : whole_file 0 2 wsb (shown wdir ∅) wdp.
Proof. destruct (wip_file (k_mem wfs)) as [[F1 F2 F3 F4 F5 F6] S B]. split; [|exact S|exact B]. split; assumption. Qed.
Lemma wdir_ctx : dir_ctx 0 0 0 2 wdir ∅ 1 [] 0 wdp 0.
Proof.
  split; [exists (rev (seq 0 NBUF)); apply in_txn_inodes; exact (wio_txn _)|cbn; lia|done|].
  split; [exact wdir_whole|done|done].
Qed.
Lemma wdir_link : can_link 0 0 0 2 wdir ∅ [] 0 wdp 0.
Proof.
  destruct (wio_can_write (k_mem wfs)) as [_ LY _ H1 _ _ _ _ HF].
  split; [exact wdir_ctx|exact LY|by vm_compute|vm_compute; done|vm_compute; lia|].
  change (fneed wdp) with (fneed wip). change (nblocks 0 1500) with 2%nat in HF.
  change (nfree 0 (k_sb wdir) (shown wdir ∅)) with (nfree 0 (k_sb (wio (k_mem wfs))) (shown (wio (k_mem wfs)) ∅)). lia.
Qed.
Lemma wdir_icache : icache_ok (k_inodes wdir).
Proof.
  split.
  - intros [|[|j]] ip H; cbn in H; simplify_eq; cbn; lia.
  - intros [|[|j]] [|[|k]] a b dev inum Ha Hb [Ca _] [Cb _]; cbn in Ha, Hb; simplify_eq; try done; cbn in Ca, Cb; lia.
Qed.
Lemma wdir_ready : ready wdir Licache.
Proof. split; [|done]. exists (mk_cpu (Some 0%nat) 0 0), 0. split_and!; [done..|]. by intros []. Qed.
Definition wname : list Z := [102; 111; 111; 0].

Lemma iget_one_entry_witness : exists j s', quiet (iget 0 1) wdir j s'.
Proof.
  destruct (iget_one_entry 0 wdir 1) as [(j & old & new & Q & _)|[H _]].
  - exact wdir_ready.
  - exact wdir_icache.
  - exists j, (set_k_inodes (<[j := new]> (k_inodes wdir)) wdir). exact Q.
  - exfalso. apply (proj2 (H 0%nat wdp eq_refl)). vm_compute. done.
Defined.
Lemma dirlink_dirlookup_witness : exists s1 s2 c off,
  quiet (dirlink (DD := ideal) 0 wname 5) wdir 0 s1 /\ quiet (dirlookup (DD := ideal) 0 wname) s1 (Some (c, off)) s2.
Proof.
  destruct (dirlink_dirlookup (DD := ideal) 0 0 0 2 wdir ∅ [] 0 wdp 0 wname 5)
    as (k & s1 & s2 & P1 & bl1 & dp1 & c & new & Q1 & Q2 & _).
  - exact wdir_link.
  - lia.
  - intros k Hk. lia.
  - exact wdir_ready.
  - exact wdir_icache.
  - done.
  - exists 1%nat, (set_i_ref 0 wip). split; [reflexivity|]. right. reflexivity.
  - exists s1, s2, c, (16 * Z.of_nat k). split; [exact Q1|exact Q2].
Defined.
