(* ===== verification/Mkfs.v ===== *)
(** * The program that builds the disk image (mkfs/mkfs.c)

    mkfs runs on the host.  Its state is the image file, a map from sectors to their
    1024 bytes, and its global variables; it ends by returning, by [exit] or in a
    failed [assert]; [MkFuel] says that the bound on a loop was too small, which
    does not happen with the bounds given here.  The image file is truncated when it is opened, so that a
    sector can be read once it has been written.  The host is little-endian, and
    reading and writing files that are open succeeds; what the programs write to
    standard output is left out. *)
From S2P Require Import Prelude Mem Riscv State Bio Log Fs.

Record mkst := mk_mkst {
  mk_im : gmap Z (list Z);
  mk_freeinode : Z;
  mk_freeblock : Z;
  mk_sb : superblock;
}.
Inductive mkres (A : Type) := MkOk (a : A) (s : mkst) | MkExit (code : Z) | MkAssert | MkFuel.
Arguments MkOk {A} a s.
Arguments MkExit {A} code.
Arguments MkAssert {A}.
Arguments MkFuel {A}.
Definition MK (A : Type) : Type := mkst -> mkres A.
#[export] Instance MK_ret : MRet MK := fun A a s => MkOk a s.
#[export] Instance MK_bind : MBind MK := fun A B k m s =>
  match m s with MkOk a s' => k a s' | MkExit c => MkExit c | MkAssert => MkAssert | MkFuel => MkFuel end.
Definition mget {A} (f : mkst -> A) : MK A := fun s => MkOk (f s) s.
Definition mset (f : mkst -> mkst) : MK unit := fun s => MkOk tt (f s).
Definition mexit {A} (code : Z) : MK A := fun _ => MkExit code.
Definition mfuel {A} : MK A := fun _ => MkFuel.
Definition massert (b : bool) : MK unit := fun s => if b then MkOk tt s else MkAssert.

Definition set_im (f : gmap Z (list Z) -> gmap Z (list Z)) (s : mkst) : mkst :=
  mk_mkst (f (mk_im s)) (mk_freeinode s) (mk_freeblock s) (mk_sb s).
Definition set_freeblock (v : Z) (s : mkst) : mkst := mk_mkst (mk_im s) (mk_freeinode s) v (mk_sb s).

(** ** Layout *)
Definition NINODES : Z := 200.
Definition nbitmap : Z := FSSIZE / (BSIZE * 8) + 1.
Definition ninodeblocks : Z := NINODES / IPB + 1.
Definition nlog : Z := LOGSIZE.
Definition nmeta : Z := 2 + nlog + ninodeblocks + nbitmap.

(** To intel byte order; the result is read as a number of the host. *)
Definition xshort (x : Z) : Z := le_to_Z [u8 x; u8 (Z.shiftr x 8)].
Definition xint (x : Z) : Z := le_to_Z [u8 x; u8 (Z.shiftr x 8); u8 (Z.shiftr x 16); u8 (Z.shiftr x 24)].

(** ** Sectors *)
(** The offset [sec * BSIZE] is a 32-bit number. *)
Definition sector (sec : Z) : Z := u32 (sec * BSIZE) / BSIZE.
Definition wsect (sec : Z) (buf : list Z) : MK unit := mset (set_im (fun im => <[sector sec := buf]> im)).
Definition rsect (sec : Z) : MK (list Z) :=
  im ← mget mk_im;
  match im !! sector sec with Some buf => mret buf | None => mexit 1 end.

(** ** Inodes *)
Definition winode (inum : Z) (ip : inode) : MK unit :=
  sb ← mget mk_sb;
  let bn := IBLOCK inum sb in
  buf ← rsect bn;
  wsect bn (splice buf (Z.to_nat (dinode_off inum)) (dinode_bytes ip)).
Definition rinode (inum : Z) : MK inode :=
  sb ← mget mk_sb;
  let bn := IBLOCK inum sb in
  buf ← rsect bn;
  mret (load_dinode buf (dinode_off inum) inode0).
Definition ialloc (type : Z) : MK Z :=
  inum ← mget mk_freeinode;
  mset (fun s => mk_mkst (mk_im s) (u32 (mk_freeinode s + 1)) (mk_freeblock s) (mk_sb s)) ;;
  let din := inode0 in
  let din := set_i_type (xshort type) din in
  let din := set_i_nlink (xshort 1) din in
  let din := set_i_size (xint 0) din in
  winode inum din ;;
  mret inum.

(** [freeblock++] *)
Definition next_block : MK Z :=
  b ← mget mk_freeblock;
  mset (fun s => set_freeblock (u32 (mk_freeblock s + 1)) s) ;;
  mret b.

(** ** The bitmap *)
Fixpoint balloc_bits (n : nat) (i : Z) (buf : list Z) : list Z :=
  match n with
  | O => buf
  | S n' => balloc_bits n' (i + 1)
      (<[Z.to_nat (i / 8) := u8 (Z.lor (nthZ buf (i / 8)) (Z.shiftl 0x1 (i mod 8)))]> buf)
  end.
Definition balloc (used : Z) : MK unit :=
  massert (used <? BSIZE * 8) ;;
  let buf := balloc_bits (Z.to_nat used) 0 (replicate (Z.to_nat BSIZE) 0) in
  sb ← mget mk_sb;
  wsect (sb_bmapstart sb) buf.

(** ** Appending to a file *)
Definition set_addr (k v : Z) (din : inode) : inode := set_i_addrs (<[Z.to_nat k := v]> (i_addrs din)) din.
(** The sector of block [fbn], allocated if need be. *)
Definition iappend_addr (din : inode) (fbn : Z) : MK (inode * Z) :=
  if fbn <? NDIRECT then
    din ← (if xint (nthZ (i_addrs din) fbn) =? 0 then b ← next_block; mret (set_addr fbn (xint b) din) else mret din);
    mret (din, xint (nthZ (i_addrs din) fbn))
  else
    din ← (if xint (nthZ (i_addrs din) NDIRECT) =? 0 then b ← next_block; mret (set_addr NDIRECT (xint b) din) else mret din);
    indirect ← rsect (xint (nthZ (i_addrs din) NDIRECT));
    indirect ← (if get32 indirect (4 * (fbn - NDIRECT)) =? 0 then
        b ← next_block;
        let indirect := put32 indirect (4 * (fbn - NDIRECT)) (xint b) in
        wsect (xint (nthZ (i_addrs din) NDIRECT)) indirect ;;
        mret indirect
      else mret indirect);
    mret (din, xint (get32 indirect (4 * (fbn - NDIRECT)))).
(** [while(n > 0)], with the bytes still to write in [p]. *)
Fixpoint iappend_loop (fuel : nat) (din : inode) (off : Z) (p : list Z) (n : Z) : MK (inode * Z) :=
  match fuel with
  | O => mfuel
  | S fuel' =>
      if negb (0 <? n) then mret (din, off) else
      let fbn := off / BSIZE in
      massert (fbn <? MAXFILE) ;;
      '(din, x) ← iappend_addr din fbn;
      let n1 := Z.min n (u32 ((fbn + 1) * BSIZE - off)) in
      buf ← rsect x;
      wsect x (splice buf (Z.to_nat (off - fbn * BSIZE)) (take (Z.to_nat n1) p)) ;;
      iappend_loop fuel' din (u32 (off + n1)) (drop (Z.to_nat n1) p) (n - n1)
  end.
Definition iappend (inum : Z) (xp : list Z) (n : Z) : MK unit :=
  din ← rinode inum;
  let off := xint (i_size din) in
  '(din, off) ← iappend_loop (S (Z.to_nat n)) din off xp n;
  let din := set_i_size (xint off) din in
  winode inum din.

(** ** main *)
Definition dirent_bytes (inum : Z) (name : list Z) : list Z := Z_to_le 2 (xshort inum) ++ name.
(** [bzero(&de, sizeof(de))], the number, and the name. *)
Definition mk_dirent (inum : Z) (name : list Z) : list Z :=
  dirent_bytes inum (strncpy (replicate DIRSIZ 0) name DIRSIZ).
(** [index(s, '/') == 0] *)
Definition no_slash (s : list Z) : bool := forallb (fun c => negb (c =? 47)) s.
(** The name of the file in the image. *)
Definition shortname (arg : list Z) : list Z :=
  if strncmp arg (zs "user/") 5 =? 0 then drop 5 arg else arg.
Definition skip_underscore (s : list Z) : list Z := if chr s =? 95 then tail s else s.
(** [while((cc = read(fd, buf, sizeof(buf))) > 0) iappend(inum, buf, cc);] *)
Fixpoint copy_file (fuel : nat) (inum : Z) (data : list Z) : MK unit :=
  match fuel with
  | O => mfuel
  | S fuel' =>
      let buf := take (Z.to_nat BSIZE) data in
      let cc := Z.of_nat (length buf) in
      if 0 <? cc then iappend inum buf cc ;; copy_file fuel' inum (drop (Z.to_nat BSIZE) data)
      else mret tt
  end.
(** A file named on the command line, with what it holds; it may not exist. *)
Definition add_file (rootino : Z) (f : list Z * option (list Z)) : MK unit :=
  let '(arg, content) := f in
  let name := shortname arg in
  massert (no_slash name) ;;
  match content with
  | None => mexit 1
  | Some data =>
      let name := skip_underscore name in
      inum ← ialloc T_FILE;
      iappend rootino (mk_dirent inum name) dirent_size ;;
      copy_file (S (length data)) inum data
  end.
Fixpoint add_files (rootino : Z) (files : list (list Z * option (list Z))) : MK unit :=
  match files with [] => mret tt | f :: files' => add_file rootino f ;; add_files rootino files' end.
Fixpoint zero_sectors (n : nat) (i : Z) : MK unit :=
  match n with O => mret tt | S n' => wsect i (replicate (Z.to_nat BSIZE) 0) ;; zero_sectors n' (i + 1) end.
Definition superblock_bytes (sb : superblock) : list Z :=
  Z_to_le 4 (sb_magic sb) ++ Z_to_le 4 (sb_size sb) ++ Z_to_le 4 (sb_nblocks sb) ++ Z_to_le 4 (sb_ninodes sb) ++
  Z_to_le 4 (sb_nlog sb) ++ Z_to_le 4 (sb_logstart sb) ++ Z_to_le 4 (sb_inodestart sb) ++ Z_to_le 4 (sb_bmapstart sb).
Definition image_sb : superblock :=
  mk_superblock FSMAGIC (xint FSSIZE) (xint (FSSIZE - nmeta)) (xint NINODES) (xint nlog) (xint 2) (xint (2 + nlog)) (xint (2 + nlog + ninodeblocks)).
(** [files] are the arguments after the name of the image. *)
Definition main (files : list (list Z * option (list Z))) : MK unit :=
  massert (BSIZE mod dinode_size =? 0) ;;
  massert (BSIZE mod dirent_size =? 0) ;;
  mset (fun s => mk_mkst ∅ 1 nmeta image_sb) ;;
  zero_sectors (Z.to_nat FSSIZE) 0 ;;
  wsect 1 (splice (replicate (Z.to_nat BSIZE) 0) 0 (superblock_bytes image_sb)) ;;
  rootino ← ialloc T_DIR;
  massert (rootino =? ROOTINO) ;;
  iappend rootino (mk_dirent rootino (zs ".")) dirent_size ;;
  iappend rootino (mk_dirent rootino (zs "..")) dirent_size ;;
  add_files rootino files ;;
  din ← rinode rootino;
  let off := xint (i_size din) in
  let off := u32 ((off / BSIZE + 1) * BSIZE) in
  winode rootino (set_i_size (xint off) din) ;;
  b ← mget mk_freeblock;
  balloc b.
