(* ===== verification/MkfsProofs.v ===== *)
(** * The disk image that mkfs builds is a file system of the kernel

    The image is related to the files that have been appended to so far: [image]
    says where the blocks of the inodes lie, [file_rep] what a file holds, in
    the terms of the kernel's own bmap and readi ([baddr], [fbyte]).  ialloc
    and iappend keep the relation, and main ends with a disk that satisfies the
    kernel's [layout] and [whole_file], and [dir_ok] unless the entries fill the
    root directory's last block. *)
From S2P Require Import Prelude Mem Riscv State Spinlock Kalloc Vm Proc Sleeplock Bio BioProofs Log LogProofs LogCrash Txn Fs BallocProofs InodeProofs BmapProofs FileIO DirProofs Mkfs.

(** ** Running the program *)
Lemma mk_bind {A B} (m : MK A) (k : A -> MK B) s a s' : m s = MkOk a s' -> (m ≫= k) s = k a s'.
Proof. intros H. unfold mbind, MK_bind. by rewrite H. Qed.
Lemma xint_small x : 0 <= x < 2 ^ 32 -> xint x = x.
Proof.
  intros H. unfold xint. cbn [le_to_Z]. unfold u8. rewrite !Z.shiftr_div_pow2 by lia.
  change (2 ^ 8) with 256. change (2 ^ 16) with 65536. change (2 ^ 24) with 16777216. lia.
Qed.
Lemma xshort_small x : 0 <= x < 2 ^ 16 -> xshort x = x.
Proof.
  intros H. unfold xshort. cbn [le_to_Z]. unfold u8. rewrite !Z.shiftr_div_pow2 by lia. change (2 ^ 8) with 256. lia.
Qed.
Lemma sector_small b : 0 <= b < FSSIZE -> sector b = b.
Proof.
  intros H. unfold sector, u32. change BSIZE with 1024. change FSSIZE with 2000 in H.
  rewrite Z.mod_small by lia. apply Z.div_mul. lia.
Qed.
Lemma wsect_runs b d s : 0 <= b < FSSIZE -> wsect b d s = MkOk tt (set_im (insert b d) s).
Proof. intros H. unfold wsect. by rewrite sector_small. Qed.
Lemma rsect_runs b d s : 0 <= b < FSSIZE -> mk_im s !! b = Some d -> rsect b s = MkOk d s.
Proof. intros H E. unfold rsect, mget, mbind, MK_bind. by rewrite sector_small, E. Qed.
Lemma nthZ_splice d o p k : 0 <= o -> o + Z.of_nat (length p) <= Z.of_nat (length d) -> 0 <= k ->
  nthZ (splice d (Z.to_nat o) p) k =
    if (o <=? k) && (k <? o + Z.of_nat (length p)) then nthZ p (k - o) else nthZ d k.
Proof.
  intros Ho Hl Hk. unfold nthZ. rewrite !nth_lookup. unfold splice. bdestr (o <=? k); cbn [andb].
  - rewrite lookup_app_r by (rewrite length_take; lia). rewrite length_take.
    bdestr (k <? o + Z.of_nat (length p)).
    + rewrite lookup_app_l by lia. do 2 f_equal. lia.
    + rewrite lookup_app_r by lia. rewrite lookup_drop. do 2 f_equal. lia.
  - rewrite lookup_app_l by (rewrite length_take; lia). by rewrite lookup_take_lt by lia.
Qed.
Lemma nthZ_over l k : Z.of_nat (length l) <= k -> nthZ l k = 0.
Proof. intros H. unfold nthZ. apply nth_overflow. lia. Qed.
Lemma nthZ_app l l' k : 0 <= k -> nthZ (l ++ l') k =
  if k <? Z.of_nat (length l) then nthZ l k else nthZ l' (k - Z.of_nat (length l)).
Proof.
  intros H. unfold nthZ. bdestr (k <? Z.of_nat (length l)); [by rewrite app_nth1 by lia|].
  rewrite app_nth2 by lia. f_equal. lia.
Qed.
Lemma nthZ_zeros n k : nthZ (replicate n 0) k = 0.
Proof. unfold nthZ. rewrite nth_lookup. destruct (replicate n 0 !! Z.to_nat k) eqn:E; [|done]. by apply lookup_replicate in E as [-> _]. Qed.
Lemma nthZ_zero k : nthZ zero_block k = 0.
Proof. apply nthZ_zeros. Qed.

(** ** The blocks of the image *)
Ltac fsc := change MAXFILE with 268 in *; change NDIRECT with 12 in *; change BSIZE with 1024 in *;
  change FSSIZE with 2000 in *; change nmeta with 46 in *.
Definition disk (im : gmap Z (list Z)) (k : Z * Z) : list Z := default zero_block (im !! k.2).
(** The address in slot [sl] of an inode: of its block [sl], or, in the last slot, of
    its indirect block. *)
Definition saddr (im : gmap Z (list Z)) (ip : inode) (sl : Z) : Z :=
  if sl =? MAXFILE then ind_of ip else baddr 0 (disk im) ip sl.
Definition fupd (D : Z -> inode) (i : Z) (ip : inode) : Z -> inode := fun j => if decide (j = i) then ip else D j.

(** The sectors from [fb] on are free; those of the inodes [D 1], ..., [D (n - 1)] are
    below, and no two slots have the same. *)
Record image (im : gmap Z (list Z)) (fb n : Z) (D : Z -> inode) : Prop := {
  im_dom : forall b, 0 <= b < FSSIZE -> exists d, im !! b = Some d /\ block_size d;
  im_fb : nmeta <= fb <= FSSIZE;
  im_zero : forall b, fb <= b < FSSIZE -> im !! b = Some zero_block;
  im_len : forall i, 1 <= i < n -> length (i_addrs (D i)) = 13%nat;
  im_addr : forall i sl, 1 <= i < n -> 0 <= sl <= MAXFILE ->
    saddr im (D i) sl = 0 \/ nmeta <= saddr im (D i) sl < fb;
  im_inj : forall i j sl sl', 1 <= i < n -> 1 <= j < n -> 0 <= sl <= MAXFILE -> 0 <= sl' <= MAXFILE ->
    saddr im (D i) sl <> 0 -> saddr im (D i) sl = saddr im (D j) sl' -> i = j /\ sl = sl';
}.
(** From [im] and [D] to [im'] and [D'], only inode [i] may have got blocks, which hold
    zeros. *)
Record grows (im : gmap Z (list Z)) (D : Z -> inode) (n i : Z) (im' : gmap Z (list Z)) (D' : Z -> inode) : Prop := {
  gw_meta : forall b, b < nmeta -> im' !! b = im !! b;
  gw_block : forall j bn, 1 <= j < n -> 0 <= bn < MAXFILE -> fblock 0 (disk im') (D' j) bn = fblock 0 (disk im) (D j) bn;
  gw_other : forall j, j <> i -> D' j = D j;
  gw_slots : forall j sl, 1 <= j < n -> j <> i -> 0 <= sl <= MAXFILE -> saddr im' (D' j) sl = saddr im (D j) sl;
  gw_inode : D' i = set_i_addrs (i_addrs (D' i)) (D i);
}.

Lemma fupd_eq D i ip : fupd D i ip i = ip.
Proof. unfold fupd. by rewrite decide_True. Qed.
Lemma fupd_ne D i ip j : j <> i -> fupd D i ip j = D j.
Proof. intros H. unfold fupd. by rewrite decide_False. Qed.
Lemma disk_insert im b d k : disk (<[b := d]> im) k = if decide (k.2 = b) then d else disk im k.
Proof. unfold disk. case_decide as E; [by rewrite E, lookup_insert_eq|by rewrite lookup_insert_ne by done]. Qed.
Lemma disk_size im fb n D b : image im fb n D -> 0 <= b < FSSIZE -> block_size (disk im (0, b)).
Proof. intros I H. destruct (im_dom _ _ _ _ I b H) as (d & E & Hd). unfold disk. cbn. by rewrite E. Qed.
Lemma disk_some im fb n D b : image im fb n D -> 0 <= b < FSSIZE -> im !! b = Some (disk im (0, b)).
Proof. intros I H. destruct (im_dom _ _ _ _ I b H) as (d & E & Hd). unfold disk. cbn. by rewrite E. Qed.
Lemma disk_free im fb n D b : image im fb n D -> fb <= b < FSSIZE -> disk im (0, b) = zero_block.
Proof. intros I H. unfold disk. cbn. by rewrite (im_zero _ _ _ _ I). Qed.
Lemma saddr_block im ip bn : 0 <= bn < MAXFILE -> saddr im ip bn = baddr 0 (disk im) ip bn.
Proof. intros H. unfold saddr. replace (bn =? MAXFILE) with false by lia. done. Qed.
Lemma saddr_ind im ip : saddr im ip MAXFILE = ind_of ip.
Proof. done. Qed.

Lemma image_alloc im fb n D im' D' i k :
  image im fb n D -> fb < FSSIZE -> 1 <= i < n -> 0 <= k <= MAXFILE -> saddr im (D i) k = 0 ->
  (forall j, 1 <= j < n -> length (i_addrs (D' j)) = 13%nat) ->
  (forall b, 0 <= b < FSSIZE -> exists d, im' !! b = Some d /\ block_size d) ->
  (forall b, fb < b < FSSIZE -> im' !! b = Some zero_block) ->
  (forall j sl, 1 <= j < n -> 0 <= sl <= MAXFILE ->
     saddr im' (D' j) sl = if decide (j = i /\ sl = k) then fb else saddr im (D j) sl) ->
  image im' (fb + 1) n D'.
Proof.
  intros [I1 I2 I3 I4 I5 I6] Hfb Hi Hk H0 Hl Hdom Hz Hs. split; [done|lia| |done| |].
  - intros b Hb. apply Hz. lia.
  - intros j sl Hj Hsl. rewrite Hs by done. case_decide; [lia|]. destruct (I5 j sl Hj Hsl); lia.
  - intros j1 j2 s1 s2 H1 H2 H3 H4. rewrite !Hs by done. repeat case_decide; intros Hne E.
    + naive_solver.
    + pose proof (I5 j2 s2 H2 H4). lia.
    + pose proof (I5 j1 s1 H1 H3). lia.
    + by apply I6.
Qed.

(** Blocks that were not there and now hold zeros do not change the file. *)
Lemma grows_blocks im fb n D im' D' i k :
  image im fb n D -> fb < FSSIZE -> 1 <= i < n -> 0 <= k <= MAXFILE -> saddr im (D i) k = 0 ->
  (forall j sl, 1 <= j < n -> 0 <= sl <= MAXFILE ->
     saddr im' (D' j) sl = if decide (j = i /\ sl = k) then fb else saddr im (D j) sl) ->
  (forall j bn, 1 <= j < n -> 0 <= bn < MAXFILE -> saddr im (D j) bn <> 0 ->
     disk im' (0, saddr im (D j) bn) = disk im (0, saddr im (D j) bn)) ->
  disk im' (0, fb) = zero_block ->
  forall j bn, 1 <= j < n -> 0 <= bn < MAXFILE -> fblock 0 (disk im') (D' j) bn = fblock 0 (disk im) (D j) bn.
Proof.
  intros I Hfb Hi Hk H0 Hs Hd Hz j bn Hj Hb. pose proof (im_fb _ _ _ _ I). unfold fblock. rewrite <- !saddr_block by done.
  rewrite Hs by lia. case_decide as E.
  - destruct E as [-> ->]. rewrite H0, Z.eqb_refl. replace (fb =? 0) with false by (fsc; lia). done.
  - bdestr (saddr im (D j) bn =? 0); [done|]. by apply Hd.
Qed.

(** [din.addrs[k] = xint(freeblock++)] *)
Definition slot_no (k : Z) : Z := if k =? NDIRECT then MAXFILE else k.
Lemma alloc_inode im fb n D i k :
  image im fb n D -> fb < FSSIZE -> 1 <= i < n -> 0 <= k <= NDIRECT -> nthZ (i_addrs (D i)) k = 0 ->
  let D' := fupd D i (Mkfs.set_addr k fb (D i)) in
  image im (fb + 1) n D' /\ grows im D n i im D' /\
  forall sl, 0 <= sl <= MAXFILE -> saddr im (D' i) sl = if decide (sl = slot_no k) then fb else saddr im (D i) sl.
Proof.
  intros I Hfb Hi Hk H0 D'. pose proof (im_len _ _ _ _ I i Hi) as Hl. pose proof (im_fb _ _ _ _ I) as Hr.
  assert (Hn : forall k', 0 <= k' -> nthZ (i_addrs (D' i)) k' = if decide (k' = k) then fb else nthZ (i_addrs (D i)) k').
  { intros k' Hk'. unfold D'. rewrite fupd_eq. cbn. apply nthZ_insert_at; [fsc; lia|done]. }
  assert (Hsk : saddr im (D i) (slot_no k) = 0).
  { unfold slot_no. bdestr (k =? NDIRECT); [by subst k|]. rewrite saddr_block by (fsc; lia). unfold baddr.
    by replace (k <? NDIRECT) with true by lia. }
  assert (Hs : forall sl, 0 <= sl <= MAXFILE -> saddr im (D' i) sl = if decide (sl = slot_no k) then fb else saddr im (D i) sl).
  { intros sl Hsl. unfold slot_no, saddr, baddr, ind_of. rewrite !Hn by (fsc; lia).
    pose proof (disk_free _ _ _ _ fb I ltac:(lia)) as Hz.
    bdestr (sl =? MAXFILE); [|bdestr (sl <? NDIRECT)]; (bdestr (k =? NDIRECT); [subst k|]);
      repeat case_decide; fsc; try lia; try done.
    rewrite H0. replace (fb =? 0) with false by lia. cbn. rewrite Hz. rewrite get32_zero by lia. done. }
  assert (Hall : forall j sl, 1 <= j < n -> 0 <= sl <= MAXFILE ->
     saddr im (D' j) sl = if decide (j = i /\ sl = slot_no k) then fb else saddr im (D j) sl).
  { intros j sl Hj Hsl. destruct (decide (j = i)) as [->|Hne].
    - rewrite Hs by done. repeat case_decide; naive_solver.
    - unfold D'. rewrite fupd_ne by done. rewrite decide_False by naive_solver. done. }
  assert (Hks : 0 <= slot_no k <= MAXFILE) by (unfold slot_no; bdestr (k =? NDIRECT); fsc; lia).
  split; [|split; [|done]].
  - apply (image_alloc im fb n D im D' i (slot_no k)); try done; try apply I.
    + intros j Hj. unfold D', fupd. case_decide; [|by apply I]. cbn. by rewrite length_insert.
    + intros b Hb. apply I. lia.
  - split; [done| |intros j Hj; by apply fupd_ne| |unfold D'; rewrite fupd_eq; done].
    + apply (grows_blocks im fb n D im D' i (slot_no k)); try done. by apply (disk_free _ _ _ _ _ I); lia.
    + intros j sl Hj Hne Hsl. unfold D'. by rewrite fupd_ne.
Qed.
(** [indirect[e] = xint(freeblock++)], written to the indirect block *)
Lemma alloc_entry im fb n D i e :
  image im fb n D -> fb < FSSIZE -> 1 <= i < n -> 0 <= e < NINDIRECT -> ind_of (D i) <> 0 ->
  saddr im (D i) (NDIRECT + e) = 0 ->
  let im' := <[ind_of (D i) := put32 (disk im (0, ind_of (D i))) (4 * e) fb]> im in
  image im' (fb + 1) n D /\ grows im D n i im' D /\
  forall sl, 0 <= sl <= MAXFILE -> saddr im' (D i) sl = if decide (sl = NDIRECT + e) then fb else saddr im (D i) sl.
Proof.
  intros I Hfb Hi He Hne H0. set (ib := ind_of (D i)) in *. intros im'. change NINDIRECT with 256 in He.
  pose proof (im_fb _ _ _ _ I) as Hr.
  destruct (im_addr _ _ _ _ I i MAXFILE Hi ltac:(fsc; lia)) as [Hib|Hib]; rewrite saddr_ind in Hib; fold ib in Hib; [done|].
  assert (Hsz : block_size (disk im (0, ib))) by (apply (disk_size _ _ _ _ _ I); fsc; lia).
  unfold block_size in Hsz. fsc.
  assert (Hd : forall a, a <> ib -> disk im' (0, a) = disk im (0, a)).
  { intros a Ha. unfold im'. rewrite disk_insert. by rewrite decide_False. }
  assert (Hall : forall j sl, 1 <= j < n -> 0 <= sl <= 268 ->
     saddr im' (D j) sl = if decide (j = i /\ sl = 12 + e) then fb else saddr im (D j) sl).
  { intros j sl Hj Hsl. unfold saddr, baddr. fsc. bdestr (sl =? 268); [rewrite decide_False by lia; done|].
    bdestr (sl <? 12); [rewrite decide_False by lia; done|].
    bdestr (ind_of (D j) =? 0); [rewrite decide_False; [done|intros [-> _]; done]|].
    destruct (decide (j = i)) as [->|Hji].
    - fold ib. unfold im' at 1. rewrite disk_insert. cbn [snd]. rewrite decide_True by done. case_decide as E2.
      + destruct E2 as [_ ->]. replace (12 + e - 12) with e by lia. rewrite get32_put32; lia.
      + rewrite get32_put32_ne; [done|lia|lia|lia|lia].
    - rewrite decide_False by naive_solver. rewrite Hd; [done|]. intros E2. apply Hji.
      apply (im_inj _ _ _ _ I j i 268 268 Hj Hi); fsc; try lia; done. }
  split; [|split].
  - apply (image_alloc im fb n D im' D i (12 + e)); try done; fsc; try lia.
    + by intros j; apply (im_len _ _ _ _ I).
    + intros b Hb. unfold im'. rewrite lookup_insert. case_decide; [|by apply (im_dom _ _ _ _ I)].
      eexists. split; [done|]. unfold block_size. rewrite length_put32 by lia. exact Hsz.
    + intros b Hb. unfold im'. rewrite lookup_insert_ne by lia. apply (im_zero _ _ _ _ I). fsc. lia.
  - split; [| |done| |by destruct (D i)].
    + intros b Hb. unfold im'. apply lookup_insert_ne. fsc. lia.
    + apply (grows_blocks im fb n D im' D i (12 + e)); try done; fsc; try lia.
      * intros j bn Hj Hb Ha. apply Hd. intros E.
        destruct (im_inj _ _ _ _ I j i bn 268 Hj Hi) as [_ E2]; fsc; try lia; done.
      * rewrite Hd by lia. apply (disk_free _ _ _ _ _ I). fsc. lia.
    + intros j sl Hj Hji Hsl. rewrite Hall by done. by rewrite decide_False by naive_solver.
  - intros sl Hsl. rewrite Hall by done. repeat case_decide; naive_solver.
Qed.
Lemma grows_refl im D n i : grows im D n i im D.
Proof. split; try done; by destruct (D i). Qed.
Lemma grows_trans im1 D1 im2 D2 im3 D3 n i : grows im1 D1 n i im2 D2 -> grows im2 D2 n i im3 D3 -> grows im1 D1 n i im3 D3.
Proof.
  intros [A1 A2 A3 A4 A5] [B1 B2 B3 B4 B5]. split.
  - intros b Hb. by rewrite B1, A1.
  - intros j bn Hj Hb. by rewrite B2, A2.
  - intros j Hj. by rewrite B3, A3.
  - intros j sl Hj Hne Hs. by rewrite B4, A4.
  - rewrite B5, A5. done.
Qed.

(** ** Appending *)
Lemma next_block_runs s : 0 <= mk_freeblock s <= FSSIZE ->
  next_block s = MkOk (mk_freeblock s) (set_freeblock (mk_freeblock s + 1) s).
Proof. intros H. unfold next_block, mget, mset, mbind, MK_bind, mret, MK_ret. unfold u32. fsc. by rewrite (Z.mod_small (_ + 1)) by lia. Qed.
Lemma saddr_range im fb n D i sl : image im fb n D -> 1 <= i < n -> 0 <= sl <= MAXFILE -> 0 <= saddr im (D i) sl < FSSIZE.
Proof. intros I Hi Hs. pose proof (im_fb _ _ _ _ I). destruct (im_addr _ _ _ _ I i sl Hi Hs); fsc; lia. Qed.
Lemma saddr_slot im ip k : 0 <= k <= NDIRECT -> saddr im ip (slot_no k) = nthZ (i_addrs ip) k.
Proof.
  intros H. unfold slot_no. bdestr (k =? NDIRECT); [by subst|]. rewrite saddr_block by (fsc; lia).
  unfold baddr. by replace (k <? NDIRECT) with true by lia.
Qed.
Lemma slot_no_range k : 0 <= k <= NDIRECT -> 0 <= slot_no k <= MAXFILE.
Proof. intros H. unfold slot_no. bdestr (k =? NDIRECT); fsc; lia. Qed.

(** A slot of the inode that is filled if it is empty. *)
Definition fill (old new : Z -> Z) (k fb : Z) : Prop :=
  forall sl, 0 <= sl <= MAXFILE -> new sl = if decide (sl = k /\ old sl = 0) then fb else old sl.
Lemma ensure_slot s n D i k : let im := mk_im s in let fb := mk_freeblock s in
  image im fb n D -> 1 <= i < n -> 0 <= k <= NDIRECT -> (nthZ (i_addrs (D i)) k = 0 -> fb < FSSIZE) ->
  exists D' fb',
    (if xint (nthZ (i_addrs (D i)) k) =? 0 then b ← next_block; mret (Mkfs.set_addr k (xint b) (D i)) else mret (D i)) s
      = MkOk (D' i) (set_freeblock fb' s) /\
    fb' = fb + (if nthZ (i_addrs (D i)) k =? 0 then 1 else 0) /\
    image im fb' n D' /\ grows im D n i im D' /\ fill (saddr im (D i)) (saddr im (D' i)) (slot_no k) fb.
Proof.
  intros im fb I Hi Hk Hroom. pose proof (saddr_range _ _ _ _ i (slot_no k) I Hi (slot_no_range k Hk)) as Hr.
  rewrite saddr_slot in Hr by done. pose proof (im_fb _ _ _ _ I) as Hfb. rewrite xint_small by (fsc; lia).
  bdestr (nthZ (i_addrs (D i)) k =? 0).
  - destruct (alloc_inode im fb n D i k I (Hroom E) Hi Hk E) as (I' & G & Hs).
    exists (fupd D i (Mkfs.set_addr k fb (D i))), (fb + 1). split_and!; try done.
    + rewrite (mk_bind _ _ _ _ _ (next_block_runs s ltac:(fsc; lia))). fold fb. rewrite xint_small by (fsc; lia).
      by rewrite fupd_eq.
    + intros sl Hsl. rewrite Hs by done. repeat case_decide; try done; [|naive_solver].
      subst sl. rewrite saddr_slot in * by done. naive_solver.
  - exists D, fb. split_and!; [by destruct s|lia|done|apply grows_refl|].
    intros sl Hsl. rewrite decide_False; [done|]. intros [-> E0]. by rewrite saddr_slot in E0.
Qed.

(** [L] bytes take the first blocks, and the indirect block past NDIRECT of them. *)
Definition mapped (im : gmap Z (list Z)) (ip : inode) (L : Z) : Prop :=
  (forall bn, 0 <= bn < MAXFILE -> saddr im ip bn <> 0 <-> bn * BSIZE < L) /\
  (ind_of ip <> 0 <-> NDIRECT * BSIZE < L).
Definition blocks_of (L : Z) : Z := (L + BSIZE - 1) / BSIZE + (if NDIRECT * BSIZE <? L then 1 else 0).
Lemma mapped_within im ip L L' : mapped im ip L -> (L - 1) / BSIZE = (L' - 1) / BSIZE -> mapped im ip L'.
Proof.
  intros [M1 M2] E. fsc. split.
  - intros bn Hb. rewrite M1 by (fsc; lia). fsc. lia.
  - rewrite M2. fsc. lia.
Qed.

(** The sector of the block that takes the next byte. *)
Definition addr_post (s : mkst) (n : Z) (D : Z -> inode) (i L : Z) : Prop :=
  let fb' := mk_freeblock s + blocks_of (L + 1) - blocks_of L in
  exists im' D', iappend_addr (D i) (L / BSIZE) s =
      MkOk (D' i, saddr im' (D' i) (L / BSIZE)) (mk_mkst im' (mk_freeinode s) fb' (mk_sb s)) /\
    image im' fb' n D' /\ grows (mk_im s) D n i im' D' /\ mapped im' (D' i) (L + 1).
Lemma iappend_direct s n D i L :
  let im := mk_im s in let fb := mk_freeblock s in let fbn := L / BSIZE in
  let fb' := fb + blocks_of (L + 1) - blocks_of L in
  image im fb n D -> 1 <= i < n -> mapped im (D i) L -> 0 <= L -> fbn < MAXFILE -> fb' <= FSSIZE -> fbn < NDIRECT -> addr_post s n D i L.
Proof.
  intros im fb fbn fb' I Hi [M1 M2] HL Hfbn Hroom E. pose proof (im_fb _ _ _ _ I) as Hfb. unfold addr_post. fold im fb fbn fb'.
  assert (Hf0 : 0 <= fbn) by (unfold fbn; fsc; lia). unfold iappend_addr. replace (fbn <? NDIRECT) with true by lia.
  assert (Eslot : slot_no fbn = fbn) by (unfold slot_no; by replace (fbn =? NDIRECT) with false by lia).
  assert (Efb : fb' = fb + (if nthZ (i_addrs (D i)) fbn =? 0 then 1 else 0)).
  { rewrite <- (saddr_slot im) by lia. rewrite Eslot. specialize (M1 fbn ltac:(lia)). unfold fb', blocks_of, fbn in *.
    fsc. bdestr (saddr im (D i) (L / 1024) =? 0); repeat case_if; lia. }
  destruct (ensure_slot s n D i fbn I Hi ltac:(lia)) as (D' & fb1 & R & -> & I' & G & F).
  { intros E0. rewrite E0 in Efb. cbn in Efb. fold fb. lia. }
  fold im fb in R, I', G, F. rewrite Eslot in F. exists im, D'.
  pose proof (saddr_range _ _ _ _ i fbn I' Hi ltac:(lia)) as Hr. rewrite <- Efb in *. split_and!; try done.
  + rewrite (mk_bind _ _ _ _ _ R). rewrite saddr_block in * by lia. unfold baddr in *.
    replace (fbn <? NDIRECT) with true in * by lia. rewrite xint_small by (fsc; lia). done.
  + split.
    * intros bn Hb. rewrite F by lia. specialize (M1 bn Hb). unfold fbn in *. fsc. case_decide; lia.
    * rewrite <- saddr_ind with (im := im). rewrite F by (fsc; lia). rewrite decide_False by (fsc; lia).
      rewrite saddr_ind, M2. fsc. lia.
Qed.
Lemma iappend_indirect s n D i L :
  let im := mk_im s in let fb := mk_freeblock s in let fbn := L / BSIZE in
  let fb' := fb + blocks_of (L + 1) - blocks_of L in
  image im fb n D -> 1 <= i < n -> mapped im (D i) L -> 0 <= L -> fbn < MAXFILE -> fb' <= FSSIZE -> NDIRECT <= fbn -> addr_post s n D i L.
Proof.
  intros im fb fbn fb' I Hi [M1 M2] HL Hfbn Hroom E. pose proof (im_fb _ _ _ _ I) as Hfb. unfold addr_post. fold im fb fbn fb'.
  assert (Hf0 : 0 <= fbn) by (unfold fbn; fsc; lia). unfold iappend_addr. replace (fbn <? NDIRECT) with false by lia.
  set (e := fbn - NDIRECT). assert (He : 0 <= e < NINDIRECT) by (unfold e; change NINDIRECT with 256; fsc; lia).
  assert (Hlast : NDIRECT * BSIZE < L + 1) by (unfold fbn in *; fsc; lia).
  set (a1 := if ind_of (D i) =? 0 then 1 else 0). set (a2 := if saddr im (D i) fbn =? 0 then 1 else 0).
  assert (Efb : fb' = fb + a1 + a2).
  { specialize (M1 fbn ltac:(lia)). unfold a1, a2, fb', blocks_of, fbn in *. fsc.
    bdestr (saddr im (D i) (L / 1024) =? 0); bdestr (ind_of (D i) =? 0); repeat case_if; lia. }
  assert (Ha2 : 0 <= a2) by (unfold a2; case_if; lia).
  destruct (ensure_slot s n D i NDIRECT I Hi ltac:(fsc; lia)) as (D1 & fb1 & R & Efb1 & I1 & G1 & F1).
  { intros E0. change (ind_of (D i) = 0) in E0. unfold a1 in Efb. rewrite E0 in Efb. cbn in Efb. fold fb. lia. }
  fold im fb in R, Efb1, I1, G1, F1. change (fb1 = fb + a1) in Efb1. change (slot_no NDIRECT) with MAXFILE in F1.
  set (s1 := set_freeblock fb1 s) in R. rewrite (mk_bind _ _ _ _ _ R).
  change (nthZ (i_addrs (D1 i)) NDIRECT) with (ind_of (D1 i)).
  assert (Hind : ind_of (D1 i) <> 0).
  { rewrite <- saddr_ind with (im := im). rewrite F1, saddr_ind by (fsc; lia). case_decide; fsc; lia. }
  pose proof (saddr_range _ _ _ _ i MAXFILE I1 Hi ltac:(fsc; lia)) as Hri. rewrite saddr_ind in Hri.
  rewrite !(xint_small (ind_of (D1 i))) by (fsc; lia).
  assert (Es : forall bn, 0 <= bn < MAXFILE -> saddr im (D1 i) bn = saddr im (D i) bn).
  { intros bn Hb. rewrite F1 by lia. by rewrite decide_False by lia. }
  assert (Eg : get32 (disk im (0, ind_of (D1 i))) (4 * e) = saddr im (D1 i) fbn).
  { rewrite saddr_block by lia. unfold baddr. replace (fbn <? NDIRECT) with false by lia.
    by replace (ind_of (D1 i) =? 0) with false by lia. }
  rewrite (mk_bind _ _ _ _ _ (rsect_runs (ind_of (D1 i)) (disk im (0, ind_of (D1 i))) s1 Hri (disk_some _ _ _ _ _ I1 Hri))).
  fold e. rewrite Eg, Es by lia. unfold a2 in Efb. bdestr (saddr im (D i) fbn =? 0).
  + destruct (alloc_entry im fb1 n D1 i e I1 ltac:(lia) Hi He Hind) as (I2 & G2 & F2).
    { unfold e. replace (NDIRECT + (fbn - NDIRECT)) with fbn by lia. by rewrite Es. }
    set (im' := <[_ := _]> im) in *. replace (NDIRECT + e) with fbn in F2 by lia.
    exists im', D1. replace fb' with (fb1 + 1) by lia.
    assert (Hn : 0 <= fb1 <= FSSIZE) by (pose proof (im_fb _ _ _ _ I1); fsc; lia).
    split_and!; [|done|by eapply grows_trans|].
    * unfold mbind at 1, MK_bind at 1. unfold mbind at 1, MK_bind at 1. rewrite (next_block_runs s1 Hn).
      change (mk_freeblock s1) with fb1. rewrite (xint_small fb1) by (fsc; lia).
      rewrite (mk_bind _ _ _ _ _ (wsect_runs _ _ _ Hri)). unfold mret at 1, MK_ret at 1.
      rewrite get32_put32; [| | |fsc; lia].
      -- rewrite xint_small by (fsc; lia). rewrite F2 by lia. by rewrite decide_True.
      -- lia.
      -- pose proof (disk_size _ _ _ _ _ I1 Hri) as Hsz. unfold block_size in Hsz. rewrite Hsz.
         change NINDIRECT with 256 in He. fsc. lia.
    * split.
      -- intros bn Hb. rewrite F2 by lia. specialize (M1 bn Hb). pose proof (im_fb _ _ _ _ I1). case_decide; [unfold fbn in *; fsc; lia|].
         rewrite Es by done. unfold fbn in *. fsc. lia.
      -- split; [intros _; done|done].
  + exists im, D1. replace fb' with fb1 by lia. split_and!; [|done|done|].
    * pose proof (saddr_range _ _ _ _ i fbn I Hi ltac:(lia)) as Hr. rewrite Es by lia.
      unfold mbind at 1, MK_bind at 1. unfold mret at 1, MK_ret at 1. rewrite Eg, Es by lia.
      rewrite xint_small by (fsc; lia). done.
    * split; [|split; [intros _; done|done]]. intros bn Hb. rewrite Es by done. pose proof (M1 bn Hb).
      pose proof (M1 fbn ltac:(lia)). unfold fbn in *. fsc. lia.
Qed.
Lemma iappend_addr_spec s n D i L : image (mk_im s) (mk_freeblock s) n D -> 1 <= i < n -> mapped (mk_im s) (D i) L ->
  0 <= L -> L / BSIZE < MAXFILE -> mk_freeblock s + blocks_of (L + 1) - blocks_of L <= FSSIZE -> addr_post s n D i L.
Proof.
  intros. destruct (decide (L / BSIZE < NDIRECT)); [by apply iappend_direct|apply iappend_indirect; try done; lia].
Qed.

(** Writing a block of a file changes nothing else. *)
Lemma write_block im fb n D i bn d :
  image im fb n D -> 1 <= i < n -> 0 <= bn < MAXFILE -> saddr im (D i) bn <> 0 -> block_size d ->
  let im' := <[saddr im (D i) bn := d]> im in
  image im' fb n D /\ (forall b, b < nmeta -> im' !! b = im !! b) /\
  (forall j sl, 1 <= j < n -> 0 <= sl <= MAXFILE -> saddr im' (D j) sl = saddr im (D j) sl) /\
  (forall j b, 1 <= j < n -> 0 <= b < MAXFILE ->
     fblock 0 (disk im') (D j) b = if decide (j = i /\ b = bn) then d else fblock 0 (disk im) (D j) b).
Proof.
  intros I Hi Hb Hne Hd. set (x := saddr im (D i) bn) in *. intros im'. pose proof (im_fb _ _ _ _ I) as Hfb.
  assert (Hx : nmeta <= x < fb) by (destruct (im_addr _ _ _ _ I i bn Hi ltac:(lia)); [done|lia]).
  assert (Hdk : forall a, a <> x -> disk im' (0, a) = disk im (0, a)).
  { intros a Ha. unfold im'. rewrite disk_insert. by rewrite decide_False. }
  assert (Hs : forall j sl, 1 <= j < n -> 0 <= sl <= MAXFILE -> saddr im' (D j) sl = saddr im (D j) sl).
  { intros j sl Hj Hsl. unfold saddr, baddr. bdestr (sl =? MAXFILE); [done|]. bdestr (sl <? NDIRECT); [done|].
    bdestr (ind_of (D j) =? 0); [done|]. rewrite Hdk; [done|]. intros Ex.
    destruct (im_inj _ _ _ _ I i j bn MAXFILE Hi Hj) as [_ Em]; fsc; try lia; done. }
  split_and!; [|intros b Hm; apply lookup_insert_ne; lia|done|].
  - split; [|done| |apply I| |].
    + intros b Hbr. unfold im'. rewrite lookup_insert. case_decide; [by exists d|by apply I].
    + intros b Hbr. unfold im'. rewrite lookup_insert_ne by lia. by apply I.
    + intros j sl Hj Hsl. rewrite Hs by done. by apply I.
    + intros j1 j2 s1 s2 H1 H2 H3 H4. rewrite !Hs by done. by apply I.
  - intros j b Hj Hbr. unfold fblock. rewrite <- !saddr_block, Hs by lia. case_decide as E.
    + destruct E as [-> ->]. fold x. replace (x =? 0) with false by lia. unfold im'. rewrite disk_insert.
      by rewrite decide_True.
    + bdestr (saddr im (D j) b =? 0); [done|]. apply Hdk. intros Ex. apply E.
      destruct (im_inj _ _ _ _ I i j bn b Hi Hj) as [-> ->]; try lia; done.
Qed.

(** ** What a file holds *)
Record file_rep (im : gmap Z (list Z)) (ip : inode) (c : list Z) : Prop := {
  fr_map : mapped im ip (Z.of_nat (length c));
  fr_max : Z.of_nat (length c) <= file_max;
  fr_bytes : forall o, 0 <= o < file_max -> fbyte 0 (disk im) ip o = nthZ c o;
}.
Lemma file_rep_same im ip im' ip' c :
  (forall sl, 0 <= sl <= MAXFILE -> saddr im' ip' sl = saddr im ip sl) ->
  (forall bn, 0 <= bn < MAXFILE -> fblock 0 (disk im') ip' bn = fblock 0 (disk im) ip bn) ->
  file_rep im ip c -> file_rep im' ip' c.
Proof.
  intros Hs Hb [[M1 M2] R2 R3]. split; [split|done|].
  - intros bn Hbn. rewrite Hs by lia. by apply M1.
  - rewrite <- (saddr_ind im'), Hs, saddr_ind by (fsc; lia). done.
  - intros o Ho. unfold fbyte. rewrite Hb by by apply block_index. by apply R3.
Qed.
(** Only inode [i] has changed, in its blocks and in what they hold. *)
Record extends (im : gmap Z (list Z)) (D : Z -> inode) (n i : Z) (im' : gmap Z (list Z)) (D' : Z -> inode) : Prop := {
  ex_meta : forall b, b < nmeta -> im' !! b = im !! b;
  ex_other : forall j, j <> i -> D' j = D j;
  ex_rep : forall j c, 1 <= j < n -> j <> i -> file_rep im (D j) c -> file_rep im' (D' j) c;
  ex_inode : D' i = set_i_addrs (i_addrs (D' i)) (D i);
}.
Lemma grows_extends im D n i im' D' : grows im D n i im' D' -> extends im D n i im' D'.
Proof.
  intros [G1 G2 G3 G4 G5]. split; [done|done| |done]. intros j c Hj Hne. apply file_rep_same; [|by auto].
  intros sl Hsl. by apply G4.
Qed.
Lemma extends_trans im1 D1 im2 D2 im3 D3 n i : extends im1 D1 n i im2 D2 -> extends im2 D2 n i im3 D3 -> extends im1 D1 n i im3 D3.
Proof.
  intros [A1 A2 A3 A4] [B1 B2 B3 B4]. split.
  - intros b Hb. by rewrite B1, A1.
  - intros j Hj. by rewrite B2, A2.
  - intros j c Hj Hne F. by apply B3, A3.
  - rewrite B4, A4. done.
Qed.

(** One round of the loop: the chunk goes to the end of the file. *)
Lemma append_chunk im fb n D i im1 D1 c ch :
  let L := Z.of_nat (length c) in let fbn := L / BSIZE in
  image im1 fb n D1 -> 1 <= i < n -> file_rep im (D i) c -> grows im D n i im1 D1 -> mapped im1 (D1 i) (L + 1) ->
  (0 < length ch)%nat -> L mod BSIZE + Z.of_nat (length ch) <= BSIZE -> L + Z.of_nat (length ch) <= file_max ->
  let im2 := <[saddr im1 (D1 i) fbn := splice (disk im1 (0, saddr im1 (D1 i) fbn)) (Z.to_nat (L mod BSIZE)) ch]> im1 in
  image im2 fb n D1 /\ extends im D n i im2 D1 /\ file_rep im2 (D1 i) (c ++ ch).
Proof.
  intros L fbn I Hi [M R2 R3] G M1 Hch Hfit Hmax im2.
  assert (Hfbn : 0 <= fbn < MAXFILE) by (apply block_index; lia).
  assert (Hne : saddr im1 (D1 i) fbn <> 0) by (apply M1; [done|]; unfold fbn; fsc; lia).
  pose proof (saddr_range _ _ _ _ i fbn I Hi ltac:(lia)) as Hr.
  pose proof (disk_size _ _ _ _ _ I Hr) as Hsz. unfold block_size in Hsz.
  assert (Hm : 0 <= L mod BSIZE < BSIZE) by (fsc; lia).
  destruct (write_block im1 fb n D1 i fbn (splice (disk im1 (0, saddr im1 (D1 i) fbn)) (Z.to_nat (L mod BSIZE)) ch) I Hi Hfbn Hne)
    as (I2 & Hmeta & Hs & Hb).
  { unfold block_size. rewrite length_splice; [done|]. rewrite Hsz. lia. }
  fold im2 in I2, Hmeta, Hs, Hb. split_and!; [done| |].
  - eapply extends_trans; [by apply grows_extends|]. split; [done|done| |by destruct (D1 i)].
    intros j c' Hj Hji. apply file_rep_same; [by auto|]. intros bn Hbn. rewrite Hb by done.
    by rewrite decide_False by naive_solver.
  - split.
    + assert (M2 : mapped im2 (D1 i) (L + 1)).
      { destruct M1 as [M1 M1']. split; [|done]. intros bn Hbn. rewrite Hs by lia. by apply M1. }
      apply (mapped_within _ _ _ _ M2). rewrite length_app. unfold L, fbn in *. fsc. lia.
    + rewrite length_app. lia.
    + intros o Ho. unfold fbyte. pose proof (block_index o Ho) as Hbo. rewrite Hb by done. rewrite nthZ_app by lia. fold L.
      assert (Hold : nthZ (fblock 0 (disk im1) (D1 i) (o / BSIZE)) (o mod BSIZE) = nthZ c o).
      { rewrite (gw_block _ _ _ _ _ _ G) by done. by apply R3. }
      case_decide as Eo; [destruct Eo as [_ Eo]|].
      * rewrite nthZ_splice by (fsc; lia). rewrite <- Eo in *.
        assert (Ed : nthZ (disk im1 (0, saddr im1 (D1 i) (o / BSIZE))) (o mod BSIZE) = nthZ c o).
        { rewrite <- Hold. unfold fblock. rewrite <- saddr_block by lia.
          by replace (saddr im1 (D1 i) (o / BSIZE) =? 0) with false by lia. }
        rewrite Ed. unfold fbn in Eo. bdestr (o <? L).
        -- replace (L mod BSIZE <=? o mod BSIZE) with false by (fsc; lia). done.
        -- replace (L mod BSIZE <=? o mod BSIZE) with true by (fsc; lia). cbn [andb].
           bdestr (o mod BSIZE <? L mod BSIZE + Z.of_nat (length ch)).
           ++ f_equal. fsc. lia.
           ++ rewrite !nthZ_over; [done|fsc; lia|lia].
      * rewrite Hold. bdestr (o <? L); [done|]. rewrite !nthZ_over; [done|unfold fbn in Eo; fsc; lia|lia].
Qed.

Lemma blocks_of_mono L L' : L <= L' -> blocks_of L <= blocks_of L'.
Proof. intros H. unfold blocks_of. fsc. repeat case_if; lia. Qed.
(** All bytes of a chunk that ends in the same block cost what the first does. *)
Lemma blocks_of_within L L' : 0 <= L < L' -> L' <= (L / BSIZE + 1) * BSIZE -> blocks_of L' = blocks_of (L + 1).
Proof. intros H1 H2. unfold blocks_of. fsc. repeat case_if; lia. Qed.

Lemma iappend_loop_spec n i fuel : forall s D p c,
  let L := Z.of_nat (length c) in let N := Z.of_nat (length p) in
  let fb' := mk_freeblock s + blocks_of (L + N) - blocks_of L in
  image (mk_im s) (mk_freeblock s) n D -> 1 <= i < n -> file_rep (mk_im s) (D i) c ->
  L + N <= file_max -> fb' <= FSSIZE -> (length p < fuel)%nat ->
  exists im' D', iappend_loop fuel (D i) L p N s = MkOk (D' i, L + N) (mk_mkst im' (mk_freeinode s) fb' (mk_sb s)) /\
    image im' fb' n D' /\ extends (mk_im s) D n i im' D' /\ file_rep im' (D' i) (c ++ p).
Proof.
  induction fuel as [|fuel IH]; intros s D p c L N fb' I Hi F Hmax Hroom Hfuel; [lia|]. cbn [iappend_loop].
  bdestr (0 <? N); cbn [negb].
  2:{ assert (p = []) as -> by (destruct p; [done|cbn in *; lia]). exists (mk_im s), D. rewrite app_nil_r.
      assert (EL : L + N = L) by (unfold N; cbn; lia). assert (Ef : fb' = mk_freeblock s) by (unfold fb'; rewrite EL; lia).
      rewrite EL, Ef. split_and!; [by destruct s|done|apply grows_extends, grows_refl|done]. }
  set (fbn := L / BSIZE). set (n1 := Z.min N (u32 ((fbn + 1) * BSIZE - L))).
  assert (Hfbn : 0 <= fbn < MAXFILE) by (apply block_index; lia).
  assert (Hn1 : n1 = Z.min N (BSIZE - L mod BSIZE)).
  { unfold n1, fbn, u32. rewrite Z.mod_small by (fsc; lia). fsc. lia. }
  assert (Hn1' : 0 < n1 <= N /\ L mod BSIZE + n1 <= BSIZE) by (rewrite Hn1; fsc; lia). clearbody n1.
  assert (Hlast : L + n1 <= (fbn + 1) * BSIZE) by (unfold fbn; fsc; lia).
  pose proof (blocks_of_within L (L + n1) ltac:(lia) Hlast) as Eb. pose proof (blocks_of_mono (L + n1) (L + N) ltac:(lia)) as Em.
  replace (fbn <? MAXFILE) with true by lia. unfold massert. unfold mbind at 1, MK_bind at 1.
  destruct (iappend_addr_spec s n D i L I Hi (fr_map _ _ _ F)) as (im1 & D1 & R & I1 & G & M1); [lia|lia|lia|].
  fold fbn in R. rewrite (mk_bind _ _ _ _ _ R). set (s1 := mk_mkst _ _ _ _) in *.
  pose proof (saddr_range _ _ _ _ i fbn I1 Hi ltac:(lia)) as Hr. set (x := saddr im1 (D1 i) fbn) in *.
  rewrite (mk_bind _ _ _ _ _ (rsect_runs x (disk im1 (0, x)) s1 Hr (disk_some _ _ _ _ _ I1 Hr))).
  rewrite (mk_bind _ _ _ _ _ (wsect_runs x _ s1 Hr)).
  replace (L - fbn * BSIZE) with (L mod BSIZE) by (unfold fbn; fsc; lia).
  set (ch := take (Z.to_nat n1) p). assert (Hch : Z.of_nat (length ch) = n1) by (unfold ch; rewrite length_take; lia).
  destruct (append_chunk (mk_im s) _ n D i im1 D1 c ch I1 Hi F G M1) as (I2 & X2 & F2); [lia|fold L; lia|fold L; lia|].
  fold L in I2, X2, F2. fold fbn x in I2, X2, F2. set (s2 := set_im _ s1).
  assert (Hlc : Z.of_nat (length (c ++ ch)) = L + n1) by (rewrite length_app; lia).
  assert (Hld : Z.of_nat (length (drop (Z.to_nat n1) p)) = N - n1) by (rewrite length_drop; lia).
  destruct (IH s2 D1 (drop (Z.to_nat n1) p) (c ++ ch) I2 Hi F2) as (im3 & D3 & R3 & I3 & X3 & F3);
    rewrite ?Hlc, ?Hld in *; [lia| |lia|].
  { change (mk_freeblock s2) with (mk_freeblock s + blocks_of (L + 1) - blocks_of L).
    replace (L + n1 + (N - n1)) with (L + N) by lia. lia. }
  exists im3, D3. rewrite <- app_assoc in F3. unfold ch in F3. rewrite take_drop in F3.
  assert (E3 : mk_freeblock s2 + blocks_of (L + n1 + (N - n1)) - blocks_of (L + n1) = fb').
  { change (mk_freeblock s2) with (mk_freeblock s + blocks_of (L + 1) - blocks_of L).
    replace (L + n1 + (N - n1)) with (L + N) by lia. unfold fb'. lia. }
  rewrite E3 in R3, I3. replace (L + n1 + (N - n1)) with (L + N) in R3 by lia. split_and!; [|done|by eapply extends_trans|done].
  unfold u32. rewrite Z.mod_small by (unfold file_max in *; fsc; lia). exact R3.
Qed.

(** ** The inode blocks *)
Lemma inode_block i : 0 <= i <= NINODES -> IBLOCK i image_sb = i / 16 + 32.
Proof. intros H. unfold IBLOCK. change NINODES with 200 in H. change IPB with 16. change (sb_inodestart image_sb) with 32. unfold u32. apply Z.mod_small. lia. Qed.
Lemma inode_block_range i : 0 <= i <= NINODES -> 0 <= IBLOCK i image_sb < FSSIZE.
Proof. intros H. rewrite inode_block by done. change NINODES with 200 in H. fsc. lia. Qed.
Definition dinode_of (im : gmap Z (list Z)) (i : Z) : inode :=
  load_dinode (disk im (0, IBLOCK i image_sb)) (dinode_off i) inode0.
Lemma rinode_runs s i d : mk_sb s = image_sb -> 0 <= i <= NINODES -> mk_im s !! IBLOCK i image_sb = Some d ->
  rinode i s = MkOk (dinode_of (mk_im s) i) s.
Proof.
  intros Hsb Hi Hd. unfold rinode. unfold mget. unfold mbind at 1, MK_bind at 1. rewrite Hsb.
  rewrite (mk_bind _ _ _ _ _ (rsect_runs _ _ _ (inode_block_range i Hi) Hd)).
  unfold dinode_of, disk. cbn [snd]. by rewrite Hd.
Qed.
Lemma winode_runs s i ip d : mk_sb s = image_sb -> 0 <= i <= NINODES -> mk_im s !! IBLOCK i image_sb = Some d ->
  winode i ip s = MkOk tt (set_im (insert (IBLOCK i image_sb) (splice d (Z.to_nat (dinode_off i)) (dinode_bytes ip))) s).
Proof.
  intros Hsb Hi Hd. pose proof (inode_block_range i Hi) as Hb.
  unfold winode. unfold mget. unfold mbind at 1, MK_bind at 1. rewrite Hsb.
  rewrite (mk_bind _ _ _ _ _ (rsect_runs _ _ _ Hb Hd)). by rewrite wsect_runs.
Qed.

(** Writing a block that belongs to no file. *)
Lemma write_meta im fb n D b d : image im fb n D -> 0 <= b < nmeta -> block_size d ->
  image (<[b := d]> im) fb n D /\
  forall j c, 1 <= j < n -> file_rep im (D j) c -> file_rep (<[b := d]> im) (D j) c.
Proof.
  intros I Hb Hd. pose proof (im_fb _ _ _ _ I) as Hfb.
  assert (Hdk : forall j sl, 1 <= j < n -> 0 <= sl <= MAXFILE -> saddr im (D j) sl <> 0 ->
    disk (<[b := d]> im) (0, saddr im (D j) sl) = disk im (0, saddr im (D j) sl)).
  { intros j sl Hj Hs Hne. rewrite disk_insert. rewrite decide_False; [done|]. cbn. destruct (im_addr _ _ _ _ I j sl Hj Hs); lia. }
  assert (Hs : forall j sl, 1 <= j < n -> 0 <= sl <= MAXFILE -> saddr (<[b := d]> im) (D j) sl = saddr im (D j) sl).
  { intros j sl Hj Hsl. unfold saddr, baddr. bdestr (sl =? MAXFILE); [done|]. bdestr (sl <? NDIRECT); [done|].
    bdestr (ind_of (D j) =? 0); [done|]. rewrite <- (saddr_ind im), Hdk; [done|done|fsc; lia|by rewrite saddr_ind]. }
  split.
  - split; [|done| |apply I| |].
    + intros b' Hb'. rewrite lookup_insert. case_decide; [by exists d|by apply I].
    + intros b' Hb'. rewrite lookup_insert_ne by lia. by apply I.
    + intros j sl Hj Hsl. rewrite Hs by done. by apply I.
    + intros j1 j2 s1 s2 H1 H2 H3 H4. rewrite !Hs by done. by apply I.
  - intros j c Hj. apply file_rep_same; [by auto|]. intros bn Hbn. unfold fblock. rewrite <- !saddr_block, Hs by lia.
    bdestr (saddr im (D j) bn =? 0); [done|]. apply Hdk; [done|lia|done].
Qed.
(** A new inode has no blocks. *)
Lemma image_new im fb n D ip : image im fb n D -> 1 <= n -> i_addrs ip = replicate 13 0 ->
  image im fb (n + 1) (fupd D n ip) /\ file_rep im ip [].
Proof.
  intros I Hn Ha. assert (Hz : forall sl, 0 <= sl <= MAXFILE -> saddr im ip sl = 0).
  { intros sl Hsl. unfold saddr, baddr, ind_of. rewrite Ha, !nthZ_zeros. repeat case_if; done. }
  assert (Hs : forall j sl, saddr im (fupd D n ip j) sl = if decide (j = n) then saddr im ip sl else saddr im (D j) sl).
  { intros j sl. unfold fupd. by case_decide. }
  split; split; try apply I.
  - intros j Hj. unfold fupd. case_decide; [by rewrite Ha|]. apply I. lia.
  - intros j sl Hj Hsl. rewrite Hs. case_decide; [left; by apply Hz|]. apply I; lia.
  - intros j1 j2 s1 s2 H1 H2 H3 H4. rewrite !Hs. repeat case_decide; rewrite ?Hz by done; try lia.
    apply I; lia.
  - split; [|rewrite <- (saddr_ind im), Hz by (fsc; lia); fsc; cbn; lia].
    intros bn Hbn. rewrite Hz by lia. fsc. cbn. lia.
  - vm_compute. done.
  - intros o Ho. unfold fbyte, fblock. pose proof (block_index o Ho). rewrite <- saddr_block, Hz by lia. rewrite Z.eqb_refl.
    rewrite nthZ_zero. unfold nthZ. by destruct (Z.to_nat o).
Qed.

(** ** The files appended to so far *)
Abbreviation mfile := (Z * list Z)%type.
Definition total (files : list mfile) : Z := foldr (fun f a => blocks_of (Z.of_nat (length f.2)) + a) 0 files.
Definition dinode_for (f : mfile) (addrs : list Z) : inode :=
  mk_inode 0 0 0 sleeplock0 0 f.1 0 0 1 (Z.of_nat (length f.2)) addrs.
(** The size in the inode of file [k]: the length of its content, but the root
    directory may have been given the size [r]. *)
Definition fsize (r : option Z) (k : nat) (f : mfile) : Z :=
  match r with
  | None => Z.of_nat (length f.2)
  | Some z => match k with O => z | S _ => Z.of_nat (length f.2) end
  end.
(** [files] lists the type and the content of the inodes 1, 2, ...; the inode of the
    file [stale] is still to be written. *)
Record rep_at (s : mkst) (files : list mfile) (D : Z -> inode) (stale : option nat) (r : option Z) : Prop := {
  rp_sb : mk_sb s = image_sb;
  rp_inodes : mk_freeinode s = Z.of_nat (length files) + 1;
  rp_ninodes : Z.of_nat (length files) < NINODES;
  rp_blocks : mk_freeblock s = nmeta + total files;
  rp_super : mk_im s !! 1 = Some (splice zero_block 0 (superblock_bytes image_sb));
  rp_log : mk_im s !! 2 = Some zero_block;
  rp_free : forall i, mk_freeinode s <= i < NINODES -> i_type (dinode_of (mk_im s) i) = 0;
  rp_types : forall k f, files !! k = Some f -> 0 < f.1 < 2 ^ 15;
  rp_image : image (mk_im s) (mk_freeblock s) (mk_freeinode s) D;
  rp_files : forall k f, files !! k = Some f -> let i := Z.of_nat k + 1 in
    file_rep (mk_im s) (D i) f.2 /\ D i = set_i_size (fsize r k f) (dinode_for f (i_addrs (D i))) /\
    (stale = Some k \/ dinode_of (mk_im s) i = D i);
  rp_root : forall z, r = Some z -> 0 <= z <= file_max;
}.
Definition fs_rep_as (r : option Z) (s : mkst) (files : list mfile) : Prop := exists D, rep_at s files D None r.
Abbreviation fs_rep := (fs_rep_as None).
Lemma total_cons f l : total (f :: l) = blocks_of (Z.of_nat (length f.2)) + total l.
Proof. done. Qed.
Lemma total_app l l' : total (l ++ l') = total l + total l'.
Proof. induction l as [|f l IH]; [done|]. cbn [app]. rewrite !total_cons, IH. lia. Qed.
Lemma total_insert l k f g : l !! k = Some f ->
  total (<[k := g]> l) = total l + blocks_of (Z.of_nat (length g.2)) - blocks_of (Z.of_nat (length f.2)).
Proof.
  revert k. induction l as [|h l IH]; intros [|k] H; try done.
  - injection H as ->. cbn [insert list_insert]. rewrite !total_cons. lia.
  - cbn [insert list_insert]. rewrite !total_cons. change (list_insert k g l) with (<[k := g]> l). rewrite IH by done. lia.
Qed.

(** The inode of a file fits its slot of the inode block. *)
Lemma dinode_for_wf im fb n D i f z : image im fb n D -> 1 <= i < n -> 0 <= z <= file_max -> 0 < f.1 < 2 ^ 15 ->
  dinode_wf (set_i_size z (dinode_for f (i_addrs (D i)))).
Proof.
  intros I Hi Hl Ht. pose proof (im_len _ _ _ _ I i Hi) as Hlen. unfold file_max in Hl. fsc.
  split; cbn; try lia. split; [done|]. apply Forall_lookup_2. intros k a Ha.
  pose proof (lookup_lt_Some _ _ _ Ha). apply nthZ_lookup in Ha.
  assert (Hk : 0 <= Z.of_nat k <= NDIRECT) by (fsc; lia).
  pose proof (saddr_range _ _ _ _ i (slot_no (Z.of_nat k)) I Hi (slot_no_range _ Hk)) as Hr.
  rewrite saddr_slot, Ha in Hr by done. fsc. lia.
Qed.
(** winode changes the inode it is given, and no other. *)
Lemma winode_dinodes im i ip d : dinode_wf ip -> ip = with_content ip inode0 -> 0 <= i < NINODES ->
  im !! IBLOCK i image_sb = Some d -> block_size d ->
  let d' := splice d (Z.to_nat (dinode_off i)) (dinode_bytes ip) in
  let im' := <[IBLOCK i image_sb := d']> im in
  block_size d' /\ dinode_of im' i = ip /\
  forall j, 0 <= j < NINODES -> j <> i -> dinode_of im' j = dinode_of im j.
Proof.
  intros W E Hi Hd Hsz d' im'. change NINODES with 200 in Hi. destruct (dinode_splice ip inode0 d i W Hsz ltac:(lia)) as (H1 & H2 & H3).
  fold d' in H1, H2, H3. split_and!.
  - unfold block_size. rewrite H3. exact Hsz.
  - unfold dinode_of, im'. rewrite disk_insert. cbn [snd]. rewrite decide_True by done. rewrite H1. done.
  - intros j Hj Hne. change NINODES with 200 in Hj. unfold dinode_of, im'. rewrite disk_insert. cbn [snd]. case_decide as Eb; [|done].
    rewrite Eb. unfold disk. cbn [snd]. rewrite Hd. apply H2; [lia|].
    rewrite !inode_block in Eb by (change NINODES with 200; lia). change IPB with 16. lia.
Qed.
Lemma winode_rep s files D k f r : rep_at s files D (Some k) r -> files !! k = Some f ->
  exists s', winode (Z.of_nat k + 1) (D (Z.of_nat k + 1)) s = MkOk tt s' /\ fs_rep_as r s' files.
Proof.
  intros [P1 P2 P3 P4 P5 P6 P7 P8 I HD RR] Hk. pose proof (lookup_lt_Some _ _ _ Hk) as Hkl. set (i := Z.of_nat k + 1).
  assert (Hi : 0 <= i <= NINODES) by lia. pose proof (inode_block_range i Hi) as Hr. pose proof (inode_block i Hi) as Eb.
  assert (Hin : 1 <= i < mk_freeinode s) by lia. destruct (HD k f Hk) as (F & Ed & _). fold i in F, Ed.
  pose proof (disk_some _ _ _ _ _ I Hr) as Hd. pose proof (disk_size _ _ _ _ _ I Hr) as Hsz.
  set (d := disk (mk_im s) (0, IBLOCK i image_sb)) in *.
  assert (W : dinode_wf (D i)).
  { rewrite Ed. apply (dinode_for_wf _ _ _ _ i f _ I Hin); [|by eapply P8]. pose proof (fr_max _ _ _ F).
    unfold fsize. destruct r as [z|]; [destruct k; [by apply RR|lia]|lia]. }
  destruct (winode_dinodes (mk_im s) i (D i) d W ltac:(by rewrite Ed) ltac:(lia) Hd Hsz) as (Z1 & Z2 & Z3).
  set (d' := splice d (Z.to_nat (dinode_off i)) (dinode_bytes (D i))) in *. change NINODES with 200 in *.
  destruct (write_meta _ _ _ _ (IBLOCK i image_sb) d' I ltac:(fsc; lia) Z1) as [I2 F2].
  exists (set_im (insert (IBLOCK i image_sb) d') s). split; [by rewrite (winode_runs s i (D i) d P1 Hi Hd)|].
  exists D. split; cbn [mk_sb mk_freeinode mk_freeblock mk_im set_im]; try done.
  - by rewrite lookup_insert_ne by lia.
  - by rewrite lookup_insert_ne by lia.
  - intros j Hj. change NINODES with 200 in *. rewrite Z3 by lia. by apply P7.
  - intros k' f' Hf. pose proof (lookup_lt_Some _ _ _ Hf). destruct (HD k' f' Hf) as (A1 & A2 & A3).
    split_and!; [apply F2; [lia|done]|done|]. right. destruct (decide (k' = k)) as [->|Hne]; [done|].
    destruct A3 as [[= ->]|A3]; [done|]. rewrite Z3; [done|lia|lia].
Qed.
Lemma ialloc_spec s files t : fs_rep s files -> Z.of_nat (length files) + 1 < NINODES -> 0 < t < 2 ^ 15 ->
  exists s', ialloc t s = MkOk (Z.of_nat (length files) + 1) s' /\ fs_rep s' (files ++ [(t, [])]).
Proof.
  intros (D & [P1 P2 P3 P4 P5 P6 P7 P8 I HD RR]) Hn Ht. change NINODES with 200 in *. set (i := mk_freeinode s) in *.
  set (s1 := mk_mkst (mk_im s) (i + 1) (mk_freeblock s) (mk_sb s)). set (ip := dinode_for (t, []) (replicate 13 0)).
  destruct (image_new _ _ _ D ip I ltac:(lia) eq_refl) as [I1 F1].
  assert (R : rep_at s1 (files ++ [(t, [])]) (fupd D i ip) (Some (length files)) None).
  { split; cbn [mk_sb mk_freeinode mk_freeblock mk_im s1]; rewrite ?length_app; cbn [length]; change NINODES with 200 in *; try lia; try done.
    - rewrite total_app, P4. change (total [(t, [])]) with 0. lia.
    - intros j Hj. apply P7. lia.
    - intros k f. rewrite lookup_snoc_Some. intros [[_ Hk]|[_ <-]]; [by eapply P8|done].
    - intros k f. rewrite lookup_snoc_Some. intros [[Hk Hf]|[-> <-]].
      + destruct (HD k f Hf) as (A1 & A2 & [A3|A3]); [done|]. rewrite fupd_ne by lia. split_and!; [done|done|by right].
      + rewrite <- P2, fupd_eq. split_and!; [done|done|by left]. }
  destruct (winode_rep s1 _ _ (length files) (t, []) None R) as (s2 & W & R2).
  { by rewrite lookup_app_r, Nat.sub_diag by lia. }
  exists s2. split; [|done]. rewrite <- P2 in *. rewrite fupd_eq in W.
  unfold ialloc. unfold mget, mset. do 2 (unfold mbind at 1, MK_bind at 1). fold i. unfold u32. rewrite (Z.mod_small (i + 1)) by lia.
  fold s1. rewrite (xshort_small t), (xshort_small 1), (xint_small 0) by lia. by rewrite (mk_bind _ _ _ _ _ W).
Qed.

(** Where the blocks are depends on the addresses alone. *)
Lemma saddr_addrs im ip ip' sl : i_addrs ip' = i_addrs ip -> saddr im ip' sl = saddr im ip sl.
Proof. intros E. unfold saddr, baddr, ind_of. by rewrite E. Qed.
Lemma fblock_addrs dev v ip ip' bn : i_addrs ip' = i_addrs ip -> fblock dev v ip' bn = fblock dev v ip bn.
Proof. intros E. unfold fblock, baddr, ind_of. by rewrite E. Qed.
Lemma image_addrs im fb n D D' : (forall j, 1 <= j < n -> i_addrs (D' j) = i_addrs (D j)) -> image im fb n D -> image im fb n D'.
Proof.
  intros E [I1 I2 I3 I4 I5 I6]. split; [done|done|done| | |].
  - intros j Hj. rewrite E by done. by apply I4.
  - intros j sl Hj Hsl. rewrite (saddr_addrs _ (D j)) by by apply E. by apply I5.
  - intros j1 j2 s1 s2 H1 H2 H3 H4. rewrite (saddr_addrs im (D j1) (D' j1)), (saddr_addrs im (D j2) (D' j2)) by by apply E. by apply I6.
Qed.
Lemma file_rep_addrs im ip ip' c : i_addrs ip' = i_addrs ip -> file_rep im ip c -> file_rep im ip' c.
Proof. intros E. apply file_rep_same; intros; [by apply saddr_addrs|by apply fblock_addrs]. Qed.

Lemma iappend_spec s files k t c p : fs_rep s files -> files !! k = Some (t, c) ->
  Z.of_nat (length c) + Z.of_nat (length p) <= file_max -> nmeta + total (<[k := (t, c ++ p)]> files) <= FSSIZE ->
  exists s', iappend (Z.of_nat k + 1) p (Z.of_nat (length p)) s = MkOk tt s' /\ fs_rep s' (<[k := (t, c ++ p)]> files).
Proof.
  intros (D & [P1 P2 P3 P4 P5 P6 P7 P8 I HD RR]) Hk Hmax Hroom.
  rewrite (total_insert _ _ _ _ Hk) in Hroom. cbn [snd] in Hroom. rewrite length_app, Nat2Z.inj_add in Hroom.
  pose proof (lookup_lt_Some _ _ _ Hk) as Hkl. set (i := Z.of_nat k + 1).
  assert (Hi : 0 <= i <= NINODES) by lia. pose proof (inode_block_range i Hi) as Hr.
  destruct (HD k (t, c) Hk) as (F & Ed & [Edisk|Edisk]); [done|]. fold i in F, Ed, Edisk. cbn [snd] in F.
  assert (Hin : 1 <= i < mk_freeinode s) by lia. pose proof (disk_some _ _ _ _ _ I Hr) as Hd0.
  assert (Esz : xint (i_size (D i)) = Z.of_nat (length c)).
  { rewrite Ed. cbn. unfold file_max in Hmax. fsc. apply xint_small. lia. }
  destruct (iappend_loop_spec (mk_freeinode s) i (S (length p)) s D p c I Hin F Hmax) as (im1 & D1 & R & I1 & X & F1); [lia|lia|].
  set (fb' := mk_freeblock s + _ - _) in *. set (s1 := mk_mkst im1 _ fb' _) in *.
  set (ip := dinode_for (t, c ++ p) (i_addrs (D1 i))).
  assert (Eip : set_i_size (xint (Z.of_nat (length c) + Z.of_nat (length p))) (D1 i) = ip).
  { rewrite xint_small by (unfold file_max in Hmax; fsc; lia). rewrite (ex_inode _ _ _ _ _ _ X), Ed. unfold ip, dinode_for.
    cbn. by rewrite length_app, Nat2Z.inj_add. }
  assert (Hmeta : forall j, 0 <= j < NINODES -> dinode_of im1 j = dinode_of (mk_im s) j).
  { intros j Hj. unfold dinode_of, disk. cbn [snd]. rewrite (ex_meta _ _ _ _ _ _ X); [done|].
    rewrite inode_block by lia. change NINODES with 200 in Hj. fsc. lia. }
  assert (R1 : rep_at s1 (<[k := (t, c ++ p)]> files) (fupd D1 i ip) (Some k) None).
  { split; cbn [mk_sb mk_freeinode mk_freeblock mk_im s1]; rewrite ?length_insert; try done.
    - rewrite (total_insert _ _ _ _ Hk). cbn [snd]. rewrite length_app, Nat2Z.inj_add. unfold fb'. lia.
    - by rewrite (ex_meta _ _ _ _ _ _ X) by (fsc; lia).
    - by rewrite (ex_meta _ _ _ _ _ _ X) by (fsc; lia).
    - intros j Hj. rewrite Hmeta by lia. by apply P7.
    - intros k' f. rewrite list_lookup_insert_Some. intros [(_ & <- & _)|[_ Hf]]; [exact (P8 k (t, c) Hk)|by eapply P8].
    - eapply image_addrs; [|exact I1]. intros j Hj. unfold fupd. case_decide; [by subst|done].
    - intros k' f. rewrite list_lookup_insert_Some. intros [(<- & <- & _)|[Hne Hf]].
      + fold i. rewrite fupd_eq. split_and!; [by apply (file_rep_addrs _ (D1 i))|done|by left].
      + destruct (HD k' f Hf) as (A1 & A2 & [A3|A3]); [done|]. pose proof (lookup_lt_Some _ _ _ Hf).
        pose proof (ex_rep _ _ _ _ _ _ X (Z.of_nat k' + 1) f.2 ltac:(lia) ltac:(lia) A1) as A4.
        rewrite fupd_ne by lia. rewrite (ex_other _ _ _ _ _ _ X) in * by lia. split_and!; [done|done|right].
        rewrite Hmeta by lia. done. }
  destruct (winode_rep s1 _ _ k (t, c ++ p) None R1) as (s2 & W & R2); [by apply list_lookup_insert_eq|].
  fold i in W. rewrite fupd_eq in W. exists s2. split; [|done].
  unfold iappend. rewrite (mk_bind _ _ _ _ _ (rinode_runs s i _ P1 Hi Hd0)). rewrite Edisk, Esz, Nat2Z.id.
  rewrite (mk_bind _ _ _ _ _ R). by rewrite Eip.
Qed.

(** ** The whole image *)
Lemma copy_file_spec files k t fuel : forall s data c files', files' = <[k := (t, c)]> files -> fs_rep s files' -> (k < length files)%nat ->
  Z.of_nat (length c) + Z.of_nat (length data) <= file_max -> nmeta + total (<[k := (t, c ++ data)]> files) <= FSSIZE ->
  (length data < fuel)%nat ->
  exists s', copy_file fuel (Z.of_nat k + 1) data s = MkOk tt s' /\ fs_rep s' (<[k := (t, c ++ data)]> files).
Proof.
  induction fuel as [|fuel IH]; intros s data c files' -> R Hk Hmax Hroom Hfuel; [lia|]. cbn [copy_file].
  set (buf := take (Z.to_nat BSIZE) data). bdestr (0 <? Z.of_nat (length buf)).
  2:{ assert (data = []) as -> by (destruct data; [done|]; unfold buf in E; rewrite length_take in E; cbn [length] in E; fsc; lia).
      rewrite app_nil_r in *. by exists s. }
  assert (Hb : (length buf <= length data)%nat) by (unfold buf; rewrite length_take; lia).
  assert (Hbd : buf ++ drop (Z.to_nat BSIZE) data = data) by apply take_drop.
  destruct (lookup_lt_is_Some_2 files k Hk) as [f Hf].
  destruct (iappend_spec s _ k t c buf R) as (s1 & R1 & P1); [by rewrite list_lookup_insert_eq|lia| |].
  { rewrite list_insert_insert_eq. rewrite !(total_insert _ _ _ _ Hf) in *. cbn [snd] in *. rewrite length_app in *.
    pose proof (blocks_of_mono (Z.of_nat (length c + length buf)) (Z.of_nat (length c + length data)) ltac:(lia)). lia. }
  rewrite (mk_bind _ _ _ _ _ R1). rewrite list_insert_insert_eq in P1.
  assert (Hld : (length (drop (Z.to_nat BSIZE) data) + length buf = length data)%nat).
  { rewrite <- Hbd at 2. rewrite length_app. lia. }
  destruct (IH s1 (drop (Z.to_nat BSIZE) data) (c ++ buf) _ eq_refl P1 Hk) as (s2 & R2 & P2).
  - rewrite length_app. lia.
  - by rewrite <- app_assoc, Hbd.
  - lia.
  - exists s2. split; [done|]. by rewrite <- app_assoc, Hbd in P2.
Qed.

(** The arguments of mkfs with what they hold; the name in the image. *)
Definition image_name (arg : list Z) : list Z := skip_underscore (shortname arg).
Definition root_entries (files : list (list Z * list Z)) : list Z :=
  mk_dirent 1 (zs ".") ++ mk_dirent 1 (zs "..") ++
  concat (imap (fun k f => mk_dirent (Z.of_nat k + 2) (image_name f.1)) files).
Definition image_files (files : list (list Z * list Z)) : list mfile :=
  (T_DIR, root_entries files) :: ((fun f => (T_FILE, f.2)) <$> files).
Definition host_file (f : list Z * list Z) : list Z * option (list Z) := (f.1, Some f.2).
(** mkfs has inodes and blocks for them. *)
Record fits (files : list (list Z * list Z)) : Prop := {
  ft_names : forall f, f ∈ files -> no_slash (shortname f.1) = true;
  ft_number : Z.of_nat (length files) + 2 <= NINODES;
  ft_size : forall f, f ∈ files -> Z.of_nat (length f.2) <= file_max;
  ft_blocks : nmeta + total (image_files files) <= FSSIZE;
}.
Lemma length_mk_dirent i name : length (mk_dirent i name) = 16%nat.
Proof. unfold mk_dirent, dirent_bytes. rewrite length_app, length_Z_to_le, length_strncpy by (rewrite length_replicate; done). done. Qed.
Lemma length_root_entries files : length (root_entries files) = (16 * (2 + length files))%nat.
Proof.
  unfold root_entries. rewrite !length_app, !length_mk_dirent.
  assert (H : forall o, length (concat (imap (fun k f => mk_dirent (Z.of_nat (o + k) + 2) (image_name f.1)) files)) = (16 * length files)%nat).
  { induction files as [|f l IH]; intros o; [done|]. cbn [imap concat]. rewrite length_app, length_mk_dirent.
    unfold compose. rewrite (imap_ext _ (fun k f => mk_dirent (Z.of_nat (S o + k) + 2) (image_name f.1))).
    - rewrite IH. cbn. lia.
    - intros k x _. do 2 f_equal. lia. }
  specialize (H 0%nat). cbn [Nat.add] in H. rewrite H. lia.
Qed.
Lemma root_entries_snoc files f : root_entries (files ++ [f]) =
  root_entries files ++ mk_dirent (Z.of_nat (length files) + 2) (image_name f.1).
Proof.
  unfold root_entries. rewrite imap_app, concat_app. cbn [imap concat]. unfold compose.
  rewrite app_nil_r, Nat.add_0_r. by rewrite !app_assoc.
Qed.
Lemma blocks_of_nonneg L : 0 <= L -> 0 <= blocks_of L.
Proof. intros H. unfold blocks_of. fsc. case_if; lia. Qed.
Lemma total_nonneg l : 0 <= total l.
Proof. induction l as [|f l IH]; [done|]. rewrite total_cons. pose proof (blocks_of_nonneg (Z.of_nat (length f.2))). lia. Qed.
Lemma fits_prefix l l' : fits (l ++ l') -> fits l.
Proof.
  intros [F1 F2 F3 F4]. split.
  - intros f Hf. apply F1. set_solver.
  - rewrite length_app in F2. lia.
  - intros f Hf. apply F3. set_solver.
  - unfold image_files in *. rewrite fmap_app in F4. rewrite total_cons in *. rewrite total_app in F4. cbn [snd] in *.
    rewrite !length_root_entries, length_app in *.
    pose proof (blocks_of_mono (Z.of_nat (16 * (2 + length l))) (Z.of_nat (16 * (2 + (length l + length l')))) ltac:(lia)).
    pose proof (total_nonneg ((fun f : list Z * list Z => (T_FILE, f.2)) <$> l')). lia.
Qed.

Lemma add_file_spec s l f : fs_rep s (image_files l) -> fits (l ++ [f]) ->
  exists s', add_file 1 (host_file f) s = MkOk tt s' /\ fs_rep s' (image_files (l ++ [f])).
Proof.
  intros R [F1 F2 F3 F4]. rewrite length_app in F2. cbn [length] in F2.
  assert (Hlen : length (image_files l) = S (length l)) by (cbn; by rewrite length_fmap).
  set (name := image_name f.1). set (de := mk_dirent (Z.of_nat (length l) + 2) name).
  assert (E : image_files (l ++ [f]) =
    <[S (length l) := (T_FILE, [] ++ f.2)]> (<[0%nat := (T_DIR, root_entries l ++ de)]> (image_files l ++ [(T_FILE, [])]))).
  { unfold image_files. rewrite root_entries_snoc, fmap_app. set (m := (fun f => (T_FILE, f.2)) <$> l).
    assert (Hm : length m = length l) by apply length_fmap. fold name de. rewrite <- Hm.
    trans ((T_DIR, root_entries l ++ de) :: <[length m := (T_FILE, f.2)]> (m ++ [(T_FILE, [])])); [|done].
    by rewrite insert_app_r_alt, Nat.sub_diag by done. }
  unfold add_file, host_file. cbn [fst snd]. unfold massert. unfold mbind at 1, MK_bind at 1. rewrite F1 by set_solver.
  destruct (ialloc_spec s (image_files l) T_FILE R) as (s1 & R1 & P1); [rewrite Hlen; lia|unfold T_FILE; lia|].
  rewrite (mk_bind _ _ _ _ _ R1). rewrite Hlen. replace (Z.of_nat (S (length l)) + 1) with (Z.of_nat (length l) + 2) by lia.
  fold (image_name f.1). fold name de.
  set (files1 := image_files l ++ [(T_FILE, [])]) in *.
  assert (Hl1 : files1 !! S (length l) = Some (T_FILE, [])).
  { unfold files1. rewrite lookup_app_r by lia. by rewrite Hlen, Nat.sub_diag. }
  rewrite E in F4. rewrite (total_insert (<[0%nat := _]> files1) _ (T_FILE, [])) in F4 by (by rewrite list_lookup_insert_ne).
  pose proof (blocks_of_nonneg (Z.of_nat (length f.2)) ltac:(lia)). change (blocks_of (Z.of_nat (length (T_FILE, [] : list Z).2))) with 0 in F4.
  cbn [snd app] in F4.
  destruct (iappend_spec s1 files1 0 T_DIR (root_entries l) de P1) as (s2 & R2 & P2).
  - done.
  - unfold de. rewrite length_mk_dirent, length_root_entries. change NINODES with 200 in F2. unfold file_max. fsc. lia.
  - lia.
  - unfold de in R2 at 2. rewrite length_mk_dirent in R2. change (Z.of_nat 16) with dirent_size in R2.
    change (Z.of_nat 0 + 1) with 1 in R2. rewrite (mk_bind _ _ _ _ _ R2).
    set (files2 := <[0%nat := _]> files1) in *.
    destruct (copy_file_spec files2 (S (length l)) T_FILE (S (length f.2)) s2 f.2 [] files2) as (s3 & R3 & P3).
    + rewrite list_insert_id; [done|]. unfold files2. by rewrite list_lookup_insert_ne.
    + done.
    + unfold files2. rewrite length_insert. by eapply lookup_lt_Some.
    + cbn [length]. pose proof (F3 f ltac:(set_solver)). lia.
    + rewrite (total_insert files2 _ (T_FILE, [])) by (unfold files2; by rewrite list_lookup_insert_ne).
      cbn [snd app]. change (blocks_of (Z.of_nat (length (@nil Z)))) with 0. lia.
    + lia.
    + exists s3. replace (Z.of_nat (length l) + 2) with (Z.of_nat (S (length l)) + 1) by lia. split; [done|]. by rewrite E.
Qed.
Lemma add_files_spec r : forall s l, fs_rep s (image_files l) -> fits (l ++ r) ->
  exists s', add_files 1 (host_file <$> r) s = MkOk tt s' /\ fs_rep s' (image_files (l ++ r)).
Proof.
  induction r as [|f r IH]; intros s l R F.
  - exists s. by rewrite app_nil_r.
  - replace (l ++ f :: r) with ((l ++ [f]) ++ r) in * by by rewrite <- app_assoc.
    destruct (add_file_spec s l f R (fits_prefix _ _ F)) as (s1 & R1 & P1).
    destruct (IH s1 (l ++ [f]) P1 F) as (s2 & R2 & P2).
    exists s2. split; [|done]. cbn [fmap list_fmap add_files]. by rewrite (mk_bind _ _ _ _ _ R1).
Qed.

Lemma zero_sectors_runs n : forall i s, 0 <= i -> i + Z.of_nat n <= FSSIZE ->
  exists im, zero_sectors n i s = MkOk tt (set_im (fun _ => im) s) /\
    forall b, im !! b = if (i <=? b) && (b <? i + Z.of_nat n) then Some zero_block else mk_im s !! b.
Proof.
  induction n as [|n IH]; intros i s Hi Hn.
  - exists (mk_im s). split; [by destruct s|]. intros b. replace ((i <=? b) && (b <? i + Z.of_nat 0)) with false by lia. done.
  - cbn [zero_sectors]. rewrite (mk_bind _ _ _ _ _ (wsect_runs i _ s ltac:(lia))).
    destruct (IH (i + 1) (set_im (insert i zero_block) s)) as (im & R & H); [lia|lia|].
    exists im. split; [exact R|]. intros b. rewrite H. cbn [mk_im set_im]. rewrite lookup_insert.
    repeat (case_if || case_decide); try done; exfalso; lia.
Qed.

Lemma get16_zero o : get16 zero_block o = 0.
Proof.
  unfold get16, slice, zero_block. rewrite drop_replicate, take_replicate. generalize (2 `min` (Z.to_nat BSIZE - Z.to_nat o))%nat.
  intros n. induction n as [|n IH]; [done|]. cbn [replicate le_to_Z]. rewrite IH. done.
Qed.
Lemma superblock_size : block_size (splice zero_block 0 (superblock_bytes image_sb)).
Proof. unfold block_size. rewrite length_splice; [done|]. vm_compute. lia. Qed.
(** An image of zeros with the superblock, without files. *)
Lemma empty_rep im : (forall b, 0 <= b < FSSIZE -> im !! b = Some zero_block) ->
  fs_rep (mk_mkst (<[1 := splice zero_block 0 (superblock_bytes image_sb)]> im) 1 nmeta image_sb) [].
Proof.
  intros Hz. exists (fun _ => inode0). split; cbn [mk_sb mk_freeinode mk_freeblock mk_im length]; try done.
  - by rewrite lookup_insert_eq.
  - rewrite lookup_insert_ne by lia. apply Hz. fsc. lia.
  - intros i Hi. unfold dinode_of, disk. cbn [snd]. rewrite inode_block by lia. change NINODES with 200 in Hi.
    rewrite lookup_insert_ne by lia. rewrite Hz by (fsc; lia). cbn [default load_dinode i_type]. by rewrite get16_zero.
  - split; try (intros; lia).
    + intros b Hb. rewrite lookup_insert. case_decide; [eexists; split; [done|exact superblock_size]|]. exists zero_block. split; [by apply Hz|done].
    + fsc. lia.
    + intros b Hb. rewrite lookup_insert_ne by (fsc; lia). apply Hz. fsc. lia.
Qed.
(** The first part of main: the files are in. *)
Definition fix_root (rootino : Z) : MK unit :=
  din ← rinode rootino;
  let off := xint (i_size din) in
  let off := u32 ((off / BSIZE + 1) * BSIZE) in
  winode rootino (set_i_size (xint off) din).
Lemma main_files files s : fits files ->
  exists s', main (host_file <$> files) s = (fix_root 1 ;; b ← mget mk_freeblock; balloc b) s' /\ fs_rep s' (image_files files).
Proof.
  intros F. unfold main.
  replace (BSIZE mod dinode_size =? 0) with true by done. replace (BSIZE mod dirent_size =? 0) with true by done.
  do 2 (unfold massert at 1; unfold mbind at 1, MK_bind at 1). unfold mset at 1. unfold mbind at 1, MK_bind at 1.
  set (s0 := mk_mkst ∅ 1 nmeta image_sb).
  destruct (zero_sectors_runs (Z.to_nat FSSIZE) 0 s0) as (im & R0 & H0); [lia|fsc; lia|].
  rewrite (mk_bind _ _ _ _ _ R0). rewrite (mk_bind _ _ _ _ _ (wsect_runs 1 _ _ ltac:(fsc; lia))).
  assert (P0 := empty_rep im). set (s1 := set_im _ (set_im _ s0)).
  destruct (ialloc_spec s1 [] T_DIR) as (s2 & R2 & P2); [apply P0|done|unfold T_DIR; lia|].
  { intros b Hb. rewrite H0. replace ((0 <=? b) && (b <? 0 + Z.of_nat (Z.to_nat FSSIZE))) with true by (fsc; lia). done. }
  rewrite (mk_bind _ _ _ _ _ R2). change (Z.of_nat (length (@nil mfile)) + 1) with 1. cbn [app] in P2.
  replace (1 =? ROOTINO) with true by done. unfold massert. unfold mbind at 1, MK_bind at 1.
  assert (Hd : forall n, length (mk_dirent 1 n) = 16%nat) by (intros n; apply length_mk_dirent).
  destruct (iappend_spec s2 _ 0 T_DIR [] (mk_dirent 1 (zs ".")) P2) as (s3 & R3 & P3); [done|rewrite Hd; vm_compute; done|vm_compute; done|].
  rewrite Hd in R3. change (Z.of_nat 16) with dirent_size in R3. rewrite (mk_bind _ _ _ _ _ R3). cbn [app insert list_insert] in P3.
  destruct (iappend_spec s3 _ 0 T_DIR (mk_dirent 1 (zs ".")) (mk_dirent 1 (zs "..")) P3) as (s4 & R4 & P4); [done|rewrite !Hd; vm_compute; done|vm_compute; done|].
  rewrite Hd in R4. change (Z.of_nat 16) with dirent_size in R4. rewrite (mk_bind _ _ _ _ _ R4). cbn [app insert list_insert] in P4.
  destruct (add_files_spec files s4 []) as (s5 & R5 & P5); [|done|].
  { unfold image_files, root_entries. cbn [imap concat fmap list_fmap]. by rewrite app_nil_r. }
  rewrite (mk_bind _ _ _ _ _ R5). exists s5. split; [|done]. unfold fix_root. unfold mbind, MK_bind. by destruct (rinode 1 s5).
Qed.

(** The size main gives the root directory: it ends with a block that is not full. *)
Definition root_size (files : list (list Z * list Z)) : Z := (16 * (2 + Z.of_nat (length files)) / BSIZE + 1) * BSIZE.
Lemma root_size_range files : fits files -> 16 * (2 + Z.of_nat (length files)) < root_size files <= 4096.
Proof. intros [_ Hn _ _]. change NINODES with 200 in Hn. unfold root_size. fsc. lia. Qed.
Lemma size_rep s files D f z : rep_at s files D None None -> files !! 0%nat = Some f -> 0 <= z <= file_max ->
  rep_at s files (fupd D 1 (set_i_size z (D 1))) (Some 0%nat) (Some z).
Proof.
  intros [P1 P2 P3 P4 P5 P6 P7 P8 I HD RR] Hk Hz. split; try done.
  - eapply image_addrs; [|exact I]. intros j Hj. unfold fupd. case_decide; [by subst|done].
  - intros k' f' Hf. destruct (HD k' f' Hf) as (A1 & A2 & [A3|A3]); [done|]. destruct k' as [|k']; cbn zeta.
    + change (Z.of_nat 0 + 1) with 1 in *. rewrite fupd_eq. split_and!; [by apply (file_rep_addrs _ (D 1))| |by left].
      rewrite A2 at 1. done.
    + rewrite fupd_ne by lia. split_and!; [done|exact A2|by right].
  - intros z' [= <-]. exact Hz.
Qed.
Lemma fix_root_spec s files : fs_rep s (image_files files) -> fits files ->
  exists s', fix_root 1 s = MkOk tt s' /\ fs_rep_as (Some (root_size files)) s' (image_files files).
Proof.
  intros (D & R) F. set (c := root_entries files). pose proof (root_size_range files F) as Hrs.
  assert (Hl : Z.of_nat (length c) = 16 * (2 + Z.of_nat (length files))) by (unfold c; rewrite length_root_entries; lia).
  pose proof (size_rep s _ D (T_DIR, c) (root_size files) R eq_refl ltac:(unfold file_max; fsc; lia)) as R1.
  destruct (winode_rep s _ _ 0 (T_DIR, c) _ R1 eq_refl) as (s2 & W & R2). exists s2. split; [|exact R2].
  change (Z.of_nat 0 + 1) with 1 in W. rewrite fupd_eq in W.
  destruct R as [P1 P2 P3 P4 P5 P6 P7 P8 I HD RR]. destruct (HD 0%nat _ eq_refl) as (_ & A2 & [A3|A3]); [done|].
  change (Z.of_nat 0 + 1) with 1 in A2, A3. fold c in A2.
  assert (Hi : 0 <= 1 <= NINODES) by (change NINODES with 200; lia).
  unfold fix_root. rewrite (mk_bind _ _ _ _ _ (rinode_runs s 1 _ P1 Hi (disk_some _ _ _ _ _ I (inode_block_range 1 Hi)))).
  rewrite A3. assert (Esz : i_size (D 1) = Z.of_nat (length c)) by (rewrite A2; done). rewrite Esz.
  rewrite (xint_small (Z.of_nat (length c))), Hl by lia. fold (root_size files).
  unfold u32. rewrite Z.mod_small by lia. rewrite xint_small by lia. exact W.
Qed.
Lemma balloc_bits_spec n : forall i buf, 0 <= i -> i + Z.of_nat n <= 8 * Z.of_nat (length buf) ->
  length (balloc_bits n i buf) = length buf /\
  forall j, 0 <= j -> bit (balloc_bits n i buf) j = ((i <=? j) && (j <? i + Z.of_nat n)) || bit buf j.
Proof.
  induction n as [|n IH]; intros i buf Hi Hl.
  - split; [done|]. intros j Hj. replace ((i <=? j) && (j <? i + Z.of_nat 0)) with false by lia. done.
  - cbn [balloc_bits]. change (<[Z.to_nat (i / 8) := _]> buf) with (set_bit buf i).
    assert (Hls : length (set_bit buf i) = length buf) by (unfold set_bit; by rewrite length_insert).
    destruct (IH (i + 1) (set_bit buf i)) as [H1 H2]; [lia|rewrite Hls; lia|]. split; [congruence|].
    intros j Hj. rewrite H2, bit_set by lia. case_decide as E.
    + subst. rewrite orb_true_r. replace ((i <=? i) && (i <? i + Z.of_nat (S n))) with true by lia. done.
    + f_equal. lia.
Qed.
Lemma bitmap_spec r s files : fs_rep_as r s files ->
  exists s', balloc (mk_freeblock s) s = MkOk tt s' /\ fs_rep_as r s' files /\ mk_freeblock s' = mk_freeblock s /\
    forall b, 0 <= b < BPB -> bit (disk (mk_im s') (0, sb_bmapstart image_sb)) b = (b <? mk_freeblock s).
Proof.
  intros (D & [P1 P2 P3 P4 P5 P6 P7 P8 I HD RR]). pose proof (im_fb _ _ _ _ I) as Hfb.
  destruct (balloc_bits_spec (Z.to_nat (mk_freeblock s)) 0 zero_block) as [B1 B2]; [lia|change (length zero_block) with 1024%nat; fsc; lia|].
  set (bits := balloc_bits _ _ _) in *. change (sb_bmapstart image_sb) with 45.
  destruct (write_meta _ _ _ _ 45 bits I ltac:(fsc; lia) B1) as [I2 F2].
  exists (set_im (insert 45 bits) s). split_and!; [| |done|].
  - unfold balloc, massert. replace (mk_freeblock s <? BSIZE * 8) with true by (fsc; lia). unfold mbind at 1, MK_bind at 1.
    unfold mget. unfold mbind at 1, MK_bind at 1. rewrite P1. by rewrite wsect_runs by (vm_compute; done).
  - assert (Hd : forall i, 0 <= i < NINODES -> dinode_of (<[45 := bits]> (mk_im s)) i = dinode_of (mk_im s) i).
    { intros i Hi. unfold dinode_of. rewrite disk_insert. cbn [snd]. rewrite inode_block by lia. change NINODES with 200 in Hi.
      by rewrite decide_False by lia. }
    exists D. split; cbn [mk_sb mk_freeinode mk_freeblock mk_im set_im]; try done.
    + by rewrite lookup_insert_ne by lia.
    + by rewrite lookup_insert_ne by lia.
    + intros i Hi. rewrite Hd by lia. by apply P7.
    + intros k f Hf. pose proof (lookup_lt_Some _ _ _ Hf). destruct (HD k f Hf) as (A1 & A2 & [A3|A3]); [done|].
      split_and!; [apply F2; [lia|done]|done|right]. rewrite Hd by lia. done.
  - intros b Hb. cbn [mk_im set_im]. rewrite disk_insert. cbn [snd]. rewrite decide_True by done. rewrite B2 by lia.
    assert (bit zero_block b = false) as -> by (unfold bit; rewrite nthZ_zero; apply Z.bits_0). lia.
Qed.

(** ** The kernel's view of the image *)
(** What ilock loads for inode [i] of device 0. *)
Definition inode_at (im : gmap Z (list Z)) (i : Z) : inode :=
  load_dinode (disk im (0, IBLOCK i image_sb)) (dinode_off i) (set_i_inum i inode0).
Definition bitmap_ok (im : gmap Z (list Z)) (fb : Z) : Prop :=
  forall b, 0 <= b < BPB -> bit (disk im (0, sb_bmapstart image_sb)) b = (b <? fb).
Lemma image_bblock b : 0 <= b < FSSIZE -> BBLOCK b image_sb = 45.
Proof. intros H. unfold BBLOCK. change (sb_bmapstart image_sb) with 45. change BPB with 8192. fsc. unfold u32. rewrite Z.mod_small; lia. Qed.
Lemma image_used im fb b : bitmap_ok im fb -> 0 <= b < FSSIZE -> used 0 image_sb (disk im) b = (b <? fb).
Proof.
  intros B Hb. unfold used. rewrite image_bblock by done. change BPB with 8192. fsc. rewrite Z.mod_small by lia.
  apply B. change BPB with 8192. lia.
Qed.
Lemma image_layout im fb n D : image im fb n D -> bitmap_ok im fb -> layout 0 2 image_sb (disk im).
Proof.
  intros I B. pose proof (im_fb _ _ _ _ I). split; change (sb_size image_sb) with FSSIZE.
  - lia.
  - fsc. lia.
  - intros b Hb. rewrite image_bblock by done. change BPB with 8192. change (sb_bmapstart image_sb) with 45. change LOGSIZE with 30.
    split_and!; [fsc; lia|lia|lia|lia|]. apply (disk_size _ _ _ _ _ I). fsc. lia.
  - intros b Hb. rewrite (image_used _ fb) by done. intros Hu. change LOGSIZE with 30. fsc. split_and!; [lia|lia|].
    intros b' Hb'. rewrite image_bblock by (fsc; lia). lia.
Qed.
Lemma image_plain im fb n D a : image im fb n D -> bitmap_ok im fb -> 32 <= a < fb -> a <> 45 -> plain_block 0 2 image_sb (disk im) a.
Proof.
  intros I B Ha Hne. pose proof (im_fb _ _ _ _ I). split; change (sb_size image_sb) with FSSIZE.
  - lia.
  - rewrite (image_used _ fb) by (done || lia). lia.
  - change LOGSIZE with 30. lia.
  - intros b Hb. by rewrite image_bblock.
  - apply (disk_size _ _ _ _ _ I). lia.
Qed.
Lemma image_file r s files D k f : rep_at s files D None r -> bitmap_ok (mk_im s) (mk_freeblock s) -> files !! k = Some f ->
  let ip := inode_at (mk_im s) (Z.of_nat k + 1) in let L := Z.of_nat (length f.2) in
  ((fsize r k f - 1) / BSIZE <= (L - 1) / BSIZE -> whole_file 0 2 image_sb (disk (mk_im s)) ip) /\
  i_type ip = f.1 /\ i_nlink ip = 1 /\ i_size ip = fsize r k f /\
  (forall bn, 0 <= bn < MAXFILE -> baddr 0 (disk (mk_im s)) ip bn <> 0 <-> bn * BSIZE < L) /\
  forall o, 0 <= o < file_max -> fbyte 0 (disk (mk_im s)) ip o = nthZ f.2 o.
Proof.
  intros [P1 P2 P3 P4 P5 P6 P7 P8 I HD RR] B Hk ip L. pose proof (lookup_lt_Some _ _ _ Hk) as Hkl.
  destruct (HD k f Hk) as (F & Ed & [A|A]); [done|]. set (i := Z.of_nat k + 1) in *. set (im := mk_im s) in *.
  assert (Hi : 1 <= i < mk_freeinode s) by lia.
  assert (Eip : ip = set_i_inum i (dinode_of im i)) by done. rewrite A, Ed in Eip.
  assert (Ea : i_addrs ip = i_addrs (D i)) by by rewrite Eip.
  assert (F' : file_rep im ip f.2) by by apply (file_rep_addrs _ (D i)).
  assert (Hsa : forall sl, saddr im ip sl = saddr im (D i) sl) by (intros sl; by apply saddr_addrs).
  assert (Hs : forall sl, 0 <= sl <= MAXFILE -> saddr im ip sl <> 0 -> plain_block 0 2 image_sb (disk im) (saddr im ip sl) /\ 46 <= saddr im ip sl).
  { intros sl Hsl. rewrite Hsa. intros Hne. destruct (im_addr _ _ _ _ I i sl Hi Hsl) as [E|E]; [done|].
    split; [|fsc; lia]. apply (image_plain _ _ _ _ _ I B); fsc; lia. }
  assert (Eib : IBLOCK (i_inum ip) image_sb = i / 16 + 32) by (rewrite Eip; apply inode_block; cbn [i_inum set_i_inum]; lia).
  change NINODES with 200 in P3. split_and!; try by rewrite Eip.
  2:{ intros bn Hbn. rewrite <- saddr_block by done. by apply (fr_map _ _ _ F'). }
  2:{ apply F'. }
  intros Hrnd. assert (Esz : i_size ip = fsize r k f) by by rewrite Eip. pose proof (fr_max _ _ _ F') as Hfm. fold L in Hfm. split.
  - split.
    + by rewrite Eip.
    + rewrite Ea. by apply I.
    + intros Hne. rewrite <- (saddr_ind im) in *. destruct (Hs MAXFILE ltac:(fsc; lia) Hne). split; [done|]. rewrite Eib. lia.
    + intros bn Hbn. rewrite <- saddr_block by done. intros Hne. destruct (Hs bn ltac:(lia) Hne). split_and!; [done|rewrite Eib; lia|].
      rewrite <- (saddr_ind im). rewrite !Hsa in *. intros E.
      destruct (im_inj _ _ _ _ I i i bn MAXFILE Hi Hi) as [_ E2]; try done; try lia; fsc; lia.
    + intros bn bn' Hb Hb'. rewrite <- !saddr_block by done. rewrite !Hsa. intros Hne E.
      destruct (im_inj _ _ _ _ I i i bn bn' Hi Hi) as [_ E2]; try done; lia.
    + rewrite Eib. apply (image_plain _ _ _ _ _ I B); pose proof (im_fb _ _ _ _ I); fsc; lia.
  - rewrite Esz. unfold fsize in *. destruct r as [z|]; [destruct k; [by apply RR|lia]|lia].
  - rewrite Esz. intros o Ho.
    assert (Hom : 0 <= o < file_max) by (unfold fsize in *; destruct r as [z|]; [destruct k; [pose proof (RR z eq_refl); lia|lia]|lia]).
    rewrite <- saddr_block by by apply block_index. apply (fr_map _ _ _ F'); [by apply block_index|]. fold L. fsc. lia.
Qed.

(** ** The root directory *)
Lemma mk_dirent_entry inum name : 0 < inum < 2 ^ 16 -> entry_for name inum (mk_dirent inum name).
Proof.
  intros H. unfold mk_dirent, dirent_bytes. rewrite xshort_small by lia.
  exact (proj2 (new_entry name inum (replicate 16 0) eq_refl H)).
Qed.
Lemma slice_entries (es : list (list Z)) (r : list Z) k e : Forall (fun e => length e = 16%nat) es -> es !! k = Some e ->
  slice (concat es ++ r) (16 * k) 16 = e.
Proof.
  revert k. induction es as [|x es IH]; intros [|k] H Hk; try done; apply list.Forall_cons in H as [Hx H]; cbn [concat]; rewrite <- app_assoc.
  - injection Hk as ->. change (16 * 0)%nat with 0%nat. rewrite <- Hx. apply slice_app_here.
  - replace (16 * S k)%nat with (length x + 16 * k)%nat by lia. rewrite slice_app_r. by apply IH.
Qed.
(** The entries of the root directory. *)
Definition root_list (files : list (list Z * list Z)) : list (list Z) :=
  mk_dirent 1 (zs ".") :: mk_dirent 1 (zs "..") :: imap (fun k f => mk_dirent (Z.of_nat k + 2) (image_name f.1)) files.
Lemma root_entries_concat files : root_entries files = concat (root_list files).
Proof. done. Qed.
Lemma root_list_file files k f : files !! k = Some f -> root_list files !! (2 + k)%nat = Some (mk_dirent (Z.of_nat k + 2) (image_name f.1)).
Proof.
  intros H. trans (imap (fun k f => mk_dirent (Z.of_nat k + 2) (image_name f.1)) files !! k); [done|]. by rewrite list_lookup_imap, H.
Qed.
Lemma length_root_list files : length (root_list files) = (2 + length files)%nat.
Proof. cbn [root_list length]. by rewrite length_imap. Qed.
Lemma fbytes_content dev v ip c off n : (forall o, 0 <= o < file_max -> fbyte dev v ip o = nthZ c o) -> (off + n <= length c)%nat ->
  Z.of_nat (length c) <= file_max -> fbytes dev v ip (Z.of_nat off) n = slice c off n.
Proof.
  intros H Hn Hm. apply list_eq. intros k. unfold slice. destruct (decide (k < n)%nat) as [Hk|Hk].
  - rewrite lookup_fbytes by done. rewrite H by lia. rewrite lookup_take_lt, lookup_drop by done.
    destruct (lookup_lt_is_Some_2 c (off + k)) as [x Hx]; [lia|]. rewrite Hx. f_equal.
    rewrite <- (nthZ_lookup _ _ _ Hx). f_equal. lia.
  - rewrite !lookup_ge_None_2; [done|rewrite length_take; lia|rewrite length_fbytes; lia].
Qed.
Lemma root_slice files k e : root_list files !! k = Some e ->
  slice (root_entries files) (16 * k) 16 = e.
Proof.
  intros H. rewrite root_entries_concat, <- (app_nil_r (concat _)). apply slice_entries; [|done].
  repeat apply Forall_cons_2; try apply length_mk_dirent. apply Forall_lookup_2. intros j x.
  rewrite list_lookup_imap. intros (f & _ & ->)%fmap_Some. apply length_mk_dirent.
Qed.

Lemma main_runs files s : fits files ->
  exists s' D, main (host_file <$> files) s = MkOk tt s' /\ rep_at s' (image_files files) D None (Some (root_size files)) /\ bitmap_ok (mk_im s') (mk_freeblock s').
Proof.
  intros F. destruct (main_files files s F) as (s1 & R1 & P1). destruct (fix_root_spec s1 files P1 F) as (s2 & R2 & P2).
  destruct (bitmap_spec _ s2 _ P2) as (s3 & R3 & (D & P3) & E & B). exists s3, D. split_and!; [|done|].
  - rewrite R1, (mk_bind _ _ _ _ _ R2). unfold mget. unfold mbind, MK_bind. done.
  - rewrite E. exact B.
Qed.

(** C15. The disk that mkfs writes is one the kernel can boot from: when the files fit
    (no slash in their names after the prefix "user/", no more than 198 of them,
    none longer than the largest file, and sectors for all their blocks),
    mkfs ends normally, the kernel reads back the superblock that describes
    the layout, recovery finds an empty log, the bitmap marks exactly the
    sectors below the first one left, so that the kernel's allocator never
    hands out a metadata sector, the inodes past the last file are free, and
    no two blocks of two files are the same sector. *)
Theorem mkfs_lays_out_disk files s : fits files ->
  exists s', main (host_file <$> files) s = MkOk tt s' /\
    let v := disk (mk_im s') in
    superblock_of (v (0, 1)) = image_sb /\ head_is (v (0, sb_logstart image_sb)) [] /\
    layout 0 (sb_logstart image_sb) image_sb v /\
    (forall b, 0 <= b < FSSIZE -> used 0 image_sb v b = (b <? nmeta + total (image_files files))) /\
    (forall i, Z.of_nat (length files) + 2 <= i < NINODES -> i_type (inode_at (mk_im s') i) = 0) /\
    forall i j bn bn', 1 <= i < Z.of_nat (length files) + 2 -> 1 <= j < Z.of_nat (length files) + 2 ->
      0 <= bn < MAXFILE -> 0 <= bn' < MAXFILE -> baddr 0 v (inode_at (mk_im s') i) bn <> 0 ->
      baddr 0 v (inode_at (mk_im s') i) bn = baddr 0 v (inode_at (mk_im s') j) bn' -> i = j /\ bn = bn'.
Proof.
  intros F. destruct (main_runs files s F) as (s' & D & R & P & B). exists s'. split; [exact R|clear R].
  assert (Hlen : length (image_files files) = S (length files)) by (cbn [image_files length]; by rewrite length_fmap).
  destruct P as [P1 P2 P3 P4 P5 P6 P7 P8 I HD RR]. rewrite Hlen in P2, P3. change (sb_logstart image_sb) with 2. split_and!.
  - unfold disk. cbn [snd]. rewrite P5. vm_compute. done.
  - unfold disk. cbn [snd]. rewrite P6. split; [vm_compute; done|intros k b Hk; done].
  - by eapply image_layout.
  - intros b Hb. rewrite <- P4. by apply image_used.
  - intros i Hi. apply P7. lia.
  - assert (Ha : forall i sl, 1 <= i < Z.of_nat (length files) + 2 -> 0 <= sl < MAXFILE ->
      baddr 0 (disk (mk_im s')) (inode_at (mk_im s') i) sl = saddr (mk_im s') (D i) sl).
    { intros i sl Hi Hsl. destruct (lookup_lt_is_Some_2 (image_files files) (Z.to_nat (i - 1))) as [f Hf]; [lia|].
      destruct (HD _ _ Hf) as (_ & _ & [A|A]); [done|]. replace (Z.of_nat (Z.to_nat (i - 1)) + 1) with i in A by lia.
      rewrite <- saddr_block by done. apply saddr_addrs. by rewrite <- A. }
    intros i j bn bn' Hi Hj Hb Hb'. rewrite !Ha by done. apply (im_inj _ _ _ _ I); lia.
Qed.

(** What the image holds, entry for entry and byte for byte. *)
Lemma fbytes_zeros dev v ip c off n : (forall o, 0 <= o < file_max -> fbyte dev v ip o = nthZ c o) -> Z.of_nat (length c) <= off ->
  off + Z.of_nat n <= file_max -> fbytes dev v ip off n = replicate n 0.
Proof.
  intros H Ho Hm. apply list_eq. intros k. destruct (decide (k < n)%nat) as [Hk|Hk].
  - rewrite lookup_fbytes, H, nthZ_over, lookup_replicate_2 by lia. done.
  - rewrite !lookup_ge_None_2; [done|rewrite length_replicate; lia|rewrite length_fbytes; lia].
Qed.
(** The number of entries the root directory has by its size. *)
Definition root_nent (files : list (list Z * list Z)) : nat := Z.to_nat (64 * ((2 + Z.of_nat (length files)) / 64 + 1)).
Lemma root_nent_size files : root_size files = 16 * Z.of_nat (root_nent files) /\ (2 + length files < root_nent files)%nat.
Proof. unfold root_size, root_nent. fsc. lia. Qed.
Lemma main_contents files s : fits files ->
  exists s', main (host_file <$> files) s = MkOk tt s' /\
    let v := disk (mk_im s') in let root := inode_at (mk_im s') ROOTINO in let nent := root_nent files in
    (i_type root = T_DIR /\ i_size root = 16 * Z.of_nat nent /\
      (forall j e, root_list files !! j = Some e -> dent 0 v root j = e) /\
      (forall k, (2 + length files <= k < nent)%nat -> de_inum (dent 0 v root k) = 0) /\
      ((2 + Z.of_nat (length files)) mod 64 <> 0 -> dir_ok 0 2 image_sb v root nent) /\
      ((2 + Z.of_nat (length files)) mod 64 = 0 -> baddr 0 v root (i_size root / BSIZE - 1) = 0)) /\
    forall k f, files !! k = Some f -> let ip := inode_at (mk_im s') (Z.of_nat k + 2) in
      whole_file 0 2 image_sb v ip /\ i_type ip = T_FILE /\ i_nlink ip = 1 /\
      i_size ip = Z.of_nat (length f.2) /\ fbytes 0 v ip 0 (length f.2) = f.2.
Proof.
  intros F. destruct (main_runs files s F) as (s' & D & R & P & B). exists s'. split; [exact R|clear R]. cbn zeta.
  change ROOTINO with (Z.of_nat 0 + 1). pose proof (ft_number _ F) as Hn. change NINODES with 200 in Hn. split.
  - set (c := root_entries files). destruct (root_nent_size files) as [Ez Hne]. pose proof (root_size_range files F) as Hrs.
    destruct (image_file _ s' _ D 0 (T_DIR, c) P B eq_refl) as (W & Ht & _ & Hsz & Hm & Hb). cbn [fst snd fsize] in *.
    assert (Hl : length c = (16 * (2 + length files))%nat) by apply length_root_entries.
    split; [exact Ht|]. split; [by rewrite Hsz|]. split_and!.
    + intros j e He. pose proof (lookup_lt_Some _ _ _ He) as Hj. rewrite length_root_list in Hj. rewrite <- (root_slice files j e He).
      unfold dent. replace (16 * Z.of_nat j) with (Z.of_nat (16 * j)) by lia. apply fbytes_content; [done|fold c; lia|unfold file_max; fsc; fold c; lia].
    + intros k Hk. unfold dent. rewrite (fbytes_zeros 0 _ _ c); [done|done|lia|unfold file_max; fsc; lia].
    + intros Hmod. split; [|exact Ht|by rewrite Hsz]. apply W. rewrite Hl. unfold root_size. fsc. lia.
    + intros Hmod. rewrite Hsz. destruct (decide (baddr 0 (disk (mk_im s')) (inode_at (mk_im s') (Z.of_nat 0 + 1)) (root_size files / BSIZE - 1) = 0)) as [|Hx]; [done|exfalso].
      apply Hm in Hx; [rewrite Hl in Hx; unfold root_size in *; fsc; lia|unfold root_size in *; fsc; lia].
  - intros k f Hf. destruct (image_file _ s' _ D (S k) (T_FILE, f.2) P B) as (W & Ht & Hl & Hsz & _ & Hb).
    { trans (((fun f : list Z * list Z => (T_FILE, f.2)) <$> files) !! k); [done|]. by rewrite list_lookup_fmap, Hf. }
    replace (Z.of_nat k + 2) with (Z.of_nat (S k) + 1) by lia. cbn [fst snd fsize] in W, Ht, Hl, Hsz, Hb. split; [by apply W|]. do 3 (split; [assumption|]).
    change 0 with (Z.of_nat 0). rewrite (fbytes_content 0 (disk (mk_im s')) _ f.2); [|done|lia|apply (ft_size _ F); by eapply list_elem_of_lookup_2].
    unfold slice. by rewrite drop_0, firstn_all.
Qed.

(** C14. mkfs stores the files it is given: when they fit (no slash in their names after
    the prefix "user/", no more than 198 of them, none longer than the largest
    file, and sectors for all their blocks), the kernel finds in the image
    a root directory with the entries "." and "..", one entry per file that
    carries its name without the prefix "user/" and a leading underscore, and
    empty entries up to its size, which is that of whole blocks; the inode of
    each entry is a file with all its blocks, linked once, that holds exactly
    the bytes of the host's file.  The root directory has all its blocks too,
    unless the number of its entries is a multiple of 64 (62 files, say): then
    its size counts a last block that has no sector. *)
Theorem mkfs_stores_files files s : fits files ->
  exists s', main (host_file <$> files) s = MkOk tt s' /\
    let v := disk (mk_im s') in let root := inode_at (mk_im s') ROOTINO in let nent := root_nent files in
    (i_type root = T_DIR /\ i_size root = 16 * Z.of_nat nent /\
      entry_for (zs ".") ROOTINO (dent 0 v root 0) /\ entry_for (zs "..") ROOTINO (dent 0 v root 1) /\
      (forall k f, files !! k = Some f -> entry_for (image_name f.1) (Z.of_nat k + 2) (dent 0 v root (2 + k))) /\
      (forall k, (2 + length files <= k < nent)%nat -> de_inum (dent 0 v root k) = 0) /\
      ((2 + Z.of_nat (length files)) mod 64 <> 0 -> dir_ok 0 (sb_logstart image_sb) image_sb v root nent) /\
      ((2 + Z.of_nat (length files)) mod 64 = 0 -> baddr 0 v root (i_size root / BSIZE - 1) = 0)) /\
    forall k f, files !! k = Some f -> let ip := inode_at (mk_im s') (Z.of_nat k + 2) in
      whole_file 0 (sb_logstart image_sb) image_sb v ip /\ i_type ip = T_FILE /\ i_nlink ip = 1 /\
      i_size ip = Z.of_nat (length f.2) /\ fbytes 0 v ip 0 (length f.2) = f.2.
Proof.
  intros F. destruct (main_contents files s F) as (s' & R & (Ht & Hs & He & Hz & Hd & Hu) & Hf). exists s'. split; [exact R|]. cbn zeta in *.
  pose proof (ft_number _ F) as Hnum. change NINODES with 200 in Hnum.
  change (sb_logstart image_sb) with 2. split; [|exact Hf]. split; [exact Ht|]. split; [exact Hs|]. split_and!; [..|exact Hz|exact Hd|exact Hu].
  - rewrite (He 0%nat _ eq_refl). apply mk_dirent_entry. unfold ROOTINO. lia.
  - rewrite (He 1%nat _ eq_refl). apply mk_dirent_entry. unfold ROOTINO. lia.
  - intros k f Hk. pose proof (lookup_lt_Some _ _ _ Hk). rewrite (He _ _ (root_list_file _ _ _ Hk)). apply mk_dirent_entry. lia.
Qed.

(** Two files, one of them with an indirect block. *)
Definition wfiles : list (list Z * list Z) := [(zs "user/_cat", [1; 2; 3]); (zs "README", replicate (20 * 1000) 7)].
Lemma wfiles_fit : fits wfiles.
Proof.
  split.
  - intros f. unfold wfiles. rewrite !elem_of_cons. intros [->|[->|[]%not_elem_of_nil]]; vm_compute; reflexivity.
  - vm_compute. intros H. discriminate H.
  - intros f. unfold wfiles. rewrite !elem_of_cons.
    intros [->|[->|[]%not_elem_of_nil]]; cbn [snd]; rewrite ?length_replicate; vm_compute; intros H; discriminate H.
  - vm_compute. intros H. discriminate H.
Qed.
Lemma mkfs_lays_out_disk_witness : exists s', main (host_file <$> wfiles) (mk_mkst ∅ 0 0 image_sb) = MkOk tt s' /\
  used 0 image_sb (disk (mk_im s')) 68 = true /\ used 0 image_sb (disk (mk_im s')) 69 = false.
Proof.
  destruct (mkfs_lays_out_disk wfiles (mk_mkst ∅ 0 0 image_sb) wfiles_fit) as (s' & R & _ & _ & _ & U & _).
  exists s'. split; [exact R|]. split; rewrite U by (vm_compute; split; [intros H; discriminate H|reflexivity]); vm_compute; reflexivity.
Defined.
Lemma mkfs_stores_files_witness : exists s', main (host_file <$> wfiles) (mk_mkst ∅ 0 0 image_sb) = MkOk tt s' /\
  entry_for (zs "cat") 2 (dent 0 (disk (mk_im s')) (inode_at (mk_im s') 1) 2) /\
  fbytes 0 (disk (mk_im s')) (inode_at (mk_im s') 2) 0 3 = [1; 2; 3].
Proof.
  destruct (mkfs_stores_files wfiles (mk_mkst ∅ 0 0 image_sb) wfiles_fit) as (s' & R & (_ & _ & _ & _ & E & _) & H).
  exists s'. split; [exact R|]. split; [exact (E 0%nat _ eq_refl)|]. destruct (H 0%nat _ eq_refl) as (_ & _ & _ & _ & Hb). exact Hb.
Defined.

(** ** What main does not check *)
(** [n] files without content: the image, the size of the root directory and the sector
    of its last block. *)
Definition result_image (r : mkres unit) : gmap Z (list Z) := match r with MkOk _ s => mk_im s | _ => ∅ end.
Definition image_of_empty (n : nat) : gmap Z (list Z) :=
  result_image (main (replicate n (zs "a", Some [])) (mk_mkst ∅ 0 0 image_sb)).
Definition root_end (im : gmap Z (list Z)) : Z * Z :=
  let root := inode_at im ROOTINO in (i_size root, baddr 0 (disk im) root (i_size root / BSIZE - 1)).
(** Two limits of mkfs: with 62 files the entries fill the root directory's block,
    and main still rounds its size up to the next block, which has no sector
    (with 61 it has one); and ialloc does not compare with NINODES, so that
    with 207 files the last inode lies in the sector of the bitmap, which
    balloc overwrites (the inode before it is a file). *)
Lemma mkfs_limits :
  root_end (image_of_empty 61) = (1024, nmeta) /\ root_end (image_of_empty 62) = (2048, 0) /\
  i_type (inode_at (image_of_empty 207) 207) = T_FILE /\ IBLOCK 208 image_sb = sb_bmapstart image_sb /\
  i_type (inode_at (image_of_empty 207) 208) = -1.
Proof. split_and!; vm_compute; reflexivity. Qed.
