(* ===== verification/MkfsBoot.v ===== *)
(** * The kernel on the image that mkfs has built

    A kernel whose disk holds the image finds the files of the host by their names,
    with dirlookup in the root directory, and reads their bytes with readi. *)
From S2P Require Import Prelude Mem Riscv State Spinlock Kalloc Vm Proc Sleeplock Bio BioProofs BioSpec Log LogProofs LogCrash Txn Fs BallocProofs InodeProofs BmapProofs FileIO FileProofs DirProofs Mkfs MkfsProofs.

(** ** Files look at one device only *)
Section Device.
Context (dev start : Z) (sb : superblock) (v v' : Z * Z -> list Z).
Hypothesis (E : forall b, v' (dev, b) = v (dev, b)).
Lemma baddr_dev ip ip' bn : i_addrs ip' = i_addrs ip -> baddr dev v' ip' bn = baddr dev v ip bn.
Proof. intros Ea. unfold baddr, ind_of. by rewrite Ea, E. Qed.
Lemma fbyte_dev ip ip' o : i_addrs ip' = i_addrs ip -> fbyte dev v' ip' o = fbyte dev v ip o.
Proof. intros Ea. unfold fbyte, fblock. by rewrite (baddr_dev ip ip' _ Ea), E. Qed.
Lemma fbytes_dev ip ip' off n : i_addrs ip' = i_addrs ip -> fbytes dev v' ip' off n = fbytes dev v ip off n.
Proof. intros Ea. unfold fbytes. apply list_fmap_ext. intros j x _. by apply fbyte_dev. Qed.
Lemma plain_dev a : plain_block dev start sb v a -> plain_block dev start sb v' a.
Proof. intros [P1 P2 P3 P4 P5]. split; [done| |done|done|by rewrite E]. unfold used. by rewrite E. Qed.
(** The same addresses, size and place: the same file. *)
Lemma whole_file_dev ip ip' : i_dev ip' = i_dev ip -> i_inum ip' = i_inum ip -> i_addrs ip' = i_addrs ip -> i_size ip' = i_size ip ->
  whole_file dev start sb v ip -> whole_file dev start sb v' ip'.
Proof.
  intros E1 E2 E3 E4 [[F1 F2 F3 F4 F5 F6] S B]. assert (Ei : ind_of ip' = ind_of ip) by (unfold ind_of; by rewrite E3).
  assert (Hb : forall bn, baddr dev v' ip' bn = baddr dev v ip bn) by (intros bn; by apply baddr_dev).
  split; [split|by rewrite E4|].
  - by rewrite E1.
  - by rewrite E3.
  - rewrite Ei, E2. intros H. destruct (F3 H). split; [by apply plain_dev|done].
  - intros bn Hbn. rewrite Hb, Ei, E2. intros H. destruct (F4 bn Hbn H) as (? & ? & ?). split_and!; [by apply plain_dev|done|done].
  - intros bn bn' H1 H2. rewrite !Hb. by apply F5.
  - rewrite E2. by apply plain_dev.
  - intros o. rewrite E4, Hb. apply B.
Qed.
End Device.

(** The disk of the kernel is the image, and the superblock has been read. *)
Definition boots_from (t : kstate) (im : gmap Z (list Z)) : Prop :=
  k_sb t = image_sb /\ forall b, block_of t (0, b) = disk im (0, b).
(** [ip] is what ilock makes of inode [inum] of the image. *)
Record loaded (im : gmap Z (list Z)) (inum : Z) (ip : inode) : Prop := {
  lo_dev : i_dev ip = 0;
  lo_inum : i_inum ip = inum;
  lo_content : ip = with_content (inode_at im inum) ip;
}.
Section Boot.
Context `{DL : DiskLaws} (i : nat) (pid out : Z).

(** C13. The kernel finds and reads what mkfs stored: on a kernel whose disk is the image,
    with the root directory loaded, dirlookup of the name of a file that no
    earlier entry has returns the cache entry of the file's inode, provided the
    inode cache has the inode or an unused entry (without one iget panics), and
    provided that the number of files and two is not a multiple of 64 (at 62
    files the root directory's last block has no sector); and once the file's
    inode is loaded, readi of its whole length returns exactly the bytes of the
    host's file, whatever the number of files. *)
Theorem kernel_reads_image files s0 k f :
  fits files -> files !! k = Some f ->
  (forall j e, (j < 2 + k)%nat -> root_list files !! j = Some e -> ~ matches (image_name f.1) e) ->
  exists s', main (host_file <$> files) s0 = MkOk tt s' /\
    forall t l, boots_from t (mk_im s') -> in_txn t i pid l ∅ ∅ 0 2 out [] ->
      (forall d dp, (2 + Z.of_nat (length files)) mod 64 <> 0 -> k_inodes t !! d = Some dp -> loaded (mk_im s') ROOTINO dp -> ready t Licache -> icache_ok (k_inodes t) ->
         (exists j ip, k_inodes t !! j = Some ip /\ (caches 0 (Z.of_nat k + 2) ip \/ i_ref ip = 0)) ->
         exists c t1 new, quiet (dirlookup d (image_name f.1)) t (Some (c, 16 * Z.of_nat (2 + k))) t1 /\
           k_inodes t1 = <[c := new]> (k_inodes t) /\ caches 0 (Z.of_nat k + 2) new) /\
      (forall ii ip, k_inodes t !! ii = Some ip -> loaded (mk_im s') (Z.of_nat k + 2) ip ->
         exists t1, quiet (readi ii ToLocal 0 (i_size ip)) t (Z.of_nat (length f.2), f.2) t1).
Proof.
  intros F Hk Hno. destruct (main_contents files s0 F) as (s' & R & (_ & _ & He & _ & Hdir & _) & Hf). destruct (root_nent_size files) as [_ Hn].
  exists s'. split; [exact R|clear R]. cbn zeta in *. intros t l [Bs Bd] It.
  assert (E : forall b, shown t ∅ (0, b) = disk (mk_im s') (0, b)) by (intros b; unfold shown; rewrite lookup_empty; apply Bd).
  pose proof (lookup_lt_Some _ _ _ Hk) as Hkl. split.
  - intros d dp Hm Hdp [L1 L2 L3] Hr OK Hslot. pose proof (Hdir Hm) as Hd. set (nent := root_nent files) in *.
    assert (Ed : forall j, dent 0 (shown t ∅) dp j = dent 0 (disk (mk_im s')) (inode_at (mk_im s') ROOTINO) j).
    { intros j'. unfold dent. apply (fbytes_dev 0 _ _ E). by rewrite L3. }
    assert (C : dir_ctx i pid 0 2 t ∅ out [] d dp nent).
    { split; [by exists l|cbn; lia|done|]. destruct Hd as [W T Sz]. rewrite Bs. split; [|by rewrite L3|by rewrite L3].
      apply (whole_file_dev 0 2 image_sb (disk (mk_im s')) _ E (inode_at (mk_im s') ROOTINO)); [by rewrite L1|by rewrite L2|by rewrite L3|by rewrite L3|done]. }
    pose proof (He _ _ (root_list_file _ _ _ Hk)) as Hek.
    assert (Hent : entry_for (image_name f.1) (Z.of_nat k + 2) (dent 0 (shown t ∅) dp (2 + k))).
    { rewrite Ed, Hek. apply mk_dirent_entry. pose proof (ft_number _ F) as Hnum. change NINODES with 200 in Hnum. lia. }
    destruct (dirlookup_some i pid 0 2 t (image_name f.1) ∅ out [] d dp nent (2 + k) C) as (t1 & c & old & new & Q & _ & _ & _ & Hi & _);
      [lia| |apply Hent|done|done|by rewrite (proj1 Hent)|].
    { intros j' Hj'. rewrite Ed. destruct (lookup_lt_is_Some_2 (root_list files) j') as [e Hje]; [rewrite length_root_list; lia|].
      rewrite (He _ _ Hje). by apply (Hno j'). }
    exists c, (set_k_inodes (<[c := new]> (k_inodes t)) t1), new. split; [exact Q|]. split; [done|].
    apply iget_entry_caches in Hi. by rewrite (proj1 Hent) in Hi.
  - intros ii ip Hip [L1 L2 L3]. destruct (Hf k f Hk) as (W & _ & _ & Hsz & Hb).
    assert (Esz : i_size ip = Z.of_nat (length f.2)) by by rewrite L3.
    pose proof (ft_size _ F f ltac:(by eapply list_elem_of_lookup_2)) as Hmax. unfold file_max in Hmax. fsc.
    destruct (readi_spec i pid 0 2 local_sink t l ∅ out [] ii ip ToLocal 0 (i_size ip) It) as (t1 & l1 & d1 & Q & _); [cbn; lia|done| |lia|lia|done|].
    { rewrite Bs. apply (whole_file_dev 0 2 image_sb (disk (mk_im s')) _ E (inode_at (mk_im s') (Z.of_nat k + 2)));
        [by rewrite L1|by rewrite L2|by rewrite L3|by rewrite L3|done]. }
    exists t1. replace (Z.min (i_size ip) (i_size ip - 0)) with (Z.of_nat (length f.2)) in Q by lia. rewrite Nat2Z.id in Q.
    rewrite (fbytes_dev 0 _ _ E (inode_at (mk_im s') (Z.of_nat k + 2))), Hb in Q by by rewrite L3. exact Q.
Qed.
End Boot.

(** ** A kernel with the image of two files on its disk *)
Definition wroot_ip (im : gmap Z (list Z)) : inode := with_content (inode_at im 1) (mk_inode 0 1 1 sleeplock0 1 0 0 0 0 0 []).
Definition wfile_ip (im : gmap Z (list Z)) : inode := with_content (inode_at im 2) (mk_inode 0 2 1 sleeplock0 1 0 0 0 0 0 []).
Definition wboot (im : gmap Z (list Z)) : kstate :=
  set_k_inodes [wroot_ip im; wfile_ip im; inode0]
    (set_k_logs [set_lg_outstanding 1 (wlog 0); log0] (set_k_sb image_sb (set_k_disk (kmap (pair 0) im) wcache))).
Lemma wboot_disk im : boots_from (wboot im) im.
Proof. split; [done|]. intros b. unfold block_of, disk. cbn [k_disk wboot set_k_inodes set_k_logs set_k_sb set_k_disk snd]. by rewrite lookup_kmap by apply _. Qed.
Lemma wboot_txn im : in_txn (wboot im) 0 0 (rev (seq 0 NBUF)) ∅ ∅ 0 2 1 [].
Proof.
  apply in_txn_inodes. split; [|exact (geom_nil (DD := ideal) 2 [100] (co_geom _ _ _ _ _ _ _ _ _ wcommit_ready))| |intros k c d; by rewrite lookup_empty|set_solver].
  - apply ac_logs. destruct wcache_ok as [[C1 C2 [C3 C4] C5] A1 A2 A3 A4 A5 A6].
    split; [split; [exact C1|exact C2|split; [exact C3|exact C4]|exact C5]|exact A1|exact A2|exact A3| |exact A5|exact A6].
    intros j x Hj Hx. apply wcache_buf in Hx as [-> _]. split; [set_solver|]. intros _. split_and!; [done|done|].
    rewrite lookup_empty. by intros [].
  - exists (set_lg_outstanding 1 (wlog 0)). split; [done|]. split; [by split|done|done|done].
Qed.
Lemma wboot_ready im : ready (wboot im) Licache.
Proof. split; [|done]. exists (mk_cpu (Some 0%nat) 0 0), 0. split_and!; [done..|]. by intros []. Qed.
Lemma wboot_icache im : icache_ok (k_inodes (wboot im)).
Proof.
  split.
  - intros [|[|[|j]]] ip H; cbn in H; simplify_eq; cbn; lia.
  - intros [|[|[|j]]] [|[|[|k]]] a b dev inum Ha Hb (Ca & _ & Ia) (Cb & _ & Ib); cbn in Ha, Hb; simplify_eq; try done; cbn in *; lia.
Qed.
Lemma kernel_reads_image_witness : exists s' c t1 t2,
  main (host_file <$> wfiles) (mk_mkst ∅ 0 0 image_sb) = MkOk tt s' /\
  quiet (dirlookup (DD := ideal) 0 (zs "cat")) (wboot (mk_im s')) (Some (c, 32)) t1 /\
  quiet (readi (DD := ideal) 1 ToLocal 0 3) (wboot (mk_im s')) (3, [1; 2; 3]) t2.
Proof.
  destruct (kernel_reads_image (DD := ideal) 0 0 1 wfiles (mk_mkst ∅ 0 0 image_sb) 0 (zs "user/_cat", [1; 2; 3]) wfiles_fit)
    as (s' & R & H).
  - reflexivity.
  - intros [|[|j]] e Hj He; [..|lia]; injection He as <-; intros [_ H]; vm_compute in H; discriminate H.
  - destruct (H _ _ (wboot_disk (mk_im s')) (wboot_txn (mk_im s'))) as [H1 H2].
    destruct (H1 0%nat (wroot_ip (mk_im s')) ltac:(vm_compute; discriminate) eq_refl) as (c & t1 & new & Q1 & _).
    + split; reflexivity.
    + apply wboot_ready.
    + apply wboot_icache.
    + exists 2%nat, inode0. split; [reflexivity|right; reflexivity].
    + destruct (H2 1%nat (wfile_ip (mk_im s')) eq_refl) as (t2 & Q2).
      * split; reflexivity.
      * exists s', c, t1, t2. split; [exact R|]. split; [exact Q1|].
        destruct (main_contents wfiles (mk_mkst ∅ 0 0 image_sb) wfiles_fit) as (s2 & R2 & _ & Hf).
        assert (s2 = s') as -> by congruence. destruct (Hf 0%nat _ eq_refl) as (_ & _ & _ & Hsz & _).
        change (i_size (wfile_ip (mk_im s'))) with (i_size (inode_at (mk_im s') (Z.of_nat 0 + 2))) in Q2. rewrite Hsz in Q2. exact Q2.
Defined.
