(* ===== verification/ConsoleProofs.v ===== *)
(** * Numbers printed on the console *)
From S2P Require Import Prelude Mem Riscv State Spinlock Kalloc Vm Proc Console.

#[local] Arguments nthZ : simpl never.
#[local] Arguments digits : simpl never.

(** What a string of digits, most significant first, denotes. *)
Definition digit_val (c : Z) : Z := if c <=? 57 then c - 48 else c - 87.
Definition num_val (base : Z) (l : list Z) : Z := foldl (fun a c => a * base + digit_val c) 0 l.

Lemma digit_val_digits k : 0 <= k < 16 -> digit_val (nthZ digits k) = k.
Proof.
  intros Hk. assert (H : forallb (fun n => digit_val (nthZ digits (Z.of_nat n)) =? Z.of_nat n) (seq 0 16) = true) by reflexivity.
  rewrite forallb_forall in H. specialize (H (Z.to_nat k)). rewrite in_seq, Z2Nat.id in H by lia.
  apply Z.eqb_eq, H. lia.
Qed.
Lemma num_val_snoc base l c : num_val base (l ++ [c]) = num_val base l * base + digit_val c.
Proof. unfold num_val. by rewrite foldl_app. Qed.

(** The loop of printint: enough digits for the value, and no more. *)
Lemma digits_of_spec base : 2 <= base <= 16 -> forall n fuel x,
  0 <= x < base ^ Z.of_nat n -> (1 <= n)%nat -> (n <= fuel)%nat ->
  num_val base (rev (digits_of fuel x base)) = x /\ (1 <= length (digits_of fuel x base) <= n)%nat /\
  (x <> 0 -> list.last (digits_of fuel x base) <> Some 48).
Proof.
  intros Hb n. induction n as [|n IH]; intros [|fuel] x Hx Hn Hf; try lia. cbn [digits_of rev].
  assert (Hm : 0 <= x mod base < base) by (apply Z.mod_pos_bound; lia).
  assert (Hd : 0 <= x / base) by (apply Z.div_pos; lia).
  pose proof (Z.div_mod x base ltac:(lia)) as Hdm.
  rewrite num_val_snoc, digit_val_digits by lia. bdestr (x / base =? 0).
  - cbn. split_and!; [unfold num_val; cbn; lia|lia|lia|]. intros Hx0 H. injection H as H.
    pose proof (digit_val_digits (x mod base) ltac:(lia)) as E2. rewrite H in E2. change (digit_val 48) with 0 in E2. lia.
  - destruct n as [|n]; [change (base ^ Z.of_nat 1) with (base ^ 1) in Hx; rewrite Z.pow_1_r in Hx;
      rewrite Z.div_small in E by lia; lia|].
    destruct (IH fuel (x / base)) as (I1 & I2 & I3); [|lia|lia|].
    { split; [done|]. apply Z.div_lt_upper_bound; [lia|].
      replace (Z.of_nat (S (S n))) with (1 + Z.of_nat (S n)) in Hx by lia.
      rewrite Z.pow_add_r, Z.pow_1_r in Hx by lia. lia. }
    split_and!; [rewrite I1; lia|cbn; lia|cbn; lia|]. intros _.
    destruct (digits_of fuel (x / base) base) as [|a t]; [cbn in I2; lia|]. by apply I3.
Qed.

(** printint prints the number it is given: for base 10 or 16 and any int,
    INT_MIN included, the characters are a '-' exactly when the number is
    negative and signs are wanted, and then digits that denote its magnitude (or
    its value as an unsigned int), with no leading zero unless the number is 0;
    there are never more than 11 of them, so that the 16-byte buffer is never
    overrun. *)
Lemma printint_denotes xx base sign :
  - 2 ^ 31 <= xx < 2 ^ 31 -> base = 10 \/ base = 16 ->
  exists ds, int_chars xx base sign = (if sign && (xx <? 0) then [45] else []) ++ ds /\
    num_val base ds = (if sign && (xx <? 0) then - xx else u32 xx) /\
    (length (int_chars xx base sign) <= 11)%nat /\ (1 <= length ds)%nat /\
    (xx <> 0 -> hd 0 ds <> 48).
Proof.
  intros Hx Hb. unfold int_chars. cbv zeta. set (neg := sign && (xx <? 0)).
  set (x := if neg then u32 (- xx) else u32 xx).
  assert (Hxr : 0 <= x < 2 ^ 32) by (unfold x; destruct neg; sz).
  assert (Hx0 : xx <> 0 -> x <> 0) by (unfold x; destruct neg; sz).
  assert (Hval : x = if neg then - xx else u32 xx).
  { unfold x. destruct neg eqn:En; [|done]. unfold neg in En. apply andb_true_iff in En as [_ En]. sz. }
  set (n := if base =? 10 then 10%nat else 8%nat).
  assert (Hn : x < base ^ Z.of_nat n) by (unfold n; destruct Hb as [->| ->]; cbn; lia).
  destruct (digits_of_spec base ltac:(lia) n 32 x) as (D1 & D2 & D3);
    [lia|unfold n; destruct (base =? 10); lia|unfold n; destruct (base =? 10); lia|].
  exists (rev (digits_of 32 x base)). rewrite rev_app_distr, length_app.
  split_and!.
  - by destruct neg.
  - by rewrite D1.
  - rewrite !length_rev. assert (n <= 10)%nat by (unfold n; destruct (base =? 10); lia).
    clear - D2 H. destruct neg; cbn [length]; lia.
  - rewrite length_rev. lia.
  - intros Hne. specialize (D3 (Hx0 Hne)). destruct (digits_of 32 x base) as [|a t] using rev_ind; [cbn in D2; lia|].
    rewrite rev_app_distr. cbn. rewrite list.last_snoc in D3. congruence.
Qed.
Lemma printint_denotes_witness :
  int_chars (- 2 ^ 31) 10 true = zs "-2147483648" /\
  exists ds, int_chars (- 2 ^ 31) 10 true = [45] ++ ds /\ num_val 10 ds = 2 ^ 31.
Proof.
  split; [reflexivity|]. destruct (printint_denotes (- 2 ^ 31) 10 true) as (ds & H1 & H2 & _).
  - lia.
  - left. reflexivity.
  - exists ds. split; [exact H1|exact H2].
Defined.
