(* ===== verification/Ulib.v ===== *)
(** * The user library (user/ulib.c)

    User programs have their own memory, modelled like the kernel's by [Mem]:
    the functions that take a buffer and a length work on addresses there.  The
    NUL-terminated string functions work on the bytes a [char *] points at, a
    list with NUL after its end, and return positions in it for pointers into
    it.  The system calls the library makes ([read], [open], [fstat], [close])
    are parameters. *)
From S2P Require Import Prelude Mem.

(** ** Buffers *)
(** The copy loop of strcpy as it leaves the array [s]: the characters of
    [t] and the NUL over its first bytes.  Past the end of [s] is undefined. *)
Fixpoint strcpy (s t : list Z) : option (list Z) :=
  match s with
  | [] => None
  | _ :: s' => if ctrue (chr t) then cons (chr t) <$> strcpy s' (tail t) else Some (0 :: s')
  end.

(** [for(i = 0; i < n; i++) cdst[i] = c;] *)
Definition memset (m : mem) (dst c n : Z) : mem := memset_loop m dst c (Z.to_nat n).
(** Forward when [src > dst], else backward; the kernel's memmove tests for the
    overlap instead. *)
Definition memmove (m : mem) (vdst vsrc n : Z) : mem :=
  if vdst <? vsrc then copy_fwd m vdst vsrc (Z.to_nat n)
  else copy_bwd m (vdst + n) (vsrc + n) (Z.to_nat n).
Definition memcmp (m : mem) (s1 s2 n : Z) : Z := memcmp_loop m s1 s2 (Z.to_nat n).
Definition memcpy (m : mem) (dst src n : Z) : mem := memmove m dst src n.

(** ** Strings *)
Fixpoint strcmp (p q : list Z) : Z :=
  match p with
  | [] => 0 - u8 (chr q)
  | c :: p' => if ctrue c && (c =? chr q) then strcmp p' (tail q) else u8 c - u8 (chr q)
  end.
(** The position of the first [c] before the NUL. *)
Fixpoint strchr (s : list Z) (c : Z) : option nat :=
  match s with
  | [] => None
  | x :: s' => if negb (ctrue x) then None else if x =? c then Some O else S <$> strchr s' c
  end.
(** [int] arithmetic: an overflow, undefined in C, is taken to wrap as the 32-bit
    instructions do. *)
Fixpoint atoi_loop (n : Z) (s : list Z) : Z :=
  match s with
  | [] => n
  | c :: s' => if (48 <=? c) && (c <=? 57) then atoi_loop (s32 (n * 10 + c - 48)) s' else n
  end.
Definition atoi (s : list Z) : Z := atoi_loop 0 s.

(** ** Input and files *)
(** What the successive calls of read on a descriptor give: each element is what
    is ready at that moment, of which read takes at most what it is asked for.
    An empty element, or none left, is end of file. *)
Definition read (input : list (list Z)) (n : nat) : list Z * list (list Z) :=
  match input with
  | [] => ([], [])
  | c :: rest => if (length c <=? n)%nat then (c, rest) else (take n c, drop n c :: rest)
  end.
(** The bytes of [input] up to end of file. *)
Fixpoint content (input : list (list Z)) : list Z :=
  match input with [] => [] | [] :: _ => [] | c :: rest => c ++ content rest end.

(** The characters gets() puts before its NUL, and the rest of the input. *)
Fixpoint gets_loop (room : nat) (acc : list Z) (input : list (list Z)) : list Z * list (list Z) :=
  match room with
  | O => (acc, input)
  | S room' =>
      let '(cc, input') := read input 1 in
      match cc with
      | [] => (acc, input')
      | c :: _ => if (c =? 10) || (c =? 13) then (acc ++ [c], input')
                  else gets_loop room' (acc ++ [c]) input'
      end
  end.
(** [gets(buf, max)]: [buf[0..i)] and the NUL at [i] are written. *)
Definition gets (buf : list Z) (max : Z) (input : list (list Z)) : list Z * list (list Z) :=
  let '(line, input') := gets_loop (Z.to_nat (max - 1)) [] input in
  (splice buf 0 (line ++ [0]), input').

(** [stat(n, st)], with the system calls it makes: the descriptor is closed
    again whatever fstat says. *)
Section Stat.
Context {W St : Type}.
Context (sys_open : list Z -> Z -> W -> Z * W).
Context (sys_fstat : Z -> W -> (Z * St) * W).
Context (sys_close : Z -> W -> W).
Definition O_RDONLY : Z := 0.
Definition stat (n : list Z) (st : St) (w : W) : (Z * St) * W :=
  let '(fd, w) := sys_open n O_RDONLY w in
  if fd <? 0 then ((-1, st), w) else
  let '((r, st'), w) := sys_fstat fd w in
  ((r, st'), sys_close fd w).
End Stat.

(** ** Lemmas *)
Lemma getb_umemmove m dst src n a :
  0 <= n ->
  getb (memmove m dst src n) a =
    if (dst <=? a) && (a <? dst + n) then u8 (getb m (src + (a - dst))) else getb m a.
Proof.
  intros Hn. unfold memmove. bdestr (dst <? src).
  - rewrite getb_copy_fwd by lia. by rewrite Z2Nat.id by lia.
  - rewrite getb_copy_bwd by lia. rewrite Z2Nat.id by lia.
    replace (dst + n - n) with dst by lia.
    by replace (src + n + (a - (dst + n))) with (src + (a - dst)) by lia.
Qed.

Lemma strchr_Some s c i :
  strchr s c = Some i <->
  c <> 0 /\ s !! i = Some c /\ (forall j x, (j < i)%nat -> s !! j = Some x -> x <> 0 /\ x <> c).
Proof.
  revert i. induction s as [|x s IH]; intros i; cbn.
  { split; [done|]. intros (_ & H & _). by rewrite lookup_nil in H. }
  unfold ctrue. bdestr (x =? 0); cbn.
  { split; [done|]. intros (Hc & Hi & Hj). destruct i as [|i]; cbn in Hi; [congruence|].
    destruct (Hj O x ltac:(lia) eq_refl). lia. }
  bdestr (x =? c).
  { subst. split.
    - intros [= <-]. split_and!; [done|done|]. intros; lia.
    - intros (Hc & Hi & Hj). destruct i as [|i]; [done|].
      destruct (Hj O c ltac:(lia) eq_refl). lia. }
  rewrite fmap_Some. split.
  - intros (k & Hk & ->). apply IH in Hk as (Hc & Hi & Hj). split_and!; [done|done|].
    intros [|j] y Hlt Hy; cbn in Hy; [by injection Hy as <-|]. apply (Hj j); [lia|done].
  - intros (Hc & Hi & Hj). destruct i as [|i]; cbn in Hi; [congruence|]. exists i.
    split; [|done]. apply IH. split_and!; [done|done|].
    intros j y Hlt Hy. apply (Hj (S j)); [lia|done].
Qed.

Lemma strchr_split s c i :
  strchr s c = Some i -> s = take i s ++ c :: drop (S i) s /\ Forall (fun x => x <> 0 /\ x <> c) (take i s).
Proof.
  intros (Hc & Hi & Hj)%strchr_Some. split.
  - by rewrite take_drop_middle.
  - apply list.Forall_lookup. intros j x Hx. apply lookup_take_Some in Hx as [? ?]. by apply (Hj j).
Qed.
Lemma strchr_app_hit l c r :
  c <> 0 -> Forall (fun x => x <> 0 /\ x <> c) l -> strchr (l ++ c :: r) c = Some (length l).
Proof.
  intros Hc Hl. apply strchr_Some. split_and!; [done| |].
  - by rewrite list_lookup_middle.
  - intros j x Hj Hx. rewrite lookup_app_l in Hx by done. by eapply list.Forall_lookup_1 in Hl.
Qed.
Lemma strchr_miss l c r :
  Forall (fun x => x <> c) l -> strchr (l ++ 0 :: r) c = None.
Proof.
  induction 1 as [|x l Hx Hl IH]; [done|]. cbn. unfold ctrue. bdestr (x =? 0); [done|].
  bdestr (x =? c); [done|]. cbn. by rewrite IH.
Qed.

Lemma read_content input n cc input' :
  (0 < n)%nat -> read input n = (cc, input') ->
  content input = cc ++ match cc with [] => [] | _ => content input' end /\ (length cc <= n)%nat /\
  (cc = [] -> content input = []).
Proof.
  intros Hn. unfold read. destruct input as [|c rest]; [by intros [= <- <-]; cbn; split_and!; [|lia|]|].
  destruct (Nat.leb_spec (length c) n); intros [= <- <-].
  - destruct c; cbn; split_and!; done || lia.
  - destruct c as [|x c]; [cbn in *; lia|]. destruct n as [|n]; [lia|]. cbn in *.
    split_and!; [|rewrite length_take; lia|done]. f_equal.
    assert (drop n c <> []) as Hd.
    { intros H0. apply (f_equal length) in H0. rewrite length_drop in H0. cbn in H0. lia. }
    destruct (drop n c) eqn:Hdr; [done|]. rewrite <- Hdr, app_assoc, take_drop. done.
Qed.
