(* ===== verification/Uprintf.v ===== *)
(** * The user printf (user/printf.c)

    Every character is a write() of one byte; [vprintf] gives the characters in
    order.  Reading an argument of another type than the format says, or one
    that was not passed, is undefined: [None]. *)
From S2P Require Import Prelude Mem Ulib.

Definition digits : list Z := zs "0123456789ABCDEF".
(** [do{ buf[i++] = digits[x % base]; }while((x /= base) != 0);] *)
Fixpoint digits_of (fuel : nat) (x base : Z) : list Z :=
  match fuel with
  | O => []
  | S fuel' => nthZ digits (x mod base) ::
               (if x / base =? 0 then [] else digits_of fuel' (x / base) base)
  end.
(** [x] is a uint: 32 digits are enough for any base. *)
Definition printint (xx base : Z) (sgn : bool) : list Z :=
  let neg := sgn && (xx <? 0) in
  let x := if neg then u32 (- xx) else u32 xx in
  rev (digits_of 32 x base ++ (if neg then zs "-" else [])).
Fixpoint printptr_loop (n : nat) (x : Z) : list Z :=
  match n with
  | O => []
  | S n' => nthZ digits (Z.shiftr x 60) :: printptr_loop n' (u64 (Z.shiftl x 4))
  end.
Definition printptr (x : Z) : list Z := zs "0x" ++ printptr_loop 16 x.

Inductive va := VInt (z : Z) | VLong (z : Z) | VStr (s : option (list Z)).

(** The conversion after a '%': the characters and the arguments left. *)
Definition conversion (c : Z) (ap : list va) : option (list Z * list va) :=
  if c =? 100 (* d *) then
    match ap with VInt x :: ap => Some (printint (s32 x) 10 true, ap) | _ => None end
  else if c =? 108 (* l *) then
    match ap with VLong x :: ap => Some (printint (s32 x) 10 false, ap) | _ => None end
  else if c =? 120 (* x *) then
    match ap with VInt x :: ap => Some (printint (s32 x) 16 false, ap) | _ => None end
  else if c =? 112 (* p *) then
    match ap with VLong x :: ap => Some (printptr (u64 x), ap) | _ => None end
  else if c =? 115 (* s *) then
    match ap with
    | VStr s :: ap => Some (match s with None => zs "(null)" | Some s => cstr s end, ap)
    | _ => None
    end
  else if c =? 99 (* c *) then
    match ap with VInt x :: ap => Some ([u8 x], ap) | _ => None end
  else if c =? 37 (* % *) then Some ([c], ap)
  else Some ([37; c], ap).
(** [pct]: the state is '%', the character before was one. *)
Fixpoint vprintf_loop (pct : bool) (fmt : list Z) (ap : list va) : option (list Z) :=
  match fmt with
  | [] => Some []
  | c :: fmt' =>
      if c =? 0 then Some [] else
      if negb pct then
        if c =? 37 then vprintf_loop true fmt' ap
        else app [c] <$> vprintf_loop false fmt' ap
      else
        r ← conversion c ap;
        app r.1 <$> vprintf_loop false fmt' r.2
  end.
Definition vprintf (fmt : list Z) (ap : list va) : option (list Z) := vprintf_loop false fmt ap.

(** The writes of [fprintf(fd, fmt, ap)], one byte each. *)
Definition putc (fd c : Z) : Z * list Z := (fd, [c]).
Definition fprintf (fd : Z) (fmt : string) (ap : list va) : list (Z * list Z) :=
  putc fd <$> default [] (vprintf (zs fmt) ap).
Definition printf (fmt : string) (ap : list va) : list (Z * list Z) := fprintf 1 fmt ap.

Example vprintf_mixed :
  vprintf (zs "%s=%d 0x%x %p%%") [VStr (Some (zs "n")); VInt (-12); VInt 255; VLong 4096]
  = Some (zs "n=-12 0xFF 0x0000000000001000%").
Proof. vm_compute. reflexivity. Qed.
