(* ===== verification/Usys.v ===== *)
(** * User programs and the system calls they make (user/user.h)

    A user program is a tree of its system calls: [Call e k] makes the call [e]
    and goes on with [k] on what the kernel returns, so that the kernel's
    answers are not fixed by the program.  [Stuck] is what no C program may do:
    reading outside an array, or (in the models of loops that are bounded by
    fuel) running out of it.  [fork] returns twice: the child is [k 0], the
    parent [k pid].

    [trace] runs a program and the processes it forks over a table of file
    descriptors, when every call succeeds, and gives what each process does in
    its order: the processes it forks, with what they do, its waits, and the
    exec or exit it ends with, each with the descriptors that are open then. *)
From S2P Require Import Prelude Mem Ulib Uprintf.

Record ustat := mk_ustat { us_dev : Z; us_ino : Z; us_type : Z; us_nlink : Z; us_size : Z }.

Inductive sys : Type -> Type :=
  | Fork : sys Z
  | Exit (status : Z) : sys Empty_set
  | Wait : sys Z
  | Pipe : sys (option (Z * Z))
  | Write (fd : Z) (bs : list Z) : sys Z
  | Read (fd : Z) (n : Z) : sys (option (list Z))
  | Close (fd : Z) : sys Z
  | Kill (pid : Z) : sys Z
  | Exec (path : list Z) (argv : list (list Z)) : sys Z
  | Open (path : list Z) (mode : Z) : sys Z
  | Mknod (path : list Z) (major minor : Z) : sys Z
  | Unlink (path : list Z) : sys Z
  | Fstat (fd : Z) : sys (option ustat)
  | Link (old new : list Z) : sys Z
  | Mkdir (path : list Z) : sys Z
  | Chdir (path : list Z) : sys Z
  | Dup (fd : Z) : sys Z
  | Getpid : sys Z
  | Sbrk (n : Z) : sys Z
  | Sleep (n : Z) : sys Z
  | Uptime : sys Z.

Inductive prog (A : Type) : Type :=
  | Ret (a : A)
  | Call {X : Type} (e : sys X) (k : X -> prog A)
  | Stuck.
Arguments Ret {A}. Arguments Call {A X}. Arguments Stuck {A}.

Fixpoint prog_bind {A B} (p : prog A) (f : A -> prog B) : prog B :=
  match p with
  | Ret a => f a
  | Call e k => Call e (fun x => prog_bind (k x) f)
  | Stuck => Stuck
  end.
#[export] Instance prog_mret : MRet prog := fun A a => Ret a.
#[export] Instance prog_mbind : MBind prog := fun A B f p => prog_bind p f.

Definition call {X} (e : sys X) : prog X := Call e Ret.
(** exit does not return. *)
Definition exit {A} (status : Z) : prog A := Call (Exit status) (fun e => match e with end).
(** The writes of printf and fprintf; their results are ignored. *)
Fixpoint writes (out : list (Z * list Z)) : prog unit :=
  match out with
  | [] => Ret tt
  | (fd, bs) :: out' => call (Write fd bs) ;; writes out'
  end.
Definition nl (s : string) : string := s ++ String (Ascii.ascii_of_nat 10) "".

Definition O_WRONLY : Z := 1.
Definition O_RDWR : Z := 2.
Definition O_CREATE : Z := 0x200.

(** ** Processes and their descriptors *)
(** What a descriptor refers to: an open file the shell was started with, one that
    was opened since, or an end of a pipe. *)
Inductive obj := Inherited (n : nat) | Opened (path : list Z) (mode : Z) | PipeRead (id : nat) | PipeWrite (id : nat).
#[export] Instance obj_eq_dec : EqDecision obj.
Proof. solve_decision. Defined.
Abbreviation fdtable := (list (option obj)).

(** fdalloc: the lowest free descriptor. *)
Fixpoint lowest_free {O} (fds : list (option O)) : option nat :=
  match fds with
  | [] => None
  | None :: _ => Some 0%nat
  | Some _ :: fds' => S <$> lowest_free fds'
  end.
Definition fd_of {O} (fds : list (option O)) (fd : Z) : option O :=
  if fd <? 0 then None else mjoin (fds !! Z.to_nat fd).
(** One more reference to [o]: the descriptor, or -1 when the table is full. *)
Definition install {O} (o : O) (fds : list (option O)) : Z * list (option O) :=
  match lowest_free fds with
  | Some i => (Z.of_nat i, <[i := Some o]> fds)
  | None => (-1, fds)
  end.

(** What a process does. *)
#[warnings="-register-all"]
Inductive event :=
  | EExec (path : list Z) (argv : list (list Z)) (fds : fdtable)
  | EFork (child : list event)
  | EWait (fds : fdtable)
  | EExit (status : Z) (fds : fdtable)
  | EStuck.
(** The programs it and the processes it forks start, with their descriptors. *)
Fixpoint started (e : event) : list (list Z * list (list Z) * fdtable) :=
  match e with
  | EExec path argv fds => [(path, argv, fds)]
  | EFork child => flat_map started child
  | _ => []
  end.

(** [next] names the pipes. *)
Fixpoint trace {A} (p : prog A) (fds : fdtable) (next : nat)
  : list event * nat :=
  match p with
  | Ret _ => ([], next)
  | Stuck => ([EStuck], next)
  | @Call _ X0 e k =>
      match e in sys X return (X -> prog A) -> list event * nat with
      | Fork => fun k =>
          let '(child, next) := trace (k 0) fds next in
          let '(parent, next) := trace (k 1) fds next in
          (EFork child :: parent, next)
      | Exit status => fun _ => ([EExit status fds], next)
      | Exec path argv => fun _ => ([EExec path argv fds], next)
      | Pipe => fun k =>
          let '(r, fds1) := install (PipeRead next) fds in
          let '(w, fds2) := install (PipeWrite next) fds1 in
          if (r <? 0) || (w <? 0) then trace (k None) fds next
          else trace (k (Some (r, w))) fds2 (S next)
      | Open path mode => fun k =>
          let '(fd, fds') := install (Opened path mode) fds in trace (k fd) fds' next
      | Dup fd => fun k =>
          match fd_of fds fd with
          | Some o => let '(fd', fds') := install o fds in trace (k fd') fds' next
          | None => trace (k (-1)) fds next
          end
      | Close fd => fun k =>
          match fd_of fds fd with
          | Some _ => trace (k 0) (<[Z.to_nat fd := None]> fds) next
          | None => trace (k (-1)) fds next
          end
      | Wait => fun k => let '(after, next) := trace (k 1) fds next in (EWait fds :: after, next)
      | Write _ bs => fun k => trace (k (Z.of_nat (length bs))) fds next
      | Read _ _ => fun k => trace (k (Some [])) fds next
      | Kill _ => fun k => trace (k 0) fds next
      | Mknod _ _ _ => fun k => trace (k 0) fds next
      | Unlink _ => fun k => trace (k 0) fds next
      | Fstat _ => fun k => trace (k None) fds next
      | Link _ _ => fun k => trace (k 0) fds next
      | Mkdir _ => fun k => trace (k 0) fds next
      | Chdir _ => fun k => trace (k 0) fds next
      | Getpid => fun k => trace (k 1) fds next
      | Sbrk _ => fun k => trace (k 0) fds next
      | Sleep _ => fun k => trace (k 0) fds next
      | Uptime => fun k => trace (k 0) fds next
      end k
  end.
