(* ===== verification/Utils.v ===== *)
(** * The user programs cat, wc, echo, kill, ln, mkdir, rm, sleep, uptime, zombie, init,
      pingpong, primes, ls and find

    Each is the tree of its system calls (Usys).  Loops whose length the kernel's
    answers decide take the number of rounds as fuel; reading a variable that no
    call has set, or writing past an array, is [Stuck]. *)
From S2P Require Import Prelude Mem State Fs Ulib Uprintf Usys.

(** ** cat *)
Definition cat_buf : Z := 512.
Fixpoint cat (fuel : nat) (fd : Z) : prog unit :=
  match fuel with
  | O => Stuck
  | S fuel' =>
      n ← call (Read fd cat_buf);
      match n with
      | None => writes (printf (nl "cat: read error") []) ;; exit 1
      | Some [] => mret tt
      | Some buf =>
          w ← call (Write 1 buf);
          if negb (w =? Z.of_nat (length buf)) then writes (printf (nl "cat: write error") []) ;; exit 1
          else cat fuel' fd
      end
  end.
Fixpoint cat_files (fuel : nat) (argv : list (list Z)) : prog Empty_set :=
  match argv with
  | [] => exit 0
  | f :: argv' =>
      fd ← call (Open f 0);
      if fd <? 0 then writes (printf (nl "cat: cannot open %s") [VStr (Some f)]) ;; exit 1
      else cat fuel fd ;; call (Close fd) ;; cat_files fuel argv'
  end.
Definition cat_main (fuel : nat) (argv : list (list Z)) : prog Empty_set :=
  if (length argv <=? 1)%nat then cat fuel 0 ;; exit 1 else cat_files fuel (tail argv).

(** ** wc *)
(** One character: lines, words, characters and whether it is inside a word. *)
Definition wc_char (st : Z * Z * Z * bool) (ch : Z) : Z * Z * Z * bool :=
  let '(l, w, c, inword) := st in
  let c := s32 (c + 1) in
  let l := if ch =? 10 then s32 (l + 1) else l in
  if bool_decide (is_Some (strchr [32; 13; 9; 10; 11] ch)) then (l, w, c, false)
  else if negb inword then (l, s32 (w + 1), c, true)
  else (l, w, c, inword).
Fixpoint wc_loop (fuel : nat) (fd : Z) (st : Z * Z * Z * bool) : prog (Z * Z * Z) :=
  match fuel with
  | O => Stuck
  | S fuel' =>
      n ← call (Read fd 512);
      match n with
      | None => writes (printf (nl "wc: read error") []) ;; exit 1
      | Some [] => mret st.1
      | Some buf => wc_loop fuel' fd (foldl wc_char st buf)
      end
  end.
Definition wc (fuel : nat) (fd : Z) (name : list Z) : prog unit :=
  '(l, w, c) ← wc_loop fuel fd (0, 0, 0, false);
  writes (printf (nl "%d %d %d %s") [VInt l; VInt w; VInt c; VStr (Some name)]).
Fixpoint wc_files (fuel : nat) (argv : list (list Z)) : prog Empty_set :=
  match argv with
  | [] => exit 0
  | f :: argv' =>
      fd ← call (Open f 0);
      if fd <? 0 then writes (printf (nl "wc: cannot open %s") [VStr (Some f)]) ;; exit 1
      else wc fuel fd f ;; call (Close fd) ;; wc_files fuel argv'
  end.
Definition wc_main (fuel : nat) (argv : list (list Z)) : prog Empty_set :=
  if (length argv <=? 1)%nat then wc fuel 0 [] ;; exit 0 else wc_files fuel (tail argv).

(** ** echo, kill, ln, mkdir, rm *)
Fixpoint echo_args (argv : list (list Z)) : prog Empty_set :=
  match argv with
  | [] => exit 0
  | a :: argv' =>
      call (Write 1 (cstr a)) ;;
      call (Write 1 (match argv' with [] => [10] | _ => [32] end)) ;;
      echo_args argv'
  end.
Definition echo_main (argv : list (list Z)) : prog Empty_set := echo_args (tail argv).
Fixpoint kill_args (argv : list (list Z)) : prog Empty_set :=
  match argv with [] => exit 0 | a :: argv' => call (Kill (atoi a)) ;; kill_args argv' end.
Definition kill_main (argv : list (list Z)) : prog Empty_set :=
  if (length argv <? 2)%nat then writes (fprintf 2 (nl "usage: kill pid...") []) ;; exit 1 else kill_args (tail argv).
Definition ln_main (argv : list (list Z)) : prog Empty_set :=
  match argv with
  | [_; old; new] =>
      r ← call (Link old new);
      (if r <? 0 then writes (fprintf 2 (nl "link %s %s: failed") [VStr (Some old); VStr (Some new)]) else mret tt) ;;
      exit 0
  | _ => writes (fprintf 2 (nl "Usage: ln old new") []) ;; exit 1
  end.
Fixpoint mkdir_args (argv : list (list Z)) : prog Empty_set :=
  match argv with
  | [] => exit 0
  | a :: argv' =>
      r ← call (Mkdir a);
      if r <? 0 then writes (fprintf 2 (nl "mkdir: %s failed to create") [VStr (Some a)]) ;; exit 0 else mkdir_args argv'
  end.
Definition mkdir_main (argv : list (list Z)) : prog Empty_set :=
  if (length argv <? 2)%nat then writes (fprintf 2 (nl "Usage: mkdir files...") []) ;; exit 1 else mkdir_args (tail argv).
Fixpoint rm_args (argv : list (list Z)) : prog Empty_set :=
  match argv with
  | [] => exit 0
  | a :: argv' =>
      r ← call (Unlink a);
      if r <? 0 then writes (fprintf 2 (nl "rm: %s failed to delete") [VStr (Some a)]) ;; exit 0 else rm_args argv'
  end.
Definition rm_main (argv : list (list Z)) : prog Empty_set :=
  if (length argv <? 2)%nat then writes (fprintf 2 (nl "Usage: rm files...") []) ;; exit 1 else rm_args (tail argv).

(** ** sleep, uptime, zombie *)
Definition sleep_main (argv : list (list Z)) : prog Empty_set :=
  match argv with
  | _ :: ticks :: _ => call (Sleep (atoi ticks)) ;; exit 0
  | _ => writes (printf (nl "sleep: must pass in number of ticks to pause") []) ;; exit 1
  end.
Definition uptime_main : prog Empty_set :=
  t ← call Uptime; writes (printf (nl "Runtime in ticks: %d") [VInt t]) ;; exit 0.
Definition zombie_main : prog Empty_set :=
  pid ← call Fork;
  (if 0 <? pid then call (Sleep 5) ;; mret tt else mret tt) ;;
  exit 0.

(** ** init *)
(** [while((wpid=wait(0)) >= 0 && wpid != pid){}] *)
Fixpoint init_wait (fuel : nat) (pid : Z) : prog unit :=
  match fuel with
  | O => Stuck
  | S fuel' => wpid ← call Wait; if (0 <=? wpid) && negb (wpid =? pid) then init_wait fuel' pid else mret tt
  end.
(** [n] shells at most. *)
Fixpoint init_loop (n : nat) : prog Empty_set :=
  match n with
  | O => Stuck
  | S n' =>
      writes (printf (nl "init: starting sh") []) ;;
      pid ← call Fork;
      if pid <? 0 then writes (printf (nl "init: fork failed") []) ;; exit 1
      else if pid =? 0 then
        call (Exec (zs "sh") [zs "sh"]) ;;
        writes (printf (nl "init: exec sh failed") []) ;;
        exit 1
      else init_wait n pid ;; init_loop n'
  end.
Definition init_main (n : nat) : prog Empty_set :=
  fd ← call (Open (zs "console") O_RDWR);
  (if fd <? 0 then call (Mknod (zs "console") 1 1) ;; call (Open (zs "console") O_RDWR) ;; mret tt else mret tt) ;;
  call (Dup 0) ;;
  call (Dup 0) ;;
  init_loop n.

(** ** pingpong *)
Definition pingpong_main : prog Empty_set :=
  p ← call Pipe;
  match p with
  | None => Stuck
  | Some (p0, p1) =>
      let received :=
        b ← call (Read p0 1);
        pid ← call Getpid;
        match b with
        | Some [b] => writes (printf (nl "%d: received p%cng") [VInt pid; VInt b])
        | _ => Stuck
        end in
      pid ← call Fork;
      (if pid =? 0 then received ;; call (Write p1 (zs "o")) ;; mret tt
       else call (Write p1 (zs "i")) ;; call Wait ;; received) ;;
      call (Close p0) ;;
      call (Close p1) ;;
      exit 0
  end.

(** ** primes *)
(** A 32-bit variable that read has filled: [b] over the bytes it had before. *)
Definition read32 (r : list Z) (b : list Z) : list Z := splice r 0 b.
(** [for (i = 2; i <= 35; i++) write(p[1], &i, sizeof i);] *)
Fixpoint primes_feed (n : nat) (i fd : Z) : prog unit :=
  match n with O => mret tt | S n' => call (Write fd (Z_to_le 4 i)) ;; primes_feed n' (i + 1) fd end.
(** [while (1) ...]: the numbers that [r] does not divide. *)
Fixpoint primes_filter (fuel : nat) (r : Z) (r2 : list Z) : prog unit :=
  match fuel with
  | O => Stuck
  | S fuel' =>
      b ← call (Read 0 4);
      match b with
      | None | Some [] => mret tt
      | Some b =>
          let r2 := read32 r2 b in
          if r =? 0 then Stuck else
          (if 0 <? le_to_Z r2 mod r then call (Write 1 r2) ;; mret tt else mret tt) ;;
          primes_filter fuel' r r2
      end
  end.
Fixpoint primes_loop (fuel : nat) (r : list Z) : prog Empty_set :=
  match fuel with
  | O => Stuck
  | S fuel' =>
      b ← call (Read 0 4);
      match b with
      | None | Some [] => exit 0
      | Some b =>
          let r := read32 r b in
          writes (printf (nl "prime %d") [VInt (le_to_Z r)]) ;;
          p2 ← call Pipe;
          match p2 with
          | None => Stuck
          | Some (p20, p21) =>
              pid ← call Fork;
              if pid =? 0 then
                call (Close 1) ;; call (Dup p21) ;; call (Close p20) ;; call (Close p21) ;;
                primes_filter fuel (le_to_Z r) (replicate 4 0) ;;
                primes_loop fuel' r
              else
                call Wait ;;
                call (Close 0) ;; call (Dup p20) ;; call (Close p20) ;; call (Close p21) ;;
                primes_loop fuel' r
          end
      end
  end.
Definition primes_main (fuel : nat) : prog Empty_set :=
  p ← call Pipe;
  match p with
  | None => Stuck
  | Some (p0, p1) =>
      pid ← call Fork;
      if pid =? 0 then
        primes_feed 34 2 p1 ;; call (Close p0) ;; call (Close p1) ;; exit 0
      else
        call Wait ;;
        call (Close 0) ;; call (Dup p0) ;; call (Close p0) ;; call (Close p1) ;;
        primes_loop fuel (replicate 4 0)
  end.

(** ** ls *)
(** The characters after the last slash. *)
Fixpoint after_slash (path : list Z) : list Z :=
  match path with
  | [] => []
  | c :: path' => if existsb (Z.eqb 47) path' then after_slash path' else if c =? 47 then path' else path
  end.
(** The name, padded with blanks. *)
Definition fmtname (path : list Z) : list Z :=
  let p := after_slash (cstr path) in
  if (DIRSIZ <=? length p)%nat then p else p ++ replicate (DIRSIZ - length p) 32.
(** [stat(n, &st)] of ulib.c *)
Definition stat_calls (n : list Z) : prog (option ustat) :=
  fd ← call (Open n O_RDONLY);
  if fd <? 0 then mret None else
  r ← call (Fstat fd);
  call (Close fd) ;;
  mret r.
(** [buf] after the copies of the path, a slash and the name of the entry. *)
Definition entry_path (path de : list Z) : list Z := cstr (cstr path ++ [47] ++ de_name de).
Fixpoint ls_entries (fuel : nat) (path : list Z) (fd : Z) : prog unit :=
  match fuel with
  | O => Stuck
  | S fuel' =>
      r ← call (Read fd 16);
      match r with
      | Some de =>
          if negb (Z.of_nat (length de) =? 16) then mret tt
          else if de_inum de =? 0 then ls_entries fuel' path fd
          else
            let buf := entry_path path de in
            st ← stat_calls buf;
            match st with
            | None => writes (printf (nl "ls: cannot stat %s") [VStr (Some buf)]) ;; ls_entries fuel' path fd
            | Some st =>
                writes (printf (nl "%s %d %d %d") [VStr (Some (fmtname buf)); VInt (us_type st); VInt (us_ino st); VInt (us_size st)]) ;;
                ls_entries fuel' path fd
            end
      | None => mret tt
      end
  end.
Definition ls (fuel : nat) (path : list Z) : prog unit :=
  fd ← call (Open path 0);
  if fd <? 0 then writes (fprintf 2 (nl "ls: cannot open %s") [VStr (Some path)]) else
  st ← call (Fstat fd);
  match st with
  | None => writes (fprintf 2 (nl "ls: cannot stat %s") [VStr (Some path)]) ;; call (Close fd) ;; mret tt
  | Some st =>
      (if us_type st =? T_FILE then
         writes (printf (nl "%s %d %d %l") [VStr (Some (fmtname path)); VInt (us_type st); VInt (us_ino st); VLong (us_size st)])
       else if us_type st =? T_DIR then
         if (512 <? strlen path + 1 + DIRSIZ + 1)%nat then writes (printf (nl "ls: path too long") [])
         else ls_entries fuel path fd
       else mret tt) ;;
      call (Close fd) ;;
      mret tt
  end.
Fixpoint ls_args (fuel : nat) (argv : list (list Z)) : prog Empty_set :=
  match argv with [] => exit 0 | a :: argv' => ls fuel a ;; ls_args fuel argv' end.
Definition ls_main (fuel : nat) (argv : list (list Z)) : prog Empty_set :=
  if (length argv <? 2)%nat then ls fuel (zs ".") ;; exit 0 else ls_args fuel (tail argv).

(** ** find *)
(** Its fmtname pads with NULs, so that the string is the name. *)
Definition find_fmtname (path : list Z) : list Z := after_slash (cstr path).
(** [path] is the directory and [buf] the buffer, which the recursive call passes as
    its path: then [shared] is set, and what is printed as the path is what
    the buffer holds by then.  The length is tested, but the search goes on. *)
Fixpoint searchDir (fuel : nat) (path : list Z) (shared : bool) (fd : Z) (search : list Z) : prog unit :=
  let fix entries (n : nat) : prog unit :=
    match n with
    | O => Stuck
    | S n' =>
        r ← call (Read fd 16);
        match r with
        | Some de =>
            if negb (Z.of_nat (length de) =? 16) then mret tt
            else if de_inum de =? 0 then entries n'
            else if (512 <? strlen path + 1 + DIRSIZ + 1)%nat then Stuck
            else
              let buf := entry_path path de in
              st ← stat_calls buf;
              match st with
              | None => writes (printf (nl "find: cannot stat %s") [VStr (Some buf)]) ;; entries n'
              | Some st =>
                  if us_type st =? T_DIR then
                    if negb (strcmp (find_fmtname buf) (zs ".") =? 0) && negb (strcmp (find_fmtname buf) (zs "..") =? 0) then
                      fd2 ← call (Open buf 0);
                      st2 ← call (Fstat fd);
                      match st2 with
                      | None =>
                          writes (fprintf 2 (nl "find: cannot stat %s") [VStr (Some (if shared then buf else path))]) ;;
                          call (Close fd) ;;
                          mret tt
                      | Some _ =>
                          (match fuel with O => Stuck | S fuel' => searchDir fuel' buf true fd2 search end) ;;
                          call (Close fd2) ;;
                          entries n'
                      end
                    else entries n'
                  else if us_type st =? T_FILE then
                    (if strcmp (find_fmtname buf) search =? 0 then writes (printf (nl "%s") [VStr (Some buf)]) else mret tt) ;;
                    entries n'
                  else entries n'
              end
        | None => mret tt
        end
    end in
  (if (512 <? strlen path + 1 + DIRSIZ + 1)%nat then writes (printf (nl "find: path too long") []) else mret tt) ;;
  if (512 <=? strlen path)%nat then Stuck else entries fuel.
Definition find (fuel : nat) (path search : list Z) : prog unit :=
  fd ← call (Open path 0);
  if fd <? 0 then writes (fprintf 2 (nl "find: cannot open %s") [VStr (Some path)]) else
  st ← call (Fstat fd);
  match st with
  | None => writes (fprintf 2 (nl "find: cannot stat %s") [VStr (Some path)]) ;; call (Close fd) ;; mret tt
  | Some st =>
      (if us_type st =? T_DIR then searchDir fuel path false fd search else mret tt) ;;
      call (Close fd) ;;
      mret tt
  end.
Fixpoint find_args (fuel : nat) (path : list Z) (argv : list (list Z)) : prog Empty_set :=
  match argv with [] => exit 0 | a :: argv' => find fuel path a ;; find_args fuel path argv' end.
Definition find_main (fuel : nat) (argv : list (list Z)) : prog Empty_set :=
  match argv with
  | [] | [_] => writes (printf "find: requires a file name to search for" []) ;; exit 0
  | [_; name] => find fuel (zs ".") name ;; exit 0
  | _ :: path :: names => find_args fuel path names
  end.
