(* ===== verification/UtilsProofs.v ===== *)
(** * What the small user programs do

    [seq_run] runs a program over descriptors, pipes, files and a console, with one
    schedule: a process that [fork] makes runs to its end before its parent
    goes on.  A read of an empty pipe with a write end open, or a write to a
    full one, would wait for another process: the run is [SBlocked].  Calls
    that the programs of this file do not make fail. *)
From S2P Require Import Prelude Mem State Fs Ulib Uprintf Usys Utils.

Inductive sobj := SConsole | SFile (id : nat) | SPipeR (id : nat) | SPipeW (id : nat).
Record world := mk_world {
  w_in : list (list Z);            (* what reads of the console give *)
  w_open : list (list (list Z));   (* what is left of each open file *)
  w_pipes : list (list Z * nat);   (* the bytes and the write ends of each pipe *)
  w_out : list Z;                  (* what was written to the console *)
  w_pid : Z;                       (* the next process *)
  w_dead : list Z;                 (* children that have ended *)
}.
Definition set_pipe (id : nat) (p : list Z * nat) (w : world) : world :=
  mk_world (w_in w) (w_open w) (<[id := p]> (w_pipes w)) (w_out w) (w_pid w) (w_dead w).
(** One descriptor less, and one more, of [o]. *)
Definition unref (w : world) (o : option sobj) : world :=
  match o with
  | Some (SPipeW id) => match w_pipes w !! id with Some (d, n) => set_pipe id (d, n - 1)%nat w | None => w end
  | _ => w
  end.
Definition addref (w : world) (o : option sobj) : world :=
  match o with
  | Some (SPipeW id) => match w_pipes w !! id with Some (d, n) => set_pipe id (d, S n) w | None => w end
  | _ => w
  end.

Inductive sres (A : Type) := SRet (a : A) (fds : list (option sobj)) (w : world) | SExit (status : Z) (w : world) | SBlocked | SUndef.
Arguments SRet {A}. Arguments SExit {A}. Arguments SBlocked {A}. Arguments SUndef {A}.
Definition PIPESIZE : nat := 512.

Definition do_read (fds : list (option sobj)) (w : world) (fd n : Z) : option (option (list Z) * world) :=
  match fd_of fds fd with
  | Some SConsole =>
      let '(cc, rest) := read (w_in w) (Z.to_nat n) in
      Some (Some cc, mk_world rest (w_open w) (w_pipes w) (w_out w) (w_pid w) (w_dead w))
  | Some (SFile id) =>
      let '(cc, rest) := read (default [] (w_open w !! id)) (Z.to_nat n) in
      Some (Some cc, mk_world (w_in w) (<[id := rest]> (w_open w)) (w_pipes w) (w_out w) (w_pid w) (w_dead w))
  | Some (SPipeR id) =>
      match w_pipes w !! id with
      | Some ([], O) => Some (Some [], w)
      | Some ([], S _) => None
      | Some (d, nw) => Some (Some (take (Z.to_nat n) d), set_pipe id (drop (Z.to_nat n) d, nw) w)
      | None => Some (None, w)
      end
  | _ => Some (None, w)
  end.
Definition do_write (fds : list (option sobj)) (w : world) (fd : Z) (bs : list Z) : option (Z * world) :=
  match fd_of fds fd with
  | Some SConsole =>
      Some (Z.of_nat (length bs), mk_world (w_in w) (w_open w) (w_pipes w) (w_out w ++ bs) (w_pid w) (w_dead w))
  | Some (SPipeW id) =>
      match w_pipes w !! id with
      | Some (d, nw) => if (length d + length bs <=? PIPESIZE)%nat then Some (Z.of_nat (length bs), set_pipe id (d ++ bs, nw) w) else None
      | None => Some (-1, w)
      end
  | _ => Some (-1, w)
  end.

Section Run.
(** What opening a name gives. *)
Context (files : list Z -> option (list (list Z))).
Fixpoint seq_run {A} (p : prog A) (pid : Z) (fds : list (option sobj)) (w : world) : sres A :=
  match p with
  | Ret a => SRet a fds w
  | Stuck => SUndef
  | @Call _ X0 e k =>
      match e in sys X return (X -> prog A) -> sres A with
      | Fork => fun k =>
          let child := w_pid w in
          let w1 := foldl addref (mk_world (w_in w) (w_open w) (w_pipes w) (w_out w) (child + 1) []) fds in
          match seq_run (k 0) child fds w1 with
          | SExit _ w2 =>
              seq_run (k child) pid fds
                (mk_world (w_in w2) (w_open w2) (w_pipes w2) (w_out w2) (w_pid w2) (w_dead w ++ [child]))
          | SRet _ _ _ => SUndef
          | SBlocked => SBlocked
          | SUndef => SUndef
          end
      | Exit status => fun _ => SExit status (foldl unref w fds)
      | Wait => fun k =>
          match w_dead w with
          | [] => seq_run (k (-1)) pid fds w
          | c :: dead => seq_run (k c) pid fds (mk_world (w_in w) (w_open w) (w_pipes w) (w_out w) (w_pid w) dead)
          end
      | Pipe => fun k =>
          let id := length (w_pipes w) in
          let '(r, fds1) := install (SPipeR id) fds in
          let '(wr, fds2) := install (SPipeW id) fds1 in
          if (r <? 0) || (wr <? 0) then seq_run (k None) pid fds w
          else seq_run (k (Some (r, wr))) pid fds2
                 (mk_world (w_in w) (w_open w) (w_pipes w ++ [([], 1%nat)]) (w_out w) (w_pid w) (w_dead w))
      | Write fd bs => fun k =>
          match do_write fds w fd bs with Some (r, w') => seq_run (k r) pid fds w' | None => SBlocked end
      | Read fd n => fun k =>
          match do_read fds w fd n with Some (r, w') => seq_run (k r) pid fds w' | None => SBlocked end
      | Close fd => fun k =>
          match fd_of fds fd with
          | Some o => seq_run (k 0) pid (<[Z.to_nat fd := None]> fds) (unref w (Some o))
          | None => seq_run (k (-1)) pid fds w
          end
      | Dup fd => fun k =>
          match fd_of fds fd with
          | Some o =>
              let '(fd', fds') := install o fds in
              seq_run (k fd') pid fds' (if fd' <? 0 then w else addref w (Some o))
          | None => seq_run (k (-1)) pid fds w
          end
      | Open path mode => fun k =>
          match files path with
          | Some input =>
              let '(fd, fds') := install (SFile (length (w_open w))) fds in
              seq_run (k fd) pid fds' (mk_world (w_in w) (w_open w ++ [input]) (w_pipes w) (w_out w) (w_pid w) (w_dead w))
          | None => seq_run (k (-1)) pid fds w
          end
      | Getpid => fun k => seq_run (k pid) pid fds w
      | Exec _ _ => fun k => seq_run (k (-1)) pid fds w
      | Kill _ => fun k => seq_run (k (-1)) pid fds w
      | Mknod _ _ _ => fun k => seq_run (k (-1)) pid fds w
      | Unlink _ => fun k => seq_run (k (-1)) pid fds w
      | Fstat _ => fun k => seq_run (k None) pid fds w
      | Link _ _ => fun k => seq_run (k (-1)) pid fds w
      | Mkdir _ => fun k => seq_run (k (-1)) pid fds w
      | Chdir _ => fun k => seq_run (k (-1)) pid fds w
      | Sbrk _ => fun k => seq_run (k (-1)) pid fds w
      | Sleep _ => fun k => seq_run (k 0) pid fds w
      | Uptime => fun k => seq_run (k 0) pid fds w
      end k
  end.
End Run.

(** A process with the console as its standard descriptors. *)
Definition console_fds : list (option sobj) := [Some SConsole; Some SConsole; Some SConsole] ++ replicate 13 None.
Definition world0 (input : list (list Z)) : world := mk_world input [] [] [] 2 [].
Definition output {A} (r : sres A) : option (Z * list Z) := match r with SExit st w => Some (st, w_out w) | _ => None end.

Definition prime (n : Z) : bool := forallb (fun k => negb (n mod (2 + Z.of_nat k) =? 0)) (seq 0 (Z.to_nat (n - 2))).
(** The pipeline of processes is a sieve: primes prints the primes up to 35, one per line,
    and every process of it ends. *)
Lemma primes_prints_primes :
  output (seq_run (fun _ => None) (primes_main 40) 1 console_fds (world0 [])) =
  Some (0, concat ((fun p => (printf (nl "prime %d") [VInt p]) ≫= snd) <$> filter (fun n => prime n = true) (seqZ 2 34))).
Proof. vm_compute. reflexivity. Qed.

(** ** Reading a file or the console to its end *)
Definition add_out (bs : list Z) (w : world) : world :=
  mk_world (w_in w) (w_open w) (w_pipes w) (w_out w ++ bs) (w_pid w) (w_dead w).
(** What is left to read of [o], and the world when [rest] is left. *)
Definition left_in (o : sobj) (w : world) : list (list Z) :=
  match o with SConsole => w_in w | SFile id => default [] (w_open w !! id) | _ => [] end.
Definition set_left (o : sobj) (rest : list (list Z)) (w : world) : world :=
  match o with
  | SConsole => mk_world rest (w_open w) (w_pipes w) (w_out w) (w_pid w) (w_dead w)
  | SFile id => mk_world (w_in w) (<[id := rest]> (w_open w)) (w_pipes w) (w_out w) (w_pid w) (w_dead w)
  | _ => w
  end.
Definition readable (o : sobj) (w : world) : Prop :=
  match o with SConsole => True | SFile id => (id < length (w_open w))%nat | _ => False end.
Lemma do_read_left fds w fd n o : fd_of fds fd = Some o -> readable o w ->
  do_read fds w fd n = let '(cc, rest) := read (left_in o w) (Z.to_nat n) in Some (Some cc, set_left o rest w).
Proof. intros E H. unfold do_read. rewrite E. destruct o; cbn in *; try done; by destruct (read _ _). Qed.
Lemma left_set o rest w : readable o w -> left_in o (set_left o rest w) = rest.
Proof. destruct o; cbn; [done| |done|done]. intros H. by rewrite list_lookup_insert_eq. Qed.
Lemma set_set o r r' w : set_left o r' (set_left o r w) = set_left o r' w.
Proof. destruct o; cbn; try done. by rewrite list_insert_insert_eq. Qed.
Lemma readable_set o r w : readable o w -> readable o (set_left o r w).
Proof. destruct o; cbn; try done. by rewrite length_insert. Qed.
Lemma set_add o r bs w : set_left o r (add_out bs w) = add_out bs (set_left o r w).
Proof. by destruct o. Qed.
Lemma left_add o bs w : left_in o (add_out bs w) = left_in o w.
Proof. by destruct o. Qed.
Lemma add_add bs bs' w : add_out bs' (add_out bs w) = add_out (bs ++ bs') w.
Proof. unfold add_out. cbn. by rewrite app_assoc. Qed.
Lemma add_nil w : add_out [] w = w.
Proof. unfold add_out. rewrite app_nil_r. by destruct w. Qed.
(** What read gives is the next part of the content; nothing only at its end. *)
Lemma read_prefix input n : (0 < n)%nat -> let '(cc, rest) := read input n in
  (length cc <= n)%nat /\ (cc = [] -> content input = []) /\ (cc <> [] -> content input = cc ++ content rest).
Proof.
  intros Hn. destruct input as [|c rest]; cbn; [split_and!; [lia|done|done]|]. destruct (length c <=? n)%nat eqn:E.
  - apply Nat.leb_le in E. split; [done|]. by destruct c.
  - apply Nat.leb_gt in E. rewrite length_take. split; [lia|]. destruct c as [|z c]; [cbn in E; lia|].
    destruct n; [lia|]. cbn [take drop]. split; [done|]. intros _.
    cbn in E. destruct (drop n c) as [|y d] eqn:Ed.
    { apply (f_equal length) in Ed. rewrite length_drop in Ed. cbn in Ed. lia. }
    cbn. f_equal. change (y :: d ++ content rest) with ((y :: d) ++ content rest). by rewrite <- Ed, app_assoc, take_drop.
Qed.

Section Programs.
Context (files : list Z -> option (list (list Z))) (pid : Z).
Implicit Types (fds : list (option sobj)) (w : world).

Lemma run_writes {A} (k : prog A) fds out : forall w, fd_of fds 1 = Some SConsole -> Forall (fun x => x.1 = 1) out ->
  seq_run files (writes out ;; k) pid fds w = seq_run files k pid fds (add_out (out ≫= snd) w).
Proof.
  induction out as [|[fd bs] out IH]; intros w H1 Hf; [by rewrite add_nil|].
  apply list.Forall_cons in Hf as [E Hf]. cbn in E. subst fd. cbn [writes].
  change (seq_run files (Call (Write 1 bs) (fun _ => writes out ;; k)) pid fds w = seq_run files k pid fds (add_out (((1, bs) :: out) ≫= snd) w)).
  cbn [seq_run]. unfold do_write. rewrite H1. rewrite (IH _ H1 Hf). f_equal. apply add_add.
Qed.
Lemma printf_stdout fmt ap : Forall (fun x : Z * list Z => x.1 = 1) (printf fmt ap).
Proof. unfold printf, fprintf. apply Forall_fmap. by apply Forall_true. Qed.

(** The order of binds does not matter to a run. *)
Lemma seq_run_assoc {A B C} (p : prog A) (f : A -> prog B) (g : B -> prog C) : forall pid fds w,
  seq_run files ((p ≫= f) ≫= g) pid fds w = seq_run files (p ≫= (fun x => f x ≫= g)) pid fds w.
Proof.
  unfold mbind, prog_mbind. induction p as [a|X e k IH|]; intros q fds w; [done| |done].
  destruct e; cbn [prog_bind seq_run]; repeat case_match; rewrite ?IH in *; congruence.
Qed.
Lemma seq_run_ext {A B} (p : prog A) (f g : A -> prog B) :
  (forall x pid fds w, seq_run files (f x) pid fds w = seq_run files (g x) pid fds w) -> forall pid fds w,
  seq_run files (p ≫= f) pid fds w = seq_run files (p ≫= g) pid fds w.
Proof.
  intros E. unfold mbind, prog_mbind. induction p as [a|X e k IH|]; intros q fds w; [apply E| |done].
  destruct e; cbn [prog_bind seq_run]; repeat case_match; rewrite ?IH in *; congruence.
Qed.

(** cat copies what is left of a descriptor to the console. *)
Lemma cat_spec {A} (k : unit -> prog A) fds fd o fuel : forall w, fd_of fds 1 = Some SConsole -> fd_of fds fd = Some o -> readable o w ->
  (length (content (left_in o w)) < fuel)%nat ->
  exists rest, seq_run files (cat fuel fd ≫= k) pid fds w =
    seq_run files (k tt) pid fds (add_out (content (left_in o w)) (set_left o rest w)).
Proof.
  induction fuel as [|fuel IH]; intros w H1 Ho Hr Hf; [lia|]. cbn [cat].
  unfold mbind, prog_mbind. cbn [prog_bind call seq_run]. rewrite (do_read_left _ _ _ _ _ Ho Hr).
  pose proof (read_prefix (left_in o w) (Z.to_nat cat_buf) ltac:(unfold cat_buf; lia)) as Hc.
  destruct (read _ _) as [cc rest]. destruct Hc as (Hl & Hnil & Hcons). destruct cc as [|z cc].
  - exists rest. rewrite (Hnil eq_refl), add_nil. done.
  - specialize (Hcons ltac:(done)). set (bs := z :: cc) in *. cbn [prog_bind seq_run].
    unfold do_write. rewrite H1. rewrite Z.eqb_refl. cbn [negb].
    destruct (IH (add_out bs (set_left o rest w))) as (rest' & E); [done|done|by destruct o; cbn in *; rewrite ?length_insert| |].
    { rewrite left_add, left_set by done. rewrite Hcons, length_app in Hf. cbn in Hf. lia. }
    exists rest'. unfold mbind, prog_mbind in E. rewrite left_add, left_set, set_add, set_set, add_add, <- Hcons in E by done. exact E.
Qed.
Lemma wc_loop_spec {A} (k : Z * Z * Z -> prog A) fds fd o fuel : forall w st, fd_of fds fd = Some o -> readable o w ->
  (length (content (left_in o w)) < fuel)%nat ->
  exists rest, seq_run files (wc_loop fuel fd st ≫= k) pid fds w =
    seq_run files (k (foldl wc_char st (content (left_in o w))).1) pid fds (set_left o rest w).
Proof.
  induction fuel as [|fuel IH]; intros w st Ho Hr Hf; [lia|]. cbn [wc_loop].
  unfold mbind, prog_mbind. cbn [prog_bind call seq_run]. rewrite (do_read_left _ _ _ _ _ Ho Hr).
  pose proof (read_prefix (left_in o w) (Z.to_nat 512) ltac:(lia)) as Hc.
  destruct (read _ _) as [cc rest]. destruct Hc as (Hl & Hnil & Hcons). destruct cc as [|z cc].
  - exists rest. by rewrite (Hnil eq_refl).
  - specialize (Hcons ltac:(done)). set (bs := z :: cc) in *.
    destruct (IH (set_left o rest w) (foldl wc_char st bs) Ho (readable_set _ _ _ Hr)) as (rest' & E).
    { rewrite left_set by done. rewrite Hcons, length_app in Hf. cbn in Hf. lia. }
    exists rest'. rewrite left_set, set_set, <- foldl_app, <- Hcons in E by done. exact E.
Qed.

(** Opening a file takes the lowest free descriptor, and closing it gives it back. *)
Lemma run_open {A} (k : Z -> prog A) fds path mode w i input : files path = Some input -> lowest_free fds = Some i ->
  seq_run files (Call (Open path mode) k) pid fds w =
  seq_run files (k (Z.of_nat i)) pid (<[i := Some (SFile (length (w_open w)))]> fds)
    (mk_world (w_in w) (w_open w ++ [input]) (w_pipes w) (w_out w) (w_pid w) (w_dead w)).
Proof. intros Hf Hl. cbn [seq_run]. rewrite Hf. unfold install. by rewrite Hl. Qed.
Lemma run_close {A} (k : Z -> prog A) fds i id w : fds !! i = Some None ->
  seq_run files (Call (Close (Z.of_nat i)) k) pid (<[i := Some (SFile id)]> fds) w = seq_run files (k 0) pid fds w.
Proof.
  intros Hi. cbn [seq_run]. unfold fd_of. replace (Z.of_nat i <? 0) with false by lia. rewrite Nat2Z.id.
  rewrite list_lookup_insert_eq by by eapply lookup_lt_Some. cbn [mjoin option_join unref].
  by rewrite list_insert_insert_eq, list_insert_id.
Qed.
Lemma lowest_free_is fds i : lowest_free fds = Some i -> fds !! i = Some None.
Proof.
  revert i. induction fds as [|[o|] fds IH]; intros i H; [done| |].
  - cbn in H. apply fmap_Some in H as (j & Hj & ->). by apply IH.
  - injection H as <-. done.
Qed.
Lemma fd_of_insert fds i (o : sobj) fd : fds !! i = Some None -> fd_of fds fd = Some o ->
  forall o', fd_of (<[i := Some o']> fds) fd = Some o /\ fd_of (<[i := Some o']> fds) (Z.of_nat i) = Some o'.
Proof.
  intros Hi Ho o'. unfold fd_of in *. destruct (fd <? 0) eqn:E; [done|]. split.
  - rewrite list_lookup_insert_ne; [done|]. intros ->. by rewrite Hi in Ho.
  - replace (Z.of_nat i <? 0) with false by lia. rewrite Nat2Z.id, list_lookup_insert_eq by by eapply lookup_lt_Some. done.
Qed.
End Programs.

(** ** What wc counts *)
Definition is_sep (ch : Z) : bool := bool_decide (ch ∈ [32; 13; 9; 10; 11]).
(** The stretches between separators. *)
Fixpoint fields (s : list Z) : list (list Z) :=
  match s with
  | [] => [[]]
  | ch :: s' =>
      if is_sep ch then [] :: fields s'
      else match fields s' with f :: fs => (ch :: f) :: fs | [] => [[ch]] end
  end.
Definition words (s : list Z) : list (list Z) := filter (fun f => f <> []) (fields s).
Definition newlines (s : list Z) : nat := length (filter (fun ch => ch = 10) s).
(** The words of [s] that begin in it, when it follows a character that is, or is not,
    of a word. *)
Fixpoint begun (inword : bool) (s : list Z) : nat :=
  match s with
  | [] => 0
  | ch :: s' => if is_sep ch then begun false s' else (if inword then 0 else 1) + begun true s'
  end%nat.
Lemma strchr_sep ch : bool_decide (is_Some (strchr [32; 13; 9; 10; 11] ch)) = is_sep ch.
Proof.
  unfold is_sep. apply bool_decide_ext. rewrite !elem_of_cons, elem_of_nil. cbn [strchr].
  repeat match goal with |- context [?a =? ch] => bdestr (a =? ch) end; cbn; split; intros H; try (by eauto); try lia; try (by destruct H).
Qed.
Lemma begun_words s : begun false s = length (words s) /\
  begun true s = (length (words s) - match fields s with [] :: _ => 0 | _ => 1 end)%nat /\ fields s <> [].
Proof.
  unfold words. induction s as [|ch s (IH1 & IH2 & IH3)]; [done|]. cbn [begun fields]. destruct (is_sep ch).
  - rewrite !filter_cons_False by (by intros []). split_and!; [done|rewrite IH1; lia|done].
  - destruct (fields s) as [|f fs]; [done|]. rewrite filter_cons_True by done. rewrite filter_cons in IH1, IH2.
    destruct f; [rewrite decide_False in IH1, IH2 by (by intros [])|rewrite decide_True in IH1, IH2 by done];
      cbn [length] in *; split_and!; try done; lia.
Qed.
Lemma wc_fold s : forall l w c b, 0 <= l -> 0 <= w -> 0 <= c -> l + Z.of_nat (length s) < 2 ^ 31 ->
  w + Z.of_nat (length s) < 2 ^ 31 -> c + Z.of_nat (length s) < 2 ^ 31 ->
  (foldl wc_char (l, w, c, b) s).1 = (l + Z.of_nat (newlines s), w + Z.of_nat (begun b s), c + Z.of_nat (length s)).
Proof.
  unfold newlines. induction s as [|ch s IH]; intros l w c b Hl Hw Hc H1 H2 H3; cbn [length] in *.
  - cbn. by rewrite !Z.add_0_r.
  - cbn [foldl]. unfold wc_char at 2. rewrite strchr_sep, (s32_small (c + 1)) by lia. rewrite filter_cons. cbn [begun].
    set (l' := if ch =? 10 then s32 (l + 1) else l).
    assert (El : l' = l + (if decide (ch = 10) then 1 else 0)).
    { unfold l'. bdestr (ch =? 10); [rewrite decide_True, s32_small by (done || lia); done|rewrite decide_False by done; lia]. }
    assert (Hl' : l <= l' <= l + 1) by (rewrite El; case_decide; lia). clearbody l'.
    destruct (is_sep ch); [|destruct b; cbn [negb]; [|rewrite s32_small by lia]]; rewrite IH by lia;
      rewrite El; case_decide; cbn [length]; (apply pair_eq; split; [apply pair_eq; split|]); lia.
Qed.
Definition wc_line (name s : list Z) : list Z :=
  printf (nl "%d %d %d %s") [VInt (Z.of_nat (newlines s)); VInt (Z.of_nat (length (words s))); VInt (Z.of_nat (length s)); VStr (Some name)] ≫= snd.

Lemma unref_out fds : forall w, w_out (foldl unref w fds) = w_out w.
Proof.
  induction fds as [|o fds IH]; intros w; [done|]. cbn [foldl]. rewrite IH. destruct o as [[]|]; cbn; try done.
  by destruct (w_pipes w !! id) as [[]|].
Qed.

Section Files.
Context (files : list Z -> option (list (list Z))) (pid : Z).
Context (fds : list (option sobj)) (i : nat).
Hypothesis (Hout : fd_of fds 1 = Some SConsole) (Hfree : lowest_free fds = Some i).
Context (fuel : nat).
(** The files can be opened, and the fuel suffices for each. *)
Definition openable (f : list Z) (input : list (list Z)) : Prop := files f = Some input /\ (length (content input) < fuel)%nat.

Lemma cat_files_spec names inputs : Forall2 openable names inputs -> forall w,
  exists w', seq_run files (cat_files fuel names) pid fds w = SExit 0 w' /\ w_out w' = w_out w ++ concat (content <$> inputs).
Proof.
  induction 1 as [|f input names inputs [Hf Hfuel] _ IH]; intros w.
  - eexists. split; [done|]. rewrite unref_out. by rewrite app_nil_r.
  - cbn [cat_files]. unfold mbind at 1, prog_mbind at 1. cbn [prog_bind call]. rewrite (run_open files pid _ _ _ _ _ i input Hf Hfree).
    replace (Z.of_nat i <? 0) with false by lia. pose proof (lowest_free_is _ _ Hfree) as Hi.
    set (w1 := mk_world _ _ _ _ _ _). set (id := length (w_open w)).
    destruct (fd_of_insert fds i SConsole 1 Hi Hout (SFile id)) as [E1 E2].
    assert (El : left_in (SFile id) w1 = input) by (cbn; by rewrite lookup_app_r, Nat.sub_diag by done).
    destruct (cat_spec files pid (fun _ => Call (Close (Z.of_nat i)) (fun _ => cat_files fuel names)) _ (Z.of_nat i) (SFile id) fuel w1 E1 E2)
      as (rest & R); [cbn; rewrite length_app; cbn; lia|by rewrite El|].
    unfold mbind, prog_mbind in R |- *. cbn [prog_bind call] in R |- *. rewrite R. rewrite run_close by done. rewrite El.
    destruct (IH (add_out (content input) (set_left (SFile id) rest w1))) as (w' & R' & O). exists w'. split; [exact R'|].
    rewrite O. cbn. by rewrite app_assoc.
Qed.
Lemma wc_files_spec names inputs : Forall2 openable names inputs -> Forall (fun inp => Z.of_nat (length (content inp)) < 2 ^ 31) inputs -> forall w,
  exists w', seq_run files (wc_files fuel names) pid fds w = SExit 0 w' /\
    w_out w' = w_out w ++ concat (zip_with (fun f input => wc_line f (content input)) names inputs).
Proof.
  induction 1 as [|f input names inputs [Hf Hfuel] _ IH]; intros Hs w.
  - eexists. split; [done|]. rewrite unref_out. by rewrite app_nil_r.
  - apply list.Forall_cons in Hs as [Hs1 Hs].
    cbn [wc_files]. unfold mbind at 1, prog_mbind at 1. cbn [prog_bind call]. rewrite (run_open files pid _ _ _ _ _ i input Hf Hfree).
    replace (Z.of_nat i <? 0) with false by lia. pose proof (lowest_free_is _ _ Hfree) as Hi.
    set (w1 := mk_world _ _ _ _ _ _). set (id := length (w_open w)).
    destruct (fd_of_insert fds i SConsole 1 Hi Hout (SFile id)) as [E1 E2].
    assert (El : left_in (SFile id) w1 = input) by (cbn; by rewrite lookup_app_r, Nat.sub_diag by done).
    set (k := Call (Close (Z.of_nat i)) (fun _ => wc_files fuel names)).
    set (G := fun '(l, wd, c) => writes (printf (nl "%d %d %d %s") [VInt l; VInt wd; VInt c; VStr (Some f)]) ;; k).
    destruct (wc_loop_spec files pid G _ (Z.of_nat i) (SFile id) fuel w1 (0, 0, 0, false) E2) as (rest & R); [cbn; rewrite length_app; cbn; lia|by rewrite El|].
    set (c := content input) in *. rewrite El, wc_fold in R by (fold c; lia). fold c in R. rewrite (proj1 (begun_words c)) in R.
    cbn [G] in R. rewrite run_writes in R by (done || apply printf_stdout).
    change (prog_bind (wc fuel (Z.of_nat i) f) ?g) with (wc fuel (Z.of_nat i) f ≫= g). unfold wc. rewrite seq_run_assoc.
    rewrite (seq_run_ext files _ _ G) by (by intros [[]]). rewrite R. fold (wc_line f c).
    unfold k. rewrite run_close by done.
    destruct (IH Hs (add_out (wc_line f c) (set_left (SFile id) rest w1))) as (w' & R' & O). exists w'. split; [exact R'|].
    rewrite O. cbn. by rewrite app_assoc.
Qed.
(** cat copies the files it is given to its standard output, one after the other. *)
Lemma cat_copies arg0 names inputs w : names <> [] -> Forall2 openable names inputs ->
  exists w', seq_run files (cat_main fuel (arg0 :: names)) pid fds w = SExit 0 w' /\
    w_out w' = w_out w ++ concat (content <$> inputs).
Proof. intros Hn H. destruct names; [done|]. exact (cat_files_spec _ _ H w). Qed.
(** C37. wc counts as its definition says: given files that can be opened, in whatever
    pieces the kernel delivers them, wc prints for each the number of
    newlines, of maximal stretches without separators and of characters, and
    ends with status 0. *)
Theorem wc_counts arg0 names inputs w : names <> [] -> Forall2 openable names inputs ->
  Forall (fun inp => Z.of_nat (length (content inp)) < 2 ^ 31) inputs ->
  exists w', seq_run files (wc_main fuel (arg0 :: names)) pid fds w = SExit 0 w' /\
    w_out w' = w_out w ++ concat (zip_with (fun f input => wc_line f (content input)) names inputs).
Proof. intros Hn H Hs. destruct names; [done|]. exact (wc_files_spec _ _ H Hs w). Qed.
End Files.

(** Two files that come in pieces which cut a word and a line. *)
Definition wc_input (f : list Z) : option (list (list Z)) :=
  if decide (f = zs "a") then Some [zs "one tw"; zs "o"; [10; 9]; zs "three"] else if decide (f = zs "b") then Some [] else None.
Lemma wc_counts_witness : exists w',
  seq_run wc_input (wc_main 20 [zs "wc"; zs "a"; zs "b"]) 1 console_fds (world0 []) = SExit 0 w' /\
  w_out w' = zs "1 3 14 a" ++ [10] ++ zs "0 0 0 b" ++ [10].
Proof.
  destruct (wc_counts wc_input 1 console_fds 3 eq_refl eq_refl 20 (zs "wc") [zs "a"; zs "b"] [[zs "one tw"; zs "o"; [10; 9]; zs "three"]; []] (world0 []))
    as (w' & R & O).
  - discriminate.
  - repeat constructor; try reflexivity; vm_compute; lia.
  - repeat constructor; vm_compute; reflexivity.
  - exists w'. split; [exact R|]. rewrite O. vm_compute. reflexivity.
Defined.

(** echo writes its arguments with blanks between them and a newline at the end. *)
Lemma echo_prints files pid fds args : fd_of fds 1 = Some SConsole -> forall w,
  exists w', seq_run files (echo_args args) pid fds w = SExit 0 w' /\
    w_out w' = w_out w ++ concat (imap (fun k a => cstr a ++ (if (S k =? length args)%nat then [10] else [32])) args).
Proof.
  intros H1. induction args as [|a args IH]; intros w.
  - eexists. split; [done|]. by rewrite unref_out, app_nil_r.
  - cbn [echo_args]. unfold mbind, prog_mbind. cbn [prog_bind call seq_run]. unfold do_write. rewrite !H1.
    match goal with |- context [seq_run files (echo_args args) pid fds ?w'] => destruct (IH w') as (w2 & R & O) end.
    exists w2. split; [exact R|]. rewrite O. cbn [w_out imap concat length]. rewrite <- !app_assoc. do 2 f_equal.
    unfold compose. destruct args as [|b args]; [done|]. cbn [length]. by rewrite Nat.eqb_sym.
Qed.
