(* ===== verification/Grep.v ===== *)
(** * grep (user/grep.c)

    The matcher works on NUL-terminated strings: lists of characters with NUL
    after their end.  matchhere and matchstar call each other in the source;
    here matchstar's loop over the text is a fixpoint that takes the call of
    matchhere on the rest of the pattern as a function. *)
From S2P Require Import Prelude Mem Ulib Uprintf.

(** matchhere is tried at each character that [c], or a dot, can be. *)
Fixpoint matchstar (matchhere_re : list Z -> bool) (c : Z) (text : list Z) : bool :=
  if matchhere_re text then true else
  match text with
  | [] => false
  | t :: text' =>
      if negb (t =? 0) && ((t =? c) || (c =? 46)) then matchstar matchhere_re c text' else false
  end.
Fixpoint matchhere (re text : list Z) : bool :=
  match re with
  | [] => true
  | r0 :: re1 =>
      if r0 =? 0 then true else
      let no_star :=
        if (r0 =? 36) && (chr re1 =? 0) then chr text =? 0
        else if negb (chr text =? 0) && ((r0 =? 46) || (r0 =? chr text))
             then matchhere re1 (tail text)
             else false in
      match re1 with
      | r1 :: re2 => if r1 =? 42 then matchstar (matchhere re2) r0 text else no_star
      | [] => no_star
      end
  end.
(** matchhere is tried at each position of the text, its end included. *)
Fixpoint match_loop (re text : list Z) : bool :=
  if matchhere re text then true else
  match text with
  | [] => false
  | t :: text' => if negb (t =? 0) then match_loop re text' else false
  end.
Definition match_ (re text : list Z) : bool :=
  if chr re =? 94 then matchhere (tail re) text else match_loop re text.

(** ** Reading lines *)
Definition bufsize : nat := 1024.
(** The loop over the complete lines of buf from [p] on: the buffer with the
    newlines of the lines that do not match overwritten, the position after the
    last newline, and the lines written. *)
Fixpoint grep_lines (fuel : nat) (pattern buf : list Z) (p : nat) (out : list (Z * list Z))
  : list Z * nat * list (Z * list Z) :=
  match fuel with
  | O => (buf, p, out)
  | S fuel' =>
      match strchr (drop p buf) 10 with
      | None => (buf, p, out)
      | Some k =>
          let q := (p + k)%nat in
          let buf := <[q := 0]> buf in
          if match_ pattern (drop p buf) then
            let buf := <[q := 10]> buf in
            grep_lines fuel' pattern buf (q + 1) (out ++ [(1, slice buf p (q + 1 - p))])
          else grep_lines fuel' pattern buf (q + 1) out
      end
  end.
(** [m] is the number of bytes in buf; [None] when the fuel does not suffice. *)
Fixpoint grep_loop (fuel : nat) (pattern : list Z) (input : list (list Z)) (buf : list Z) (m : nat)
    (out : list (Z * list Z)) : option (list (Z * list Z) * list Z) :=
  match fuel with
  | O => None
  | S fuel' =>
      let '(cc, input') := read input (bufsize - m - 1) in
      let n := length cc in
      let buf := splice buf m cc in
      if (n <=? 0)%nat then Some (out, buf) else
      let m := (m + n)%nat in
      let buf := <[m := 0]> buf in
      let '(buf, p, out) := grep_lines bufsize pattern buf 0 out in
      let '(buf, m) := if (0 <? m)%nat then (splice buf 0 (slice buf p (m - p)), (m - p)%nat)
                       else (buf, m) in
      grep_loop fuel' pattern input' buf m out
  end.
(** Every round but the last takes at least one byte of the input. *)
Definition grep_fuel (input : list (list Z)) : nat := S (length (content input)).
Definition grep (pattern : list Z) (input : list (list Z)) (buf : list Z) : option (list (Z * list Z) * list Z) :=
  grep_loop (grep_fuel input) pattern input buf 0 [].

(** [main]: what it writes and its exit status.  [files] gives the input that
    opening a name yields, [None] when open() fails; [buf] is static, zero at first and kept from file to file. *)
Section Main.
Context (files : list Z -> option (list (list Z))) (stdin : list (list Z)).
Fixpoint grep_files (pattern : list Z) (argv : list (list Z)) (buf : list Z) (out : list (Z * list Z))
  : option (list (Z * list Z) * Z) :=
  match argv with
  | [] => Some (out, 0)
  | f :: argv' =>
      match files f with
      | None => Some (out ++ printf ("grep: cannot open %s" ++ String (Ascii.ascii_of_nat 10) "") [VStr (Some f)], 1)
      | Some input =>
          r ← grep pattern input buf;
          grep_files pattern argv' r.2 (out ++ r.1)
      end
  end.
Definition main (argv : list (list Z)) : option (list (Z * list Z) * Z) :=
  match argv with
  | _ :: pattern :: rest =>
      match rest with
      | [] => r ← grep pattern stdin (replicate bufsize 0); Some (r.1, 0)
      | _ => grep_files pattern rest (replicate bufsize 0) []
      end
  | _ => Some (fprintf 2 ("usage: grep pattern [file ...]" ++ String (Ascii.ascii_of_nat 10) "") [], 1)
  end.
End Main.

Example grep_star : match_ (zs "^a*b$") (zs "aaab") = true /\ match_ (zs "b.*c$") (zs "abxxcd") = false.
Proof. split; reflexivity. Qed.
