(* ===== verification/GrepProofs.v ===== *)
(** * grep: the matcher decides its pattern language, the loop loses no line

    A pattern is a sequence of characters, any of them followed by a star;
    [lang] is the set of strings such a sequence describes.  [lines_of] cuts an
    input into its newline-terminated lines. *)
From S2P Require Import Prelude Mem Ulib Uprintf Grep.

(** ** The pattern language *)
Inductive item := One (c : Z) | Star (c : Z).
Definition is_char (c x : Z) : Prop := c = 46 \/ c = x.
(** The items of a pattern, and whether a '$' ends it. *)
Fixpoint items_of (re : list Z) : list item * bool :=
  match re with
  | [] => ([], false)
  | r0 :: re1 =>
      match re1 with
      | [] => if r0 =? 36 then ([], true) else ([One r0], false)
      | r1 :: re2 =>
          if r1 =? 42 then (Star r0 :: (items_of re2).1, (items_of re2).2)
          else (One r0 :: (items_of re1).1, (items_of re1).2)
      end
  end.
Inductive lang : list item -> list Z -> Prop :=
  | lang_nil : lang [] []
  | lang_one c x l w : is_char c x -> lang l w -> lang (One c :: l) (x :: w)
  | lang_star l c v w : Forall (is_char c) v -> lang l w -> lang (Star c :: l) (v ++ w).
(** A match of the pattern [re] that starts where [text] does. *)
Definition prefix_match (re text : list Z) : Prop :=
  exists w rest, text = w ++ rest /\ lang (items_of re).1 w /\ ((items_of re).2 = true -> rest = []).
Definition text_ok (l : list Z) : Prop := Forall (fun c => c <> 0) l.

Lemma is_charb c x : (x =? c) || (c =? 46) = true <-> is_char c x.
Proof. unfold is_char. rewrite orb_true_iff, !Z.eqb_eq. split; intros []; auto. Qed.

Lemma text_ok_cons x l : text_ok (x :: l) <-> x <> 0 /\ text_ok l.
Proof. unfold text_ok. by rewrite list.Forall_cons. Qed.
Lemma text_ok_app l1 l2 : text_ok (l1 ++ l2) <-> text_ok l1 /\ text_ok l2.
Proof. unfold text_ok. by rewrite list.Forall_app. Qed.

Lemma matchstar_spec f c text :
  text_ok text ->
  matchstar f c text = true <-> exists v rest, text = v ++ rest /\ Forall (is_char c) v /\ f rest = true.
Proof.
  induction text as [|t text IH]; intros Hok.
  { cbn. split.
    - intros H. exists [], []. destruct (f []); done.
    - intros (v & rest & H & _ & Hf). symmetry in H. apply app_nil in H as [-> ->]. by rewrite Hf. }
  apply text_ok_cons in Hok as [Ht Hok]. specialize (IH Hok). cbn [matchstar].
  destruct (f (t :: text)) eqn:Hf; [split; [|done]; intros _; by exists [], (t :: text)|].
  assert ((t =? 0) = false) as -> by lia. cbn [negb andb].
  destruct ((t =? c) || (c =? 46)) eqn:Hc.
  - rewrite IH. apply is_charb in Hc. split.
    + intros (v & rest & -> & Hv & Hr). exists (t :: v), rest. split_and!; [done| |done]. by constructor.
    + intros (v & rest & Heq & Hv & Hr). destruct v as [|y v]; cbn in Heq.
      { subst rest. congruence. }
      injection Heq as <- ->. apply list.Forall_cons in Hv as [_ Hv]. by exists v, rest.
  - split; [done|]. intros (v & rest & Heq & Hv & Hr). destruct v as [|y v]; cbn in Heq.
    { subst rest. congruence. }
    injection Heq as <- ->. apply list.Forall_cons in Hv as [Hy _]. apply is_charb in Hy. congruence.
Qed.

Lemma lang_nil_inv w : lang [] w -> w = [].
Proof. inversion 1; done. Qed.
Lemma lang_one_inv c l w : lang (One c :: l) w -> exists x w', w = x :: w' /\ is_char c x /\ lang l w'.
Proof. inversion 1; subst; eauto. Qed.
Lemma lang_star_inv c l w : lang (Star c :: l) w -> exists v w', w = v ++ w' /\ Forall (is_char c) v /\ lang l w'.
Proof. inversion 1; subst; eauto. Qed.

(** One character of the pattern, not starred. *)
Lemma matchhere_one r0 re1 text l b :
  r0 <> 0 -> text_ok text -> (forall t, text_ok t -> matchhere re1 t = true <->
    exists w rest, t = w ++ rest /\ lang l w /\ (b = true -> rest = [])) ->
  (if negb (chr text =? 0) && ((r0 =? 46) || (r0 =? chr text)) then matchhere re1 (tail text) else false) = true <->
  exists w rest, text = w ++ rest /\ lang (One r0 :: l) w /\ (b = true -> rest = []).
Proof.
  intros Hr Hok IH. destruct text as [|t text]; cbn [chr tail].
  { cbn. split; [done|]. intros (w & rest & H & Hl & _). symmetry in H. apply app_nil in H as [-> ->].
    by apply lang_one_inv in Hl as (? & ? & ? & _). }
  apply text_ok_cons in Hok as [Ht Hok]. assert ((t =? 0) = false) as -> by lia. cbn [negb andb].
  assert (Hc : (r0 =? 46) || (r0 =? t) = true <-> is_char r0 t).
  { unfold is_char. by rewrite orb_true_iff, !Z.eqb_eq. }
  destruct ((r0 =? 46) || (r0 =? t)).
  - rewrite (IH text Hok). split.
    + intros (w & rest & -> & Hl & Hb). exists (t :: w), rest. split_and!; [done| |done].
      constructor; [by apply Hc|done].
    + intros (w & rest & Heq & Hl & Hb). apply lang_one_inv in Hl as (x & w' & -> & Hx & Hl).
      cbn in Heq. injection Heq as <- ->. by exists w', rest.
  - split; [done|]. intros (w & rest & Heq & Hl & Hb). apply lang_one_inv in Hl as (x & w' & -> & Hx & Hl).
    cbn in Heq. injection Heq as <- ->. apply Hc in Hx. done.
Qed.

Lemma matchhere_spec re : forall text,
  text_ok re -> text_ok text -> matchhere re text = true <-> prefix_match re text.
Proof.
  induction re as [re IH] using (well_founded_induction (well_founded_ltof _ length)).
  unfold ltof in IH. intros text Hre Hok. unfold prefix_match.
  destruct re as [|r0 re1]; cbn [matchhere items_of].
  { cbn. split; [|done]. intros _. exists [], text. split_and!; [done|constructor|done]. }
  apply text_ok_cons in Hre as [Hr0 Hre]. assert ((r0 =? 0) = false) as -> by lia.
  destruct re1 as [|r1 re2].
  - cbn [chr]. rewrite Z.eqb_refl, andb_true_r. destruct (r0 =? 36).
    + cbn [fst snd]. split.
      * intros H. destruct text as [|t text]; [by exists [], []; split_and!; [|constructor|]|].
        apply text_ok_cons in Hok as [? _]. cbn [chr] in H. lia.
      * intros (w & rest & -> & ->%lang_nil_inv & Hb). by rewrite (Hb eq_refl).
    + cbn [fst snd]. apply matchhere_one; [done|done|]. intros t Ht.
      apply (IH []); [cbn; lia|constructor|done].
  - apply text_ok_cons in Hre as Hre2. destruct Hre2 as [Hr1 Hre2].
    destruct (r1 =? 42).
    + rewrite matchstar_spec by done. cbn [fst snd]. split.
      * intros (v & rest & -> & Hv & Hm). apply text_ok_app in Hok as [_ Hok].
        apply (IH re2) in Hm as (w & rest' & -> & Hl & Hb); [|cbn; lia|done|done].
        exists (v ++ w), rest'. split_and!; [by rewrite app_assoc|by constructor|done].
      * intros (w & rest & -> & (v & w' & -> & Hv & Hl)%lang_star_inv & Hb).
        exists v, (w' ++ rest). split_and!; [by rewrite app_assoc|done|].
        rewrite <- app_assoc in Hok. apply text_ok_app in Hok as [_ Hok].
        apply (IH re2); [cbn; lia|done|done|]. by exists w', rest.
    + cbn [chr fst snd]. assert ((r1 =? 0) = false) as -> by lia. rewrite andb_false_r.
      apply matchhere_one; [done|done|]. intros t Ht. apply (IH (r1 :: re2)); [cbn; lia|done|done].
Qed.

Lemma match_loop_spec re text :
  text_ok re -> text_ok text ->
  match_loop re text = true <-> exists pre post, text = pre ++ post /\ prefix_match re post.
Proof.
  intros Hre. induction text as [|t text IH]; intros Hok; cbn [match_loop].
  - pose proof (matchhere_spec re [] Hre ltac:(constructor)) as Hm. destruct (matchhere re []).
    + split; [|done]. intros _. exists [], []. split; [done|]. by apply Hm.
    + split; [done|]. intros (pre & post & Heq & Hp). symmetry in Heq. apply app_nil in Heq as [-> ->].
      apply Hm in Hp. done.
  - pose proof (matchhere_spec re (t :: text) Hre Hok) as Hm. destruct (matchhere re (t :: text)).
    + split; [|done]. intros _. exists [], (t :: text). split; [done|]. by apply Hm.
    + apply text_ok_cons in Hok as [Ht Hok]. assert ((t =? 0) = false) as -> by lia. cbn [negb].
      rewrite (IH Hok). split.
      * intros (pre & post & -> & Hp). by exists (t :: pre), post.
      * intros (pre & post & Heq & Hp). destruct pre as [|y pre]; cbn in Heq.
        { subst post. apply Hm in Hp. done. }
        injection Heq as <- ->. by exists pre, post.
Qed.

(** C30. The matcher decides the language of its pattern: match(re, text) is true
    exactly when some substring of the text is described by the pattern, read as
    a sequence of characters, dots and starred ones, where a leading '^' wants
    the substring at the start of the text and a final '$' at its end. *)
Theorem match_decides_language re text :
  text_ok re -> text_ok text ->
  match_ re text = true <->
  exists pre w post, text = pre ++ w ++ post /\
    let body := if chr re =? 94 then tail re else re in
    (chr re = 94 -> pre = []) /\ lang (items_of body).1 w /\ ((items_of body).2 = true -> post = []).
Proof.
  intros Hre Hok. unfold match_. bdestr (chr re =? 94).
  - assert (text_ok (tail re)) by (destruct re; [constructor|]; by apply text_ok_cons in Hre as [_ ?]).
    rewrite matchhere_spec by done. unfold prefix_match. split.
    + intros (w & rest & -> & Hl & Hb). by exists [], w, rest.
    + intros (pre & w & post & -> & Hp & Hl & Hb). rewrite (Hp E). by exists w, post.
  - rewrite match_loop_spec by done. unfold prefix_match. split.
    + intros (pre & ? & -> & w & rest & -> & Hl & Hb). exists pre, w, rest. by split_and!.
    + intros (pre & w & post & -> & Hp & Hl & Hb). exists pre, (w ++ post). split; [done|]. by exists w, post.
Qed.
Lemma match_decides_language_witness :
  exists pre w post, zs "xaab" = pre ++ w ++ post /\ lang [One 97; Star 97; One 98] w /\ post = [].
Proof.
  destruct (proj1 (match_decides_language (zs "aa*b$") (zs "xaab")
    ltac:(repeat constructor; discriminate) ltac:(repeat constructor; discriminate)) eq_refl)
    as (pre & w & post & H & _ & Hl & Hb).
  exists pre, w, post. split; [exact H|]. split; [exact Hl|]. apply Hb. reflexivity.
Defined.

(** ** The matcher stops at the NUL *)
Lemma matchstar_nul f c l r :
  text_ok l -> (forall l', text_ok l' -> f (l' ++ 0 :: r) = f l') ->
  matchstar f c (l ++ 0 :: r) = matchstar f c l.
Proof.
  intros Hl Hf. induction l as [|x l IH].
  - pose proof (Hf [] ltac:(constructor)) as H0. cbn in H0 |- *. by rewrite H0.
  - pose proof (Hf (x :: l) Hl) as H0. cbn in H0 |- *. rewrite H0.
    apply text_ok_cons in Hl as [_ Hl]. by rewrite (IH Hl).
Qed.
Lemma matchhere_nul re r : forall l, text_ok l -> matchhere re (l ++ 0 :: r) = matchhere re l.
Proof.
  induction re as [re IH] using (well_founded_induction (well_founded_ltof _ length)).
  unfold ltof in IH. intros l Hl. destruct re as [|r0 re1]; [done|]. cbn [matchhere].
  destruct (r0 =? 0); [done|].
  assert (Hone : (if (r0 =? 36) && (chr re1 =? 0) then chr (l ++ 0 :: r) =? 0
      else if negb (chr (l ++ 0 :: r) =? 0) && ((r0 =? 46) || (r0 =? chr (l ++ 0 :: r)))
           then matchhere re1 (tail (l ++ 0 :: r)) else false) =
    (if (r0 =? 36) && (chr re1 =? 0) then chr l =? 0
      else if negb (chr l =? 0) && ((r0 =? 46) || (r0 =? chr l)) then matchhere re1 (tail l) else false)).
  { destruct l as [|x l]; [done|]. cbn [app chr tail]. apply text_ok_cons in Hl as [_ Hl].
    by rewrite (IH re1) by (cbn; lia || done). }
  destruct re1 as [|r1 re2]; [exact Hone|]. destruct (r1 =? 42); [|exact Hone].
  apply matchstar_nul; [done|]. intros l' Hl'. apply IH; [cbn; lia|done].
Qed.
Lemma match_nul re l r : text_ok l -> match_ re (l ++ 0 :: r) = match_ re l.
Proof.
  intros Hl. unfold match_. destruct (chr re =? 94); [by apply matchhere_nul|].
  induction l as [|x l IH].
  - pose proof (matchhere_nul re r [] Hl) as H0. cbn in H0 |- *. by rewrite H0.
  - pose proof (matchhere_nul re r (x :: l) Hl) as H0. cbn in H0 |- *. rewrite H0.
    apply text_ok_cons in Hl as [_ Hl]. by rewrite (IH Hl).
Qed.

(** ** Lines *)
(** The newline-terminated lines of [acc ++ data], where [acc] has no newline. *)
Fixpoint lines_of (acc data : list Z) : list (list Z) :=
  match data with
  | [] => []
  | c :: data' => if c =? 10 then acc :: lines_of [] data' else lines_of (acc ++ [c]) data'
  end.
Definition print_matching (pattern : list Z) (ls : list (list Z)) : list (Z * list Z) :=
  (fun l => (1, l ++ [10])) <$> filter (fun l => match_ pattern l = true) ls.
Definition no_newline (l : list Z) : Prop := Forall (fun c => c <> 10) l.

Lemma lines_of_plain l : forall acc data, no_newline l -> lines_of acc (l ++ data) = lines_of (acc ++ l) data.
Proof.
  induction l as [|c l IH]; intros acc data Hl; [by rewrite app_nil_r|].
  apply list.Forall_cons in Hl as [Hc Hl]. cbn. assert ((c =? 10) = false) as -> by lia.
  rewrite IH by done. by rewrite <- app_assoc.
Qed.
Lemma lines_of_line l data : no_newline l -> lines_of [] (l ++ 10 :: data) = l :: lines_of [] data.
Proof. intros Hl. by rewrite lines_of_plain. Qed.
Lemma lines_of_none acc l : no_newline l -> lines_of acc l = [].
Proof. intros Hl. rewrite <- (app_nil_r l). by rewrite lines_of_plain. Qed.

(** A text either has no newline or a first one. *)
Lemma first_newline data :
  no_newline data \/ exists l rest, data = l ++ 10 :: rest /\ no_newline l.
Proof.
  induction data as [|c data IH]; [left; constructor|].
  destruct (decide (c = 10)) as [->|Hc]; [right; exists [], data; by split; [|constructor]|].
  destruct IH as [H|(l & rest & -> & H)]; [left; by constructor|].
  right. exists (c :: l), rest. split; [done|]. by constructor.
Qed.

(** The scan of one buffer: with [data] at position [p] and a NUL after it. *)
Lemma grep_lines_spec pattern fuel : forall pre data junk out,
  text_ok data -> (length data < fuel)%nat ->
  exists pre' part,
    grep_lines fuel pattern (pre ++ data ++ 0 :: junk) (length pre) out =
      (pre' ++ part ++ 0 :: junk, length pre', out ++ print_matching pattern (lines_of [] data)) /\
    (length pre' + length part = length pre + length data)%nat /\ no_newline part /\ text_ok part /\
    (length pre <= length pre')%nat /\
    forall more, lines_of [] (data ++ more) = lines_of [] data ++ lines_of part more.
Proof.
  induction fuel as [|fuel IH]; intros pre data junk out Hok Hf; [lia|]. cbn [grep_lines].
  rewrite drop_app_length. destruct (first_newline data) as [Hn|(l & rest & -> & Hn)].
  - rewrite strchr_miss by done. exists pre, data. rewrite lines_of_none by done.
    split_and!; try done; [by rewrite app_nil_r|]. intros more. by rewrite lines_of_plain.
  - apply text_ok_app in Hok as Hok2. destruct Hok2 as [Hl [_ Hrest]%text_ok_cons].
    rewrite <- app_assoc. cbn [app]. rewrite strchr_app_hit; [|done|].
    2:{ apply list.Forall_and. by split. }
    rewrite app_assoc. replace (length pre + length l)%nat with (length (pre ++ l)) by (rewrite length_app; done).
    rewrite insert_app_r_alt by lia. rewrite Nat.sub_diag. cbn [insert list_insert].
    set (buf0 := (pre ++ l) ++ 0 :: rest ++ 0 :: junk).
    assert (Hd : drop (length pre) buf0 = l ++ 0 :: rest ++ 0 :: junk).
    { unfold buf0. by rewrite <- app_assoc, drop_app_length. }
    rewrite Hd, match_nul by done. rewrite lines_of_line by done.
    rewrite length_app in Hf. cbn in Hf.
    assert (Hgo : forall pre1 out1, length pre1 = (length (pre ++ l) + 1)%nat ->
      out1 ++ print_matching pattern (lines_of [] rest) = out ++ print_matching pattern (l :: lines_of [] rest) ->
      exists pre' part, grep_lines fuel pattern (pre1 ++ rest ++ 0 :: junk) (length pre1) out1 =
        (pre' ++ part ++ 0 :: junk, length pre', out ++ print_matching pattern (l :: lines_of [] rest)) /\
        (length pre' + length part = length pre + length (l ++ 10%Z :: rest))%nat /\ no_newline part /\ text_ok part /\
        (length pre <= length pre')%nat /\
        forall more, lines_of [] ((l ++ 10 :: rest) ++ more) = (l :: lines_of [] rest) ++ lines_of part more).
    { intros pre1 out1 Hlen Hout. destruct (IH pre1 rest junk out1 Hrest ltac:(lia)) as (pre' & part & H1 & H2 & H3 & H4 & H5 & H6).
      exists pre', part. rewrite H1, Hout. rewrite length_app in Hlen. split_and!; try done.
      - rewrite length_app. cbn. lia.
      - lia.
      - intros more. rewrite <- app_assoc. cbn. rewrite lines_of_line by done. by rewrite H6. }
    unfold buf0. destruct (match_ pattern l) eqn:Hm.
    + rewrite insert_app_r_alt by lia. rewrite Nat.sub_diag. cbn [insert list_insert].
      destruct (Hgo ((pre ++ l) ++ [10]) (out ++ [(1, l ++ [10])])) as (pre' & part & H1 & H2).
      { by rewrite length_app. }
      { unfold print_matching. rewrite filter_cons_True by done. rewrite fmap_cons, <- app_assoc. done. }
      exists pre', part. split; [|exact H2]. rewrite <- H1. f_equal; [by rewrite <- (app_assoc (pre ++ l))|by rewrite (length_app (pre ++ l))|].
      do 2 f_equal. f_equal. unfold slice. rewrite <- app_assoc, drop_app_length.
      rewrite length_app. replace (length pre + length l + 1 - length pre)%nat with (length (l ++ [10])) by (rewrite length_app; cbn; lia).
      change (10 :: rest ++ 0 :: junk) with ([10] ++ (rest ++ 0 :: junk)).
      by rewrite app_assoc, take_app_length.
    + destruct (Hgo ((pre ++ l) ++ [0]) out) as (pre' & part & H1 & H2).
      { by rewrite length_app. }
      { unfold print_matching. rewrite filter_cons_False by (by rewrite Hm). done. }
      exists pre', part. split; [|exact H2]. rewrite <- H1. f_equal; [by rewrite <- (app_assoc (pre ++ l))|by rewrite (length_app (pre ++ l))].
Qed.

Lemma print_matching_app pattern l1 l2 :
  print_matching pattern (l1 ++ l2) = print_matching pattern l1 ++ print_matching pattern l2.
Proof. unfold print_matching. by rewrite list.filter_app, fmap_app. Qed.
Lemma lines_of_long part data l ls : lines_of part data = l :: ls -> (length part <= length l)%nat.
Proof.
  revert part. induction data as [|c data IH]; intros part; [done|]. cbn. case_if.
  - by intros [= <- _].
  - intros H. apply IH in H. rewrite length_app in H. lia.
Qed.
(** Filling the buffer after the partial line it holds. *)
Lemma fill_buffer part junk cc :
  (length part + length cc < length (part ++ junk))%nat ->
  exists junk', <[(length part + length cc)%nat := 0]> (splice (part ++ junk) (length part) cc)
                  = part ++ cc ++ 0 :: junk' /\ length (part ++ cc ++ 0 :: junk') = length (part ++ junk).
Proof.
  intros Hlen. unfold splice. rewrite take_app_length, <- drop_drop, drop_app_length.
  rewrite length_app in Hlen. destruct (drop (length cc) junk) as [|x junk'] eqn:Hd.
  { apply (f_equal length) in Hd. rewrite length_drop in Hd. cbn in Hd. lia. }
  exists junk'. rewrite insert_app_r, insert_app_r_alt by lia.
  rewrite Nat.sub_diag. split; [done|].
  apply (f_equal length) in Hd. rewrite length_drop in Hd. cbn in Hd. rewrite !length_app. cbn. lia.
Qed.

Lemma grep_loop_spec pattern fuel : forall input part junk out,
  length (part ++ junk) = bufsize -> (length part < bufsize)%nat ->
  no_newline part -> text_ok part -> text_ok (content input) ->
  Forall (fun l => length l < bufsize - 1)%nat (lines_of part (content input)) ->
  (length (content input) < fuel)%nat ->
  exists buf', grep_loop fuel pattern input (part ++ junk) (length part) out =
    Some (out ++ print_matching pattern (lines_of part (content input)), buf').
Proof.
  induction fuel as [|fuel IH]; intros input part junk out Hbuf Hm Hnl Hok Hin Hls Hf; [lia|].
  cbn [grep_loop]. destruct (read input (bufsize - length part - 1)) as [cc input'] eqn:Hrd.
  destruct (decide (cc = [])) as [->|Hcc].
  { exists (splice (part ++ junk) (length part) []). cbn. do 2 f_equal.
    destruct (decide (bufsize - length part - 1 = 0)%nat) as [Hz|Hz].
    - destruct (lines_of part (content input)) as [|l ls] eqn:Hl; [by rewrite app_nil_r|].
      apply lines_of_long in Hl. apply list.Forall_cons in Hls as [Hlen _]. lia.
    - apply read_content in Hrd as (_ & _ & Hc); [|lia]. rewrite (Hc eq_refl). by rewrite app_nil_r. }
  assert (Hn : (0 < bufsize - length part - 1)%nat).
  { destruct (decide (0 < bufsize - length part - 1)%nat); [done|]. exfalso. apply Hcc.
    unfold read in Hrd. replace (bufsize - length part - 1)%nat with O in Hrd by lia.
    destruct input as [|[|]]; cbn in Hrd; by injection Hrd. }
  apply read_content in Hrd as (Hc & Hlen & _); [|done].
  assert (Hc' : content input = cc ++ content input') by (by destruct cc).
  rewrite Hc' in Hin, Hls, Hf |- *. clear Hc Hc'. apply text_ok_app in Hin as [Hcok Hin].
  assert (0 < length cc)%nat by (destruct cc; [done|cbn; lia]).
  destruct (length cc <=? 0)%nat eqn:Hle; [apply Nat.leb_le in Hle; lia|].
  destruct (fill_buffer part junk cc) as (junk' & -> & Hjl); [lia|].
  destruct (grep_lines_spec pattern bufsize [] (part ++ cc) junk' out)
    as (pre' & part' & Hgl & Hpl & Hnl' & Hok' & _ & Hmore).
  { by apply text_ok_app. }
  { rewrite length_app. lia. }
  cbn [app length] in Hgl. rewrite <- app_assoc in Hgl. rewrite Hgl. clear Hgl. rewrite length_app in Hpl.
  cbn [length] in Hpl. destruct (0 <? length part + length cc)%nat eqn:H0; [|apply Nat.ltb_ge in H0; lia].
  assert (Hsl : slice (pre' ++ part' ++ 0 :: junk') (length pre') (length part + length cc - length pre') = part').
  { unfold slice. rewrite drop_app_length. replace (length part + length cc - length pre')%nat with (length part') by lia.
    by rewrite take_app_length. }
  rewrite Hsl. replace (length part + length cc - length pre')%nat with (length part') by lia.
  unfold splice. rewrite take_0. cbn [app Nat.add].
  assert (Hlines : lines_of part (cc ++ content input') = lines_of [] (part ++ cc) ++ lines_of part' (content input')).
  { rewrite <- Hmore, <- app_assoc. by rewrite (lines_of_plain part []). }
  rewrite Hlines in Hls |- *. apply list.Forall_app in Hls as [_ Hls].
  rewrite print_matching_app, (app_assoc out). apply IH; try done.
  - rewrite length_app, length_drop, !length_app in *. cbn in *. lia.
  - rewrite !length_app in Hjl. cbn in Hjl. lia.
  - rewrite length_app in Hf. lia.
Qed.

(** C31. grep prints the lines that match: whatever pieces read() delivers the input
    in, and whatever is in its buffer, it terminates and writes to descriptor 1
    exactly the newline-terminated lines of the input that match the pattern, each
    once, in order and with its newline, provided that the input has no NUL and
    that no such line is longer than the 1022 characters that fit in the buffer.
    What follows the last newline is never printed. *)
Theorem grep_prints_matching_lines pattern input buf :
  length buf = bufsize -> text_ok (content input) ->
  Forall (fun l => length l < bufsize - 1)%nat (lines_of [] (content input)) ->
  exists buf', grep pattern input buf = Some (print_matching pattern (lines_of [] (content input)), buf').
Proof.
  intros Hb Hok Hls.
  apply (grep_loop_spec pattern (grep_fuel input) input [] buf []); try done.
  - unfold bufsize. cbn. lia.
  - constructor.
  - constructor.
  - unfold grep_fuel. lia.
Qed.
Lemma grep_prints_matching_lines_witness :
  exists buf', grep (zs "b") [zs "ab"; [10; 99]; [10] ++ zs "b"] (replicate bufsize 7)
    = Some ([(1, zs "ab" ++ [10])], buf').
Proof.
  destruct (grep_prints_matching_lines (zs "b") [zs "ab"; [10; 99]; [10] ++ zs "b"] (replicate bufsize 7))
    as [buf' H].
  - reflexivity.
  - repeat constructor; discriminate.
  - repeat constructor; unfold bufsize; cbn; lia.
  - exists buf'. exact H.
Defined.
