(* ===== verification/Sh.v ===== *)
(** * The shell (user/sh.c)

    A command line is parsed into a structure of nodes in the heap, which
    runcmd then executes.  A pointer to a node is its position in the heap
    counted from 1, 0 being the null pointer; a pointer into the line is an
    offset in the buffer.  The parser is a state monad over the heap and the
    position [*ps]; a panic ends it with what it wrote.  malloc is taken to
    succeed. *)
From S2P Require Import Prelude Mem Ulib Uprintf Usys.

Definition MAXARGS : nat := 10.

(** ** Commands *)
Inductive node :=
  | EXEC (argv eargv : list (option nat))
  | REDIR (cmd : nat) (file efile : nat) (mode fd : Z)
  | PIPE (left right : nat)
  | LIST (left right : nat)
  | BACK (cmd : nat).
Abbreviation heap := (list node).
(** What a pointer points at. *)
Definition node_at (h : heap) (p : nat) : option node :=
  match p with O => None | S i => h !! i end.

(** ** The parser's monad *)
Inductive pres (A : Type) :=
  | POk (a : A) (h : heap) (s : nat)
  | PPanic (out : list (Z * list Z))
  | PFuel.
Arguments POk {A}. Arguments PPanic {A}. Arguments PFuel {A}.
Definition P (A : Type) : Type := heap -> nat -> pres A.
#[export] Instance P_mret : MRet P := fun A a h s => POk a h s.
#[export] Instance P_mbind : MBind P := fun A B f m h s =>
  match m h s with POk a h' s' => f a h' s' | PPanic out => PPanic out | PFuel => PFuel end.
Definition out_of_fuel {A} : P A := fun _ _ => PFuel.
(** [panic(msg)] writes the message and exits with status 1. *)
Definition panic {A} (msg : string) : P A :=
  fun _ _ => PPanic (fprintf 2 (nl "%s") [VStr (Some (zs msg))]).

(** ** Constructors *)
Definition malloc_node (n : node) : P nat := fun h s => POk (S (length h)) (h ++ [n]) s.
Definition execcmd : P nat := malloc_node (EXEC (replicate MAXARGS None) (replicate MAXARGS None)).
Definition redircmd (subcmd file efile : nat) (mode fd : Z) : P nat := malloc_node (REDIR subcmd file efile mode fd).
Definition pipecmd (left right : nat) : P nat := malloc_node (PIPE left right).
Definition listcmd (left right : nat) : P nat := malloc_node (LIST left right).
Definition backcmd (subcmd : nat) : P nat := malloc_node (BACK subcmd).
(** [cmd->argv[i] = q; cmd->eargv[i] = eq;] *)
Definition set_arg (cmd i : nat) (q eq : option nat) : P unit := fun h s =>
  POk tt (alter (fun n => match n with EXEC a e => EXEC (<[i := q]> a) (<[i := eq]> e) | _ => n end) (pred cmd) h) s.

(** ** Tokens *)
Definition whitespace : list Z := [32; 9; 13; 10; 11].
Definition symbols : list Z := zs "<|>&;()".
Definition isin (set : list Z) (c : Z) : bool := match strchr set c with Some _ => true | None => false end.

Section Parser.
(** The buffer and the position of the NUL that ends the line. *)
Context (buf : list Z) (es : nat).
Definition at_ (s : nat) : Z := chr (drop s buf).

(** [while(s < es && strchr(whitespace, *s)) s++;] with [n = es - s] *)
Fixpoint skip_ws (n s : nat) : nat :=
  match n with
  | O => s
  | S n' => if isin whitespace (at_ s) then skip_ws n' (S s) else s
  end.
Fixpoint skip_word (n s : nat) : nat :=
  match n with
  | O => s
  | S n' => if negb (isin whitespace (at_ s)) && negb (isin symbols (at_ s)) then skip_word n' (S s) else s
  end.

(** The token's code, where it starts and where it ends. *)
Definition gettoken : P (Z * nat * nat) := fun h s =>
  let s := skip_ws (es - s) s in
  let q := s in
  let c := at_ s in
  let '(ret, s) :=
    if c =? 0 then (c, s)
    else if isin (zs "|();&<") c then (c, S s)
    else if c =? 62 then (if at_ (S s) =? 62 then (43, S (S s)) else (c, S s))
    else (97, skip_word (es - s) s) in
  let eq := s in
  POk (ret, q, eq) h (skip_ws (es - s) s).

Definition peek (toks : list Z) : P bool := fun h s =>
  let s := skip_ws (es - s) s in
  POk (ctrue (at_ s) && isin toks (at_ s)) h s.

(** A loop that takes a token in every round ends within [es - s + 1] rounds. *)
Definition rounds : P nat := fun h s => POk (S (es - s)) h s.

(** ** The grammar *)
Fixpoint parseredirs_loop (n : nat) (cmd : nat) : P nat :=
  match n with
  | O => out_of_fuel
  | S n' =>
      more ← peek (zs "<>");
      if negb more then mret cmd else
      '(tok, _, _) ← gettoken;
      '(t, q, eq) ← gettoken;
      if negb (t =? 97) then panic "missing file for redirection" else
      cmd ← (if tok =? 60 then redircmd cmd q eq O_RDONLY 0
             else if tok =? 62 then redircmd cmd q eq (Z.lor O_WRONLY O_CREATE) 1
             else if tok =? 43 then redircmd cmd q eq (Z.lor O_WRONLY O_CREATE) 1
             else mret cmd);
      parseredirs_loop n' cmd
  end.
Definition parseredirs (cmd : nat) : P nat := n ← rounds; parseredirs_loop n cmd.

Fixpoint parseexec_loop (n : nat) (cmd ret argc : nat) : P (nat * nat) :=
  match n with
  | O => out_of_fuel
  | S n' =>
      stop ← peek (zs "|)&;");
      if (stop : bool) then mret (ret, argc) else
      '(tok, q, eq) ← gettoken;
      if tok =? 0 then mret (ret, argc) else
      if negb (tok =? 97) then panic "syntax" else
      set_arg cmd argc (Some q) (Some eq) ;;
      let argc := S argc in
      if (MAXARGS <=? argc)%nat then panic "too many args" else
      ret ← parseredirs ret;
      parseexec_loop n' cmd ret argc
  end.
(** parseexec when the command is not a block. *)
Definition parsesimple : P nat :=
  ret ← execcmd;
  let cmd := ret in
  ret ← parseredirs ret;
  n ← rounds;
  '(ret, argc) ← parseexec_loop n cmd ret 0;
  set_arg cmd argc None None ;;
  mret ret.

(** [while(peek(ps, es, "&")) { gettoken; cmd = backcmd(cmd); }] *)
Fixpoint background_loop (n : nat) (cmd : nat) : P nat :=
  match n with
  | O => out_of_fuel
  | S n' =>
      more ← peek (zs "&");
      if negb more then mret cmd else
      gettoken ;;
      cmd ← backcmd cmd;
      background_loop n' cmd
  end.

Fixpoint parseline (fuel : nat) : P nat :=
  match fuel with
  | O => out_of_fuel
  | S fuel' =>
      cmd ← parsepipe fuel';
      n ← rounds;
      cmd ← background_loop n cmd;
      more ← peek (zs ";");
      if negb more then mret cmd else
      gettoken ;;
      r ← parseline fuel';
      listcmd cmd r
  end
with parsepipe (fuel : nat) : P nat :=
  match fuel with
  | O => out_of_fuel
  | S fuel' =>
      cmd ← parseexec fuel';
      more ← peek (zs "|");
      if negb more then mret cmd else
      gettoken ;;
      r ← parsepipe fuel';
      pipecmd cmd r
  end
with parseexec (fuel : nat) : P nat :=
  match fuel with
  | O => out_of_fuel
  | S fuel' =>
      block ← peek (zs "(");
      if (block : bool) then parseblock fuel' else parsesimple
  end
with parseblock (fuel : nat) : P nat :=
  match fuel with
  | O => out_of_fuel
  | S fuel' =>
      open ← peek (zs "(");
      if negb open then panic "parseblock" else
      gettoken ;;
      cmd ← parseline fuel';
      close ← peek (zs ")");
      if negb close then panic "syntax - missing )" else
      gettoken ;;
      parseredirs cmd
  end.
End Parser.

(** The calls nest by at most four levels for every character of the line. *)
Definition parse_fuel (es : nat) : nat := 4 * es + 4.

(** *** NUL-terminating the strings *)
Fixpoint nulterminate_args (argv eargv : list (option nat)) (buf : list Z) : option (list Z) :=
  match argv, eargv with
  | None :: _, _ => Some buf
  | Some _ :: argv', Some e :: eargv' => nulterminate_args argv' eargv' (<[e := 0]> buf)
  | _, _ => None
  end.
Fixpoint nulterminate (fuel : nat) (h : heap) (cmd : nat) (buf : list Z) : option (list Z) :=
  match fuel with
  | O => None
  | S fuel' =>
      match node_at h cmd with
      | None => if (cmd =? 0)%nat then Some buf else None
      | Some (EXEC argv eargv) => nulterminate_args argv eargv buf
      | Some (REDIR c file efile mode fd) => buf ← nulterminate fuel' h c buf; Some (<[efile := 0]> buf)
      | Some (PIPE l r) => buf ← nulterminate fuel' h l buf; nulterminate fuel' h r buf
      | Some (LIST l r) => buf ← nulterminate fuel' h l buf; nulterminate fuel' h r buf
      | Some (BACK c) => nulterminate fuel' h c buf
      end
  end.

(** [parsecmd]: the command, the heap and the line with its strings terminated.
    A node's children are older than the node. *)
Definition parsecmd (buf : list Z) : prog (nat * heap * list Z) :=
  let es := strlen buf in
  match (cmd ← parseline buf es (parse_fuel es); peek buf es [] ;; mret cmd) [] O with
  | PFuel => Stuck
  | PPanic out => writes out ;; exit 1
  | POk cmd h s =>
      if negb (s =? es)%nat then
        writes (fprintf 2 (nl "leftovers: %s") [VStr (Some (drop s buf))]) ;;
        writes (fprintf 2 (nl "%s") [VStr (Some (zs "syntax"))]) ;;
        exit 1
      else match nulterminate (S cmd) h cmd buf with
           | Some buf' => mret (cmd, h, buf')
           | None => Stuck
           end
  end.

(** ** Running commands *)
Definition panics {A} (msg : string) : prog A :=
  writes (fprintf 2 (nl "%s") [VStr (Some (zs msg))]) ;; exit 1.
Definition fork1 : prog Z :=
  pid ← call Fork;
  if pid =? -1 then panics "fork" else mret pid.

(** The string a pointer into the line points at; the argument vector that
    exec reads, up to the null pointer. *)
Definition str_at (buf : list Z) (q : nat) : list Z := cstr (drop q buf).
Fixpoint argv_of (buf : list Z) (argv : list (option nat)) : option (list (list Z)) :=
  match argv with
  | [] => None
  | None :: _ => Some []
  | Some q :: argv' => cons (str_at buf q) <$> argv_of buf argv'
  end.

(** runcmd does not return; [fuel] bounds the depth of the command. *)
Fixpoint runcmd (fuel : nat) (h : heap) (buf : list Z) (cmd : nat) : prog Empty_set :=
  match fuel with
  | O => Stuck
  | S fuel' =>
      if (cmd =? 0)%nat then exit 1 else
      match node_at h cmd with
      | None => Stuck
      | Some (EXEC argv eargv) =>
          match argv_of buf argv with
          | None => Stuck
          | Some [] => exit 1
          | Some (path :: args) =>
              call (Exec path (path :: args)) ;;
              writes (fprintf 2 (nl "exec %s failed") [VStr (Some path)]) ;;
              exit 0
          end
      | Some (REDIR c file efile mode fd) =>
          call (Close fd) ;;
          r ← call (Open (str_at buf file) mode);
          if r <? 0 then
            writes (fprintf 2 (nl "open %s failed") [VStr (Some (str_at buf file))]) ;;
            exit 1
          else runcmd fuel' h buf c
      | Some (LIST l r) =>
          pid ← fork1;
          if pid =? 0 then runcmd fuel' h buf l else
          call Wait ;;
          runcmd fuel' h buf r
      | Some (PIPE l r) =>
          p ← call Pipe;
          match p with
          | None => panics "pipe"
          | Some (p0, p1) =>
              pid ← fork1;
              if pid =? 0 then
                call (Close 1) ;; call (Dup p1) ;; call (Close p0) ;; call (Close p1) ;;
                runcmd fuel' h buf l
              else
              pid ← fork1;
              if pid =? 0 then
                call (Close 0) ;; call (Dup p0) ;; call (Close p0) ;; call (Close p1) ;;
                runcmd fuel' h buf r
              else
              call (Close p0) ;; call (Close p1) ;; call Wait ;; call Wait ;;
              exit 0
          end
      | Some (BACK c) =>
          pid ← fork1;
          if pid =? 0 then runcmd fuel' h buf c else exit 0
      end
  end.

(** ** The command loop *)
(** [gets] with its reads of one byte, into the zeroed buffer. *)
Fixpoint gets_calls (n : nat) (acc : list Z) : prog (list Z) :=
  match n with
  | O => mret acc
  | S n' =>
      r ← call (Read 0 1);
      match r with
      | Some (c :: _) => if (c =? 10) || (c =? 13) then mret (acc ++ [c]) else gets_calls n' (acc ++ [c])
      | _ => mret acc
      end
  end.
Definition nbuf : nat := 100.
Definition getcmd : prog (option (list Z)) :=
  writes (fprintf 2 "$ " []) ;;
  line ← gets_calls (nbuf - 1) [];
  let buf := splice (replicate nbuf 0) 0 (line ++ [0]) in
  mret (if chr buf =? 0 then None else Some buf).

(** [while((fd = open("console", O_RDWR)) >= 0) ...]: descriptors are below NOFILE. *)
Fixpoint open_console (n : nat) : prog unit :=
  match n with
  | O => Stuck
  | S n' =>
      fd ← call (Open (zs "console") O_RDWR);
      if fd <? 0 then mret tt
      else if 3 <=? fd then call (Close fd) ;; mret tt
      else open_console n'
  end.
(** [n] commands at most. *)
Fixpoint main_loop (n : nat) : prog Empty_set :=
  match n with
  | O => Stuck
  | S n' =>
      line ← getcmd;
      match line with
      | None => exit 0
      | Some buf =>
          if (at_ buf 0 =? 99) && (at_ buf 1 =? 100) && (at_ buf 2 =? 32) then
            let buf := <[(strlen buf - 1)%nat := 0]> buf in
            r ← call (Chdir (str_at buf 3));
            (if r <? 0 then writes (fprintf 2 (nl "cannot cd %s") [VStr (Some (str_at buf 3))]) else mret tt) ;;
            main_loop n'
          else
            pid ← fork1;
            if pid =? 0 then
              '(cmd, h, buf) ← parsecmd buf;
              runcmd (S cmd) h buf cmd
            else
              call Wait ;;
              main_loop n'
      end
  end.
Definition main (n : nat) : prog Empty_set := open_console 17 ;; main_loop n.
