(* ===== verification/ShProofs.v ===== *)
(** * The shell's parser

    [tokens] splits a line into words and symbols; [line], [pipeline], [command]
    and [items] are the grammar of command lines over these.  parsecmd accepts
    exactly the lines of the grammar, and the structure it leaves in the heap,
    with the strings it has cut out of the line, is the command's tree. *)
From S2P Require Import Prelude Mem Ulib Uprintf Usys Sh.

(** ** Commands and the grammar *)
Inductive cmd :=
  | Simple (argv : list (list Z))
  | Redirect (c : cmd) (file : list Z) (mode fd : Z)
  | Piped (l r : cmd)
  | Sequence (l r : cmd)
  | Background (c : cmd).

Inductive token := Word (w : list Z) | Sym (c : Z) | Append.
#[export] Instance token_eq_dec : EqDecision token.
Proof. solve_decision. Defined.
Definition isword (c : Z) : bool := negb (isin whitespace c) && negb (isin symbols c).

(** Maximal words, the symbols of one character, and [>>]. *)
Fixpoint tokens (t : list Z) : list token :=
  match t with
  | [] => []
  | c :: t' =>
      if isin whitespace c then tokens t'
      else if c =? 62 then
        match t' with
        | c' :: t'' => if c' =? 62 then Append :: tokens t'' else Sym 62 :: tokens t'
        | [] => [Sym 62]
        end
      else if isin symbols c then Sym c :: tokens t'
      else if isword (chr t') && ctrue (chr t') then
        match tokens t' with Word w :: ts => Word (c :: w) :: ts | ts => Word [c] :: ts end
      else Word [c] :: tokens t'
  end.

Definition redir : Type := list Z * Z * Z.
(** The mode and the descriptor of a redirection. *)
Definition redir_of (t : token) : option (Z * Z) :=
  match t with
  | Sym c => if c =? 60 then Some (O_RDONLY, 0)
             else if c =? 62 then Some (Z.lor O_WRONLY O_CREATE, 1) else None
  | Append => Some (Z.lor O_WRONLY O_CREATE, 1)
  | Word _ => None
  end.
(** The first redirection is applied first, so it is the innermost. *)
Definition wrap (rs : list redir) (c : cmd) : cmd :=
  foldl (fun c r => Redirect c r.1.1 r.1.2 r.2) c rs.

(** Words and redirections, in any order. *)
Inductive items : list token -> list (list Z) -> list redir -> Prop :=
  | items_nil : items [] [] []
  | items_word w ts args rs : items ts args rs -> items (Word w :: ts) (w :: args) rs
  | items_redir t mode fd f ts args rs :
      redir_of t = Some (mode, fd) -> items ts args rs ->
      items (t :: Word f :: ts) args ((f, mode, fd) :: rs).

Inductive line : list token -> cmd -> Prop :=
  | line_one ts c n : pipeline ts c ->
      line (ts ++ replicate n (Sym 38)) (Nat.iter n Background c)
  | line_list ts c n ts' c' : pipeline ts c -> line ts' c' ->
      line (ts ++ replicate n (Sym 38) ++ Sym 59 :: ts') (Sequence (Nat.iter n Background c) c')
with pipeline : list token -> cmd -> Prop :=
  | pipeline_one ts c : command ts c -> pipeline ts c
  | pipeline_pipe ts c ts' c' : command ts c -> pipeline ts' c' ->
      pipeline (ts ++ Sym 124 :: ts') (Piped c c')
with command : list token -> cmd -> Prop :=
  | command_simple ts args rs : items ts args rs -> (length args < MAXARGS)%nat ->
      command ts (wrap rs (Simple args))
  | command_block ts c rts rs : line ts c -> items rts [] rs ->
      command (Sym 40 :: ts ++ Sym 41 :: rts) (wrap rs c).

Scheme line_ind' := Induction for line Sort Prop
  with pipeline_ind' := Induction for pipeline Sort Prop
  with command_ind' := Induction for command Sort Prop.
Combined Scheme grammar_ind from line_ind', pipeline_ind', command_ind'.

(** ** Recursive descent over tokens

    The parser as it acts on the list of tokens: what it returns and what is
    left, [TPanic] when it panics. *)
Inductive tres (A : Type) := TOk (a : A) (ts : list token) | TPanic | TFuel.
Arguments TOk {A}. Arguments TPanic {A}. Arguments TFuel {A}.
Definition tbind {A B} (r : tres A) (f : A -> list token -> tres B) : tres B :=
  match r with TOk a ts => f a ts | TPanic => TPanic | TFuel => TFuel end.

Fixpoint tredirs (ts : list token) : tres (list redir) :=
  match ts with
  | t :: ts1 =>
      match redir_of t with
      | Some (mode, fd) =>
          match ts1 with
          | Word f :: ts2 => tbind (tredirs ts2) (fun rs rest => TOk ((f, mode, fd) :: rs) rest)
          | _ => TPanic
          end
      | None => TOk [] ts
      end
  | [] => TOk [] []
  end.
Definition ends_command (t : token) : bool :=
  match t with Sym c => isin (zs "|)&;") c | _ => false end.
Fixpoint titems (n : nat) (ts : list token) : tres (list (list Z) * list redir) :=
  match ts with
  | [] => TOk ([], []) []
  | t :: ts1 =>
      if ends_command t then TOk ([], []) ts else
      match t with
      | Word w =>
          if (n <=? 1)%nat then TPanic
          else tbind (titems (n - 1) ts1) (fun a rest => TOk (w :: a.1, a.2) rest)
      | _ =>
          match redir_of t, ts1 with
          | Some (mode, fd), Word f :: ts2 =>
              tbind (titems n ts2) (fun a rest => TOk (a.1, (f, mode, fd) :: a.2) rest)
          | _, _ => TPanic
          end
      end
  end.
Fixpoint tback (c : cmd) (ts : list token) : cmd * list token :=
  match ts with
  | t :: ts' => if decide (t = Sym 38) then tback (Background c) ts' else (c, ts)
  | [] => (c, [])
  end.
Fixpoint tline (fuel : nat) (ts : list token) : tres cmd :=
  match fuel with
  | O => TFuel
  | S f =>
      tbind (tpipe f ts) (fun c ts1 =>
        match tback c ts1 with
        | (c, t :: ts2) =>
            if decide (t = Sym 59) then tbind (tline f ts2) (fun r ts3 => TOk (Sequence c r) ts3) else TOk c (t :: ts2)
        | (c, []) => TOk c []
        end)
  end
with tpipe (fuel : nat) (ts : list token) : tres cmd :=
  match fuel with
  | O => TFuel
  | S f =>
      tbind (texec f ts) (fun c ts1 =>
        match ts1 with
        | t :: ts2 => if decide (t = Sym 124) then tbind (tpipe f ts2) (fun r ts3 => TOk (Piped c r) ts3) else TOk c (t :: ts2)
        | [] => TOk c []
        end)
  end
with texec (fuel : nat) (ts : list token) : tres cmd :=
  match fuel with
  | O => TFuel
  | S f =>
      let simple := tbind (titems MAXARGS ts) (fun a rest => TOk (wrap a.2 (Simple a.1)) rest) in
      match ts with
      | t :: ts1 => if decide (t = Sym 40) then tblock f ts1 else simple
      | [] => simple
      end
  end
with tblock (fuel : nat) (ts : list token) : tres cmd :=
  match fuel with
  | O => TFuel
  | S f =>
      tbind (tline f ts) (fun c ts1 =>
        match ts1 with
        | t :: ts2 =>
            if decide (t = Sym 41) then tbind (tredirs ts2) (fun rs rest => TOk (wrap rs c) rest) else TPanic
        | [] => TPanic
        end)
  end.

Example tline_example : tline 100 (tokens (zs "ls -l >out| (wc;cat<x)&"))
  = TOk (Background (Piped (Redirect (Simple [zs "ls"; zs "-l"]) (zs "out") 0x201 1)
                       (Sequence (Simple [zs "wc"]) (Redirect (Simple [zs "cat"]) (zs "x") 0 0)))) [].
Proof. vm_compute. reflexivity. Qed.

(** *** Tokens consumed *)
Lemma tredirs_items ts rs rest : tredirs ts = TOk rs rest ->
  exists pre, ts = pre ++ rest /\ items pre [] rs /\ forall t rest', rest = t :: rest' -> redir_of t = None.
Proof.
  revert rs. induction ts as [ts IH] using (well_founded_induction (well_founded_ltof _ length)).
  intros rs H. destruct ts as [|t ts]; cbn in H.
  { injection H as <- <-. exists []. split; [done|]. split; [constructor|done]. }
  destruct (redir_of t) as [[mode fd]|] eqn:Er.
  - destruct ts as [|[f| |] ts]; try done. destruct (tredirs ts) as [rs' rest'| |] eqn:E; try done.
    cbn in H. injection H as <- <-. destruct (IH ts ltac:(unfold ltof; cbn; lia) _ E) as (pre & -> & Hi & Hr).
    exists (t :: Word f :: pre). split; [done|]. split; [by constructor|done].
  - injection H as <- <-. exists []. split; [done|]. split; [constructor|]. by intros t' r' [= <- <-].
Qed.
Lemma tredirs_complete pre rs : items pre [] rs -> forall rest,
  (forall t rest', rest = t :: rest' -> redir_of t = None) -> tredirs (pre ++ rest) = TOk rs rest.
Proof.
  remember [] as args eqn:Ea. induction 1 as [|w ts args rs H IH|t mode fd f ts args rs Ht H IH]; intros rest Hr; [|done|].
  - destruct rest as [|t rest]; [done|]. cbn. by rewrite (Hr t rest).
  - cbn. rewrite Ht. by rewrite IH.
Qed.

(** What may come after a phrase: nothing, or one of the symbols. *)
Definition follows (set : list Z) (rest : list token) : bool :=
  match rest with [] => true | Sym c :: _ => isin set c | _ => false end.
Lemma ends_command_redir t : ends_command t = true -> redir_of t = None.
Proof.
  destruct t as [|c|]; cbn; [done| |done]. intros H. bdestr (c =? 60); [subst; done|]. by bdestr (c =? 62); [subst|].
Qed.
Lemma redir_ends_command t r : redir_of t = Some r -> ends_command t = false.
Proof. intros H. destruct (ends_command t) eqn:E; [|done]. by rewrite (ends_command_redir t E) in H. Qed.
Lemma follows_redir set rest : follows set rest = true -> (forall c, isin set c = true -> isin (zs "|)&;") c = true) ->
  forall t rest', rest = t :: rest' -> redir_of t = None.
Proof. intros H Hs t rest' ->. apply ends_command_redir. destruct t; cbn in *; auto. Qed.

Lemma titems_sound n ts args rs rest : titems n ts = TOk (args, rs) rest -> (0 < n)%nat ->
  exists pre, ts = pre ++ rest /\ items pre args rs /\ (length args < n)%nat.
Proof.
  revert n args rs. induction ts as [ts IH] using (well_founded_induction (well_founded_ltof _ length)).
  intros n args rs H Hn. destruct ts as [|t ts]; cbn in H.
  { injection H as <- <- <-. exists []. split; [done|]. by split; [constructor|]. }
  destruct (ends_command t) eqn:Ee.
  { injection H as <- <- <-. exists []. split; [done|]. by split; [constructor|]. }
  assert (Hr : forall mode fd, redir_of t = Some (mode, fd) ->
    match ts with Word f :: ts2 => tbind (titems n ts2) (fun a rest => TOk (a.1, (f, mode, fd) :: a.2) rest) | _ => TPanic end = TOk (args, rs) rest ->
    exists pre, t :: ts = pre ++ rest /\ items pre args rs /\ (length args < n)%nat).
  { intros mode fd Er H'. destruct ts as [|[f| |] ts]; try done.
    destruct (titems n ts) as [[a r] rest'| |] eqn:E; try done. cbn in H'. injection H' as <- <- <-.
    destruct (IH ts ltac:(unfold ltof; cbn; lia) _ _ _ E Hn) as (pre & -> & Hi & Hl).
    exists (t :: Word f :: pre). split; [done|]. split; [by constructor|done]. }
  destruct t as [w|c|].
  - destruct (n <=? 1)%nat eqn:En; [done|]. apply Nat.leb_gt in En.
    destruct (titems (n - 1) ts) as [[a r] rest'| |] eqn:E; try done. cbn in H. injection H as <- <- <-.
    destruct (IH ts ltac:(unfold ltof; cbn; lia) _ _ _ E ltac:(lia)) as (pre & -> & Hi & Hl).
    exists (Word w :: pre). split; [done|]. split; [by constructor|cbn; lia].
  - destruct (redir_of (Sym c)) as [[mode fd]|] eqn:Er; [|done]. by apply (Hr mode fd).
  - by apply (Hr _ _ eq_refl).
Qed.
Lemma titems_complete pre args rs : items pre args rs -> forall n rest,
  (length args < n)%nat -> follows (zs "|)&;") rest = true -> titems n (pre ++ rest) = TOk (args, rs) rest.
Proof.
  induction 1 as [|w ts args rs H IH|t mode fd f ts args rs Ht H IH]; intros n rest Hn Hf.
  - destruct rest as [|t rest]; [done|]. cbn. destruct t as [|c|]; cbn in *; try done. by rewrite Hf.
  - cbn [length] in Hn. cbn. replace (n <=? 1)%nat with false by (symmetry; apply Nat.leb_gt; lia). by rewrite IH by (done || lia).
  - pose proof (redir_ends_command t _ Ht) as He. destruct t; [done|..].
    all: cbn [app titems]; by rewrite He, Ht, IH.
Qed.
Lemma tback_sound ts : forall c c' rest, tback c ts = (c', rest) ->
  exists n, ts = replicate n (Sym 38) ++ rest /\ c' = Nat.iter n Background c.
Proof.
  induction ts as [|t ts IH]; intros c c' rest H; cbn in H.
  { injection H as <- <-. by exists O. }
  destruct (decide (t = Sym 38)) as [->|].
  - destruct (IH _ _ _ H) as (n & -> & ->). exists (S n). split; [done|]. by rewrite Nat.iter_succ_r.
  - injection H as <- <-. by exists O.
Qed.
Lemma tback_complete n : forall c rest, (forall t ts, rest = t :: ts -> t <> Sym 38) ->
  tback c (replicate n (Sym 38) ++ rest) = (Nat.iter n Background c, rest).
Proof.
  induction n as [|n IH]; intros c rest Hr.
  - cbn. destruct rest as [|t ts]; [done|]. cbn. destruct (decide _) as [->|]; [|done]. by destruct (Hr _ _ eq_refl).
  - cbn [replicate app tback]. rewrite decide_True by done. rewrite IH by done. by rewrite Nat.iter_succ_r.
Qed.

(** ** The grammar *)
Lemma descent_sound fuel :
  (forall ts c rest, tline fuel ts = TOk c rest -> exists pre, ts = pre ++ rest /\ line pre c) /\
  (forall ts c rest, tpipe fuel ts = TOk c rest -> exists pre, ts = pre ++ rest /\ pipeline pre c) /\
  (forall ts c rest, texec fuel ts = TOk c rest -> exists pre, ts = pre ++ rest /\ command pre c) /\
  (forall ts c rest, tblock fuel ts = TOk c rest -> exists pre, Sym 40 :: ts = pre ++ rest /\ command pre c).
Proof.
  induction fuel as [|f (IHl & IHp & IHe & IHb)]; [done|]. split_and!; intros ts c rest H; cbn in H.
  - destruct (tpipe f ts) as [c1 ts1| |] eqn:E1; try done. cbn in H. apply IHp in E1 as (p1 & -> & Hp1).
    destruct (tback c1 ts1) as [c2 ts2] eqn:Eb. apply tback_sound in Eb as (n & -> & ->).
    destruct ts2 as [|t ts2].
    { injection H as <- <-. eexists. split; [by rewrite app_assoc|by constructor]. }
    destruct (decide (t = Sym 59)) as [->|].
    + destruct (tline f ts2) as [r ts3| |] eqn:E3; try done. cbn in H. injection H as <- <-.
      apply IHl in E3 as (p3 & -> & Hp3). exists (p1 ++ replicate n (Sym 38) ++ Sym 59 :: p3).
      split; [by rewrite <- !app_assoc|by constructor].
    + injection H as <- <-. eexists. split; [by rewrite app_assoc|by constructor].
  - destruct (texec f ts) as [c1 ts1| |] eqn:E1; try done. cbn in H. apply IHe in E1 as (p1 & -> & Hp1).
    destruct ts1 as [|t ts1].
    { injection H as <- <-. exists p1. split; [done|by constructor]. }
    destruct (decide (t = Sym 124)) as [->|].
    + destruct (tpipe f ts1) as [r ts3| |] eqn:E3; try done. cbn in H. injection H as <- <-.
      apply IHp in E3 as (p3 & -> & Hp3). exists (p1 ++ Sym 124 :: p3). split; [by rewrite <- app_assoc|by constructor].
    + injection H as <- <-. exists p1. split; [done|by constructor].
  - assert (Hs : tbind (titems MAXARGS ts) (fun a rest => TOk (wrap a.2 (Simple a.1)) rest) = TOk c rest ->
      exists pre, ts = pre ++ rest /\ command pre c).
    { intros H'. destruct (titems MAXARGS ts) as [[a r] rest'| |] eqn:E; try done. cbn in H'. injection H' as <- <-.
      apply titems_sound in E as (pre & -> & Hi & Hl); [|unfold MAXARGS; lia]. exists pre. split; [done|by constructor]. }
    destruct ts as [|t ts]; [by apply Hs|]. destruct (decide (t = Sym 40)) as [->|]; [|by apply Hs]. by apply IHb.
  - destruct (tline f ts) as [c1 ts1| |] eqn:E1; try done. cbn in H. apply IHl in E1 as (p1 & -> & Hp1).
    destruct ts1 as [|t ts1]; [done|]. destruct (decide (t = Sym 41)) as [->|]; [|done].
    destruct (tredirs ts1) as [rs r| |] eqn:E; try done. cbn in H. injection H as <- <-.
    apply tredirs_items in E as (pre & -> & Hi & _). exists (Sym 40 :: p1 ++ Sym 41 :: pre).
    split; [cbn; by rewrite <- app_assoc|by constructor].
Qed.

Lemma follows_not set rest c : follows set rest = true -> isin set c = false -> forall t ts, rest = t :: ts -> t <> Sym c.
Proof. intros H Hc t ts -> ->. cbn in H. congruence. Qed.
Lemma follows_weaken set set' rest : follows set rest = true -> (forall c, isin set c = true -> isin set' c = true) -> follows set' rest = true.
Proof. destruct rest as [|[|c|] rest]; cbn; auto. Qed.
Lemma isin_cons a set c : a <> 0 -> isin (a :: set) c = (a =? c) || isin set c.
Proof.
  intros Ha. unfold isin. cbn. unfold ctrue. replace (a =? 0) with false by lia. cbn. destruct (a =? c); [done|].
  by destruct (strchr set c).
Qed.
Lemma isin_nil c : isin [] c = false.
Proof. done. Qed.
Lemma symbol_cases c : isin symbols c = isin (zs "|();&<") c || (c =? 62).
Proof.
  change symbols with [60; 124; 62; 38; 59; 40; 41]. change (zs "|();&<") with [124; 40; 41; 59; 38; 60].
  rewrite !isin_cons by lia. rewrite !isin_nil. lia.
Qed.
Lemma one_char_symbol c : isin (zs "|();&<") c = true -> isin symbols c = true /\ c <> 62.
Proof. intros H. rewrite symbol_cases, H. split; [done|]. by intros ->. Qed.
Lemma items_not_open pre args rs rest t ts : items pre args rs -> follows (zs "|)&;") rest = true ->
  pre ++ rest = t :: ts -> t <> Sym 40.
Proof.
  intros Hi Hf E ->. destruct Hi as [|w pre a r Hi|t mode fd f pre a r Ht Hi]; cbn in E.
  - by apply (follows_not _ _ 40 Hf eq_refl _ _ E).
  - done.
  - injection E as -> _. done.
Qed.
Lemma descent_complete :
  (forall ts c, line ts c -> forall f rest, follows (zs ")") rest = true -> (4 * length ts + 4 <= f)%nat -> tline f (ts ++ rest) = TOk c rest) /\
  (forall ts c, pipeline ts c -> forall f rest, follows (zs ")&;") rest = true -> (4 * length ts + 3 <= f)%nat -> tpipe f (ts ++ rest) = TOk c rest) /\
  (forall ts c, command ts c -> forall f rest, follows (zs "|)&;") rest = true -> (4 * length ts + 2 <= f)%nat -> texec f (ts ++ rest) = TOk c rest).
Proof.
  assert (Hsub : forall c, isin (zs ")") c = true -> isin (zs ")&;") c = true).
  { intros c. change (zs ")") with [41]. change (zs ")&;") with [41; 38; 59]. rewrite !isin_cons by lia. by destruct (41 =? c). }
  assert (Hsub2 : forall c, isin (zs ")&;") c = true -> isin (zs "|)&;") c = true).
  { intros c. change (zs "|)&;") with (124 :: zs ")&;"). rewrite (isin_cons 124) by lia. intros ->. apply orb_true_r. }
  apply grammar_ind; [intros ts c n _ IH|intros ts c n ts' c' _ IH _ IH'|intros ts c _ IH|intros ts c ts' c' _ IH _ IH'
    |intros ts args rs Hi Hn|intros ts c rts rs _ IH Hi]; intros [|f] rest Hf Hfuel; try lia;
    rewrite ?length_app, ?length_replicate in Hfuel; cbn [length] in Hfuel; rewrite ?length_app in Hfuel; cbn [length] in Hfuel; cbn.
  - rewrite <- app_assoc. rewrite IH; [|destruct n; [by eapply follows_weaken|done]|lia]. cbn [tbind].
    rewrite tback_complete by (by apply (follows_not _ _ 38 Hf)).
    destruct rest as [|t rest]; [done|]. rewrite decide_False; [done|]. by apply (follows_not _ _ 59 Hf eq_refl t rest).
  - rewrite ?length_replicate in Hfuel. rewrite <- !app_assoc. cbn. rewrite IH; [|by destruct n|lia]. cbn [tbind].
    rewrite tback_complete by (by intros t ts0 [= <- _]). rewrite decide_True by done. by rewrite IH' by (done || lia).
  - rewrite IH by ((by eapply follows_weaken) || lia). cbn [tbind]. destruct rest as [|t rest]; [done|].
    rewrite decide_False; [done|]. by apply (follows_not _ _ 124 Hf eq_refl t rest).
  - rewrite <- app_assoc. cbn. rewrite IH by (done || lia). cbn [tbind]. rewrite decide_True by done. by rewrite IH' by (done || lia).
  - assert (Hs : tbind (titems MAXARGS (ts ++ rest)) (fun a rest => TOk (wrap a.2 (Simple a.1)) rest) = TOk (wrap rs (Simple args)) rest).
    { by rewrite (titems_complete _ _ _ Hi). }
    destruct (ts ++ rest) as [|t l] eqn:E; [done|]. rewrite decide_False; [done|]. by eapply items_not_open.
  - rewrite <- app_assoc. cbn. destruct f as [|f]; [lia|]. cbn [tblock]. rewrite IH by (done || lia). cbn [tbind]. rewrite decide_True by done.
    rewrite (tredirs_complete _ _ Hi); [done|]. by apply (follows_redir _ _ Hf).
Qed.

(** ** The descent ends *)
Lemma tredirs_ends ts : tredirs ts <> TFuel.
Proof.
  induction ts as [ts IH] using (well_founded_induction (well_founded_ltof _ length)).
  destruct ts as [|t ts]; cbn; [done|]. destruct (redir_of t) as [[mode fd]|]; [|done].
  destruct ts as [|[f| |] ts]; try done. specialize (IH ts ltac:(unfold ltof; cbn; lia)). by destruct (tredirs ts).
Qed.
Lemma titems_ends ts : forall n, titems n ts <> TFuel.
Proof.
  induction ts as [ts IH] using (well_founded_induction (well_founded_ltof _ length)). intros n.
  destruct ts as [|t ts]; cbn; [done|]. destruct (ends_command t); [done|].
  assert (Hr : forall o, match o, ts with
    | Some (mode, fd), Word f :: ts2 => tbind (titems n ts2) (fun a rest => TOk (a.1, (f, mode, fd) :: a.2) rest)
    | _, _ => TPanic end <> (TFuel : tres (list (list Z) * list redir))).
  { intros [[mode fd]|]; [|done]. destruct ts as [|[f| |] ts]; try done.
    specialize (IH ts ltac:(unfold ltof; cbn; lia) n). by destruct (titems n ts). }
  destruct t as [w|c|]; [|apply Hr|apply (Hr (redir_of Append))].
  destruct (n <=? 1)%nat; [done|]. specialize (IH ts ltac:(unfold ltof; cbn; lia) (n - 1)%nat). by destruct (titems (n - 1) ts).
Qed.
Lemma descent_ends fuel :
  (forall ts, (4 * length ts + 4 <= fuel)%nat -> tline fuel ts <> TFuel) /\
  (forall ts, (4 * length ts + 3 <= fuel)%nat -> tpipe fuel ts <> TFuel) /\
  (forall ts, (4 * length ts + 2 <= fuel)%nat -> texec fuel ts <> TFuel) /\
  (forall ts, (4 * length ts + 5 <= fuel)%nat -> tblock fuel ts <> TFuel).
Proof.
  induction fuel as [|f (IHl & IHp & IHe & IHb)]; [split_and!; intros; lia|].
  destruct (descent_sound f) as (Sl & Sp & Se & _). split_and!; intros ts Hf; cbn.
  - specialize (IHp ts ltac:(lia)). destruct (tpipe f ts) as [c ts1| |] eqn:E; [|done|done]. cbn.
    apply Sp in E as (p1 & -> & _). rewrite length_app in Hf. destruct (tback c ts1) as [c' ts2] eqn:Eb.
    apply tback_sound in Eb as (n & -> & _). rewrite length_app in Hf. destruct ts2 as [|t ts2]; [done|]. cbn in Hf.
    destruct (decide _); [|done]. specialize (IHl ts2 ltac:(lia)). by destruct (tline f ts2).
  - specialize (IHe ts ltac:(lia)). destruct (texec f ts) as [c ts1| |] eqn:E; [|done|done]. cbn.
    apply Se in E as (p1 & -> & _). rewrite length_app in Hf. destruct ts1 as [|t ts1]; [done|]. cbn in Hf.
    destruct (decide _); [|done]. specialize (IHp ts1 ltac:(lia)). by destruct (tpipe f ts1).
  - assert (Hs : tbind (titems MAXARGS ts) (fun a rest => TOk (wrap a.2 (Simple a.1)) rest) <> TFuel).
    { pose proof (titems_ends ts MAXARGS) as H. by destruct (titems MAXARGS ts). }
    destruct ts as [|t ts]; [done|]. cbn in Hf. destruct (decide _); [|done]. apply IHb. lia.
  - specialize (IHl ts ltac:(lia)). destruct (tline f ts) as [c ts1| |] eqn:E; [|done|done]. cbn.
    destruct ts1 as [|t ts1]; [done|]. destruct (decide _); [|done].
    pose proof (tredirs_ends ts1) as H. by destruct (tredirs ts1).
Qed.

(** ** From characters to tokens *)
Definition stops (c : Z) : Prop := c = 0 \/ isword c = false.
Lemma tokens_ws c t : isin whitespace c = true -> tokens (c :: t) = tokens t.
Proof. intros H. cbn. by rewrite H. Qed.
Lemma tokens_word w rest : w <> [] -> Forall (fun c => c <> 0 /\ isword c = true) w -> stops (chr rest) ->
  tokens (w ++ rest) = Word w :: tokens rest.
Proof.
  intros Hne Hw Hr. induction w as [|c w IH]; [done|]. apply list.Forall_cons in Hw as [[Hc0 Hc] Hw].
  unfold isword in Hc. apply andb_true_iff in Hc as [Hc1%negb_true_iff Hc2%negb_true_iff].
  cbn [app tokens]. rewrite Hc1, Hc2. bdestr (c =? 62); [by subst|].
  destruct w as [|c' w].
  - cbn [app]. destruct Hr as [Hr|Hr]; rewrite Hr; [by rewrite andb_false_r|done].
  - rewrite IH by done. apply list.Forall_cons in Hw as [[H0 Hc'] _]. cbn [app chr]. rewrite Hc'. unfold ctrue.
    by replace (c' =? 0) with false by lia.
Qed.

Section Chars.
Context (text junk : list Z) (Htext : Forall (fun c => c <> 0) text).
Let buf : list Z := text ++ 0 :: junk.
Let es : nat := length text.

Lemma at_text s : (s <= es)%nat -> at_ buf s = chr (drop s text).
Proof.
  intros Hs. unfold at_, buf. rewrite drop_app_le by done. by destruct (drop s text).
Qed.
Lemma drop_es : drop es text = [].
Proof. by apply drop_ge. Qed.
Lemma drop_text s : (s < es)%nat -> exists c, drop s text = c :: drop (S s) text /\ c <> 0 /\ text !! s = Some c.
Proof.
  intros Hs. destruct (lookup_lt_is_Some_2 text s Hs) as [c Hc]. exists c. split; [by apply drop_S|].
  split; [|done]. by apply (list.Forall_lookup_1 _ _ _ _ Htext Hc).
Qed.

Lemma skip_ws_spec n : forall s, (s + n = es)%nat -> exists s', skip_ws buf n s = s' /\ (s <= s' <= es)%nat /\
  tokens (drop s' text) = tokens (drop s text) /\ isin whitespace (chr (drop s' text)) = false.
Proof.
  induction n as [|n IH]; intros s Hs; cbn [skip_ws].
  { exists s. split_and!; [done|lia|lia|done|]. rewrite drop_ge by (unfold es in *; lia). done. }
  rewrite at_text by lia. destruct (drop_text s ltac:(lia)) as (c & E & _). rewrite E. cbn [chr].
  destruct (isin whitespace c) eqn:Ew.
  - destruct (IH (S s) ltac:(lia)) as (s' & -> & Hb & Ht & Hc). exists s'. rewrite tokens_ws by done. split_and!; [done|lia|lia|done|done].
  - exists s. rewrite E. split_and!; [done|lia|lia|done|done].
Qed.
Lemma skip_word_spec n : forall s, (s + n = es)%nat -> exists w, skip_word buf n s = (s + length w)%nat /\ (s + length w <= es)%nat /\
  drop s text = w ++ drop (s + length w) text /\ Forall (fun c => c <> 0 /\ isword c = true) w /\
  stops (chr (drop (s + length w) text)).
Proof.
  induction n as [|n IH]; intros s Hs; cbn [skip_word].
  { exists []. cbn. rewrite Nat.add_0_r. split_and!; [done|lia|done|constructor|]. left. by rewrite drop_ge by (unfold es in *; lia). }
  rewrite at_text by lia. destruct (drop_text s ltac:(lia)) as (c & E & Hc & _). rewrite E. cbn [chr]. fold (isword c).
  destruct (isword c) eqn:Ew.
  - destruct (IH (S s) ltac:(lia)) as (w & -> & Hb & Hd & Hw & Hst). exists (c :: w).
    cbn [length]. rewrite Nat.add_succ_r. split_and!; [done|done|cbn; by f_equal|by constructor|done].
  - exists []. cbn. rewrite Nat.add_0_r, E. split_and!; [done|lia|done|constructor|]. by right.
Qed.

(** *** peek and gettoken *)
Definition first_char (ts : list token) : Z :=
  match ts with [] => 0 | Word w :: _ => chr w | Sym c :: _ => c | Append :: _ => 62 end.
Definition code (t : token) : Z := match t with Word _ => 97 | Sym c => c | Append => 43 end.
(** The characters from [q] to [e] are a word, and what follows is not part of it. *)
Record spans (q e : nat) (w : list Z) : Prop := {
  sp_len : e = (q + length w)%nat;
  sp_end : (e <= es)%nat;
  sp_text : slice text q (length w) = w;
  sp_word : Forall (fun c => c <> 0 /\ isword c = true) w;
  sp_stop : stops (chr (drop e text));
}.

Lemma first_char_tokens s : (s <= es)%nat -> isin whitespace (chr (drop s text)) = false ->
  first_char (tokens (drop s text)) = chr (drop s text).
Proof.
  intros Hs Hw. destruct (decide (s = es)) as [->|Hne]; [by rewrite drop_ge|].
  destruct (drop_text s ltac:(lia)) as (c & E & Hc & _). rewrite E in *. cbn [chr] in *. cbn [tokens]. rewrite Hw.
  bdestr (c =? 62).
  { subst. destruct (drop (S s) text) as [|c' t]; [done|]. by destruct (c' =? 62). }
  destruct (isin symbols c); [done|]. destruct (_ && _); [|done]. by destruct (tokens (drop (S s) text)) as [|[]].
Qed.
Lemma peek_spec h s set : (s <= es)%nat -> exists s', peek buf es set h s =
    POk (ctrue (first_char (tokens (drop s text))) && isin set (first_char (tokens (drop s text)))) h s' /\
  (s <= s' <= es)%nat /\ tokens (drop s' text) = tokens (drop s text).
Proof.
  intros Hs. destruct (skip_ws_spec (es - s) s ltac:(lia)) as (s' & Es & Hb & Ht & Hc). exists s'.
  unfold peek. rewrite Es, at_text by lia. rewrite <- (first_char_tokens s') by (done || lia). rewrite Ht. done.
Qed.

(** Tokens that a line has. *)
Definition token_ok (t : token) : Prop :=
  match t with
  | Word w => w <> [] /\ Forall (fun c => c <> 0 /\ isword c = true) w
  | Sym c => isin symbols c = true
  | Append => True
  end.
Lemma tokens_ok t : Forall (fun c => c <> 0) t -> Forall token_ok (tokens t).
Proof.
  induction t as [t IH] using (well_founded_induction (well_founded_ltof _ length)). intros Ht.
  destruct t as [|c t]; [constructor|]. apply list.Forall_cons in Ht as [Hc Ht].
  assert (IHt : Forall token_ok (tokens t)) by (apply IH; [unfold ltof; cbn; lia|done]).
  cbn [tokens]. destruct (isin whitespace c) eqn:Ew; [done|]. bdestr (c =? 62).
  { destruct t as [|c' t]; [by constructor|]. apply list.Forall_cons in Ht as [_ Ht].
    destruct (c' =? 62); constructor; try done. apply IH; [unfold ltof; cbn; lia|done]. }
  destruct (isin symbols c) eqn:Es; [by constructor|].
  assert (Hw : c <> 0 /\ isword c = true) by (unfold isword; by rewrite Ew, Es).
  assert (H1 : token_ok (Word [c])) by (split; [done|by constructor]).
  destruct (_ && _); [|by constructor]. destruct (tokens t) as [|[w|d|] ts]; try (by constructor).
  apply list.Forall_cons in IHt as [[_ Hws] Hts]. constructor; [|done]. split; [done|by constructor].
Qed.
Lemma text_tokens_ok s : Forall token_ok (tokens (drop s text)).
Proof. apply tokens_ok. by apply Forall_drop. Qed.

(** peek looks for symbols. *)
Definition peeked (set : list Z) (ts : list token) : bool :=
  match ts with Sym c :: _ => isin set c | Append :: _ => isin set 62 | _ => false end.
Lemma isin_sub set c : (forall x, isin set x = true -> isin symbols x = true) -> isword c = true -> isin set c = false.
Proof.
  intros Hs Hw. destruct (isin set c) eqn:E; [|done]. apply Hs in E. unfold isword in Hw. rewrite E in Hw. by destruct (isin whitespace c).
Qed.
Lemma isin_0 set : isin set 0 = false.
Proof.
  unfold isin. induction set as [|a set IH]; [done|]. cbn. unfold ctrue. bdestr (a =? 0); [done|]. cbn.
  by destruct (strchr set 0).
Qed.
Lemma peek_tokens set h s : (s <= es)%nat -> (forall x, isin set x = true -> isin symbols x = true) ->
  exists s', peek buf es set h s = POk (peeked set (tokens (drop s text))) h s' /\
  (s <= s' <= es)%nat /\ tokens (drop s' text) = tokens (drop s text).
Proof.
  intros Hs Hset. destruct (peek_spec h s set Hs) as (s' & E & Hb & Ht). exists s'. split; [|done]. rewrite E. f_equal.
  pose proof (text_tokens_ok s) as Hok. destruct (tokens (drop s text)) as [|[w|c|] ts]; try done; apply list.Forall_cons in Hok as [Hok _].
  - destruct Hok as [Hne Hw]. destruct w as [|c w]; [done|]. apply list.Forall_cons in Hw as [[Hc Hw] _]. cbn.
    rewrite (isin_sub set c) by done. apply andb_false_r.
  - cbn. unfold ctrue. bdestr (c =? 0); [|done]. subst. by rewrite isin_0.
Qed.

Lemma gettoken_spec h s : (s <= es)%nat -> exists q e s',
  gettoken buf es h s = POk (match tokens (drop s text) with [] => 0 | t :: _ => code t end, q, e) h s' /\ (s <= s' <= es)%nat /\
  tokens (drop s' text) = tail (tokens (drop s text)) /\
  forall t ts, tokens (drop s text) = t :: ts -> (s < s')%nat /\ forall w, t = Word w -> spans q e w.
Proof.
  intros Hs. destruct (skip_ws_spec (es - s) s ltac:(lia)) as (q & Eq & Hb & Ht & Hc). rewrite <- Ht. unfold gettoken. rewrite Eq, at_text by lia.
  assert (Hlast : forall e, (e <= es)%nat -> tokens (drop e text) = tail (tokens (drop q text)) -> exists s', skip_ws buf (es - e) e = s' /\
    (e <= s' <= es)%nat /\ tokens (drop s' text) = tail (tokens (drop q text))).
  { intros e He Ete. destruct (skip_ws_spec (es - e) e ltac:(lia)) as (s' & E & Hb' & Ht' & _). exists s'. split_and!; [done|lia|lia|congruence]. }
  destruct (decide (q = es)) as [->|Hne].
  { rewrite drop_es. cbn. exists es, es. destruct (Hlast es) as (s' & -> & Hs' & Ht'); [lia|by rewrite drop_es|].
    rewrite drop_es in Ht'. exists s'. split_and!; [done|lia|lia|done|done]. }
  destruct (drop_text q ltac:(lia)) as (c & E & Hc0 & Hcl). rewrite E in Hc. cbn [chr] in Hc.
  assert (Hdone : forall ret e ts, tokens (drop q text) = ts -> (q < e <= es)%nat -> tokens (drop e text) = tail ts ->
    ret = match ts with [] => 0 | t :: _ => code t end -> (forall w ts', ts = Word w :: ts' -> spans q e w) ->
    exists q0 e0 s', (let eq := e in POk (ret, q, eq) h (skip_ws buf (es - e) e)) =
      POk (match ts with [] => 0 | t :: _ => code t end, q0, e0) h s' /\ (s <= s' <= es)%nat /\ tokens (drop s' text) = tail ts /\
      forall t ts', ts = t :: ts' -> (s < s')%nat /\ forall w, t = Word w -> spans q0 e0 w).
  { intros ret e ts <- He Hte -> Hsp. destruct (Hlast e) as (s' & E' & Hs' & Ht'); [lia|done|]. exists q, e, s'. cbn zeta. rewrite E'.
    split_and!; [done|lia|lia|done|]. intros t ts' Hts. split; [lia|]. intros w ->. by eapply Hsp. }
  rewrite E. cbn [chr]. bdestr (c =? 0); [done|]. destruct (isin (zs "|();&<") c) eqn:E1.
  { assert (Hsym : isin symbols c = true /\ c <> 62) by (by apply one_char_symbol). destruct Hsym as [Hsym H62].
    assert (Et : tokens (c :: drop (S q) text) = Sym c :: tokens (drop (S q) text)).
    { cbn [tokens]. rewrite Hc, Hsym. by replace (c =? 62) with false by lia. }
    rewrite Et. apply (Hdone c (S q) (Sym c :: tokens (drop (S q) text))); [by rewrite E|lia|done|done|done]. }
  bdestr (c =? 62).
  { subst c. rewrite at_text by lia. destruct (decide (S q = es)) as [Eq'|Hq'].
    { rewrite Eq', drop_es. cbn [chr Z.eqb]. apply (Hdone 62 es [Sym 62]); [by rewrite E, Eq', drop_es|lia|by rewrite drop_es|done|done]. }
    destruct (drop_text (S q) ltac:(lia)) as (c' & E' & _). rewrite E'. cbn [chr]. bdestr (c' =? 62).
    - subst c'. change (tokens (62 :: 62 :: drop (S (S q)) text)) with (Append :: tokens (drop (S (S q)) text)).
      apply (Hdone 43 (S (S q)) (Append :: tokens (drop (S (S q)) text))); [by rewrite E, E'|lia|done|done|done].
    - assert (Et : tokens (62 :: c' :: drop (S (S q)) text) = Sym 62 :: tokens (drop (S q) text)).
      { rewrite E'. cbn [tokens]. rewrite Hc. cbn [Z.eqb Pos.eqb]. by replace (c' =? 62) with false by lia. }
      rewrite Et. apply (Hdone 62 (S q) (Sym 62 :: tokens (drop (S q) text))); [by rewrite E, <- Et, <- E'|lia|done|done|done]. }
  destruct (skip_word_spec (es - q) q ltac:(lia)) as (w & Ew & Hwb & Hd & Hw & Hst). rewrite Ew, <- E, Hd.
  assert (Hne' : w <> []).
  { intros ->. cbn [length app] in *. rewrite Nat.add_0_r, E in Hst. destruct Hst as [Hst|Hst]; [done|]. cbn [chr] in Hst.
    unfold isword in Hst. rewrite Hc in Hst. rewrite symbol_cases, E1 in Hst. by replace (c =? 62) with false in Hst by lia. }
  rewrite tokens_word by done. apply (Hdone 97 (q + length w)%nat (Word w :: tokens (drop (q + length w) text))); [by rewrite Hd, tokens_word|destruct w; [done|cbn [length] in *; lia]|done|done|].
  intros w' ts' [= <- <-]. split; [done|done| |done|done]. unfold slice. rewrite Hd. by rewrite take_app_length.
Qed.

(** ** The tree in the heap *)
Definition args_rep (argv eargv : list (option nat)) (args : list (list Z)) : Prop :=
  exists qs ends, argv = (Some <$> qs) ++ replicate (MAXARGS - length args) None /\
    eargv = (Some <$> ends) ++ replicate (MAXARGS - length args) None /\ (length args < MAXARGS)%nat /\ Forall3 spans qs ends args.
Inductive rep (h : heap) : nat -> cmd -> Prop :=
  | rep_exec p argv eargv args : node_at h p = Some (EXEC argv eargv) -> args_rep argv eargv args -> rep h p (Simple args)
  | rep_redir p c file efile mode fd cm f : node_at h p = Some (REDIR c file efile mode fd) -> (c < p)%nat ->
      spans file efile f -> rep h c cm -> rep h p (Redirect cm f mode fd)
  | rep_pipe p l r cl cr : node_at h p = Some (PIPE l r) -> (l < p)%nat -> (r < p)%nat -> rep h l cl -> rep h r cr -> rep h p (Piped cl cr)
  | rep_list p l r cl cr : node_at h p = Some (LIST l r) -> (l < p)%nat -> (r < p)%nat -> rep h l cl -> rep h r cr -> rep h p (Sequence cl cr)
  | rep_back p c cm : node_at h p = Some (BACK c) -> (c < p)%nat -> rep h c cm -> rep h p (Background cm).
(** Redirections wrapped around the node [c] one after the other. *)
Inductive chain (h : heap) : nat -> nat -> list redir -> Prop :=
  | chain_nil c : chain h c c []
  | chain_cons c c' r rs file efile mode fd f : node_at h c' = Some (REDIR c file efile mode fd) -> (c < c')%nat ->
      spans file efile f -> chain h c' r rs -> chain h c r ((f, mode, fd) :: rs).

Lemma node_at_app h h2 p n : node_at h p = Some n -> node_at (h ++ h2) p = Some n.
Proof. destruct p; [done|]. cbn. intros H. by apply lookup_app_l_Some. Qed.
Lemma node_at_lt h p n : node_at h p = Some n -> (0 < p <= length h)%nat.
Proof. destruct p; [done|]. intros H%lookup_lt_Some. lia. Qed.
Lemma node_at_new h n h2 : node_at (h ++ n :: h2) (S (length h)) = Some n.
Proof. apply list_lookup_middle. done. Qed.
Lemma rep_app h h2 p c : rep h p c -> rep (h ++ h2) p c.
Proof.
  induction 1; [eapply rep_exec|eapply rep_redir|eapply rep_pipe|eapply rep_list|eapply rep_back]; eauto using node_at_app.
Qed.
Lemma rep_lt h p c : rep h p c -> (0 < p <= length h)%nat.
Proof. destruct 1; by eapply node_at_lt. Qed.
Lemma chain_mono h h' c r rs : chain h c r rs ->
  (forall p n, (c < p)%nat -> node_at h p = Some n -> node_at h' p = Some n) -> chain h' c r rs.
Proof.
  induction 1 as [|c c' r rs file efile mode fd f Hn Hlt Hsp Hc IH]; intros Hm; [constructor|].
  eapply chain_cons; [by apply Hm|done|done|]. apply IH. intros p n Hp. apply Hm. lia.
Qed.
Lemma chain_app h c r rs r' rs' : chain h c r rs -> chain h r r' rs' -> chain h c r' (rs ++ rs').
Proof. induction 1; intros H'; [done|]. eapply chain_cons; eauto. Qed.
Lemma chain_le h c r rs : chain h c r rs -> (c <= length h)%nat -> (c <= r <= length h)%nat.
Proof.
  induction 1 as [|c c' r rs file efile mode fd f Hn Hlt Hsp Hc IH]; intros Hl; [lia|].
  apply node_at_lt in Hn. lia.
Qed.
Lemma chain_rep h c r rs cm : chain h c r rs -> rep h c cm -> rep h r (wrap rs cm).
Proof.
  intros H. revert cm. induction H as [|c c' r rs file efile mode fd f Hn Hlt Hsp Hc IH]; intros cm Hr; [done|].
  apply (IH (Redirect cm f mode fd)). by eapply rep_redir.
Qed.

(** ** The parser follows the descent *)
Lemma P_bind_ok {A B} (m : P A) (k : A -> P B) h s a h' s' : m h s = POk a h' s' -> (m ≫= k) h s = k a h' s'.
Proof. intros H. unfold mbind, P_mbind. by rewrite H. Qed.
Lemma P_bind_panic {A B} (m : P A) (k : A -> P B) h s out : m h s = PPanic out -> (m ≫= k) h s = PPanic out.
Proof. intros H. unfold mbind, P_mbind. by rewrite H. Qed.
Lemma malloc_step {B} n (k : nat -> P B) h s : (malloc_node n ≫= k) h s = k (S (length h)) (h ++ [n]) s.
Proof. done. Qed.
Lemma sub_redir x : isin (zs "<>") x = true -> isin symbols x = true.
Proof. change (zs "<>") with [60; 62]. rewrite symbol_cases. change (zs "|();&<") with [124; 40; 41; 59; 38; 60].
  rewrite !isin_cons by lia. rewrite !isin_nil. lia. Qed.
Lemma sub_stop x : isin (zs "|)&;") x = true -> isin symbols x = true.
Proof. change (zs "|)&;") with [124; 41; 38; 59]. rewrite symbol_cases. change (zs "|();&<") with [124; 40; 41; 59; 38; 60].
  rewrite !isin_cons by lia. rewrite !isin_nil. lia. Qed.
Lemma sub_one a : isin symbols a = true -> forall x, isin [a] x = true -> isin symbols x = true.
Proof.
  intros Ha x. destruct (decide (a = 0)) as [->|Hz]; [by rewrite isin_0 in Ha|]. rewrite isin_cons, isin_nil by done. bdestr (a =? x); [by subst|done].
Qed.
Lemma peeked_redir ts : Forall token_ok ts -> peeked (zs "<>") ts = match ts with t :: _ => match redir_of t with Some _ => true | None => false end | [] => false end.
Proof.
  intros H. destruct ts as [|[w|c|] ts]; [done|done| |done]. cbn [peeked redir_of]. change (zs "<>") with [60; 62].
  rewrite !isin_cons by lia. rewrite isin_nil. bdestr (c =? 60); [subst; done|]. bdestr (c =? 62); [subst; done|]. lia.
Qed.

(** A call of the parser does what the descent does from the tokens at [s]. *)
Definition sim {A B} (R : heap -> A -> B -> Prop) (m : P A) (h : heap) (s : nat) (r : tres B) : Prop :=
  match r with
  | TOk b rest => exists a h2 s', m h s = POk a (h ++ h2) s' /\ (s <= s' <= es)%nat /\ tokens (drop s' text) = rest /\ R (h ++ h2) a b
  | TPanic => exists out, m h s = PPanic out
  | TFuel => True
  end.
Lemma redir_token t mode fd (c q e : nat) : redir_of t = Some (mode, fd) ->
  (if code t =? 60 then redircmd c q e O_RDONLY 0
   else if code t =? 62 then redircmd c q e (Z.lor O_WRONLY O_CREATE) 1
   else if code t =? 43 then redircmd c q e (Z.lor O_WRONLY O_CREATE) 1 else mret c) = redircmd c q e mode fd.
Proof.
  destruct t as [w|x|]; cbn; [done| |by intros [= <- <-]]. bdestr (x =? 60); [by intros [= <- <-]|]. bdestr (x =? 62); [by intros [= <- <-]|done].
Qed.
Lemma parseredirs_loop_spec n : forall h s c, (s <= es)%nat -> (es - s < n)%nat -> (c <= length h)%nat ->
  sim (fun h' r rs => chain h' c r rs) (parseredirs_loop buf es n c) h s (tredirs (tokens (drop s text))).
Proof.
  induction n as [|n IH]; intros h s c Hs Hn Hc; [lia|]. cbn [parseredirs_loop].
  destruct (peek_tokens (zs "<>") h s Hs sub_redir) as (s1 & E1 & Hs1 & Ht1).
  rewrite peeked_redir in E1 by apply text_tokens_ok. rewrite <- Ht1. rewrite <- Ht1 in E1.
  destruct (tokens (drop s1 text)) as [|t ts] eqn:Et.
  { exists c, [], s1. rewrite (P_bind_ok _ _ _ _ _ _ _ E1). cbn. rewrite app_nil_r. split_and!; [done|lia|lia|done|constructor]. }
  cbn [tredirs]. destruct (redir_of t) as [[mode fd]|] eqn:Er.
  2:{ exists c, [], s1. rewrite (P_bind_ok _ _ _ _ _ _ _ E1). cbn. rewrite app_nil_r. split_and!; [done|lia|lia|done|constructor]. }
  destruct (gettoken_spec h s1 ltac:(lia)) as (q1 & e1 & s2 & E2 & Hs2 & Ht2 & Hadv). rewrite Et in E2, Ht2, Hadv.
  destruct (Hadv t ts eq_refl) as [Hlt _]. cbn [tail] in Ht2.
  destruct (gettoken_spec h s2 ltac:(lia)) as (q2 & e2 & s3 & E3 & Hs3 & Ht3 & Hadv3). rewrite Ht2 in E3, Ht3, Hadv3.
  unfold sim. rewrite (P_bind_ok _ _ _ _ _ _ _ E1). cbn [negb]. rewrite (P_bind_ok _ _ _ _ _ _ _ E2), (P_bind_ok _ _ _ _ _ _ _ E3).
  assert (Hbad : forall x, x <> 97 -> exists out : list (Z * list Z),
    (if negb (x =? 97) then panic "missing file for redirection" else
      cmd ← (if code t =? 60 then redircmd c q2 e2 O_RDONLY 0 else if code t =? 62 then redircmd c q2 e2 (Z.lor O_WRONLY O_CREATE) 1
        else if code t =? 43 then redircmd c q2 e2 (Z.lor O_WRONLY O_CREATE) 1 else mret c); parseredirs_loop buf es n cmd) h s3 = PPanic out).
  { intros x Hx. replace (x =? 97) with false by lia. eexists. done. }
  pose proof (text_tokens_ok s2) as Hok. rewrite Ht2 in Hok.
  destruct ts as [|[f|x|] ts]; [by apply Hbad| |apply list.Forall_cons in Hok as [Hok _]; apply Hbad; cbn; by intros ->|by apply Hbad].
  cbn [code negb Z.eqb Pos.eqb]. rewrite (redir_token t mode fd c q2 e2 Er). unfold redircmd. rewrite malloc_step.
  destruct (Hadv3 _ _ eq_refl) as [Hlt3 Hsp]. specialize (Hsp f eq_refl). cbn [tail] in Ht3.
  pose proof (IH (h ++ [REDIR c q2 e2 mode fd]) s3 (S (length h)) ltac:(lia) ltac:(lia) ltac:(rewrite length_app; cbn; lia)) as HI.
  rewrite Ht3 in HI. destruct (tredirs ts) as [rs rest| |]; cbn [sim tbind] in *.
  - destruct HI as (r & h2 & s' & E & Hs' & Ht' & Hch). rewrite <- app_assoc in E, Hch. exists r, (REDIR c q2 e2 mode fd :: h2), s'.
    split_and!; [done|lia|lia|done|]. eapply chain_cons; [apply node_at_new|lia|done|done].
  - done.
  - done.
Qed.
Lemma parseredirs_spec h s c : (s <= es)%nat -> (c <= length h)%nat ->
  sim (fun h' r rs => chain h' c r rs) (parseredirs buf es c) h s (tredirs (tokens (drop s text))).
Proof. intros Hs Hc. apply parseredirs_loop_spec; [done|lia|done]. Qed.
Lemma titems_redirs n ts : titems n ts =
  tbind (tredirs ts) (fun rs rest => tbind (titems n rest) (fun a r => TOk (a.1, rs ++ a.2) r)).
Proof.
  induction ts as [ts IH] using (well_founded_induction (well_founded_ltof _ length)).
  destruct ts as [|t ts]; [done|]. cbn [tredirs]. destruct (redir_of t) as [[mode fd]|] eqn:Er.
  - pose proof (redir_ends_command t _ Er) as He.
    assert (Et : titems n (t :: ts) = match ts with Word f :: ts2 => tbind (titems n ts2) (fun a rest => TOk (a.1, (f, mode, fd) :: a.2) rest) | _ => TPanic end).
    { cbn [titems]. rewrite He. destruct t; [done|..]; by rewrite Er. }
    rewrite Et. destruct ts as [|[f| |] ts]; try done. rewrite (IH ts) by (unfold ltof; cbn; lia).
    destruct (tredirs ts) as [rs rest| |]; cbn [tbind]; try done. by destruct (titems n rest) as [[a r] r'| |].
  - cbn [tbind]. by destruct (titems n (t :: ts)) as [[a r] r'| |].
Qed.

Lemma set_arg_step {B} h0 a e hr i q eq (k : unit -> P B) s :
  (set_arg (S (length h0)) i q eq ≫= k) (h0 ++ EXEC a e :: hr) s = k tt (h0 ++ EXEC (<[i := q]> a) (<[i := eq]> e) :: hr) s.
Proof.
  unfold set_arg, mbind, P_mbind. cbn [pred].
  by rewrite alter_app_r_alt, Nat.sub_diag by done.
Qed.
Lemma node_at_swap h0 n n' hr p m : (S (length h0) < p)%nat -> node_at (h0 ++ n :: hr) p = Some m -> node_at (h0 ++ n' :: hr) p = Some m.
Proof.
  destruct p as [|p]; [done|]. cbn. intros Hp. rewrite !lookup_app_r by lia. destruct (p - length h0)%nat eqn:E; [lia|done].
Qed.
Lemma insert_first_free {A} (xs : list A) (n : nat) x : (0 < n)%nat ->
  <[length xs := Some x]> ((Some <$> xs) ++ replicate n None) = (Some <$> xs ++ [x]) ++ replicate (n - 1) None.
Proof.
  intros Hn. destruct n as [|n]; [lia|]. cbn [replicate]. rewrite Nat.sub_succ, Nat.sub_0_r.
  rewrite insert_app_r_alt by (by rewrite length_fmap). rewrite length_fmap, Nat.sub_diag. cbn. by rewrite fmap_app, <- app_assoc.
Qed.
Lemma args_rep_snoc a e args q eq w : args_rep a e args -> spans q eq w -> (S (length args) < MAXARGS)%nat ->
  args_rep (<[length args := Some q]> a) (<[length args := Some eq]> e) (args ++ [w]).
Proof.
  intros (qs & ends & -> & -> & Hl & HF) Hsp Hn. pose proof (Forall3_length_lm _ _ _ _ HF) as L1. pose proof (Forall3_length_lr _ _ _ _ HF) as L2.
  exists (qs ++ [q]), (ends ++ [eq]). rewrite length_app. cbn [length].
  replace (MAXARGS - (length args + 1))%nat with (MAXARGS - length args - 1)%nat by lia.
  split_and!; [rewrite <- L2, insert_first_free; [done|lia]|rewrite <- L2, L1, insert_first_free; [done|lia]|lia|].
  apply Forall3_app; [done|]. constructor; [done|constructor].
Qed.
Lemma insert_null {A} (xs : list A) n : (0 < n)%nat ->
  <[length xs := None]> ((Some <$> xs) ++ replicate n None) = (Some <$> xs) ++ replicate n None.
Proof. intros Hn. apply list_insert_id. rewrite lookup_app_r by (by rewrite length_fmap). rewrite length_fmap, Nat.sub_diag. by destruct n; [lia|]. Qed.
Lemma args_rep_null a e args : args_rep a e args -> <[length args := None]> a = a /\ <[length args := None]> e = e.
Proof.
  intros (qs & ends & -> & -> & Hl & HF). pose proof (Forall3_length_lm _ _ _ _ HF) as L1. pose proof (Forall3_length_lr _ _ _ _ HF) as L2.
  split; [rewrite <- L2|rewrite <- L2, L1]; apply insert_null; lia.
Qed.

Definition exec_ok (h0 : heap) (a e : list (option nat)) (hr : heap) (ret : nat) (args : list (list Z)) (rs : list redir) : Prop :=
  args_rep a e args /\ chain (h0 ++ EXEC a e :: hr) (S (length h0)) ret rs.
Definition loop_sim (h0 : heap) (args : list (list Z)) (rs : list redir) (s : nat) (m : pres (nat * nat))
    (r : tres (list (list Z) * list redir)) : Prop :=
  match r with
  | TOk (args', rs') rest => exists ret' a' e' hr' s', m = POk (ret', length (args ++ args')) (h0 ++ EXEC a' e' :: hr') s' /\
      (s <= s' <= es)%nat /\ tokens (drop s' text) = rest /\ exec_ok h0 a' e' hr' ret' (args ++ args') (rs ++ rs')
  | TPanic => exists out, m = PPanic out
  | TFuel => True
  end.
Lemma parseexec_loop_spec h0 n : forall a e hr ret args rs s, (s <= es)%nat -> (es - s < n)%nat -> exec_ok h0 a e hr ret args rs ->
  (forall t ts, tokens (drop s text) = t :: ts -> redir_of t = None) ->
  loop_sim h0 args rs s (parseexec_loop buf es n (S (length h0)) ret (length args) (h0 ++ EXEC a e :: hr) s)
    (titems (MAXARGS - length args) (tokens (drop s text))).
Proof.
  induction n as [|n IH]; intros a e hr ret args rs s Hs Hn [Ha Hc] Hnr; [lia|]. cbn [parseexec_loop].
  destruct (peek_tokens (zs "|)&;") (h0 ++ EXEC a e :: hr) s Hs sub_stop) as (s1 & E1 & Hs1 & Ht1).
  rewrite (P_bind_ok _ _ _ _ _ _ _ E1). rewrite <- Ht1. rewrite <- Ht1 in Hnr.
  assert (Hstop : forall s2, (s <= s2 <= es)%nat -> loop_sim h0 args rs s (POk (ret, length args) (h0 ++ EXEC a e :: hr) s2) (TOk ([], []) (tokens (drop s2 text)))).
  { intros s2 Hs2. exists ret, a, e, hr, s2. rewrite !app_nil_r. by split; [|split; [lia|]]. }
  destruct (gettoken_spec (h0 ++ EXEC a e :: hr) s1 ltac:(lia)) as (q & eq & s2 & E2 & Hs2 & Ht2 & Hadv).
  pose proof (text_tokens_ok s1) as Hok. destruct (tokens (drop s1 text)) as [|t ts] eqn:Et.
  { cbn [peeked]. rewrite (P_bind_ok _ _ _ _ _ _ _ E2). cbn [Z.eqb titems]. change (@nil token) with (tail (@nil token)). rewrite <- Ht2. apply Hstop. lia. }
  cbn [peeked tail] in *. destruct (Hadv _ _ eq_refl) as [Hlt Hsp]. pose proof (Hnr _ _ eq_refl) as Hr. apply list.Forall_cons in Hok as [Hok _].
  destruct t as [w|c|]; [| |done].
  2:{ cbn [titems ends_command]. destruct (isin (zs "|)&;") c) eqn:Es; [rewrite <- Et; apply Hstop; lia|].
      rewrite (P_bind_ok _ _ _ _ _ _ _ E2), Hr. cbn [code]. bdestr (c =? 0); [by subst|].
      bdestr (c =? 97); [by subst|]. cbn [negb]. eexists. done. }
  rewrite (P_bind_ok _ _ _ _ _ _ _ E2). cbn [code Z.eqb Pos.eqb negb titems ends_command].
  rewrite set_arg_step. specialize (Hsp w eq_refl). assert (HM : (length args < MAXARGS)%nat) by (by destruct Ha as (? & ? & _ & _ & ? & _)).
  destruct (MAXARGS <=? S (length args))%nat eqn:EM.
  { apply Nat.leb_le in EM. replace (MAXARGS - length args <=? 1)%nat with true by (symmetry; apply Nat.leb_le; lia). eexists. done. }
  apply Nat.leb_gt in EM. replace (MAXARGS - length args <=? 1)%nat with false by (symmetry; apply Nat.leb_gt; lia).
  pose proof (args_rep_snoc _ _ _ _ _ _ Ha Hsp EM) as Ha'. set (a1 := <[_ := Some q]> a) in *. set (e1 := <[_ := Some eq]> e) in *.
  assert (Hc' : chain (h0 ++ EXEC a1 e1 :: hr) (S (length h0)) ret rs).
  { eapply chain_mono; [exact Hc|]. intros p m Hp. by apply node_at_swap. }
  assert (Hret : (ret <= length (h0 ++ EXEC a1 e1 :: hr))%nat).
  { apply (chain_le _ _ _ _ Hc'). rewrite length_app. cbn. lia. }
  pose proof (parseredirs_spec _ s2 ret ltac:(lia) Hret) as HR. rewrite Ht2 in HR. rewrite titems_redirs.
  destruct (tredirs ts) as [rs1 rest| |] eqn:Etr; cbn [tbind sim] in *; [|by destruct HR as (out & E3); exists out; exact (P_bind_panic _ _ _ _ _ E3)|done].
  destruct HR as (ret1 & h2 & s3 & E3 & Hs3 & Ht3 & Hch). rewrite (P_bind_ok _ _ _ _ _ _ _ E3).
  rewrite <- app_assoc in Hch. rewrite <- app_assoc. cbn [app] in *.
  pose proof (IH a1 e1 (hr ++ h2) ret1 (args ++ [w]) (rs ++ rs1) s3 ltac:(lia) ltac:(lia)) as HI. rewrite length_app, Nat.add_1_r in HI.
  rewrite Ht3 in HI. replace (MAXARGS - length args - 1)%nat with (MAXARGS - S (length args))%nat by lia.
  assert (Hinv : exec_ok h0 a1 e1 (hr ++ h2) ret1 (args ++ [w]) (rs ++ rs1)).
  { split; [done|]. apply (chain_app _ _ ret); [|done].
    eapply chain_mono; [exact Hc'|]. intros p m _ Hm. change (h0 ++ EXEC a1 e1 :: hr ++ h2) with (h0 ++ (EXEC a1 e1 :: hr) ++ h2).
    rewrite app_assoc. by apply node_at_app. }
  specialize (HI Hinv). apply tredirs_items in Etr as (pre & _ & _ & Hrest). specialize (HI (fun t ts' E => Hrest t ts' E)).
  destruct (titems (MAXARGS - S (length args)) rest) as [[args' rs'] rest'| |]; cbn [loop_sim tbind fst snd] in *; [|done|done].
  destruct HI as (ret' & a' & e' & hr' & s' & E' & Hs' & Ht' & HI). rewrite <- !app_assoc in E', HI. cbn [app] in *.
  exists ret', a', e', hr', s'. split; [done|]. split; [lia|]. split; [done|]. by rewrite (app_assoc rs).
Qed.
Lemma args_rep_nil : args_rep (replicate MAXARGS None) (replicate MAXARGS None) [].
Proof. exists [], []. split_and!; [done|done|unfold MAXARGS; cbn; lia|constructor]. Qed.
Lemma parsesimple_spec h s : (s <= es)%nat ->
  sim rep (parsesimple buf es) h s (tbind (titems MAXARGS (tokens (drop s text))) (fun a rest => TOk (wrap a.2 (Simple a.1)) rest)).
Proof.
  intros Hs. unfold parsesimple, execcmd. set (x := EXEC _ _).
  pose proof (parseredirs_spec (h ++ [x]) s (S (length h)) Hs ltac:(rewrite length_app; cbn; lia)) as HR.
  rewrite titems_redirs. destruct (tredirs (tokens (drop s text))) as [rs rest| |] eqn:Etr; cbn [tbind sim] in *;
    [|destruct HR as (out & E); exists out; rewrite malloc_step; exact (P_bind_panic _ _ _ _ _ E)|done].
  destruct HR as (ret & h2 & s1 & E1 & Hs1 & Ht1 & Hch). rewrite <- app_assoc in Hch, E1. cbn [app] in Hch, E1.
  apply tredirs_items in Etr as (pre & _ & _ & Hrest).
  pose proof (parseexec_loop_spec h (S (es - s1)) _ _ h2 ret [] rs s1 ltac:(lia) ltac:(lia) (conj args_rep_nil Hch)) as HL.
  rewrite Ht1, Nat.sub_0_r in HL. specialize (HL Hrest). unfold sim.
  destruct (titems MAXARGS rest) as [[args rs'] rest'| |]; cbn [tbind loop_sim fst snd app length] in *; [| |done].
  - destruct HL as (ret' & a & e & hr & s' & E2 & Hs' & Ht' & Ha & Hc').
    exists ret', (EXEC a e :: hr), s'. split; [|split; [lia|split; [done|]]].
    + rewrite malloc_step. rewrite (P_bind_ok _ _ _ _ _ _ _ E1). unfold rounds at 1. unfold mbind at 1. unfold P_mbind at 1.
      rewrite (P_bind_ok _ _ _ _ _ _ _ E2). rewrite set_arg_step. by destruct (args_rep_null _ _ _ Ha) as [-> ->].
    + eapply chain_rep; [exact Hc'|]. eapply rep_exec; [apply node_at_new|done].
  - destruct HL as (out & E2). exists out. rewrite malloc_step. rewrite (P_bind_ok _ _ _ _ _ _ _ E1). unfold rounds at 1. unfold mbind at 1. unfold P_mbind at 1.
    exact (P_bind_panic _ _ _ _ _ E2).
Qed.

Lemma background_loop_spec n : forall h s c cm, (s <= es)%nat -> (es - s < n)%nat -> rep h c cm ->
  exists c' h2 s', background_loop buf es n c h s = POk c' (h ++ h2) s' /\ (s <= s' <= es)%nat /\
    tokens (drop s' text) = (tback cm (tokens (drop s text))).2 /\ rep (h ++ h2) c' (tback cm (tokens (drop s text))).1.
Proof.
  induction n as [|n IH]; intros h s c cm Hs Hn Hr; [lia|]. cbn [background_loop].
  destruct (peek_tokens (zs "&") h s Hs (sub_one 38 eq_refl)) as (s1 & E1 & Hs1 & Ht1). rewrite <- Ht1 in *.
  rewrite (P_bind_ok _ _ _ _ _ _ _ E1).
  assert (Hstop : forall b, b = false -> (tback cm (tokens (drop s1 text))) = (cm, tokens (drop s1 text)) -> exists c' h2 s',
    (if negb b then mret c else gettoken buf es ≫= fun _ => cmd ← backcmd c; background_loop buf es n cmd) h s1 = POk c' (h ++ h2) s' /\
    (s <= s' <= es)%nat /\ tokens (drop s' text) = (tback cm (tokens (drop s1 text))).2 /\ rep (h ++ h2) c' (tback cm (tokens (drop s1 text))).1).
  { intros b -> ->. exists c, [], s1. rewrite app_nil_r. by split; [|split; [lia|]]. }
  pose proof (text_tokens_ok s1) as Hok. destruct (tokens (drop s1 text)) as [|[w|x|] ts] eqn:Et; try (by apply Hstop).
  cbn [peeked] in *. change (zs "&") with [38] in *. rewrite isin_cons, isin_nil, orb_false_r in * by lia. bdestr (38 =? x).
  2:{ apply Hstop; [done|]. cbn. rewrite decide_False; [done|]. congruence. }
  subst x. cbn [negb]. destruct (gettoken_spec h s1 ltac:(lia)) as (q & e & s2 & E2 & Hs2 & Ht2 & Hadv). rewrite Et in Ht2, Hadv.
  destruct (Hadv _ _ eq_refl) as [Hlt _]. rewrite (P_bind_ok _ _ _ _ _ _ _ E2). unfold backcmd. rewrite malloc_step.
  destruct (IH (h ++ [BACK c]) s2 (S (length h)) (Background cm)) as (c' & h2 & s' & E3 & Hs3 & Ht3 & Hr3); [lia|lia| |].
  { apply rep_lt in Hr as Hlt'. eapply rep_back; [apply node_at_new|lia|by apply rep_app]. }
  rewrite Ht2 in Ht3, Hr3. cbn [tail] in *. rewrite <- app_assoc in E3, Hr3. exists c', ([BACK c] ++ h2), s'.
  cbn [tback]. rewrite decide_True by done. by split; [|split; [lia|]].
Qed.

Lemma sim_step {A B C} (R : heap -> B -> C -> Prop) (m : P A) (k : A -> P B) h h2 s a s1 r :
  m h s = POk a (h ++ h2) s1 -> (s <= s1)%nat -> sim R (k a) (h ++ h2) s1 r -> sim R (m ≫= k) h s r.
Proof.
  intros E Hs H. unfold sim in *. rewrite (P_bind_ok _ _ _ _ _ _ _ E). destruct r as [b rest| |]; [|done|done].
  destruct H as (x & h3 & s' & E' & Hs' & Ht' & HR). exists x, (h2 ++ h3), s'. rewrite app_assoc. by split; [|split; [lia|]].
Qed.
Lemma sim_peek {B C} (R : heap -> B -> C -> Prop) (m : P bool) (k : bool -> P B) h s b s1 r :
  m h s = POk b h s1 -> (s <= s1)%nat -> sim R (k b) h s1 r -> sim R (m ≫= k) h s r.
Proof. intros E Hs H. apply (sim_step R m k h [] s b s1 r); rewrite ?app_nil_r; done. Qed.
Lemma sim_bind {A B C D} (R : heap -> A -> B -> Prop) (R' : heap -> C -> D -> Prop) (m : P A) (k : A -> P C) h s r f :
  sim R m h s r ->
  (forall a h2 s' b, (s <= s' <= es)%nat -> R (h ++ h2) a b -> sim R' (k a) (h ++ h2) s' (f b (tokens (drop s' text)))) ->
  sim R' (m ≫= k) h s (tbind r f).
Proof.
  intros Hm Hk. destruct r as [b rest| |]; cbn [tbind]; [| |done].
  - destruct Hm as (a & h2 & s' & E & Hs' & <- & HR). eapply sim_step; [exact E|lia|]. by apply Hk.
  - destruct Hm as (out & E). exists out. exact (P_bind_panic _ _ _ _ _ E).
Qed.
Lemma sim_ret {A B} (R : heap -> A -> B -> Prop) a h s b : (s <= es)%nat -> R h a b -> sim R (mret a) h s (TOk b (tokens (drop s text))).
Proof. intros Hs HR. exists a, [], s. rewrite app_nil_r. by split; [|split; [lia|]]. Qed.
Lemma sim_malloc {B} (R : heap -> nat -> B -> Prop) n h s b : (s <= es)%nat -> R (h ++ [n]) (S (length h)) b ->
  sim R (malloc_node n) h s (TOk b (tokens (drop s text))).
Proof. intros Hs HR. exists (S (length h)), [n], s. by split; [|split; [lia|]]. Qed.
Lemma peek_sym a h s : isin symbols a = true -> a <> 62 -> (s <= es)%nat -> exists s1,
  peek buf es [a] h s = POk (bool_decide (head (tokens (drop s text)) = Some (Sym a))) h s1 /\ (s <= s1 <= es)%nat /\
  tokens (drop s1 text) = tokens (drop s text).
Proof.
  intros Ha H62 Hs. destruct (peek_tokens [a] h s Hs (sub_one a Ha)) as (s1 & E & Hs1 & Ht). exists s1. split; [|done].
  rewrite E. f_equal. assert (a <> 0) by (intros ->; by rewrite isin_0 in Ha).
  destruct (tokens (drop s text)) as [|[w|c|] ts]; cbn [peeked head]; rewrite ?isin_cons, ?isin_nil, ?orb_false_r by done; try done.
  - bdestr (a =? c); [subst; by rewrite bool_decide_eq_true_2|]. rewrite bool_decide_eq_false_2; [done|congruence].
  - replace (a =? 62) with false by lia. done.
Qed.
Lemma gettoken_step h s t ts : (s <= es)%nat -> tokens (drop s text) = t :: ts -> exists x s',
  gettoken buf es h s = POk x h s' /\ (s <= s' <= es)%nat /\ tokens (drop s' text) = ts.
Proof.
  intros Hs Et. destruct (gettoken_spec h s Hs) as (q & e & s' & E & Hs' & Ht & _). rewrite Et in Ht. eauto.
Qed.
(** [if(!peek(..., a)) return cmd; gettoken; ...] *)
Lemma sim_symbol {B C} (R : heap -> B -> C -> Prop) a (no yes : P B) h s f1 f2 :
  isin symbols a = true -> a <> 62 -> (s <= es)%nat ->
  (forall s', (s <= s' <= es)%nat -> sim R no h s' (f1 (tokens (drop s' text)))) ->
  (forall s', (s <= s' <= es)%nat -> sim R yes h s' (f2 (tokens (drop s' text)))) ->
  sim R (more ← peek buf es [a]; if negb more then no else gettoken buf es ≫= fun _ => yes) h s
    (match tokens (drop s text) with t :: ts => if decide (t = Sym a) then f2 ts else f1 (t :: ts) | [] => f1 [] end).
Proof.
  intros Ha H62 Hs Hno Hyes. destruct (peek_sym a h s Ha H62 Hs) as (s1 & E1 & Hs1 & Ht1).
  eapply sim_peek; [exact E1|lia|]. specialize (Hno s1 ltac:(lia)). rewrite <- Ht1 in *.
  destruct (tokens (drop s1 text)) as [|t ts] eqn:Et; [by rewrite bool_decide_eq_false_2|]. cbn [head].
  destruct (decide (t = Sym a)) as [->|Hne]; [|rewrite bool_decide_eq_false_2 by congruence; done].
  rewrite bool_decide_eq_true_2 by done. cbn [negb]. destruct (gettoken_step h s1 _ _ ltac:(lia) Et) as (x & s2 & E2 & Hs2 & Ht2).
  eapply (sim_step R _ _ h []); rewrite ?app_nil_r; [exact E2|lia|]. rewrite <- Ht2. apply Hyes. lia.
Qed.
Lemma parse_sim fuel :
  (forall h s, (s <= es)%nat -> sim rep (parseline buf es fuel) h s (tline fuel (tokens (drop s text)))) /\
  (forall h s, (s <= es)%nat -> sim rep (parsepipe buf es fuel) h s (tpipe fuel (tokens (drop s text)))) /\
  (forall h s, (s <= es)%nat -> sim rep (parseexec buf es fuel) h s (texec fuel (tokens (drop s text)))) /\
  (forall h s ts, (s <= es)%nat -> tokens (drop s text) = Sym 40 :: ts -> sim rep (parseblock buf es fuel) h s (tblock fuel ts)).
Proof.
  induction fuel as [|f (IHl & IHp & IHe & IHb)]; [done|]. split_and!; intros h s.
  - intros Hs. cbn [parseline tline]. eapply sim_bind; [by apply IHp|]. intros c h2 s1 cm Hs1 Hr. cbn beta.
    eapply (sim_step rep (rounds es) _ _ []); rewrite ?app_nil_r; [done|lia|].
    destruct (background_loop_spec (S (es - s1)) _ s1 c cm ltac:(lia) ltac:(lia) Hr) as (c' & h3 & s2 & E2 & Hs2 & Ht2 & Hr2).
    eapply sim_step; [exact E2|lia|]. destruct (tback cm (tokens (drop s1 text))) as [cm' ts2]. cbn [fst snd] in *. subst ts2.
    pose proof (sim_symbol rep 59 (mret c') (r ← parseline buf es f; listcmd c' r) ((h ++ h2) ++ h3) s2
      (fun ts => TOk cm' ts) (fun ts => tbind (tline f ts) (fun r rest => TOk (Sequence cm' r) rest)) eq_refl ltac:(lia) ltac:(lia)) as H.
    change (zs ";") with [59]. assert (Hno : forall s', (s2 <= s' <= es)%nat -> sim rep (mret c') ((h ++ h2) ++ h3) s' (TOk cm' (tokens (drop s' text)))).
    { intros s3 Hs3. by apply sim_ret; [lia|]. }
    specialize (H Hno). assert (Hyes : forall s', (s2 <= s' <= es)%nat -> sim rep (r ← parseline buf es f; listcmd c' r) ((h ++ h2) ++ h3) s'
      (tbind (tline f (tokens (drop s' text))) (fun r rest => TOk (Sequence cm' r) rest))).
    { intros s3 Hs3. eapply sim_bind; [apply IHl; lia|]. intros r h4 s4 cr Hs4 Hr4. apply rep_lt in Hr2 as L1. apply rep_lt in Hr4 as L2.
      apply sim_malloc; [lia|]. eapply rep_list; [apply node_at_new|rewrite length_app; lia|lia|do 2 apply rep_app; done|by apply rep_app]. }
    specialize (H Hyes). by destruct (tokens (drop s2 text)).
  - intros Hs. cbn [parsepipe tpipe]. eapply sim_bind; [by apply IHe|]. intros c h2 s1 cm Hs1 Hr. cbn beta.
    change (zs "|") with [124].
    apply (sim_symbol rep 124 (mret c) (r ← parsepipe buf es f; pipecmd c r) (h ++ h2) s1
      (fun ts => TOk cm ts) (fun ts => tbind (tpipe f ts) (fun r rest => TOk (Piped cm r) rest)) eq_refl ltac:(lia) ltac:(lia)).
    { intros s3 Hs3. by apply sim_ret; [lia|]. }
    intros s3 Hs3. eapply sim_bind; [apply IHp; lia|]. intros r h4 s4 cr Hs4 Hr4. apply rep_lt in Hr as L1. apply rep_lt in Hr4 as L2.
    apply sim_malloc; [lia|]. eapply rep_pipe; [apply node_at_new|rewrite length_app; lia|lia|do 2 apply rep_app; done|by apply rep_app].
  - intros Hs. cbn [parseexec texec]. destruct (peek_sym 40 h s eq_refl ltac:(lia) Hs) as (s1 & E1 & Hs1 & Ht1).
    change (zs "(") with [40]. eapply sim_peek; [exact E1|lia|]. pose proof (parsesimple_spec h s1 ltac:(lia)) as Hsim. rewrite <- Ht1 in *.
    destruct (tokens (drop s1 text)) as [|t ts] eqn:Et; [by rewrite bool_decide_eq_false_2|]. cbn [head].
    destruct (decide (t = Sym 40)) as [->|Hne]; [rewrite bool_decide_eq_true_2 by done; apply IHb; [lia|done]|].
    by rewrite bool_decide_eq_false_2 by congruence.
  - intros ts Hs Et. cbn [parseblock tblock]. destruct (peek_sym 40 h s eq_refl ltac:(lia) Hs) as (s1 & E1 & Hs1 & Ht1).
    change (zs "(") with [40]. eapply sim_peek; [exact E1|lia|]. rewrite Et in *. rewrite bool_decide_eq_true_2 by done. cbn [negb].
    destruct (gettoken_step h s1 _ _ ltac:(lia) Ht1) as (x & s2 & E2 & Hs2 & <-).
    eapply (sim_step rep _ _ h []); rewrite ?app_nil_r; [exact E2|lia|]. eapply sim_bind; [apply IHl; lia|]. intros c h2 s3 cm Hs3 Hr. cbn beta.
    change (zs ")") with [41].
    apply (sim_symbol rep 41 (panic "syntax - missing )") (parseredirs buf es c) (h ++ h2) s3
      (fun ts => TPanic) (fun ts => tbind (tredirs ts) (fun rs rest => TOk (wrap rs cm) rest)) eq_refl ltac:(lia) ltac:(lia)).
    { intros s4 Hs4. by eexists. }
    intros s4 Hs4.
    pose proof (parseredirs_spec (h ++ h2) s4 c ltac:(lia)) as HR. apply rep_lt in Hr as L1. specialize (HR ltac:(lia)).
    destruct (tredirs (tokens (drop s4 text))) as [rs rest| |]; cbn [tbind sim] in *; [|done|done].
    destruct HR as (r & h3 & s' & E3 & Hs' & Ht' & Hch). exists r, h3, s'. split; [done|]. split; [done|]. split; [done|].
    eapply chain_rep; [exact Hch|]. by apply rep_app.
Qed.

(** ** The strings *)
(** The command that a structure in the heap stands for, with the strings that
    its pointers into the line [b] point at. *)
Fixpoint cmd_at (fuel : nat) (h : heap) (b : list Z) (p : nat) : option cmd :=
  match fuel with
  | O => None
  | S f =>
      match node_at h p with
      | Some (EXEC argv _) => Simple <$> argv_of b argv
      | Some (REDIR c file _ mode fd) => cm ← cmd_at f h b c; Some (Redirect cm (str_at b file) mode fd)
      | Some (PIPE l r) => cl ← cmd_at f h b l; cr ← cmd_at f h b r; Some (Piped cl cr)
      | Some (LIST l r) => cl ← cmd_at f h b l; cr ← cmd_at f h b r; Some (Sequence cl cr)
      | Some (BACK c) => Background <$> cmd_at f h b c
      | None => None
      end
  end.

(** NULs may have replaced characters that are not part of a word. *)
Definition keeps (b : list Z) : Prop :=
  length b = length buf /\ forall i c, text !! i = Some c -> isword c = true -> b !! i = Some c.
Definition nuls (b b' : list Z) : Prop := forall i, b !! i = Some 0 -> b' !! i = Some 0.
Lemma nuls_refl b : nuls b b.
Proof. by intros i. Qed.
Lemma nuls_trans b1 b2 b3 : nuls b1 b2 -> nuls b2 b3 -> nuls b1 b3.
Proof. intros H1 H2 i Hi. by apply H2, H1. Qed.
Lemma keeps_buf : keeps buf.
Proof. split; [done|]. intros i c Hc _. unfold buf. by apply lookup_app_l_Some. Qed.
Lemma keeps_nul b q e w : keeps b -> spans q e w ->
  keeps (<[e := 0]> b) /\ nuls b (<[e := 0]> b) /\ <[e := 0]> b !! e = Some 0.
Proof.
  intros [Hl Hk] [He Hes _ _ Hst]. assert (Hlt : (e < length b)%nat).
  { rewrite Hl. unfold buf. rewrite length_app. cbn. unfold es in Hes. lia. }
  split; [|split].
  - split; [by rewrite length_insert|]. intros i c Hc Hw. rewrite list_lookup_insert_ne; [by apply Hk|]. intros <-.
    destruct (drop_text e) as (c' & E & Hc' & E2); [by apply lookup_lt_Some in Hc|]. rewrite E2 in Hc. injection Hc as ->.
    rewrite E in Hst. cbn in Hst. destruct Hst; congruence.
  - intros i Hi. destruct (decide (i = e)) as [->|]; [by apply list_lookup_insert_eq|by rewrite list_lookup_insert_ne].
  - by apply list_lookup_insert_eq.
Qed.
Lemma cstr_word w rest : Forall (fun c => c <> 0) w -> cstr (w ++ 0 :: rest) = w.
Proof.
  unfold cstr. induction w as [|c w IH]; intros Hw; [done|]. apply list.Forall_cons in Hw as [Hc Hw]. cbn. unfold ctrue.
  replace (c =? 0) with false by lia. cbn. by rewrite IH.
Qed.
Lemma str_at_spans b q e w : keeps b -> spans q e w -> b !! e = Some 0 -> str_at b q = w.
Proof.
  intros [Hl Hk] [He Hes Ht Hw _] Hz. unfold str_at.
  assert (E : drop q b = w ++ 0 :: drop (S e) b).
  { rewrite <- (take_drop (length w) (drop q b)). rewrite drop_drop, <- He, (drop_S b 0 e) by done. f_equal.
    apply list_eq. intros i. destruct (decide (i < length w)%nat) as [Hi|Hi].
    - rewrite lookup_take_lt, lookup_drop by done. destruct (lookup_lt_is_Some_2 w i Hi) as [c Hc]. rewrite Hc.
      apply Hk; [|by apply (list.Forall_lookup_1 _ _ _ _ Hw Hc)]. rewrite <- Ht in Hc. unfold slice in Hc.
      by rewrite lookup_take_lt, lookup_drop in Hc by done.
    - rewrite !lookup_ge_None_2; [done|lia|rewrite length_take; lia]. }
  rewrite E. apply cstr_word. eapply list.Forall_impl; [exact Hw|]. by intros c [].
Qed.

Lemma nulterminate_args_spec qs ends args n m : Forall3 spans qs ends args -> (0 < n)%nat -> forall b, keeps b ->
  exists b', nulterminate_args ((Some <$> qs) ++ replicate n None) ((Some <$> ends) ++ replicate m None) b = Some b' /\ keeps b' /\ nuls b b' /\
  forall b2, keeps b2 -> nuls b' b2 -> argv_of b2 ((Some <$> qs) ++ replicate n None) = Some args.
Proof.
  intros HF Hn. induction HF as [|q e w qs ends args Hsp HF IH]; intros b Hb.
  { destruct n as [|n]; [lia|]. exists b. split; [done|]. split; [done|]. split; [apply nuls_refl|done]. }
  destruct (keeps_nul b q e w Hb Hsp) as (Hb1 & Hn1 & Hz). destruct (IH _ Hb1) as (b' & E & Hb' & Hn' & Hr).
  exists b'. split; [done|]. split; [done|]. split; [by eapply nuls_trans|]. intros b2 Hb2 Hn2. cbn. rewrite Hr by done. cbn.
  rewrite (str_at_spans b2 q e w); [done|done|done|]. by apply Hn2, Hn'.
Qed.
Lemma nulterminate_spec h p c : rep h p c -> forall fuel b, (p < fuel)%nat -> keeps b ->
  exists b', nulterminate fuel h p b = Some b' /\ keeps b' /\ nuls b b' /\
  forall b2 fuel2, keeps b2 -> nuls b' b2 -> (p < fuel2)%nat -> cmd_at fuel2 h b2 p = Some c.
Proof.
  induction 1 as [p argv eargv args Hp Ha|p c file efile mode fd cm f Hp Hlt Hsp Hr IH|p l r cl cr Hp Hl Hr H1 IH1 H2 IH2
    |p l r cl cr Hp Hl Hr H1 IH1 H2 IH2|p c cm Hp Hlt Hr IH]; intros [|fuel] b Hf Hb; try lia; cbn [nulterminate]; rewrite Hp.
  - destruct Ha as (qs & ends & -> & -> & Hn & HF).
    destruct (nulterminate_args_spec qs ends args (MAXARGS - length args) (MAXARGS - length args) HF ltac:(lia) b Hb) as (b' & E & Hb' & Hn' & Hr).
    exists b'. split; [done|]. split; [done|]. split; [done|]. intros b2 [|f2] Hb2 Hn2 Hf2; [lia|]. cbn. rewrite Hp. by rewrite Hr.
  - destruct (IH fuel b ltac:(lia) Hb) as (b1 & E1 & Hb1 & Hn1 & Hc1). rewrite E1. cbn.
    destruct (keeps_nul b1 _ _ _ Hb1 Hsp) as (Hb' & Hn' & Hz). exists (<[efile := 0]> b1). split; [done|]. split; [done|].
    split; [by eapply nuls_trans|]. intros b2 [|f2] Hb2 Hn2 Hf2; [lia|]. cbn. rewrite Hp.
    rewrite (Hc1 b2 f2); [cbn|done|by eapply nuls_trans|lia]. rewrite (str_at_spans b2 _ _ _ Hb2 Hsp); [done|by apply Hn2].
  - destruct (IH1 fuel b ltac:(lia) Hb) as (b1 & E1 & Hb1 & Hn1 & Hc1). destruct (IH2 fuel b1 ltac:(lia) Hb1) as (b' & E2 & Hb' & Hn2 & Hc2).
    rewrite E1. cbn. exists b'. split; [done|]. split; [done|]. split; [by eapply nuls_trans|]. intros b2 [|f2] Hbb Hnn Hf2; [lia|].
    cbn. rewrite Hp. rewrite (Hc1 b2 f2); [cbn|done|by eapply nuls_trans|lia]. by rewrite (Hc2 b2 f2 Hbb Hnn ltac:(lia)).
  - destruct (IH1 fuel b ltac:(lia) Hb) as (b1 & E1 & Hb1 & Hn1 & Hc1). destruct (IH2 fuel b1 ltac:(lia) Hb1) as (b' & E2 & Hb' & Hn2 & Hc2).
    rewrite E1. cbn. exists b'. split; [done|]. split; [done|]. split; [by eapply nuls_trans|]. intros b2 [|f2] Hbb Hnn Hf2; [lia|].
    cbn. rewrite Hp. rewrite (Hc1 b2 f2); [cbn|done|by eapply nuls_trans|lia]. by rewrite (Hc2 b2 f2 Hbb Hnn ltac:(lia)).
  - destruct (IH fuel b ltac:(lia) Hb) as (b' & E1 & Hb1 & Hn1 & Hc1). exists b'. split; [done|]. split; [done|]. split; [done|].
    intros b2 [|f2] Hb2 Hn2 Hf2; [lia|]. cbn. rewrite Hp. by rewrite (Hc1 b2 f2 Hb2 Hn2 ltac:(lia)).
Qed.
End Chars.

(** ** Correctness of the parser *)
Lemma line_pipeline ts c : pipeline ts c -> line ts c.
Proof. intros H. rewrite <- (app_nil_r ts). apply (line_one ts c 0 H). Qed.
Lemma strlen_nul text junk : Forall (fun c => c <> 0) text -> strlen (text ++ 0 :: junk) = length text.
Proof.
  induction text as [|c t IH]; intros Ht; [done|]. apply list.Forall_cons in Ht as [Hc Ht]. cbn. unfold ctrue.
  replace (c =? 0) with false by lia. cbn. by rewrite IH.
Qed.
Lemma writes_app o1 o2 {A} (k : prog A) : (writes o1 ;; writes o2 ;; k) = (writes (o1 ++ o2) ;; k).
Proof.
  induction o1 as [|[fd bs] o1 IH]; [done|]. unfold mbind, prog_mbind in *. cbn in *. by rewrite IH.
Qed.
Lemma length_tokens t : (length (tokens t) <= length t)%nat.
Proof.
  induction t as [t IH] using (well_founded_induction (well_founded_ltof _ length)). destruct t as [|c t]; [done|].
  assert (Ht : (length (tokens t) <= length t)%nat) by (apply IH; unfold ltof; cbn; lia). cbn [tokens length].
  destruct (isin whitespace c); [lia|]. destruct (c =? 62).
  { destruct t as [|c' t]; [done|]. destruct (c' =? 62); cbn [length] in *; [|lia].
    specialize (IH t ltac:(unfold ltof; cbn; lia)). lia. }
  destruct (isin symbols c); [cbn; lia|]. destruct (_ && _); [|cbn; lia]. destruct (tokens t) as [|[]]; cbn in *; lia.
Qed.
(** The line is used up exactly when no token is left. *)
Lemma peek_end text junk h s : Forall (fun c => c <> 0) text -> (s <= length text)%nat -> exists s',
  peek (text ++ 0 :: junk) (length text) [] h s = POk false h s' /\ (s' <= length text)%nat /\
  (s' = length text <-> tokens (drop s text) = []).
Proof.
  intros Ht Hs. unfold peek. destruct (skip_ws_spec text junk Ht (length text - s) s ltac:(lia)) as (s' & E & Hs' & Htk & Hw).
  exists s'. rewrite E. split; [f_equal; apply andb_false_r|]. split; [lia|]. rewrite <- Htk. split.
  - intros ->. by rewrite drop_ge.
  - intros H0. destruct (decide (s' = length text)) as [|Hne]; [done|].
    pose proof (first_char_tokens text Ht s' ltac:(lia) Hw) as Hf.
    destruct (drop_text text Ht s' ltac:(lia)) as (c & Ec & Hc & _). rewrite H0, Ec in Hf. cbn in Hf. congruence.
Qed.

Lemma parsecmd_spec text junk :
  Forall (fun c => c <> 0) text ->
  (exists p h b c, parsecmd (text ++ 0 :: junk) = Ret (p, h, b) /\ cmd_at (S p) h b p = Some c /\
     forall c', line (tokens text) c' <-> c' = c) \/
  ((forall c, ~ line (tokens text) c) /\ exists out, parsecmd (text ++ 0 :: junk) = (writes out ;; exit 1)).
Proof.
  intros Ht. set (fuel := parse_fuel (length text)). pose proof (length_tokens text) as Hlen.
  destruct (parse_sim text junk Ht fuel) as (Hsim & _). specialize (Hsim [] O ltac:(lia)). rewrite drop_0 in Hsim.
  destruct (descent_ends fuel) as (Hend & _). specialize (Hend (tokens text) ltac:(unfold fuel, parse_fuel; lia)).
  assert (Hcomp : forall c, line (tokens text) c -> tline fuel (tokens text) = TOk c []).
  { intros c Hc. rewrite <- (app_nil_r (tokens text)) at 1. apply (proj1 descent_complete); [done|done|unfold fuel, parse_fuel; lia]. }
  unfold parsecmd. rewrite strlen_nul by done. fold fuel.
  destruct (tline fuel (tokens text)) as [c rest| |] eqn:Et; [| |done].
  - destruct Hsim as (p & h & s & E & Hs & Hrest & Hr). rewrite (P_bind_ok _ _ _ _ _ _ _ E). cbn [app] in *.
    destruct (peek_end text junk h s Ht ltac:(lia)) as (s' & E' & Hs' & Hiff). rewrite (P_bind_ok _ _ _ _ _ _ _ E').
    change ((mret p : P nat) h s') with (POk p h s'). cbv iota beta. rewrite Hrest in Hiff.
    destruct (Nat.eqb s' (length text)) eqn:Es; [apply Nat.eqb_eq in Es|apply Nat.eqb_neq in Es]; cbn [negb].
    + left. apply Hiff in Es as ->. destruct (nulterminate_spec text junk Ht h p c Hr (S p) (text ++ 0 :: junk)) as (b & Eb & Hb & _ & Hc).
      { lia. } { apply keeps_buf. }
      rewrite Eb. exists p, h, b, c. split; [done|]. split; [apply Hc; [done|apply nuls_refl|lia]|].
      intros c'. split; [intros Hc'%Hcomp; congruence|intros ->].
      destruct (proj1 (descent_sound fuel) _ _ _ Et) as (pre & -> & Hp). by rewrite app_nil_r.
    + right. split; [intros c' Hc'%Hcomp; injection Hc' as _ ->; tauto|]. eexists. apply writes_app.
  - right. split; [by intros c' Hc'%Hcomp|]. destruct Hsim as (out & E). exists out. by rewrite (P_bind_panic _ _ _ _ _ E).
Qed.

(** C21. parsecmd accepts exactly the command lines of the grammar: for a line [text]
    it terminates and returns a structure, which stands (with the strings that
    nulterminate has ended in the line) for the one command that the tokens of
    the line spell; or, when they spell none, it writes a message and exits with
    status 1. *)
Theorem parsecmd_accepts_grammar text junk :
  Forall (fun c => c <> 0) text ->
  (exists p h b c, parsecmd (text ++ 0 :: junk) = Ret (p, h, b) /\ cmd_at (S p) h b p = Some c /\
     forall c', line (tokens text) c' <-> c' = c) \/
  ((forall c, ~ line (tokens text) c) /\ exists out, parsecmd (text ++ 0 :: junk) = (writes out ;; exit 1)).
Proof. apply parsecmd_spec. Qed.

Lemma parsecmd_accepts_grammar_witness : exists p h b, parsecmd (zs "wc <in|(ls;pwd)" ++ [0]) = Ret (p, h, b) /\
  cmd_at (S p) h b p = Some (Piped (Redirect (Simple [zs "wc"]) (zs "in") 0 0) (Sequence (Simple [zs "ls"]) (Simple [zs "pwd"]))).
Proof.
  assert (Hl : line (tokens (zs "wc <in|(ls;pwd)")) (Piped (Redirect (Simple [zs "wc"]) (zs "in") 0 0) (Sequence (Simple [zs "ls"]) (Simple [zs "pwd"])))).
  { apply line_pipeline, (pipeline_pipe [Word (zs "wc"); Sym 60; Word (zs "in")] _ [Sym 40; Word (zs "ls"); Sym 59; Word (zs "pwd"); Sym 41]).
    - apply (command_simple _ [zs "wc"] [(zs "in", 0, 0)]); [repeat constructor|cbn; unfold MAXARGS; lia].
    - apply pipeline_one, (command_block [Word (zs "ls"); Sym 59; Word (zs "pwd")] _ [] []); [|constructor].
      apply (line_list [Word (zs "ls")] _ 0 [Word (zs "pwd")]); [|apply line_pipeline].
      all: apply pipeline_one, (command_simple _ [_] []); [repeat constructor|cbn; unfold MAXARGS; lia]. }
  destruct (parsecmd_accepts_grammar (zs "wc <in|(ls;pwd)") []) as [(p & h & b & c & E & Hc & Hu)|[H _]].
  - apply list.Forall_forall. intros x Hx. apply list_elem_of_In in Hx. cbn in Hx. intuition (subst; done).
  - exists p, h, b. split; [exact E|]. rewrite Hc. f_equal. symmetry. by apply Hu.
  - exfalso. by apply (H _ Hl).
Defined.
