(* ===== verification/ShRun.v ===== *)
(** * Running commands

    runcmd starts the programs of a command with the descriptors its
    redirections and pipes ask for, waits for those it should, and leaves no end
    of a pipe open in a process that does not use it. *)
From S2P Require Import Prelude Mem Ulib Uprintf Usys Sh ShProofs.

(** ** Running a command *)
(** What a process that runs a command should do: a redirection replaces a
    descriptor; a pipe forks a process for each side, the output of the left and
    the input of the right replaced, and waits for both with the descriptors it
    had before; a sequence forks one for its left side and waits for it before
    it runs the right; a command in the background is not waited for. *)
Fixpoint plumb (c : cmd) (fds : fdtable) (next : nat) : list event * nat :=
  match c with
  | Simple [] => ([EExit 1 fds], next)
  | Simple (path :: args) => ([EExec path (path :: args) fds], next)
  | Redirect c file mode fd => plumb c (<[Z.to_nat fd := Some (Opened file mode)]> fds) next
  | Piped l r =>
      let '(el, next1) := plumb l (<[1%nat := Some (PipeWrite next)]> fds) (S next) in
      let '(er, next2) := plumb r (<[0%nat := Some (PipeRead next)]> fds) next1 in
      ([EFork el; EFork er; EWait fds; EWait fds; EExit 0 fds], next2)
  | Sequence l r =>
      let '(el, next1) := plumb l fds next in
      let '(er, next2) := plumb r fds next1 in
      (EFork el :: EWait fds :: er, next2)
  | Background c =>
      let '(ec, next1) := plumb c fds next in ([EFork ec; EExit 0 fds], next1)
  end.
(** Redirections are of standard input or output. *)
Fixpoint std_redirs (c : cmd) : Prop :=
  match c with
  | Simple _ => True
  | Redirect c _ _ fd => (fd = 0 \/ fd = 1) /\ std_redirs c
  | Piped l r | Sequence l r => std_redirs l /\ std_redirs r
  | Background c => std_redirs c
  end.
(** Standard input and output are open and two descriptors are free. *)
Definition fds_ok (fds : fdtable) : Prop :=
  (exists a, fds !! 0%nat = Some (Some a)) /\ (exists b, fds !! 1%nat = Some (Some b)) /\
  exists i j, (1 < i < j)%nat /\ fds !! i = Some None /\ fds !! j = Some None.

Lemma lowest_free_spec (fds : fdtable) k : fds !! k = Some None -> exists i, lowest_free fds = Some i /\ (i <= k)%nat /\ fds !! i = Some None.
Proof.
  revert k. induction fds as [|[o|] fds IH]; intros k Hk; [done| |].
  - destruct k as [|k]; [done|]. destruct (IH k Hk) as (i & E & Hi & Hn). exists (S i). cbn. rewrite E. by split_and!; [|lia|].
  - exists O. by split_and!; [|lia|].
Qed.
Lemma fd_of_nat (fds : fdtable) k o : fds !! k = Some (Some o) -> fd_of fds (Z.of_nat k) = Some o.
Proof. intros H. unfold fd_of. replace (Z.of_nat k <? 0) with false by lia. by rewrite Nat2Z.id, H. Qed.
Lemma fds_ok_insert fds k o : fds_ok fds -> (k <= 1)%nat -> fds_ok (<[k := Some o]> fds).
Proof.
  intros ((a & Ha) & (b & Hb) & i & j & Hij & Hi & Hj) Hk.
  assert (L : (1 < length fds)%nat) by (by eapply lookup_lt_Some).
  destruct (decide (k = O)) as [->|]; [|assert (k = 1%nat) as -> by lia].
  - split; [eexists; by apply list_lookup_insert_eq; lia|]. split; [exists b; by rewrite list_lookup_insert_ne|].
    exists i, j. rewrite !list_lookup_insert_ne by lia. done.
  - split; [exists a; by rewrite list_lookup_insert_ne|]. split; [eexists; by apply list_lookup_insert_eq|].
    exists i, j. rewrite !list_lookup_insert_ne by lia. done.
Qed.
(** Closing a standard descriptor makes it the next to be used. *)
Lemma install_closed (fds : fdtable) k o : fds_ok fds -> (k <= 1)%nat ->
  install o (<[k := None]> fds) = (Z.of_nat k, <[k := Some o]> fds).
Proof.
  intros ((a & Ha) & (b & Hb) & _) Hk. destruct fds as [|x [|y fds]]; [done..|]. cbn in Ha, Hb. injection Ha as ->. injection Hb as ->.
  destruct k as [|[|k]]; [done|done|lia].
Qed.
Lemma fd_of_std fds k : fds_ok fds -> (k <= 1)%nat -> exists o, fd_of fds (Z.of_nat k) = Some o.
Proof.
  intros ((a & Ha) & (b & Hb) & _) Hk. destruct k as [|[|k]]; [exists a|exists b|lia]; by apply fd_of_nat.
Qed.
(** The two descriptors of a new pipe. *)
Lemma pipe_fds fds next : fds_ok fds -> exists r w,
  install (PipeRead next) fds = (Z.of_nat r, <[r := Some (PipeRead next)]> fds) /\
  install (PipeWrite next) (<[r := Some (PipeRead next)]> fds) = (Z.of_nat w, <[w := Some (PipeWrite next)]> (<[r := Some (PipeRead next)]> fds)) /\
  (1 < r)%nat /\ (1 < w)%nat /\ r <> w /\ fds !! r = Some None /\ fds !! w = Some None.
Proof.
  intros ((a & Ha) & (b & Hb) & i & j & Hij & Hi & Hj). destruct (lowest_free_spec fds i Hi) as (r & Er & Hr & Hrn).
  assert (Hr1 : (1 < r)%nat) by (destruct r as [|[|r]]; [congruence|congruence|lia]).
  destruct (lowest_free_spec (<[r := Some (PipeRead next)]> fds) j) as (w & Ew & Hw & Hwn); [by rewrite list_lookup_insert_ne by lia|].
  assert (Hne : r <> w).
  { intros <-. rewrite list_lookup_insert_eq in Hwn; [done|]. by eapply lookup_lt_Some. }
  rewrite list_lookup_insert_ne in Hwn by done. assert (Hw1 : (1 < w)%nat) by (destruct w as [|[|w]]; [congruence|congruence|lia]).
  exists r, w. unfold install. rewrite Er, Ew. done.
Qed.
Lemma fds_ok_pipe fds r w x y : fds_ok fds -> (1 < r)%nat -> (1 < w)%nat ->
  (exists a, <[w := x]> (<[r := y]> fds) !! 0%nat = Some (Some a)) /\ (exists b, <[w := x]> (<[r := y]> fds) !! 1%nat = Some (Some b)).
Proof. intros ((a & Ha) & (b & Hb) & _) H1 H2. split; [exists a|exists b]; by rewrite !list_lookup_insert_ne by lia. Qed.

(** With both its ends closed the descriptors are as before the pipe. *)
Lemma pipe_closed (fds : fdtable) r w x y : r <> w -> fds !! r = Some None -> fds !! w = Some None ->
  <[w := None]> (<[r := None]> (<[w := x]> (<[r := y]> fds))) = fds.
Proof.
  intros Hne Hr Hw. apply list_eq. intros m. rewrite !list_lookup_insert, !length_insert.
  repeat case_decide; destruct_and?; subst; congruence.
Qed.

(** *** Steps *)
Lemma trace_close {A} (f : Z -> prog A) (fds : fdtable) k o n : fds !! k = Some (Some o) ->
  trace (call (Close (Z.of_nat k)) ≫= f) fds n = trace (f 0) (<[k := None]> fds) n.
Proof. intros H. cbn. rewrite (fd_of_nat _ _ _ H). by rewrite Nat2Z.id. Qed.
Lemma trace_dup {A} (f : Z -> prog A) (fds : fdtable) k o fd' fds' n : fds !! k = Some (Some o) -> install o fds = (fd', fds') ->
  trace (call (Dup (Z.of_nat k)) ≫= f) fds n = trace (f fd') fds' n.
Proof. intros H E. cbn. rewrite (fd_of_nat _ _ _ H). by rewrite E. Qed.
Lemma trace_pipe {A} (f : option (Z * Z) -> prog A) (fds : fdtable) n :
  trace (call Pipe ≫= f) fds n =
    let '(r, fds1) := install (PipeRead n) fds in
    let '(w, fds2) := install (PipeWrite n) fds1 in
    if (r <? 0) || (w <? 0) then trace (f None) fds n else trace (f (Some (r, w))) fds2 (S n).
Proof. done. Qed.
Lemma trace_fork1 {A} (f : Z -> prog A) fds n :
  trace (fork1 ≫= f) fds n =
    let '(c, n1) := trace (f 0) fds n in let '(p, n2) := trace (f 1) fds n1 in (EFork c :: p, n2).
Proof. done. Qed.
Lemma trace_writes {A} out (p : prog A) fds n : trace (writes out ;; p) fds n = trace p fds n.
Proof. induction out as [|[fd bs] out IH]; [done|]. cbn. exact IH. Qed.
(** The child of a pipe: its end of the pipe replaces descriptor [k]. *)
Lemma trace_pipe_end {A} (p : prog A) fds next r w k x o n : fds_ok fds ->
  let fds2 := <[w := Some (PipeWrite next)]> (<[r := Some (PipeRead next)]> fds) in
  (k <= 1)%nat -> (1 < r)%nat -> (1 < w)%nat -> r <> w -> fds !! r = Some None -> fds !! w = Some None ->
  (1 < x)%nat -> fds2 !! x = Some (Some o) ->
  trace (call (Close (Z.of_nat k)) ;; call (Dup (Z.of_nat x)) ;; call (Close (Z.of_nat r)) ;; call (Close (Z.of_nat w)) ;; p) fds2 n =
  trace p (<[k := Some o]> fds) n.
Proof.
  intros Hok fds2 Hk Hr1 Hw1 Hne Hr Hw Hx Hxo. assert (Lr : (r < length fds)%nat) by (by eapply lookup_lt_Some).
  assert (Lw : (w < length fds)%nat) by (by eapply lookup_lt_Some).
  destruct (fds_ok_pipe fds r w (Some (PipeWrite next)) (Some (PipeRead next)) Hok Hr1 Hw1) as [[a Ha] [b Hb]]. fold fds2 in Ha, Hb.
  assert (Hko : exists y, fds2 !! k = Some (Some y)) by (destruct k as [|[|k]]; [eauto|eauto|lia]). destruct Hko as [y Hy].
  rewrite (trace_close _ _ _ _ _ Hy).
  rewrite (trace_dup _ _ _ o (Z.of_nat k) (<[k := Some o]> fds2)); [|by rewrite list_lookup_insert_ne by lia|].
  2:{ destruct fds2 as [|x0 [|x1 fs]]; [done|done|]. cbn in Ha, Hb. injection Ha as ->. injection Hb as ->. by destruct k as [|[|k]]; [| |lia]. }
  rewrite (trace_close _ _ r (PipeRead next)).
  2:{ unfold fds2. rewrite list_lookup_insert_ne by lia. rewrite list_lookup_insert_ne by done. by apply list_lookup_insert_eq. }
  rewrite (trace_close _ _ w (PipeWrite next)).
  2:{ unfold fds2. rewrite !(list_lookup_insert_ne _ _ w) by (done || lia). apply list_lookup_insert_eq. by rewrite length_insert. }
  f_equal. unfold fds2. apply list_eq. intros m. rewrite !list_lookup_insert, !length_insert.
  repeat case_decide; subst; try done; try lia; try (destruct_and!; lia).
  all: match goal with H : _ = _ /\ _ |- _ => by destruct H as [<- _] end.
Qed.

Lemma runcmd_spec fuel h b p c fds next :
  cmd_at fuel h b p = Some c -> std_redirs c -> fds_ok fds ->
  trace (runcmd fuel h b p) fds next = plumb c fds next.
Proof.
  revert p c fds next. induction fuel as [|f IH]; intros p c fds next Hc Hstd Hok; [done|]. cbn [cmd_at] in Hc. cbn [runcmd].
  destruct (Nat.eqb p 0) eqn:Ep; [apply Nat.eqb_eq in Ep as ->; done|]. destruct (node_at h p) as [[argv eargv|cp file efile mode fd|l r|l r|cp]|]; [..|done].
  - destruct (argv_of b argv) as [args|]; [|done]. cbn in Hc. injection Hc as <-. by destruct args.
  - destruct (cmd_at f h b cp) as [cm|] eqn:Ec; [|done]. cbn in Hc. injection Hc as <-. destruct Hstd as [Hfd Hstd].
    set (k := Z.to_nat fd). assert (Hk : (k <= 1)%nat) by (unfold k; lia). replace fd with (Z.of_nat k) by (unfold k; lia).
    destruct (fd_of_std fds k Hok Hk) as [o Ho]. cbn [plumb]. rewrite Nat2Z.id.
    rewrite <- (IH _ _ _ next Ec Hstd (fds_ok_insert fds k (Opened (str_at b file) mode) Hok Hk)).
    cbn. rewrite Ho, Nat2Z.id, (install_closed fds k _ Hok Hk). cbn. by replace (Z.of_nat k <? 0) with false by lia.
  - destruct (cmd_at f h b l) as [cl|] eqn:El; [|done]. destruct (cmd_at f h b r) as [cr|] eqn:Er; [|done]. cbn in Hc. injection Hc as <-.
    destruct Hstd as [Hl Hr]. destruct (pipe_fds fds next Hok) as (pr & pw & Epr & Epw & H1 & H2 & H3 & H4 & H5).
    assert (Lr : (pr < length fds)%nat) by (by eapply lookup_lt_Some). assert (Lw : (pw < length fds)%nat) by (by eapply lookup_lt_Some).
    set (fds2 := <[pw := _]> (<[pr := _]> fds)) in *.
    assert (Hpw : fds2 !! pw = Some (Some (PipeWrite next))) by (apply list_lookup_insert_eq; by rewrite length_insert).
    assert (Hpr : fds2 !! pr = Some (Some (PipeRead next))) by (unfold fds2; rewrite list_lookup_insert_ne by done; by apply list_lookup_insert_eq).
    rewrite trace_pipe, Epr, Epw. replace ((Z.of_nat pr <? 0) || (Z.of_nat pw <? 0)) with false by lia.
    rewrite trace_fork1. cbn [Z.eqb].
    rewrite (trace_pipe_end _ fds next pr pw 1 pw (PipeWrite next)) by (done || lia).
    rewrite (IH _ _ _ _ El Hl) by (by apply fds_ok_insert; [|lia]). cbn [plumb]. destruct (plumb cl _ _) as [el next1].
    rewrite trace_fork1. cbn [Z.eqb].
    rewrite (trace_pipe_end _ fds next pr pw 0 pr (PipeRead next)) by (done || lia).
    rewrite (IH _ _ _ _ Er Hr) by (by apply fds_ok_insert; [|lia]). destruct (plumb cr _ _) as [er next2].
    rewrite (trace_close _ _ _ _ _ Hpr). rewrite (trace_close _ _ pw (PipeWrite next)) by (by rewrite list_lookup_insert_ne).
    assert (<[pw := None]> (<[pr := None]> fds2) = fds) as -> by (by apply pipe_closed). done.
  - destruct (cmd_at f h b l) as [cl|] eqn:El; [|done]. destruct (cmd_at f h b r) as [cr|] eqn:Er; [|done]. cbn in Hc. injection Hc as <-.
    destruct Hstd as [Hl Hr]. rewrite trace_fork1. cbn [Z.eqb plumb]. rewrite (IH _ _ _ _ El Hl Hok). destruct (plumb cl _ _) as [el next1].
    cbn. change (prog_bind _ _) with (runcmd f h b r). rewrite (IH _ _ _ next1 Er Hr Hok). by destruct (plumb cr fds next1).
  - destruct (cmd_at f h b cp) as [cm|] eqn:Ec; [|done]. cbn in Hc. injection Hc as <-. rewrite trace_fork1. cbn [Z.eqb].
    rewrite (IH _ _ _ _ Ec Hstd Hok). cbn [plumb]. by destruct (plumb cm fds next) as [e n].
Qed.

(** Redirections of the grammar are of standard input or output. *)
Lemma wrap_std rs c ts args : items ts args rs -> std_redirs c -> std_redirs (wrap rs c).
Proof.
  intros H. revert c. induction H as [|w ts args rs H IH|t mode fd f ts args rs Ht H IH]; intros c Hc; [done|by apply IH|].
  apply (IH (Redirect c f mode fd)). split; [|done]. destruct t as [w|x|]; cbn in Ht; [done| |injection Ht; lia].
  destruct (x =? 60); [injection Ht; lia|]. destruct (x =? 62); [injection Ht; lia|done].
Qed.
Lemma grammar_std :
  (forall ts c, line ts c -> std_redirs c) /\ (forall ts c, pipeline ts c -> std_redirs c) /\ (forall ts c, command ts c -> std_redirs c).
Proof.
  assert (Hb : forall n c, std_redirs c -> std_redirs (Nat.iter n Background c)) by (induction n; cbn; auto).
  apply grammar_ind; cbn; auto.
  - intros ts args rs Hi _. by eapply wrap_std.
  - intros ts c rts rs _ Hc Hi. by eapply wrap_std.
Qed.

(** C22. The shell runs a command line as it is written: when standard input and
    output are open and two descriptors are free, and the calls succeed, the
    shell's child for a line of the grammar and the processes it forks do what
    the line's command says, in order.  Each program is started with exactly the
    descriptors its redirections and pipes ask for; both sides of a pipe are
    started before the process that made it waits, twice; the left side of a
    sequence is waited for before the right one runs, and a command in the
    background is not.  A process that waits or exits has the descriptors it was
    started with, its own redirections applied, so that no end of a pipe stays
    open but the one in each side. *)
Theorem shell_runs_command text junk c fds next :
  Forall (fun x => x <> 0) text -> line (tokens text) c -> fds_ok fds ->
  trace ('(cmd, h, buf) ← parsecmd (text ++ 0 :: junk); runcmd (S cmd) h buf cmd) fds next = plumb c fds next.
Proof.
  intros Ht Hl Hok. destruct (parsecmd_spec text junk Ht) as [(p & h & b & c' & E & Hc & Hu)|[H _]]; [|by destruct (H c)].
  apply Hu in Hl as Heq. subst c'. rewrite E. cbn [mbind prog_mbind prog_bind].
  apply runcmd_spec; [done| |done]. by apply (proj1 grammar_std) in Hl.
Qed.

Lemma shell_runs_command_witness :
  trace ('(cmd, h, buf) ← parsecmd (zs "ls >out" ++ 0 :: []); runcmd (S cmd) h buf cmd)
    [Some (Inherited 0); Some (Inherited 1); Some (Inherited 2); None; None] 0 =
  ([EExec (zs "ls") [zs "ls"] [Some (Inherited 0); Some (Opened (zs "out") 0x201); Some (Inherited 2); None; None]], 0%nat).
Proof.
  rewrite (shell_runs_command (zs "ls >out") [] (Redirect (Simple [zs "ls"]) (zs "out") 0x201 1)).
  - reflexivity.
  - apply list.Forall_forall. intros x Hx. apply list_elem_of_In in Hx. cbn in Hx. intuition (subst; done).
  - apply line_pipeline, pipeline_one, (command_simple _ [zs "ls"] [(zs "out", 0x201, 1)]); [repeat constructor|cbn; unfold MAXARGS; lia].
  - split; [eexists; reflexivity|]. split; [eexists; reflexivity|]. exists 3%nat, 4%nat. split; [lia|done].
Defined.
