(* ===== verification/Nsh.v ===== *)
(** * The shell nsh (user/nsh.c)

    main reads a line into [buf], 80 bytes, and the words of it as positions in
    [buf]; it executes the stages of a line one after the other, each with its
    output in a pipe from which the next reads.  A child whose exec fails goes
    on as the shell, as in the source.  Indices outside [buf] and [line], and a
    null pointer for the name of a file, are [Stuck]. *)
From S2P Require Import Prelude Mem Ulib Uprintf Usys Sh.

(** What main knows of the character before, and of the operator it is in. *)
Inductive nclass := START | CHAR | SPACE | NEWLINE | PIPE | PIPE_2 | REDIR_I | REDIR_O | DONE.
#[export] Instance nclass_eq_dec : EqDecision nclass.
Proof. solve_decision. Defined.
Definition isc (a b : nclass) : bool := bool_decide (a = b).

Definition nsize : nat := 80.
Definition nargs : nat := 32.
Abbreviation nline := (list (option nat)).

(** [pipe(p)]: when it fails, [p] keeps its contents. *)
Definition pipe (p : Z * Z) : prog (Z * Z) := r ← call Usys.Pipe; mret (default p r).
(** The arguments up to the first null pointer. *)
Fixpoint nargv (buf : list Z) (line : nline) : list (list Z) :=
  match line with Some k :: line' => str_at buf k :: nargv buf line' | _ => [] end.
(** [exec(args[0], args)] *)
Definition exec_line (buf : list Z) (line : nline) : prog unit :=
  match nargv buf line with [] => Stuck | a :: argv => call (Exec a (a :: argv)) ;; mret tt end.
(** [gets(buf, sizeof buf)] and printf, until there is no line. *)
Fixpoint copy_lines (fuel : nat) : prog Empty_set :=
  match fuel with
  | O => Stuck
  | S fuel' =>
      line ← gets_calls (nsize - 1) [];
      if (strlen line =? 0)%nat then exit 0
      else writes (printf (nl "%s") [VStr (Some line)]) ;; copy_lines fuel'
  end.
(** [close(a); dup(b);] *)
Definition redirect (a b : Z) : prog unit := call (Close a) ;; call (Dup b) ;; mret tt.
Definition closes (p : Z * Z) : prog unit := call (Close p.1) ;; call (Close p.2) ;; mret tt.

(** ** exec2pipe *)
Definition exec2pipe_out (p : Z * Z) (buf : list Z) (args : nline) : prog (Z * Z) :=
  p ← pipe p;
  pid ← call Fork;
  (if pid =? 0 then redirect 1 p.2 ;; closes p ;; exec_line buf args
   else call Wait ;; call (Close p.2) ;; mret tt) ;;
  mret p.
(** The name of the file is taken out of the caller's array. *)
Definition exec2pipe_in (p : Z * Z) (buf : list Z) (args : nline) (n : nat) : prog ((Z * Z) * nline) :=
  match n with
  | O => Stuck
  | S n =>
      match args !! n with
      | Some (Some k) =>
          fd ← call (Open (str_at buf k) O_RDONLY);
          let args := <[n := None]> args in
          p ← pipe p;
          pid ← call Fork;
          (if pid =? 0 then redirect 0 fd ;; redirect 1 p.2 ;; closes p ;; exec_line buf args
           else call Wait ;; call (Close p.2) ;; call (Close fd) ;; mret tt) ;;
          mret (p, args)
      | _ => Stuck
      end
  end.
Definition exec2pipe_pipe (fuel : nat) (p : Z * Z) (buf : list Z) (args : nline) : prog (Z * Z) :=
  p2 ← call Usys.Pipe;
  match p2 with
  | None => Stuck
  | Some p2 =>
      pid ← call Fork;
      if pid =? 0 then redirect 0 p.1 ;; redirect 1 p2.2 ;; closes p ;; closes p2 ;; exec_line buf args ;; mret p
      else
        call Wait ;;
        call (Close p.1) ;;
        call (Close p2.2) ;;
        p ← pipe p;
        pid ← call Fork;
        if pid =? 0 then
          redirect 0 p2.1 ;; redirect 1 p.2 ;; closes p ;; closes p2 ;;
          e ← copy_lines fuel; match e : Empty_set with end
        else call Wait ;; call (Close p.2) ;; closes p2 ;; mret p
  end.
Definition exec2pipe (fuel : nat) (p : Z * Z) (buf : list Z) (args : nline) (type : nclass) (n : nat) : prog ((Z * Z) * nline) :=
  if isc type REDIR_O then p ← exec2pipe_out p buf args; mret (p, args)
  else if isc type REDIR_I then exec2pipe_in p buf args n
  else p ← exec2pipe_pipe fuel p buf args; mret (p, args).

(** ** main *)
Record nst := mk_nst {
  ns_buf : list Z;
  ns_line : nline;
  ns_prev : nclass;
  ns_i : nat;
  ns_n : nat;
  ns_flag : nclass;
  ns_out : bool;  (* outInPipe *)
  ns_p : Z * Z;
}.
(** [buf[i]]; [None] outside. *)
Definition nget (buf : list Z) (i : nat) : option Z := if (i <? nsize)%nat then Some (at_ buf i) else None.
(** [while (f(buf[i])) i++;] *)
Fixpoint skip (f : Z -> bool) (fuel : nat) (buf : list Z) (i : nat) : option nat :=
  match fuel with
  | O => None
  | S fuel' => c ← nget buf i; if f c then skip f fuel' buf (S i) else Some i
  end.
Definition blank (c : Z) : bool := (c =? 32) || (c =? 10).
Definition in_word (c : Z) : bool := negb (c =? 0) && negb (c =? 32) && negb (c =? 10).
Definition orstuck {A} (o : option A) : prog A := match o with Some a => mret a | None => Stuck end.
(** [line[n] = v] *)
Definition set_word (line : nline) (n : nat) (v : option nat) : prog nline :=
  if (n <? nargs)%nat then mret (<[n := v]> line) else Stuck.
(** The next word, from the character after [i] on, is entered as word [n]: the buffer
    with its end marked, the words, where it begins and where it ends. *)
Definition next_word (buf : list Z) (line : nline) (i n : nat) : prog (list Z * nline * nat * nat) :=
  b ← orstuck (skip blank (S nsize) buf (S i));
  line ← set_word line n (Some b);
  e ← orstuck (skip in_word (S nsize) buf b);
  mret (<[e := 0]> buf, line, b, e).
(** The rest of the pipe's output goes where the descriptors of the child say. *)
Definition drain (fuel : nat) (p : Z * Z) (out : option Z) : prog unit :=
  pid ← call Fork;
  if pid =? 0 then
    redirect 0 p.1 ;; (match out with Some fd => redirect 1 fd | None => mret tt end) ;; closes p ;;
    e ← copy_lines fuel; match e : Empty_set with end
  else call Wait ;; mret tt.

(** A space that ends a word, inside an operator. *)
Definition on_space (fuel : nat) (st : nst) : prog nst :=
  let '(mk_nst buf line _ i n flag out p) := st in
  let buf := <[i := 0]> buf in
  if isc flag REDIR_O then
    '(buf, line, b, e) ← next_word buf line i n;
    fd ← call (Open (str_at buf b) (Z.lor O_CREATE O_WRONLY));
    let line := <[n := None]> line in
    '(p, line) ← (if out then mret (p, line) else exec2pipe fuel p buf line REDIR_O n);
    drain fuel p (Some fd) ;;
    call (Close fd) ;;
    closes p ;;
    mret (mk_nst buf line SPACE e n DONE false p)
  else if isc flag REDIR_I then
    '(buf, line, b, e) ← next_word buf line i n;
    '(p, line) ← exec2pipe fuel (0, 0) buf line REDIR_I (S n);
    mret (mk_nst buf line SPACE e (S n) DONE true p)
  else if isc flag PIPE then
    '(buf, line, b, e) ← next_word buf line i n;
    let line := <[n := None]> line in
    '(p, line) ← (if out then mret (p, line) else exec2pipe fuel p buf line REDIR_O n);
    mret (mk_nst buf (<[0%nat := Some b]> (replicate nargs None)) SPACE e 1 PIPE_2 true p)
  else mret (mk_nst buf line SPACE i n flag out p).
(** [switch (buf[i])] *)
Definition nsh_char (fuel : nat) (st : nst) (c : Z) : prog nst :=
  let '(mk_nst buf line prev i n flag out p) := st in
  if c =? 32 then
    if isc prev SPACE || isc prev NEWLINE then mret st else on_space fuel st
  else if c =? 10 then
    mret (if isc prev SPACE || isc prev NEWLINE then st else mk_nst buf line NEWLINE i n flag out p)
  else if c =? 124 then mret (mk_nst buf line PIPE i n PIPE out p)
  else if c =? 60 then mret (mk_nst buf line REDIR_I i n REDIR_I out p)
  else if c =? 62 then
    '(p, line) ← (if isc flag PIPE_2 then exec2pipe fuel p buf line PIPE n else mret (p, line));
    mret (mk_nst buf line REDIR_O i n REDIR_O out p)
  else if isc prev CHAR then mret st
  else
    line ← set_word line n (Some i);
    mret (mk_nst buf line CHAR i (S n) flag out p).
(** [while (buf[i] != 0)]; [i] grows in every round. *)
Fixpoint nsh_loop (rounds fuel : nat) (st : nst) : prog nst :=
  match rounds with
  | O => Stuck
  | S rounds' =>
      c ← orstuck (nget (ns_buf st) (ns_i st));
      if c =? 0 then mret st else
      st ← nsh_char fuel st c;
      nsh_loop rounds' fuel (mk_nst (ns_buf st) (ns_line st) (ns_prev st) (S (ns_i st)) (ns_n st) (ns_flag st) (ns_out st) (ns_p st))
  end.
(** After the line: a plain command, or what is left in the pipe. *)
Definition nsh_finish (fuel : nat) (st : nst) : prog unit :=
  let '(mk_nst buf line prev i n flag out p) := st in
  if isc prev CHAR && isc flag START then
    pid ← call Fork;
    if pid =? 0 then exec_line buf line else call Wait ;; mret tt
  else if out then
    '(p, _) ← (if isc flag PIPE_2 then exec2pipe fuel p buf line PIPE n else mret (p, line));
    drain fuel p None ;;
    closes p
  else mret tt.
(** [lines] lines at most. *)
Fixpoint nsh_main (lines fuel : nat) : prog Empty_set :=
  match lines with
  | O => Stuck
  | S lines' =>
      writes (printf "@ " []) ;;
      line ← gets_calls (nsize - 1) [];
      let buf := splice (replicate nsize 0) 0 (line ++ [0]) in
      if at_ buf 0 =? 0 then exit 0 else
      let buf := <[(strlen buf - 1)%nat := 0]> buf in
      st ← nsh_loop (S nsize) fuel (mk_nst buf (replicate nargs None) START 0 0 START false (0, 0));
      nsh_finish fuel st ;;
      nsh_main lines' fuel
  end.
