(* ===== verification/NshProofs.v ===== *)
(** * nsh on some lines

    A plain line is run as one command ([nsh_runs_words]); with a blank at its end it
    is not run at all ([nsh_trailing_blank]); and what goes through a pipe gets
    an empty line after every line ([copy_lines_doubles]). *)
From S2P Require Import Prelude Mem Ulib Uprintf Usys Sh Nsh Utils UtilsProofs.

(** What main does with the line [l]. *)
Definition nsh_line (l : list Z) : prog unit :=
  let buf := splice (replicate nsize 0) 0 (l ++ [0]) in
  st ← nsh_loop (S nsize) 10 (mk_nst buf (replicate nargs None) START 0 0 START false (0, 0));
  nsh_finish 10 st.
Definition shell_fds : fdtable := [Some (Inherited 0); Some (Inherited 1); Some (Inherited 2)] ++ replicate 13 None.

(** The words of the line are the arguments, however many blanks lie between them. *)
Lemma nsh_runs_words :
  flat_map started (trace (nsh_line (zs "echo  hi   there")) shell_fds 0).1 = [(zs "echo", [zs "echo"; zs "hi"; zs "there"], shell_fds)].
Proof. vm_compute. reflexivity. Qed.
Lemma nsh_trailing_blank : flat_map started (trace (nsh_line (zs "echo hi ")) shell_fds 0).1 = [].
Proof. vm_compute. reflexivity. Qed.
(** A pipeline: the first command writes to a pipe, and the second reads that pipe and
    writes to another. *)
Lemma nsh_pipeline :
  (fun x => (x.1, take 2 x.2)) <$> flat_map started (trace (nsh_line (zs "ls | wc -l")) shell_fds 0).1 =
  [(zs "ls", [zs "ls"], [Some (Inherited 0); Some (PipeWrite 0)]);
   (zs "wc", [zs "wc"; zs "-l"], [Some (PipeRead 0); Some (PipeWrite 1)])].
Proof. vm_compute. reflexivity. Qed.
Lemma copy_lines_doubles :
  output (seq_run (fun _ => None) (copy_lines 10) 1 console_fds (world0 [zs "one" ++ [10] ++ zs "two" ++ [10]])) =
  Some (0, zs "one" ++ [10; 10] ++ zs "two" ++ [10; 10]).
Proof. vm_compute. reflexivity. Qed.
