(* ===== verification/Umalloc.v ===== *)
(** * The user memory allocator (user/umalloc.c)

    A header is 16 bytes of the process's memory: the pointer to the next free
    block and, 8 bytes on, the size of the block in units of a header.  The static
    variables are the header [base] and the pointer [freep].  sbrk is a system
    call.  The loops go round the ring of free blocks; [fuel] bounds them, and more
    than twice the number of free blocks plus four is enough. *)
From S2P Require Import Prelude Mem Usys.

Definition sizeof_Header : Z := 16.
Definition get_ptr (m : mem) (p : Z) : Z := load64 m p.
Definition get_size (m : mem) (p : Z) : Z := load32 m (p + 8).
Definition set_ptr (p v : Z) (m : mem) : mem := store64 m p v.
Definition set_size (p v : Z) (m : mem) : mem := store32 m (p + 8) v.
(** Pointer arithmetic on [Header *]. *)
Definition hadd (p n : Z) : Z := p + n * sizeof_Header.

Record ust := mk_ust { um_mem : mem; um_freep : Z }.

Section Umalloc.
Context (base : Z).

(** The search of free(): the block after which [bp] belongs. *)
Fixpoint free_search (fuel : nat) (m : mem) (bp p : Z) : option Z :=
  match fuel with
  | O => None
  | S fuel' =>
      if (p <? bp) && (bp <? get_ptr m p) then Some p
      else if (get_ptr m p <=? p) && ((p <? bp) || (bp <? get_ptr m p)) then Some p
      else free_search fuel' m bp (get_ptr m p)
  end.
Definition free (fuel : nat) (ap : Z) (s : ust) : option ust :=
  let bp := hadd ap (-1) in
  let m := um_mem s in
  p ← free_search fuel m bp (um_freep s);
  let m :=
    if hadd bp (get_size m bp) =? get_ptr m p then
      let m := set_size bp (get_size m bp + get_size m (get_ptr m p)) m in
      set_ptr bp (get_ptr m (get_ptr m p)) m
    else set_ptr bp (get_ptr m p) m in
  let m :=
    if hadd p (get_size m p) =? bp then
      let m := set_size p (get_size m p + get_size m bp) m in
      set_ptr p (get_ptr m bp) m
    else set_ptr p bp m in
  Some (mk_ust m p).

(** The argument of sbrk is an int: the number of bytes wraps. *)
Definition morecore (fuel : nat) (nu : Z) (s : ust) : prog (Z * ust) :=
  let nu := if nu <? 4096 then 4096 else nu in
  p ← call (Sbrk (s32 (nu * sizeof_Header)));
  if p =? -1 then mret (0, s) else
  let hp := p in
  match free fuel (hadd hp 1) (mk_ust (set_size hp nu (um_mem s)) (um_freep s)) with
  | Some s => mret (um_freep s, s)
  | None => Stuck
  end.

Fixpoint malloc_loop (fuel : nat) (nunits prevp p : Z) (s : ust) : prog (Z * ust) :=
  match fuel with
  | O => Stuck
  | S fuel' =>
      let m := um_mem s in
      if nunits <=? get_size m p then
        if get_size m p =? nunits then
          mret (hadd p 1, mk_ust (set_ptr prevp (get_ptr m p) m) prevp)
        else
          let m := set_size p (get_size m p - nunits) m in
          let p := hadd p (get_size m p) in
          let m := set_size p nunits m in
          mret (hadd p 1, mk_ust m prevp)
      else if p =? um_freep s then
        '(p, s) ← morecore fuel' nunits s;
        if p =? 0 then mret (0, s) else malloc_loop fuel' nunits p (get_ptr (um_mem s) p) s
      else malloc_loop fuel' nunits p (get_ptr m p) s
  end.
Definition units (nbytes : Z) : Z := u32 ((nbytes + sizeof_Header - 1) / sizeof_Header + 1).
Definition malloc (fuel : nat) (nbytes : Z) (s : ust) : prog (Z * ust) :=
  let nunits := units nbytes in
  let s := if um_freep s =? 0 then mk_ust (set_size base 0 (set_ptr base base (um_mem s))) base else s in
  let prevp := um_freep s in
  malloc_loop fuel nunits prevp (get_ptr (um_mem s) prevp) s.
End Umalloc.
