(* ===== verification/UmallocProofs.v ===== *)
(** * Correctness of malloc and free

    The free list is a ring through [base] and the free blocks in ascending order
    of their addresses, no two of them adjacent: [heap_list m fl] says that the
    memory holds it and [asc] that [fl] is such a list.  Two lists of this kind
    that cover the same bytes are equal ([asc_unique]): what a list covers
    determines it. *)
From S2P Require Import Prelude Mem Usys Umalloc.

(** ** Headers *)
Definition apart (p q : Z) : Prop := p + 16 <= q \/ q + 16 <= p.
Lemma get_ptr_set p v m : 0 <= v < 2 ^ 64 -> get_ptr (set_ptr p v m) p = v.
Proof. intros Hv. unfold get_ptr, set_ptr. rewrite load_store_same. by apply Z.mod_small. Qed.
Lemma get_size_set p v m : 0 <= v < 2 ^ 32 -> get_size (set_size p v m) p = v.
Proof. intros Hv. unfold get_size, set_size. rewrite load_store_same. by apply Z.mod_small. Qed.
Lemma get_ptr_set_ptr p v m q : apart p q -> get_ptr (set_ptr p v m) q = get_ptr m q.
Proof. intros H. unfold get_ptr, set_ptr. apply load_store_other. unfold apart in H. lia. Qed.
Lemma get_size_set_size p v m q : apart p q -> get_size (set_size p v m) q = get_size m q.
Proof. intros H. unfold get_size, set_size. apply load_store_other. unfold apart in H. lia. Qed.
Lemma get_ptr_set_size p v m q : p = q \/ apart p q -> get_ptr (set_size p v m) q = get_ptr m q.
Proof. intros H. unfold get_ptr, set_size. apply load_store_other. unfold apart in H. lia. Qed.
Lemma get_size_set_ptr p v m q : p = q \/ apart p q -> get_size (set_ptr p v m) q = get_size m q.
Proof. intros H. unfold get_size, set_ptr. apply load_store_other. unfold apart in H. lia. Qed.
Lemma getb_set_ptr p v m x : x < p \/ p + 16 <= x -> getb (set_ptr p v m) x = getb m x.
Proof. intros H. apply getb_store_out. lia. Qed.
Lemma getb_set_size p v m x : x < p \/ p + 16 <= x -> getb (set_size p v m) x = getb m x.
Proof. intros H. apply getb_store_out. lia. Qed.

(** Memory outside one header. *)
Definition same_but (p : Z) (m m' : mem) : Prop := forall x, x < p \/ p + 16 <= x -> getb m' x = getb m x.
Lemma same_but_ptr p m m' q : same_but p m m' -> apart p q -> get_ptr m' q = get_ptr m q.
Proof. intros H Ha. apply load_ext. intros i Hi. apply H. unfold apart in Ha. lia. Qed.
Lemma same_but_size p m m' q : same_but p m m' -> apart p q -> get_size m' q = get_size m q.
Proof. intros H Ha. apply load_ext. intros i Hi. apply H. unfold apart in Ha. lia. Qed.

(** ** The ring *)
Abbreviation block := (Z * Z)%type.
Definition bend (b : block) : Z := b.1 + 16 * b.2.
(** The blocks [fl] are in ascending order and apart, from [lo] on. *)
Fixpoint asc (lo : Z) (fl : list block) : Prop :=
  match fl with
  | [] => True
  | b :: r => lo < b.1 /\ 0 < b.2 /\ asc (bend b) r
  end.
(** From [p] the pointers lead through [l] to [q]. *)
Definition seg (m : mem) (p : Z) (l : list Z) (q : Z) : Prop := get_ptr m <$> (p :: l) = l ++ [q].
Definition covers (fl : list block) (x : Z) : Prop := exists b, b ∈ fl /\ b.1 <= x < bend b.

Lemma seg_cons m p a l q : seg m p (a :: l) q <-> get_ptr m p = a /\ seg m a l q.
Proof. unfold seg. cbn. split; [by intros [= -> H]|intros [-> H]; by f_equal]. Qed.
Lemma seg_nil m p q : seg m p [] q <-> get_ptr m p = q.
Proof. unfold seg. cbn. split; [by intros [= ->]|by intros ->]. Qed.
Lemma seg_app m p l1 a l2 q : seg m p (l1 ++ a :: l2) q <-> seg m p l1 a /\ seg m a l2 q.
Proof.
  revert p. induction l1 as [|b l1 IH]; intros p; cbn [app].
  - by rewrite seg_cons, seg_nil.
  - rewrite !seg_cons, IH. tauto.
Qed.
Lemma seg_ext m m' p l q : (forall x, x ∈ p :: l -> get_ptr m' x = get_ptr m x) -> seg m p l q -> seg m' p l q.
Proof.
  intros H. unfold seg. intros <-. apply list_fmap_ext. intros i x Hx. apply H. by eapply list_elem_of_lookup_2.
Qed.

Lemma asc_lower lo fl b : asc lo fl -> b ∈ fl -> lo < b.1 /\ 0 < b.2.
Proof.
  revert lo. induction fl as [|c r IH]; intros lo H Hb; [by apply elem_of_nil in Hb|]. destruct H as (H1 & H2 & H3).
  apply elem_of_cons in Hb as [->|Hb]; [done|]. destruct (IH _ H3 Hb) as [H4 H5]. unfold bend in H4. split; [lia|done].
Qed.
Lemma asc_order lo fl i j b c : asc lo fl -> fl !! i = Some b -> fl !! j = Some c -> (i < j)%nat -> bend b < c.1.
Proof.
  revert lo i j. induction fl as [|d r IH]; intros lo i j H Hi Hj Hij; [done|]. destruct H as (H1 & H2 & H3).
  destruct j as [|j]; [lia|]. cbn in Hj. destruct i as [|i]; cbn in Hi.
  - injection Hi as <-. destruct (asc_lower _ _ _ H3 (list_elem_of_lookup_2 _ _ _ Hj)). done.
  - apply (IH _ i j H3 Hi Hj). lia.
Qed.
Definition end_of (lo : Z) (fl : list block) : Z := foldl (fun _ b => bend b) lo fl.
Lemma asc_app f1 : forall lo f2, asc lo (f1 ++ f2) <-> asc lo f1 /\ asc (end_of lo f1) f2.
Proof. induction f1 as [|b f1 IH]; intros lo f2; cbn; [tauto|]. rewrite IH. tauto. Qed.
Lemma end_of_snoc lo f1 b : end_of lo (f1 ++ [b]) = bend b.
Proof. unfold end_of. by rewrite foldl_app. Qed.
Lemma asc_weaken lo lo' fl : asc lo fl -> lo' <= lo -> asc lo' fl.
Proof. destruct fl; [done|]. cbn. intros (H1 & H2 & H3) H. split_and!; [lia|done|done]. Qed.
Lemma covers_app f1 f2 x : covers (f1 ++ f2) x <-> covers f1 x \/ covers f2 x.
Proof. unfold covers. setoid_rewrite elem_of_app. naive_solver. Qed.
Lemma covers_cons b fl x : covers (b :: fl) x <-> b.1 <= x < bend b \/ covers fl x.
Proof. unfold covers. setoid_rewrite elem_of_cons. naive_solver. Qed.
Lemma covers_nil x : covers [] x <-> False.
Proof. unfold covers. setoid_rewrite elem_of_nil. naive_solver. Qed.

(** A block outside the list has its place in it. *)
Lemma split_at fl a n : forall lo, asc lo fl -> 0 < n -> (forall b, b ∈ fl -> bend b <= a \/ a + 16 * n <= b.1) ->
  exists f1 f2, fl = f1 ++ f2 /\ (forall b, b ∈ f1 -> bend b <= a) /\ forall b, b ∈ f2 -> a + 16 * n <= b.1.
Proof.
  induction fl as [|b r IH]; intros lo H Hn Hd; [exists [], []; split_and!; [done|..]; by intros b Hb%elem_of_nil|].
  destruct H as (H1 & H2 & H3). destruct (Hd b ltac:(by left)) as [Hb|Hb].
  - destruct (IH _ H3 Hn) as (f1 & f2 & -> & A1 & A2); [intros c Hc; apply Hd; by right|].
    exists (b :: f1), f2. split_and!; [done| |done]. intros c [->|Hc]%elem_of_cons; [done|by apply A1].
  - exists [], (b :: r). split_and!; [done|by intros c Hc%elem_of_nil|]. intros c [->|Hc]%elem_of_cons; [done|].
    destruct (asc_lower _ _ _ H3 Hc). unfold bend in *. lia.
Qed.
Lemma below_end lo f1 a : lo < a -> (forall b, b ∈ f1 -> bend b <= a) -> end_of lo f1 <= a.
Proof.
  intros Hlo H. destruct f1 as [|b f1] using rev_ind; [cbn; lia|]. rewrite end_of_snoc. apply H. apply elem_of_app. right. by left.
Qed.

(** ** Walking round the ring *)
Section Ring.
Context (base : Z).
Definition heap_list (m : mem) (fl : list block) : Prop :=
  seg m base (fst <$> fl) base /\ get_size m base = 0 /\ forall b, b ∈ fl -> get_size m b.1 = b.2.
Definition ring (fl : list block) : list Z := base :: (fst <$> fl).

Lemma ring_next m fl i x : seg m base (fst <$> fl) base -> ring fl !! i = Some x ->
  ((i < length fl)%nat /\ ring fl !! S i = Some (get_ptr m x)) \/ (i = length fl /\ get_ptr m x = base).
Proof.
  intros Hs Hx. assert (Hl : ((fst <$> fl) ++ [base]) !! i = Some (get_ptr m x)).
  { unfold seg in Hs. rewrite <- Hs. unfold ring in Hx. by rewrite list_lookup_fmap, Hx. }
  pose proof (lookup_lt_Some _ _ _ Hx) as Hlt. unfold ring in Hlt. cbn in Hlt. rewrite length_fmap in Hlt.
  destruct (decide (i < length fl)%nat) as [Hi|Hi].
  - left. split; [done|]. rewrite lookup_app_l in Hl by (by rewrite length_fmap). done.
  - right. assert (i = length fl) as -> by lia. split; [done|].
    rewrite lookup_app_r in Hl by (by rewrite length_fmap). rewrite length_fmap, Nat.sub_diag in Hl. by injection Hl as ->.
Qed.
Lemma ring_block fl i x : ring fl !! S i = Some x -> exists b, fl !! i = Some b /\ b.1 = x.
Proof.
  intros H. change ((fst <$> fl) !! i = Some x) in H. rewrite list_lookup_fmap in H.
  destruct (fl !! i) as [b|]; [|done]. injection H as <-. eauto.
Qed.
Lemma ring_order fl i j x y : asc (base + 15) fl -> ring fl !! i = Some x -> ring fl !! j = Some y -> (i < j)%nat -> x < y.
Proof.
  intros Ha Hi Hj Hij. destruct j as [|j]; [lia|]. apply ring_block in Hj as (c & Hc & <-).
  destruct i as [|i].
  - injection Hi as <-. destruct (asc_lower _ _ _ Ha (list_elem_of_lookup_2 _ _ _ Hc)). lia.
  - apply ring_block in Hi as (b & Hb & <-). pose proof (asc_order _ _ i j b c Ha Hb Hc ltac:(lia)).
    destruct (asc_lower _ _ _ Ha (list_elem_of_lookup_2 _ _ _ Hb)). unfold bend in *. lia.
Qed.
(** How far the element [i] is from the element [t], going forward. *)
Definition steps_to (N i t : nat) : nat := if (i <=? t)%nat then (t - i)%nat else (t + N - i)%nat.

Definition stop (m : mem) (bp p : Z) : bool :=
  ((p <? bp) && (bp <? get_ptr m p)) || ((get_ptr m p <=? p) && ((p <? bp) || (bp <? get_ptr m p))).
Lemma free_search_step fuel m bp p :
  free_search (S fuel) m bp p = if stop m bp p then Some p else free_search fuel m bp (get_ptr m p).
Proof. unfold stop. cbn. destruct ((p <? bp) && _); [done|]. by destruct ((_ <=? _) && _). Qed.
(** The walk stops at the last element below [a], and only there. *)
Lemma stop_at m f1 f2 a i x : seg m base (fst <$> f1 ++ f2) base -> asc (base + 15) (f1 ++ f2) -> base < a ->
  (forall b, b ∈ f1 -> b.1 < a) -> (forall b, b ∈ f2 -> a < b.1) -> ring (f1 ++ f2) !! i = Some x ->
  stop m a x = bool_decide (i = length f1).
Proof.
  intros Hs Ha Hb H1 H2 Hx. pose proof (ring_next m _ i x Hs Hx) as Hn.
  assert (Hlow : (i <= length f1)%nat -> x < a).
  { intros Hi. destruct i as [|i]; [by injection Hx as <-|]. apply ring_block in Hx as (b & Hfb & <-). apply H1.
    rewrite lookup_app_l in Hfb by lia. by eapply list_elem_of_lookup_2. }
  assert (Hhigh : forall j y, ring (f1 ++ f2) !! j = Some y -> (length f1 < j)%nat -> a < y).
  { intros [|j] y Hy Hj; [lia|]. apply ring_block in Hy as (b & Hfb & <-). apply H2. rewrite lookup_app_r in Hfb by lia. by eapply list_elem_of_lookup_2. }
  assert (Hnlow : forall y, ring (f1 ++ f2) !! S i = Some y -> (i < length f1)%nat -> y < a).
  { intros y Hy Hi. apply ring_block in Hy as (b & Hfb & <-). apply H1. rewrite lookup_app_l in Hfb by lia. by eapply list_elem_of_lookup_2. }
  assert (Hord : forall y, ring (f1 ++ f2) !! S i = Some y -> x < y) by (intros y Hy; apply (ring_order _ i (S i) x y Ha Hx Hy); lia).
  assert (Hbx : base <= x).
  { destruct i as [|i]; [injection Hx as <-; lia|]. pose proof (ring_order _ 0 (S i) base x Ha eq_refl Hx ltac:(lia)). lia. }
  rewrite length_app in Hn. unfold stop. destruct (decide (i = length f1)) as [->|Hne].
  - rewrite bool_decide_eq_true_2 by done. specialize (Hlow ltac:(lia)). destruct Hn as [[Hl Hn]|[Hl ->]].
    + pose proof (Hhigh _ _ Hn ltac:(lia)). lia.
    + lia.
  - rewrite bool_decide_eq_false_2 by done. destruct (decide (i < length f1)%nat) as [Hi|Hi].
    + destruct Hn as [[Hl Hn]|[Hl _]]; [|lia]. pose proof (Hnlow _ Hn Hi). pose proof (Hord _ Hn). lia.
    + pose proof (Hhigh _ _ Hx ltac:(lia)). destruct Hn as [[Hl Hn]|[Hl ->]]; [pose proof (Hord _ Hn); lia|lia].
Qed.
Lemma free_search_spec m f1 f2 a z : seg m base (fst <$> f1 ++ f2) base -> asc (base + 15) (f1 ++ f2) -> base < a ->
  (forall b, b ∈ f1 -> b.1 < a) -> (forall b, b ∈ f2 -> a < b.1) -> ring (f1 ++ f2) !! length f1 = Some z ->
  forall d fuel i x, steps_to (S (length (f1 ++ f2))) i (length f1) = d -> (d < fuel)%nat -> ring (f1 ++ f2) !! i = Some x ->
  free_search fuel m a x = Some z.
Proof.
  intros Hs Ha Hb H1 H2 Hz. induction d as [|d IH]; intros [|fuel] i x Hd Hf Hx; try lia.
  all: rewrite free_search_step, (stop_at m f1 f2 a i x) by done; pose proof (lookup_lt_Some _ _ _ Hx) as Hlt; cbn in Hlt;
    rewrite length_fmap, length_app in Hlt; unfold steps_to in Hd; rewrite length_app in Hd.
  - destruct (i <=? length f1)%nat eqn:E; [apply Nat.leb_le in E|apply Nat.leb_gt in E; lia].
    assert (i = length f1) as -> by lia. rewrite bool_decide_eq_true_2 by done. congruence.
  - rewrite bool_decide_eq_false_2.
    2:{ intros ->. rewrite Nat.leb_refl in Hd. lia. }
    destruct (ring_next m _ i x Hs Hx) as [[Hl Hn]|[Hl Hn]]; rewrite length_app in Hl.
    + apply (IH fuel (S i)); [|lia|done]. unfold steps_to. rewrite length_app.
      destruct (i <=? length f1)%nat eqn:E; [apply Nat.leb_le in E|apply Nat.leb_gt in E].
      * replace (S i <=? length f1)%nat with true by (symmetry; apply Nat.leb_le; lia). lia.
      * replace (S i <=? length f1)%nat with false by (symmetry; apply Nat.leb_gt; lia). lia.
    + rewrite Hn. apply (IH fuel O); [|lia|done]. unfold steps_to. rewrite length_app. cbn [Nat.leb].
      destruct (i <=? length f1)%nat eqn:E; [apply Nat.leb_le in E|apply Nat.leb_gt in E]; lia.
Qed.

(** ** free *)
Definition link_right (m : mem) (bp p : Z) : mem :=
  if hadd bp (get_size m bp) =? get_ptr m p then
    let m := set_size bp (get_size m bp + get_size m (get_ptr m p)) m in
    set_ptr bp (get_ptr m (get_ptr m p)) m
  else set_ptr bp (get_ptr m p) m.
Definition link_left (m : mem) (bp p : Z) : mem :=
  if hadd p (get_size m p) =? bp then
    let m := set_size p (get_size m p + get_size m bp) m in
    set_ptr p (get_ptr m bp) m
  else set_ptr p bp m.
Lemma free_eq fuel ap s : free fuel ap s =
  (p ← free_search fuel (um_mem s) (hadd ap (-1)) (um_freep s);
   Some (mk_ust (link_left (link_right (um_mem s) (hadd ap (-1)) p) (hadd ap (-1)) p) p)).
Proof. done. Qed.

Definition small (b : block) : Prop := 0 <= b.1 /\ bend b < 2 ^ 36.
Definition sizes_ok (m : mem) (fl : list block) : Prop := forall b, b ∈ fl -> get_size m b.1 = b.2.
Lemma link_right_spec m z a n f2 :
  seg m z (fst <$> f2) base -> sizes_ok m f2 -> get_size m a = n -> asc (a + 16 * n - 1) f2 -> 0 < n -> 0 <= base < a ->
  (forall b, b ∈ (a, n) :: f2 -> small b) -> z + 16 <= a ->
  exists n1 f2', let m1 := link_right m a z in
    seg m1 a (fst <$> f2') base /\ get_size m1 a = n1 /\ sizes_ok m1 f2' /\ asc (a + 16 * n1) f2' /\ n <= n1 /\
    same_but a m m1 /\ (forall b, b ∈ (a, n1) :: f2' -> small b) /\
    (forall x, covers ((a, n1) :: f2') x <-> covers ((a, n) :: f2) x) /\ (length f2' <= length f2)%nat.
Proof.
  intros Hs Hz Hn Ha Hp Hb Hsm Hza. unfold link_right, hadd, sizeof_Header. rewrite Hn.
  assert (Hsa : small (a, n)) by (apply Hsm; by left). unfold small, bend in Hsa. cbn in Hsa.
  destruct f2 as [|[b k] f2].
  - apply seg_nil in Hs. rewrite Hs. replace (a + n * 16 =? base) with false by lia. exists n, []. cbv zeta. split_and!; try done.
    + apply seg_nil, get_ptr_set. lia.
    + rewrite get_size_set_ptr by (by left). done.
    + by intros b ?%elem_of_nil.
    + intros x Hx. by apply getb_set_ptr.
  - cbn [fmap list_fmap fst] in Hs. apply seg_cons in Hs as [Hq Hs]. rewrite Hq. destruct Ha as (A1 & A2 & A3). cbn [fst snd bend] in *.
    assert (Hsb : small (b, k)) by (apply Hsm; right; by left). unfold small, bend in Hsb. cbn in Hsb.
    assert (Hkb : get_size m b = k) by (apply (Hz (b, k)); by left).
    assert (Hapart : forall c, c ∈ f2 -> apart a c.1).
    { intros c Hc. destruct (asc_lower _ _ _ A3 Hc). unfold bend in *. cbn in *. left. lia. }
    bdestr (a + n * 16 =? b).
    + exists (n + k), f2. rewrite Hkb. rewrite (get_ptr_set_size a (n + k) m z), Hq by (right; right; lia). rewrite (get_ptr_set_size a (n + k) m b) by (right; left; lia).
      assert (Hsame : same_but a m (set_ptr a (get_ptr m b) (set_size a (n + k) m))).
      { intros x Hx. rewrite getb_set_ptr, getb_set_size by lia. done. }
      assert (Hpb : 0 <= get_ptr m b < 2 ^ 64).
      { destruct f2 as [|[c j] f2]; [apply seg_nil in Hs as ->; lia|]. cbn in Hs. apply seg_cons in Hs as [-> _].
        assert (Hsc : small (c, j)) by (apply Hsm; right; right; by left). unfold small, bend in Hsc. cbn in Hsc.
        destruct A3 as (_ & ? & _). cbn in *. lia. }
      assert (Hpa : get_ptr (set_ptr a (get_ptr m b) (set_size a (n + k) m)) a = get_ptr m b) by (by apply get_ptr_set).
      cbv zeta. split_and!; try done.
      * destruct f2 as [|[c j] f2]; [apply seg_nil; apply seg_nil in Hs; congruence|]. cbn in Hs |- *. apply seg_cons in Hs as [Hc Hs].
        apply seg_cons. split; [congruence|]. eapply seg_ext; [|exact Hs]. intros x Hx. apply (same_but_ptr a); [done|].
        apply elem_of_cons in Hx as [->|Hx]; [apply (Hapart (c, j)); by left|].
        apply list_elem_of_fmap in Hx as (d & -> & Hd). apply Hapart. by right.
      * rewrite get_size_set_ptr, get_size_set; [done|lia|by left].
      * intros c Hc. rewrite (same_but_size a m) by (try done; by apply Hapart). apply Hz. by right.
      * eapply asc_weaken; [exact A3|]. unfold bend. cbn. lia.
      * lia.
      * intros c [->|Hc]%elem_of_cons; [unfold small, bend; cbn; lia|]. apply Hsm. right. by right.
      * intros x. rewrite !covers_cons. unfold bend. cbn. split; [intros [H|H]|intros [H|[H|H]]]; try tauto; try (left; lia).
        destruct (decide (x < b)); [left; lia|right; left; lia].
      * cbn. lia.
    + exists n, ((b, k) :: f2).
      assert (Hsame : same_but a m (set_ptr a b m)) by (intros x Hx; by apply getb_set_ptr).
      cbv zeta. split_and!; try done.
      * cbn. apply seg_cons. split; [apply get_ptr_set; lia|]. eapply seg_ext; [|exact Hs]. intros x Hx. apply (same_but_ptr a); [done|].
        apply elem_of_cons in Hx as [->|Hx]; [left; lia|]. apply list_elem_of_fmap in Hx as (d & -> & Hd). by apply Hapart.
      * rewrite get_size_set_ptr by (by left). done.
      * intros c Hc. rewrite (same_but_size a m); [by apply Hz|done|]. apply elem_of_cons in Hc as [->|Hc]; [left; cbn; lia|by apply Hapart].
      * cbn [asc fst snd]. split_and!; [lia|lia|exact A3].
Qed.

(** The ring up to its element [z]. *)
Definition upto (m : mem) (f1 : list block) (z : Z) : Prop :=
  (f1 = [] /\ z = base) \/ exists f1' pn, f1 = f1' ++ [(z, pn)] /\ seg m base (fst <$> f1') z.
(** A ring whose block [z] got a new size and a new successor. *)
Lemma relink m m2 f1 z k f2 :
  seg m base (fst <$> f1) z -> sizes_ok m f1 -> sizes_ok m f2 -> get_size m base = 0 -> asc (base + 15) (f1 ++ (z, k) :: f2) ->
  match f2 with [] => True | c :: r => seg m c.1 (fst <$> r) base end ->
  same_but z m m2 -> get_ptr m2 z = match f2 with [] => base | c :: _ => c.1 end -> get_size m2 z = k ->
  heap_list m2 (f1 ++ (z, k) :: f2).
Proof.
  intros Hseg Hs1 Hs2 Hb0 Ha Hseg2 Hsame Hptr Hsz. apply asc_app in Ha as Ha'. destruct Ha' as [Ha1 (Hz & Hk & Ha2)]. cbn in Hz, Hk, Ha2.
  assert (Hup : forall b, b ∈ f2 -> apart z b.1).
  { intros b Hin. destruct (asc_lower _ _ _ Ha2 Hin). unfold bend in *. cbn in *. left. lia. }
  assert (Hdn : forall b, b ∈ f1 -> apart z b.1).
  { intros b [i Hi]%list_elem_of_lookup. right. destruct (asc_lower _ _ _ Ha1 (list_elem_of_lookup_2 _ _ _ Hi)) as [_ Hp].
    pose proof (asc_order _ _ i (length f1) b (z, k) Ha (lookup_app_l_Some _ _ _ _ Hi) (list_lookup_middle _ _ _ _ eq_refl) (lookup_lt_Some _ _ _ Hi)) as H.
    unfold bend in H. cbn in H. lia. }
  assert (Hzb : apart z base).
  { right. destruct (asc_lower _ _ (z, k) Ha ltac:(apply elem_of_app; right; by left)) as [H _]. cbn in H. lia. }
  split; [|split].
  - rewrite fmap_app. cbn [fmap list_fmap fst]. apply seg_app. split.
    + eapply seg_ext; [|exact Hseg]. intros x [->|Hx]%elem_of_cons; [by apply (same_but_ptr z)|].
      apply list_elem_of_fmap in Hx as (d & -> & Hd). apply (same_but_ptr z); [done|by apply Hdn].
    + destruct f2 as [|c r]; [by apply seg_nil|]. cbn [fmap list_fmap]. apply seg_cons. split; [done|].
      eapply seg_ext; [|exact Hseg2]. intros x [->|Hx]%elem_of_cons; [apply (same_but_ptr z); [done|apply Hup; by left]|].
      apply list_elem_of_fmap in Hx as (d & -> & Hd). apply (same_but_ptr z); [done|apply Hup; by right].
  - by rewrite (same_but_size z m).
  - intros b [Hin|[->|Hin]%elem_of_cons]%elem_of_app; [|done|].
    + rewrite (same_but_size z m); [by apply Hs1|done|by apply Hdn].
    + rewrite (same_but_size z m); [by apply Hs2|done|by apply Hup].
Qed.
Lemma relink_base m m2 (f2 : list block) : asc (base + 15) f2 -> sizes_ok m f2 -> get_size m2 base = 0 ->
  match f2 with [] => True | c :: r => seg m c.1 (fst <$> r) base end ->
  same_but base m m2 -> get_ptr m2 base = match f2 with [] => base | c :: _ => c.1 end -> heap_list m2 f2.
Proof.
  intros Ha Hs Hb0 Hseg Hsame Hptr.
  assert (Hup : forall b, b ∈ f2 -> apart base b.1) by (intros b Hin; destruct (asc_lower _ _ _ Ha Hin); left; lia).
  split; [|split; [done|]].
  - destruct f2 as [|c r]; [by apply seg_nil|]. cbn [fmap list_fmap]. apply seg_cons. split; [done|].
    eapply seg_ext; [|exact Hseg]. intros x [->|Hx]%elem_of_cons; [apply (same_but_ptr base); [done|apply Hup; by left]|].
    apply list_elem_of_fmap in Hx as (d & -> & Hd). apply (same_but_ptr base); [done|apply Hup; by right].
  - intros b Hin. rewrite (same_but_size base m); [by apply Hs|done|by apply Hup].
Qed.
(** The successor of a block. *)
Lemma seg_first m p (f2 : list block) : seg m p (fst <$> f2) base ->
  get_ptr m p = match f2 with [] => base | c :: _ => c.1 end /\ match f2 with [] => True | c :: r => seg m c.1 (fst <$> r) base end.
Proof. destruct f2 as [|c r]; cbn; [by intros ?%seg_nil|]. by intros [-> ?]%seg_cons. Qed.

Lemma link_left_spec m f1 z a n1 f2 :
  upto m f1 z -> sizes_ok m f1 -> get_size m base = 0 -> asc (base + 15) f1 -> (forall b, b ∈ f1 -> bend b <= a) ->
  seg m a (fst <$> f2) base -> get_size m a = n1 -> sizes_ok m f2 -> asc (a + 16 * n1) f2 -> 0 < n1 -> 0 <= base -> base + 16 <= a ->
  (forall b, b ∈ f1 ++ (a, n1) :: f2 -> small b) ->
  exists fl, let m2 := link_left m a z in heap_list m2 fl /\ asc (base + 15) fl /\ (forall b, b ∈ fl -> small b) /\
    (forall x, covers fl x <-> covers (f1 ++ (a, n1) :: f2) x) /\ same_but z m m2 /\ z ∈ ring fl /\
    (length fl <= length f1 + S (length f2))%nat.
Proof.
  intros Hu Hs1 Hb0 Ha1 Hle Hs Hn Hs2 Ha2 Hp Hb Hba Hsm. unfold link_left, hadd, sizeof_Header. rewrite Hn.
  assert (Hsa : small (a, n1)) by (apply Hsm, elem_of_app; right; by left). unfold small, bend in Hsa. cbn in Hsa.
  destruct (seg_first _ _ _ Hs) as [Hpa Hrest]. destruct Hu as [[-> ->]|(f1' & pn & -> & Hseg)].
  - rewrite Hb0. replace (base + 0 * 16 =? a) with false by lia. exists ((a, n1) :: f2). cbv zeta.
    assert (Hasc : asc (base + 15) ((a, n1) :: f2)) by (cbn; split_and!; [lia|lia|done]).
    assert (Hsame : same_but base m (set_ptr base a m)) by (intros x Hx; by apply getb_set_ptr).
    split; [apply (relink_base m); try done|split; [done|split; [done|split; [done|split; [done|split; [by left|cbn; lia]]]]]].
    + intros b [->|Hin]%elem_of_cons; [done|by apply Hs2].
    + rewrite get_size_set_ptr by (by left). done.
    + apply get_ptr_set. cbn. lia.
  - assert (Hz : get_size m z = pn) by (apply (Hs1 (z, pn)), elem_of_app; right; by left). rewrite Hz.
    apply asc_app in Ha1 as [Ha1' (Hz1 & Hpn & _)]. cbn in Hz1, Hpn.
    assert (Hza : z + 16 * pn <= a) by (apply (Hle (z, pn)), elem_of_app; right; by left).
    assert (Hs1' : sizes_ok m f1') by (intros b Hin; apply Hs1, elem_of_app; by left).
    assert (Hsz : small (z, pn)) by (apply Hsm; rewrite <- app_assoc; apply elem_of_app; right; by left). unfold small, bend in Hsz. cbn in Hsz.
    assert (Hring : forall k r, z ∈ ring (f1' ++ (z, k) :: r)) by (intros k r; unfold ring; right; rewrite fmap_app; apply elem_of_app; right; by left).
    bdestr (z + pn * 16 =? a).
    + exists (f1' ++ (z, pn + n1) :: f2). cbv zeta. rewrite (get_ptr_set_size z _ m a) by (right; left; lia).
      assert (Hsame : same_but z m (set_ptr z (get_ptr m a) (set_size z (pn + n1) m))) by (intros x Hx; by rewrite getb_set_ptr, getb_set_size).
      assert (Hpb : 0 <= get_ptr m a < 2 ^ 64).
      { rewrite Hpa. destruct f2 as [|c r]; [lia|]. assert (Hsc : small c) by (apply Hsm, elem_of_app; right; right; by left).
        destruct (asc_lower _ _ c Ha2 ltac:(by left)). unfold small, bend in Hsc. lia. }
      assert (Hasc : asc (base + 15) (f1' ++ (z, pn + n1) :: f2)).
      { apply asc_app. split; [done|]. cbn. unfold bend. cbn. split_and!; [lia|lia|]. eapply asc_weaken; [exact Ha2|lia]. }
      split; [apply (relink m); try done; [by rewrite get_ptr_set|rewrite get_size_set_ptr, get_size_set; [done|lia|by left]]|].
      split; [done|]. split; [|split; [|split; [done|split; [done|rewrite !length_app; cbn; lia]]]].
      * intros b [Hin|[->|Hin]%elem_of_cons]%elem_of_app; [|unfold small, bend; cbn; lia|].
        -- apply Hsm. rewrite <- app_assoc. apply elem_of_app. by left.
        -- apply Hsm, elem_of_app. right. by right.
      * intros x. rewrite <- app_assoc, !covers_app. cbn [app]. rewrite !covers_cons, ?covers_nil. unfold bend. cbn.
        assert (z <= x < z + 16 * (pn + n1) <-> z <= x < z + 16 * pn \/ a <= x < a + 16 * n1) by lia. rewrite ?covers_nil; tauto.
    + exists (f1' ++ (z, pn) :: (a, n1) :: f2). cbv zeta.
      assert (Hasc : asc (base + 15) (f1' ++ (z, pn) :: (a, n1) :: f2)).
      { apply asc_app. split; [done|]. cbn. unfold bend. cbn. split_and!; [lia|lia|lia|lia|done]. }
      split; [apply (relink m); try done|].
      * intros b [->|Hin]%elem_of_cons; [done|by apply Hs2].
      * intros x Hx. by apply getb_set_ptr.
      * apply get_ptr_set. cbn. lia.
      * rewrite get_size_set_ptr by (by left). done.
      * split; [done|]. split; [intros b Hin; apply Hsm; rewrite <- app_assoc; exact Hin|]. split; [intros x; by rewrite <- app_assoc|].
        split; [intros x Hx; by apply getb_set_ptr|split; [done|rewrite !length_app; cbn; lia]].
Qed.

Lemma upto_split m f1 f2 : seg m base (fst <$> f1 ++ f2) base ->
  exists z, ring (f1 ++ f2) !! length f1 = Some z /\ upto m f1 z /\ seg m z (fst <$> f2) base.
Proof.
  intros Hs. destruct f1 as [|[z pn] f1 _] using rev_ind.
  - exists base. split; [done|]. split; [by left|done].
  - exists z. rewrite !fmap_app, <- app_assoc in Hs. cbn [fmap list_fmap app fst] in Hs. apply seg_app in Hs as [H1 H2].
    split; [|split; [right; eauto|done]]. unfold ring. rewrite !fmap_app, length_app. cbn. rewrite Nat.add_1_r. cbn.
    rewrite <- app_assoc. apply list_lookup_middle. by rewrite length_fmap.
Qed.
Lemma upto_same m m' f1 z a : upto m f1 z -> same_but a m m' -> (forall b, b ∈ f1 -> apart a b.1) -> apart a base -> upto m' f1 z.
Proof.
  intros [[-> ->]|(f1' & pn & -> & Hs)] Hsame Ha Hb; [by left|]. right. exists f1', pn. split; [done|].
  eapply seg_ext; [|exact Hs]. intros x [->|Hx]%elem_of_cons; [by apply (same_but_ptr a)|].
  apply list_elem_of_fmap in Hx as (d & -> & Hd). apply (same_but_ptr a); [done|]. apply Ha, elem_of_app. by left.
Qed.

(** What free does to the list: it then covers the freed block too, and nothing
    but its own blocks and headers has changed. *)
Lemma free_spec m fl a n freep fuel :
  heap_list m fl -> asc (base + 15) fl -> (forall b, b ∈ fl -> small b) -> freep ∈ ring fl ->
  0 <= base -> base + 16 <= a -> 0 < n -> small (a, n) -> get_size m a = n ->
  (forall b, b ∈ fl -> bend b <= a \/ a + 16 * n <= b.1) -> (length fl < fuel)%nat ->
  exists m' fl' z, free fuel (a + 16) (mk_ust m freep) = Some (mk_ust m' z) /\
    heap_list m' fl' /\ asc (base + 15) fl' /\ (forall b, b ∈ fl' -> small b) /\ z ∈ ring fl' /\
    (forall x, covers fl' x <-> covers fl x \/ a <= x < a + 16 * n) /\
    (length fl' <= S (length fl))%nat /\
    (forall x, ~ covers fl' x -> x < base \/ base + 16 <= x -> getb m' x = getb m x).
Proof.
  intros (Hs & Hb0 & Hsz) Ha Hsm Hfp Hb Hba Hn Hsa Hsize Hd Hfuel.
  destruct (split_at fl a n _ Ha Hn Hd) as (f1 & f2 & -> & H1 & H2). apply asc_app in Ha as Ha'. destruct Ha' as [Ha1 Ha2].
  destruct (upto_split m f1 f2 Hs) as (z & Hz & Hu & Hzs).
  assert (Hlow : forall b, b ∈ f1 -> b.1 + 16 <= a).
  { intros b Hin. specialize (H1 b Hin). destruct (asc_lower _ _ _ Ha1 Hin). unfold bend in H1. lia. }
  assert (Hza : z + 16 <= a) by (destruct Hu as [[_ ->]|(f1' & pn & -> & _)]; [done|apply (Hlow (z, pn)), elem_of_app; right; by left]).
  assert (Ha2' : asc (a + 16 * n - 1) f2).
  { destruct f2 as [|c r]; [done|]. destruct Ha2 as (A1 & A2 & A3). cbn. split_and!; [|done|done]. specialize (H2 c ltac:(by left)). lia. }
  rewrite free_eq. unfold hadd, sizeof_Header. replace (a + 16 + -1 * 16) with a by lia. cbn [um_mem um_freep].
  destruct (proj1 (list_elem_of_lookup _ _) Hfp) as [i Hi].
  assert (Hsearch : free_search fuel m a freep = Some z).
  { apply (free_search_spec m f1 f2 a z Hs Ha ltac:(lia)) with (d := steps_to (S (length (f1 ++ f2))) i (length f1)) (i := i); try done.
    - intros b Hin. specialize (Hlow b Hin). lia.
    - intros b Hin. specialize (H2 b Hin). lia.
    - pose proof (lookup_lt_Some _ _ _ Hi) as L. cbn in L. rewrite length_fmap in L. unfold steps_to. rewrite length_app in *.
      destruct (i <=? length f1)%nat eqn:E; [apply Nat.leb_le in E|apply Nat.leb_gt in E]; lia. }
  rewrite Hsearch. cbn [mbind option_bind].
  destruct (link_right_spec m z a n f2) as (n1 & f2' & R1 & R2 & R3 & R4 & R5 & R6 & R7 & R8 & R9); try done.
  { intros b Hin. apply Hsz, elem_of_app. by right. }
  { lia. }
  { intros b [->|Hin]%elem_of_cons; [done|]. apply Hsm, elem_of_app. by right. }
  set (m1 := link_right m a z) in *.
  destruct (link_left_spec m1 f1 z a n1 f2') as (fl' & L1 & L2 & L3 & L4 & L5 & L6 & L7); try done.
  { apply (upto_same m _ _ _ a Hu R6); [intros b Hin; right; by apply Hlow|right; lia]. }
  { intros b Hin. rewrite (same_but_size a m); [apply Hsz, elem_of_app; by left|done|right; by apply Hlow]. }
  { rewrite (same_but_size a m); [done|done|right; lia]. }
  { lia. }
  { intros b [Hin|Hin]%elem_of_app; [apply Hsm, elem_of_app; by left|by apply R7]. }
  eexists _, fl', z. split; [done|]. split; [done|]. split; [done|]. split; [done|]. split; [done|].
  assert (Hcov : forall x, covers fl' x <-> covers (f1 ++ f2) x \/ a <= x < a + 16 * n).
  { intros x. rewrite L4, covers_app, R8, covers_cons, covers_app. unfold bend. cbn. tauto. }
  split; [done|]. split; [rewrite length_app; lia|]. intros x Hx Hxb. rewrite L5, R6; [done|..].
  - destruct (decide (x < a \/ a + 16 <= x)); [done|]. destruct Hx. apply Hcov. right. lia.
  - destruct (decide (x < z \/ z + 16 <= x)) as [|Hxz]; [done|]. destruct Hu as [[_ ->]|(f1' & pn & -> & _)]; [done|].
    destruct Hx. apply Hcov. left. exists (z, pn). split; [apply elem_of_app; left; apply elem_of_app; right; by left|].
    destruct (asc_lower _ _ (z, pn) Ha1 ltac:(apply elem_of_app; right; by left)) as [_ Hp]. unfold bend. cbn in *. lia.
Qed.

(** ** malloc: taking a block *)
(** What malloc does with a block [p] that is large enough and its predecessor. *)
Definition carve (m : mem) (nunits prevp p : Z) : Z * ust :=
  if get_size m p =? nunits then (hadd p 1, mk_ust (set_ptr prevp (get_ptr m p) m) prevp)
  else
    let m := set_size p (get_size m p - nunits) m in
    let p := hadd p (get_size m p) in
    (hadd p 1, mk_ust (set_size p nunits m) prevp).
(** The list after the block [(p, nu)] was taken out of it. *)
Record taken (m : mem) (fl : list block) (m' : mem) (fl' : list block) (p nu : Z) : Prop := {
  tk_list : heap_list m' fl';
  tk_asc : asc (base + 15) fl';
  tk_small : forall b, b ∈ fl' -> small b;
  tk_size : get_size m' p = nu;
  tk_covers : forall x, covers fl x <-> covers fl' x \/ p <= x < p + 16 * nu;
  tk_apart : forall b, b ∈ fl' -> bend b <= p \/ p + 16 * nu <= b.1;
  tk_frame : forall x, ~ covers fl x -> x < base \/ base + 16 <= x -> getb m' x = getb m x;
}.
Lemma asc_remove lo f1 b f2 : asc lo (f1 ++ b :: f2) -> asc lo (f1 ++ f2).
Proof.
  rewrite !asc_app. cbn. intros (H1 & H2 & H3 & H4). split; [done|]. eapply asc_weaken; [exact H4|]. unfold bend. lia.
Qed.
Lemma take_apart f1 a k f2 b : asc (base + 15) (f1 ++ (a, k) :: f2) -> b ∈ f1 ++ f2 -> bend b < a \/ a + 16 * k < b.1.
Proof.
  intros Ha [Hin|Hin]%elem_of_app; apply list_elem_of_lookup in Hin as [i Hi].
  - left. apply (asc_order _ _ i (length f1) b (a, k) Ha); [by apply lookup_app_l_Some|by apply list_lookup_middle|by eapply lookup_lt_Some].
  - right. apply (asc_order _ _ (length f1) (length f1 + S i)%nat (a, k) b Ha); [by apply list_lookup_middle| |lia].
    rewrite lookup_app_r by lia. by replace (length f1 + S i - length f1)%nat with (S i) by lia.
Qed.
Lemma elem_of_middle (f1 f2 : list block) b c : b ∈ f1 ++ c :: f2 <-> b = c \/ b ∈ f1 ++ f2.
Proof. rewrite !elem_of_app, elem_of_cons. tauto. Qed.
Lemma covers_middle f1 b f2 x : covers (f1 ++ b :: f2) x <-> covers (f1 ++ f2) x \/ b.1 <= x < bend b.
Proof. rewrite !covers_app, covers_cons. tauto. Qed.
Lemma carve_exact m f1 a k f2 z : heap_list m (f1 ++ (a, k) :: f2) -> asc (base + 15) (f1 ++ (a, k) :: f2) -> 0 <= base ->
  (forall b, b ∈ f1 ++ (a, k) :: f2 -> small b) -> upto m f1 z ->
  taken m (f1 ++ (a, k) :: f2) (set_ptr z (get_ptr m a) m) (f1 ++ f2) a k /\ z ∈ ring (f1 ++ f2).
Proof.
  intros (Hs & Hb0 & Hsz) Ha Hb Hsm Hu. destruct (upto_split m f1 _ Hs) as (z' & _ & _ & Hzs').
  rewrite fmap_app in Hs. cbn [fmap list_fmap fst] in Hs. apply seg_app in Hs as [Hs1 Hs2]. destruct (seg_first _ _ _ Hs2) as [Hpa Hrest].
  apply asc_remove in Ha as Har. assert (Hsub : forall b, b ∈ f1 ++ f2 -> b ∈ f1 ++ (a, k) :: f2) by (intros b; rewrite !elem_of_app, elem_of_cons; tauto).
  assert (Hin : (a, k) ∈ f1 ++ (a, k) :: f2) by (apply elem_of_app; right; by left).
  assert (Hsame : same_but z m (set_ptr z (get_ptr m a) m)) by (intros x Hx; by apply getb_set_ptr).
  assert (Hpb : 0 <= get_ptr m a < 2 ^ 64).
  { rewrite Hpa. destruct f2 as [|c r]; [pose proof (Hsm _ Hin) as H; destruct (asc_lower _ _ _ Ha Hin); unfold small, bend in H; cbn in *; lia|].
    assert (Hsc : small c) by (apply Hsm, elem_of_app; right; right; by left). destruct (asc_lower _ _ c Ha ltac:(apply elem_of_app; right; right; by left)).
    unfold small, bend in Hsc. lia. }
  assert (Hzc : z = base \/ exists pn, (z, pn) ∈ f1).
  { destruct Hu as [[_ ->]|(f1' & pn & -> & _)]; [by left|]. right. exists pn. apply elem_of_app. right. by left. }
  assert (Hza : apart z a /\ z ∈ ring (f1 ++ f2)).
  { destruct (asc_lower _ _ _ Ha Hin) as [Hab Hk]. cbn in Hab, Hk. destruct Hzc as [->|[pn Hz]]; [split; [left; lia|by left]|].
    assert (Hz' : (z, pn) ∈ f1 ++ f2) by (apply elem_of_app; by left). destruct (asc_lower _ _ _ Ha (Hsub _ Hz')) as [_ Hpn].
    split; [destruct (take_apart _ _ _ _ _ Ha Hz') as [H|H]; unfold bend in H; cbn in *; unfold apart; lia|].
    unfold ring. right. apply list_elem_of_fmap. by exists (z, pn). }
  destruct Hza as [Hza Hzr]. split; [|done]. split; try done.
  - destruct Hu as [[-> ->]|(f1' & pn & -> & Hseg)].
    + apply (relink_base m); try done; [intros b Hb'; by apply Hsz, Hsub|rewrite get_size_set_ptr by (by left); done|rewrite get_ptr_set by done; exact Hpa].
    + rewrite <- app_assoc in *. cbn [app] in *. apply (relink m); try done.
      * intros b Hb'. apply Hsz, elem_of_app. by left.
      * intros b Hb'. apply Hsz, elem_of_app. right. right. by right.
      * rewrite get_ptr_set by done. exact Hpa.
      * rewrite get_size_set_ptr by (by left). apply (Hsz (z, pn)), elem_of_app. right. by left.
  - intros b Hb'. by apply Hsm, Hsub.
  - rewrite get_size_set_ptr by (by right). apply (Hsz (a, k)). done.
  - intros x. rewrite covers_middle. done.
  - intros b Hb'. destruct (take_apart _ _ _ _ _ Ha Hb'); lia.
  - intros x Hx Hxb. apply Hsame. destruct (decide (x < z \/ z + 16 <= x)) as [|Hxz]; [done|].
    destruct Hzc as [->|[pn Hpn]]; [done|]. destruct Hx. exists (z, pn). split; [apply elem_of_app; by left|].
    destruct (asc_lower _ _ (z, pn) Ha ltac:(apply elem_of_app; by left)). unfold bend. cbn in *. lia.
Qed.
Lemma carve_split m f1 a k f2 nu : heap_list m (f1 ++ (a, k) :: f2) -> asc (base + 15) (f1 ++ (a, k) :: f2) -> 0 <= base ->
  (forall b, b ∈ f1 ++ (a, k) :: f2 -> small b) -> 0 < nu < k -> let p := a + (k - nu) * 16 in
  taken m (f1 ++ (a, k) :: f2) (set_size p nu (set_size a (k - nu) m)) (f1 ++ (a, k - nu) :: f2) p nu.
Proof.
  intros (Hs & Hb0 & Hsz) Ha Hb Hsm Hnu p. assert (Hin : (a, k) ∈ f1 ++ (a, k) :: f2) by (apply elem_of_app; right; by left).
  pose proof (Hsm _ Hin) as Hsa. destruct (asc_lower _ _ _ Ha Hin) as [Hab _]. unfold small, bend in Hsa. cbn in Hsa, Hab.
  assert (Hfr : forall x, x < a \/ a + 16 * k <= x -> getb (set_size p nu (set_size a (k - nu) m)) x = getb m x).
  { intros x Hx. rewrite !getb_set_size; [done|lia|unfold p; lia]. }
  assert (Hptr : forall x, x = a \/ apart a x /\ (x + 16 <= a \/ a + 16 * k <= x) -> get_ptr (set_size p nu (set_size a (k - nu) m)) x = get_ptr m x).
  { intros x [->|[Hx Hx2]]; rewrite get_ptr_set_size, get_ptr_set_size; try done; try (by left); right; unfold apart, p; lia. }
  assert (Hother : forall b, b ∈ f1 ++ f2 -> apart a b.1 /\ (b.1 + 16 <= a \/ a + 16 * k <= b.1)).
  { intros b Hb'. assert (Hpb : 0 < b.2) by (apply (asc_lower _ _ _ Ha), elem_of_middle; by right).
    destruct (take_apart _ _ _ _ _ Ha Hb') as [H|H]; unfold bend in H; unfold apart; lia. }
  assert (Hsizes : forall b, b ∈ f1 ++ f2 -> get_size (set_size p nu (set_size a (k - nu) m)) b.1 = b.2).
  { intros b Hb'. destruct (Hother b Hb') as [H1 H2]. rewrite get_size_set_size by (unfold apart, p; lia). rewrite get_size_set_size by done.
    apply Hsz, elem_of_middle. by right. }
  split.
  - split; [|split].
    + rewrite fmap_app in *. eapply seg_ext; [|exact Hs]. intros x [->|Hx]%elem_of_cons; [apply Hptr; right; unfold apart; lia|]. apply Hptr.
      apply elem_of_app in Hx as [Hx|[->|Hx]%elem_of_cons]; [right|by left|right];
        apply list_elem_of_fmap in Hx as (d & -> & Hd); apply Hother, elem_of_app; tauto.
    + rewrite get_size_set_size by (right; unfold p; lia). rewrite get_size_set_size by (right; lia). done.
    + intros b [Hb'|[->|Hb']%elem_of_cons]%elem_of_app; [apply Hsizes, elem_of_app; tauto| |apply Hsizes, elem_of_app; tauto].
      cbn. rewrite get_size_set_size by (right; unfold p; lia). apply get_size_set. lia.
  - apply asc_app in Ha as [A1 (A2 & A3 & A4)]. apply asc_app. split; [done|]. cbn [asc]. unfold bend in *. cbn [fst snd] in *.
    split_and!; [lia|lia|]. eapply asc_weaken; [exact A4|]. lia.
  - intros b [Hb'|[->|Hb']%elem_of_cons]%elem_of_app; [apply Hsm, elem_of_app; tauto|unfold small, bend; cbn; lia|apply Hsm, elem_of_app; right; by right].
  - rewrite get_size_set; [done|lia].
  - intros x. rewrite !covers_middle. unfold bend, p. cbn.
    assert (a <= x < a + 16 * k <-> a <= x < a + 16 * (k - nu) \/ a + (k - nu) * 16 <= x < a + (k - nu) * 16 + 16 * nu) by lia. tauto.
  - intros b [->|Hc]%elem_of_middle; [left; unfold bend, p; cbn; lia|]. unfold p. destruct (take_apart _ _ _ _ _ Ha Hc); lia.
  - intros x Hx _. apply Hfr. destruct (decide (x < a \/ a + 16 * k <= x)); [done|]. destruct Hx. exists (a, k). split; [done|unfold bend; cbn; lia].
Qed.

(** ** malloc: the tour *)
Lemma steps_to_lt N i t : (i < N)%nat -> (t < N)%nat -> (steps_to N i t < N)%nat.
Proof. intros. unfold steps_to. destruct (i <=? t)%nat eqn:E; [apply Nat.leb_le in E|apply Nat.leb_gt in E]; lia. Qed.
Lemma steps_to_inj N i j t : (i < N)%nat -> (j < N)%nat -> (t < N)%nat -> steps_to N i t = steps_to N j t -> i = j.
Proof.
  intros. unfold steps_to in *. destruct (i <=? t)%nat eqn:E1, (j <=? t)%nat eqn:E2;
    rewrite ?Nat.leb_le, ?Nat.leb_gt in *; lia.
Qed.
Lemma steps_to_next N i t : (i < N)%nat -> (t < N)%nat -> i <> t ->
  steps_to N (if (S i <? N)%nat then S i else O) t = (steps_to N i t - 1)%nat /\ (0 < steps_to N i t)%nat.
Proof.
  intros. unfold steps_to. destruct (S i <? N)%nat eqn:E; rewrite ?Nat.ltb_lt, ?Nat.ltb_ge in E.
  - destruct (i <=? t)%nat eqn:E1, (S i <=? t)%nat eqn:E2; rewrite ?Nat.leb_le, ?Nat.leb_gt in *; lia.
  - change (0 <=? t)%nat with true. destruct (i <=? t)%nat eqn:E1; rewrite ?Nat.leb_le, ?Nat.leb_gt in *; lia.
Qed.
Lemma ring_next_index m fl i x : seg m base (fst <$> fl) base -> ring fl !! i = Some x ->
  ring fl !! (if (S i <? S (length fl))%nat then S i else O) = Some (get_ptr m x).
Proof.
  intros Hs Hx. destruct (ring_next m fl i x Hs Hx) as [[Hl Hn]|[-> Hn]].
  - by replace (S i <? S (length fl))%nat with true by (symmetry; apply Nat.ltb_lt; lia).
  - replace (S (length fl) <? S (length fl))%nat with false by (symmetry; apply Nat.ltb_ge; lia). cbn. by rewrite Hn.
Qed.
Lemma ring_inj fl i j x : asc (base + 15) fl -> ring fl !! i = Some x -> ring fl !! j = Some x -> i = j.
Proof.
  intros Ha Hi Hj. destruct (decide (i < j)%nat); [pose proof (ring_order _ _ _ _ _ Ha Hi Hj); lia|].
  destruct (decide (j < i)%nat); [pose proof (ring_order _ _ _ _ _ Ha Hj Hi); lia|lia].
Qed.
Definition after_morecore (fuel : nat) (nu : Z) (s : ust) : prog (Z * ust) :=
  '(p, s) ← morecore fuel nu s;
  if p =? 0 then mret (0, s) else malloc_loop fuel nu p (get_ptr (um_mem s) p) s.
Definition tour_ends (m : mem) (fl : list block) (freep nu : Z) (fuel d : nat) (r : prog (Z * ust)) : Prop :=
  (exists f1 a k f2 z, fl = f1 ++ (a, k) :: f2 /\ nu <= k /\ upto m f1 z /\ r = mret (carve m nu z a)) \/
  ((forall b, b ∈ fl -> b.2 < nu) /\ exists fuel', (fuel <= fuel' + S d)%nat /\ r = after_morecore fuel' nu (mk_ust m freep)).
Lemma tour_found m fl i prevp nu : heap_list m fl -> asc (base + 15) fl -> 0 < nu -> ring fl !! i = Some prevp ->
  nu <= get_size m (get_ptr m prevp) ->
  exists f1 k f2, fl = f1 ++ (get_ptr m prevp, k) :: f2 /\ nu <= k /\ upto m f1 prevp /\ get_size m (get_ptr m prevp) = k.
Proof.
  intros (Hs & Hb0 & Hsz) Ha Hnu Hi Hsize. destruct (ring_next m fl i prevp Hs Hi) as [[Hl Hn]|[_ Hn]]; [|rewrite Hn, Hb0 in Hsize; lia].
  apply ring_block in Hn as ([a k] & Hb & Ea). cbn in Ea. subst a.
  assert (Hk : get_size m (get_ptr m prevp) = k) by (apply (Hsz (get_ptr m prevp, k)); by eapply list_elem_of_lookup_2).
  pose proof (take_drop_middle _ _ _ Hb) as E. exists (take i fl), k, (drop (S i) fl). split; [done|]. split; [lia|]. split; [|done].
  rewrite <- E in Hs. destruct (upto_split m _ _ Hs) as (z & Hz & Hu & _). rewrite E, length_take, Nat.min_l in Hz by lia. congruence.
Qed.
Lemma malloc_tour m fl freep f nu : heap_list m fl -> asc (base + 15) fl -> 0 < nu -> ring fl !! f = Some freep ->
  forall d fuel i prevp j, ring fl !! i = Some prevp -> j = (if (S i <? S (length fl))%nat then S i else O) ->
  steps_to (S (length fl)) j f = d -> (d < fuel)%nat ->
  (forall g b, fl !! g = Some b -> (d < steps_to (S (length fl)) (S g) f)%nat -> b.2 < nu) ->
  tour_ends m fl freep nu fuel d (malloc_loop fuel nu prevp (get_ptr m prevp) (mk_ust m freep)).
Proof.
  intros HL Ha Hnu Hf. pose proof HL as (Hs & Hb0 & Hsz).
  induction d as [|d IH]; intros [|fuel] i prevp j Hi Ej Hd Hfuel Hseen; try lia.
  all: pose proof (ring_next_index m fl i prevp Hs Hi) as Hj; rewrite <- Ej in Hj;
    cbn [malloc_loop um_mem um_freep]; pose proof (lookup_lt_Some _ _ _ Hj) as Lj; pose proof (lookup_lt_Some _ _ _ Hf) as Lf;
    cbn in Lj, Lf; rewrite length_fmap in Lj, Lf; bdestr (nu <=? get_size m (get_ptr m prevp)).
  1, 3: left; destruct (tour_found m fl i prevp nu HL Ha Hnu Hi) as (f1 & k & f2 & Efl & Hk & Hu & Esz); [done|];
    exists f1, (get_ptr m prevp), k, f2, prevp; split; [done|]; split; [done|]; split; [done|]; unfold carve; by destruct (get_size m _ =? nu).
  all: assert (Hsmall : forall g b, fl !! g = Some b -> S g = j -> b.2 < nu) by
    (intros g b Hb <-; change (ring fl !! S g = Some (get_ptr m prevp)) in Hj; apply ring_block in Hj as (c & Hc & Ec);
     rewrite Hb in Hc; injection Hc as <-; rewrite <- (Hsz b), Ec by (by eapply list_elem_of_lookup_2); done).
  all: destruct (decide (j = f)) as [->|Hne].
  - rewrite Hf in Hj. injection Hj as <-. rewrite Z.eqb_refl. right. split; [|exists fuel; split; [lia|done]].
    intros b [g Hg]%list_elem_of_lookup. destruct (decide (S g = f)); [by apply (Hsmall g)|]. apply (Hseen g b Hg).
    apply lookup_lt_Some in Hg. destruct (steps_to_next (S (length fl)) (S g) f ltac:(lia) Lf n). lia.
  - destruct (steps_to_next _ j f Lj Lf Hne). lia.
  - rewrite Hf in Hj. injection Hj as E1. unfold steps_to in Hd. rewrite Nat.leb_refl in Hd. lia.
  - bdestr (get_ptr m prevp =? freep); [destruct Hne; apply (ring_inj fl j f freep Ha); [congruence|done]|].
    destruct (steps_to_next _ j f Lj Lf Hne) as [Hn1 Hn2].
    specialize (IH fuel j (get_ptr m prevp) _ Hj eq_refl ltac:(lia) ltac:(lia)).
    destruct IH as [IH|(IH & fuel' & Hf' & Er)]; [|by left|right; split; [done|]; exists fuel'; split; [lia|done]].
    intros g b Hg Hst. destruct (decide (S g = j)); [by apply (Hsmall g)|]. apply (Hseen g b Hg).
    assert (steps_to (S (length fl)) (S g) f <> S d); [|lia]. rewrite <- Hd. intros Eq. apply lookup_lt_Some in Hg.
    apply steps_to_inj in Eq; [lia|lia|lia|lia].
Qed.

(** ** The heap *)
(** No block ends above [top]. *)
Context (top : Z).
(** The heap is the memory from [lo] to the break.  [fl] are the free blocks, [al]
    those that malloc has returned and that were not freed.  They are disjoint and
    make up the heap: nothing is lost. *)
Record heap_upto (lo brk : Z) (s : ust) (fl al : list block) : Prop := {
  ho_base : 0 < base /\ base + 16 <= lo;
  ho_brk : brk <= top /\ top <= 2 ^ 35;
  ho_list : um_freep s = 0 /\ fl = [] /\ al = [] \/ heap_list (um_mem s) fl /\ um_freep s ∈ ring fl;
  ho_asc : asc (base + 15) fl;
  ho_size : forall b, b ∈ al -> get_size (um_mem s) b.1 = b.2 /\ 0 < b.2;
  ho_apart : forall b c, b ∈ fl -> c ∈ al -> bend b <= c.1 \/ bend c <= b.1;
  ho_once : forall i j b c, al !! i = Some b -> al !! j = Some c -> i <> j -> bend b <= c.1 \/ bend c <= b.1;
  ho_cover : forall x, lo <= x < brk <-> covers fl x \/ covers al x;
}.
Definition keeps_blocks (al : list block) (s s' : ust) : Prop :=
  forall x, covers al x -> getb (um_mem s') x = getb (um_mem s) x.

Lemma covers_in fl b : b ∈ fl -> 0 < b.2 -> covers fl b.1 /\ covers fl (bend b - 1).
Proof. intros H Hp. unfold bend. split; exists b; (split; [done|unfold bend; lia]). Qed.
Lemma ho_range lo brk s fl al b : heap_upto lo brk s fl al -> b ∈ fl \/ b ∈ al -> lo <= b.1 /\ bend b <= brk /\ 0 < b.2 /\ small b.
Proof.
  intros H Hb. assert (Hp : 0 < b.2).
  { destruct Hb as [Hb|Hb]; [by apply (asc_lower _ _ _ (ho_asc _ _ _ _ _ H) Hb)|by apply (ho_size _ _ _ _ _ H b Hb)]. }
  assert (Hc : (covers fl b.1 \/ covers al b.1) /\ (covers fl (bend b - 1) \/ covers al (bend b - 1))).
  { destruct Hb as [Hb|Hb]; destruct (covers_in _ _ Hb Hp); tauto. }
  destruct Hc as [H1%(ho_cover _ _ _ _ _ H) H2%(ho_cover _ _ _ _ _ H)]. pose proof (ho_base _ _ _ _ _ H). pose proof (ho_brk _ _ _ _ _ H).
  unfold small, bend in *. lia.
Qed.
Lemma size_frame m m' a : (forall x, a <= x < a + 16 -> getb m' x = getb m x) -> get_size m' a = get_size m a.
Proof. intros H. apply load_ext. intros i Hi. apply H. lia. Qed.

(** The state after a block was taken out of the list. *)
Lemma taken_ok lo brk s fl al m' fl' p nu z : heap_upto lo brk s fl al -> 0 < nu -> taken (um_mem s) fl m' fl' p nu -> z ∈ ring fl' ->
  heap_upto lo brk (mk_ust m' z) fl' ((p, nu) :: al) /\ keeps_blocks al s (mk_ust m' z).
Proof.
  intros H Hnu [T1 T2 T3 T4 T5 T6 T7] Hz.
  assert (Hno : forall c, c ∈ al -> forall x, c.1 <= x < bend c -> ~ covers fl x).
  { intros c Hc x Hx (b & Hb & Hbx). destruct (ho_apart _ _ _ _ _ H b c Hb Hc); lia. }
  assert (Hbase : forall c, c ∈ al -> base + 16 <= c.1).
  { intros c Hc. destruct (ho_range _ _ _ _ _ c H ltac:(by right)) as (H1 & _). destruct (ho_base _ _ _ _ _ H). lia. }
  assert (Hkeep : keeps_blocks al s (mk_ust m' z)).
  { intros x (c & Hc & Hx). apply T7; [by apply (Hno c)|]. right. specialize (Hbase c Hc). lia. }
  assert (Hpc : forall c, c ∈ al -> p + 16 * nu <= c.1 \/ bend c <= p).
  { intros c Hc. destruct (decide (p + 16 * nu <= c.1 \/ bend c <= p)) as [|Hn]; [done|]. exfalso.
    destruct (ho_range _ _ _ _ _ c H ltac:(by right)) as (_ & _ & Hp & _).
    apply (Hno c Hc (Z.max p c.1)); [unfold bend in *; lia|]. apply T5. right. unfold bend in *. lia. }
  split; [|done]. destruct H as [B K L A S P O C]. split; cbn; try done.
  - by right.
  - intros b [->|Hb]%elem_of_cons; [done|]. destruct (S b Hb) as [S1 S2]. split; [|done]. rewrite <- S1. apply size_frame. intros x Hx.
    apply Hkeep. exists b. split; [done|unfold bend; lia].
  - intros b c Hb [->|Hc]%elem_of_cons; [unfold bend at 2; cbn; by apply T6|].
    destruct (T6 b Hb), (Hpc c Hc). all: destruct (decide (bend b <= c.1 \/ bend c <= b.1)) as [|Hn]; [done|exfalso].
    all: destruct (asc_lower _ _ _ T2 Hb) as [_ Hp]; apply (Hno c Hc (Z.max b.1 c.1)); [destruct (S c Hc); unfold bend in *; lia|].
    all: apply T5; left; exists b; split; [done|destruct (S c Hc); unfold bend in *; lia].
  - intros [|i] [|j] b c Hb Hc Hij; cbn in Hb, Hc; [done|..|by apply (O i j); [..|lia]].
    + injection Hb as <-. unfold bend at 1. cbn. apply Hpc. by eapply list_elem_of_lookup_2.
    + injection Hc as <-. unfold bend at 2. cbn. destruct (Hpc b ltac:(by eapply list_elem_of_lookup_2)); tauto.
  - intros x. rewrite C, T5, covers_cons. unfold bend. cbn. tauto.
Qed.

Lemma carve_taken m f1 a k f2 z nu : heap_list m (f1 ++ (a, k) :: f2) -> asc (base + 15) (f1 ++ (a, k) :: f2) -> 0 <= base ->
  (forall b, b ∈ f1 ++ (a, k) :: f2 -> small b) -> upto m f1 z -> 0 < nu <= k ->
  exists p m' fl', carve m nu z a = (p + 16, mk_ust m' z) /\ taken m (f1 ++ (a, k) :: f2) m' fl' p nu /\ z ∈ ring fl'.
Proof.
  intros HL Ha Hb Hsm Hu Hnu. assert (Hk : get_size m a = k) by (apply (proj2 (proj2 HL) (a, k)), elem_of_app; right; by left).
  unfold carve, hadd, sizeof_Header. rewrite Hk. bdestr (k =? nu).
  - subst nu. destruct (carve_exact m f1 a k f2 z HL Ha Hb Hsm Hu) as [T Hz].
    exists a. eexists _, (f1 ++ f2). by split; [repeat f_equal; lia|].
  - pose proof (carve_split m f1 a k f2 nu HL Ha Hb Hsm ltac:(lia)) as T. cbv zeta in T. rewrite get_size_set.
    2:{ assert (Hsa : small (a, k)) by (apply Hsm, elem_of_app; right; by left). unfold small, bend in Hsa. cbn in Hsa. lia. }
    exists (a + (k - nu) * 16). eexists _, (f1 ++ (a, k - nu) :: f2). split; [repeat f_equal; lia|]. split; [done|].
    destruct Hu as [[_ ->]|(f1' & pn & -> & _)]; [by left|]. unfold ring. right. rewrite !fmap_app. apply elem_of_app. left.
    apply elem_of_app. right. by left.
Qed.

(** What malloc returns when it succeeds: a new block of at least [nbytes] bytes. *)
Definition gives (lo brk : Z) (al : list block) (nbytes : Z) (s : ust) (r : prog (Z * ust)) : Prop :=
  exists p nu s' fl', r = Ret (p + 16, s') /\ nbytes + 16 <= 16 * nu /\ heap_upto lo brk s' fl' ((p, nu) :: al) /\ keeps_blocks al s s'.

Lemma malloc_finds lo brk s fl al nu fuel nbytes : heap_upto lo brk s fl al -> um_freep s <> 0 -> 0 < nu -> nbytes + 16 <= 16 * nu -> (length fl < fuel)%nat ->
  let r := malloc_loop fuel nu (um_freep s) (get_ptr (um_mem s) (um_freep s)) s in
  gives lo brk al nbytes s r \/
  (forall b, b ∈ fl -> b.2 < nu) /\ exists fuel', (fuel <= fuel' + S (length fl))%nat /\ r = after_morecore fuel' nu s.
Proof.
  intros H Hf Hnu Hnb Hfuel r. destruct (ho_list _ _ _ _ _ H) as [[? _]|[HL Hz]]; [done|].
  destruct (proj1 (list_elem_of_lookup _ _) Hz) as [f Hfi]. pose proof (lookup_lt_Some _ _ _ Hfi) as Lf. cbn in Lf. rewrite length_fmap in Lf.
  set (j := if (S f <? S (length fl))%nat then S f else O).
  assert (Lj : (j < S (length fl))%nat) by (unfold j; destruct (S f <? S (length fl))%nat eqn:E; [apply Nat.ltb_lt in E|]; lia).
  assert (Hd : steps_to (S (length fl)) j f = length fl).
  { unfold j, steps_to. destruct (S f <? S (length fl))%nat eqn:E; [apply Nat.ltb_lt in E|apply Nat.ltb_ge in E].
    - replace (S f <=? f)%nat with false by (symmetry; apply Nat.leb_gt; lia). lia.
    - change (0 <=? f)%nat with true. cbv iota. lia. }
  destruct (malloc_tour (um_mem s) fl (um_freep s) f nu HL (ho_asc _ _ _ _ _ H) Hnu Hfi (length fl) fuel f (um_freep s) j) as [Hfound|Hnone]; try done.
  { intros g b Hg Hst. apply lookup_lt_Some in Hg. pose proof (steps_to_lt (S (length fl)) (S g) f ltac:(lia) Lf). lia. }
  - left. destruct Hfound as (f1 & a & k & f2 & z & -> & Hk & Hu & Er). destruct s as [m freep]. cbn in *.
    destruct (carve_taken m f1 a k f2 z nu HL (ho_asc _ _ _ _ _ H)) as (p & m' & fl' & Ec & T & Hzr); [|by intros b Hb; apply (ho_range _ _ _ _ _ _ H); left|done|lia|].
    { pose proof (ho_base _ _ _ _ _ H). lia. }
    exists p, nu, (mk_ust m' z), fl'. unfold r. rewrite Er, Ec. split; [done|]. split; [done|]. by eapply taken_ok.
  - right. by destruct s.
Qed.

(** A stretch that is covered lies in one block. *)
Lemma covered_stretch lo fl a e : asc lo fl -> a < e -> (forall x, a <= x < e -> covers fl x) -> exists b, b ∈ fl /\ b.1 <= a /\ e <= bend b.
Proof.
  intros Ha Hae Hc. destruct (Hc a ltac:(lia)) as (b & Hb & Hab). exists b. split; [done|]. split; [lia|].
  destruct (decide (e <= bend b)) as [|Hn]; [done|exfalso]. destruct (Hc (bend b) ltac:(lia)) as (c & Hc' & Hbc).
  apply list_elem_of_lookup in Hb as [i Hi]. apply list_elem_of_lookup in Hc' as [j Hj].
  destruct (decide (i < j)%nat); [pose proof (asc_order _ _ _ _ _ _ Ha Hi Hj); lia|].
  destruct (decide (j < i)%nat); [pose proof (asc_order _ _ _ _ _ _ Ha Hj Hi); lia|]. assert (i = j) as -> by lia.
  rewrite Hi in Hj. injection Hj as ->. lia.
Qed.
(** Freeing a block that malloc has returned. *)
Lemma free_ok lo brk s fl a n al fuel : heap_upto lo brk s fl ((a, n) :: al) -> (length fl < fuel)%nat ->
  exists s' fl', free fuel (a + 16) s = Some s' /\ heap_upto lo brk s' fl' al /\ keeps_blocks al s s' /\
    um_freep s' ∈ ring fl' /\ (length fl' <= S (length fl))%nat /\ forall x, covers fl' x <-> covers fl x \/ a <= x < a + 16 * n.
Proof.
  intros H Hfuel. destruct (ho_range _ _ _ _ _ (a, n) H ltac:(right; by left)) as (R1 & R2 & R3 & R4). cbn in R1, R3.
  pose proof (ho_base _ _ _ _ _ H) as [B1 B2]. destruct (ho_list _ _ _ _ _ H) as [(_ & _ & ?)|[HL Hz]]; [done|].
  destruct (ho_size _ _ _ _ _ H (a, n) ltac:(by left)) as [Hsz _]. cbn in Hsz. destruct s as [m freep]. cbn in *.
  destruct (free_spec m fl a n freep fuel HL (ho_asc _ _ _ _ _ H)) as (m' & fl' & z & E & L1 & L2 & L3 & L4 & L5 & L6 & L7); try done; try lia.
  { intros b Hb. apply (ho_range _ _ _ _ _ b H). by left. }
  { intros b Hb. destruct (ho_apart _ _ _ _ _ H b (a, n) Hb ltac:(by left)) as [?|?]; [by left|by right]. }
  assert (Hno : forall c, c ∈ al -> forall x, c.1 <= x < bend c -> ~ covers fl' x).
  { intros c Hc x Hx [(b & Hb & Hbx)|Hax]%L5; [destruct (ho_apart _ _ _ _ _ H b c Hb ltac:(by right)); lia|].
    apply list_elem_of_lookup in Hc as [i Hi]. destruct (ho_once _ _ _ _ _ H O (S i) (a, n) c eq_refl Hi ltac:(lia)) as [H'|H']; unfold bend in H', Hx; cbn in H'; lia. }
  assert (Hkeep : keeps_blocks al (mk_ust m freep) (mk_ust m' z)).
  { intros x (c & Hc & Hx). apply L7; [by apply (Hno c)|]. destruct (ho_range _ _ _ _ _ c H ltac:(right; by right)). lia. }
  exists (mk_ust m' z), fl'. split; [done|]. split; [|split; [done|split; [done|split; [done|done]]]].
  pose proof (fun b Hb => ho_size _ _ _ _ _ H b (list_elem_of_further b (a, n) al Hb)) as S. destruct H as [B K _ _ _ _ O C].
  split; cbn; [done|done|by right|done|..].
  - intros b Hb. destruct (S b Hb) as [S1 S2]. split; [|done]. cbn in S1. rewrite <- S1. apply size_frame. intros x Hx.
    apply Hkeep. exists b. split; [done|unfold bend; lia].
  - intros b c Hb Hc. destruct (decide (bend b <= c.1 \/ bend c <= b.1)) as [|Hn]; [done|exfalso].
    destruct (asc_lower _ _ _ L2 Hb) as [_ Hp]. destruct (S c Hc) as [_ Hp'].
    apply (Hno c Hc (Z.max b.1 c.1)); [unfold bend in *; lia|]. exists b. split; [done|unfold bend in *; lia].
  - intros i j b c Hb Hc Hij. apply (O (Datatypes.S i) (Datatypes.S j)); [done|done|lia].
  - intros x. rewrite C, L5, covers_cons. unfold bend. cbn. tauto.
Qed.
(** More memory from the kernel is a block at the end of the heap. *)
Lemma grow_ok lo brk s fl al nu : heap_upto lo brk s fl al -> um_freep s <> 0 -> lo <= brk -> 0 < nu -> brk + 16 * nu <= top ->
  heap_upto lo (brk + 16 * nu) (mk_ust (set_size brk nu (um_mem s)) (um_freep s)) fl ((brk, nu) :: al) /\
  keeps_blocks al s (mk_ust (set_size brk nu (um_mem s)) (um_freep s)).
Proof.
  intros H Hf Hlo Hnu Hmax. pose proof (ho_base _ _ _ _ _ H) as [B1 B2].
  assert (Hbelow : forall b, b ∈ fl \/ b ∈ al -> bend b <= brk /\ 0 < b.2) by (intros b Hb; destruct (ho_range _ _ _ _ _ b H Hb) as (_ & ? & ? & _); done).
  assert (Hsame : same_but brk (um_mem s) (set_size brk nu (um_mem s))) by (intros x Hx; by apply getb_set_size).
  assert (Happ : forall b, b ∈ fl \/ b ∈ al -> apart brk b.1) by (intros b Hb; destruct (Hbelow b Hb); right; unfold bend in *; lia).
  split.
  2:{ intros x (c & Hc & Hx). apply Hsame. destruct (Hbelow c (or_intror Hc)). lia. }
  destruct H as [B K L A S P O C]. destruct L as [[? _]|[(L1 & L2 & L3) Lz]]; [done|]. split; cbn; [done|lia| |done|..].
  - right. split; [|done]. split; [|split].
    + eapply seg_ext; [|exact L1]. intros x [->|Hx]%elem_of_cons; [apply (same_but_ptr brk); [done|right; lia]|].
      apply list_elem_of_fmap in Hx as (d & -> & Hd). apply (same_but_ptr brk); [done|apply Happ; by left].
    + rewrite (same_but_size brk (um_mem s)); [done|done|right; lia].
    + intros b Hb. rewrite (same_but_size brk (um_mem s)); [by apply L3|done|apply Happ; by left].
  - intros b [->|Hb]%elem_of_cons; [split; [apply get_size_set; cbn; lia|done]|]. destruct (S b Hb) as [S1 S2]. split; [|done].
    rewrite (same_but_size brk (um_mem s)); [done|done|apply Happ; by right].
  - intros b c Hb [->|Hc]%elem_of_cons; [left; by apply Hbelow; left|by apply P].
  - intros [|i] [|j] b c Hb Hc Hij; cbn in Hb, Hc; [done|..|apply (O i j); [done|done|lia]].
    + injection Hb as <-. right. apply Hbelow. right. by eapply list_elem_of_lookup_2.
    + injection Hc as <-. left. apply Hbelow. right. by eapply list_elem_of_lookup_2.
  - intros x. rewrite covers_cons. unfold bend. cbn. specialize (C x). split.
    + intros Hx. destruct (decide (x < brk)); [|right; left; lia]. destruct (proj1 C ltac:(lia)); tauto.
    + intros [Hx|[Hx|Hx]]; [|lia|]; [assert (lo <= x < brk) by tauto|assert (lo <= x < brk) by tauto]; lia.
Qed.

Lemma heap_ok_front lo brk s fl al i b : heap_upto lo brk s fl al -> al !! i = Some b -> heap_upto lo brk s fl (b :: delete i al).
Proof.
  intros [B K L A S P O C] Hi. assert (Hperm : b :: delete i al ≡ₚ al) by (symmetry; by apply delete_Permutation).
  assert (Hin : forall c, c ∈ b :: delete i al <-> c ∈ al) by (intros c; by rewrite Hperm).
  assert (Hcov : forall x, covers (b :: delete i al) x <-> covers al x) by (intros x; unfold covers; by setoid_rewrite Hin).
  assert (Hdel : forall j c, delete i al !! j = Some c -> exists j', al !! j' = Some c /\ j' <> i /\ j = (if (j' <? i)%nat then j' else pred j')).
  { intros j c Hj. destruct (decide (j < i)%nat) as [Hlt|Hge].
    - rewrite list_lookup_delete_lt in Hj by done. exists j. split; [done|]. split; [lia|]. by replace (j <? i)%nat with true by (symmetry; by apply Nat.ltb_lt).
    - rewrite list_lookup_delete_ge in Hj by lia. exists (Datatypes.S j). split; [done|]. split; [lia|].
      by replace (Datatypes.S j <? i)%nat with false by (symmetry; apply Nat.ltb_ge; lia). }
  split; try done.
  - destruct L as [(L1 & L2 & ->)|L]; [done|by right].
  - intros c Hc. apply S. by apply Hin.
  - intros c d Hc Hd. apply P; [done|]. by apply Hin.
  - intros [|j] [|k] c d Hc Hd Hjk; cbn in Hc, Hd; [done|..].
    + injection Hc as <-. destruct (Hdel _ _ Hd) as (k' & Hk' & Hne & _). by apply (O i k').
    + injection Hd as <-. destruct (Hdel _ _ Hc) as (j' & Hj' & Hne & _). by apply (O j' i).
    + destruct (Hdel _ _ Hc) as (j' & Hj' & _ & Ej). destruct (Hdel _ _ Hd) as (k' & Hk' & _ & Ek). apply (O j' k'); [done|done|intros ->; apply Hjk; by rewrite Ej, Ek].
  - intros x. by rewrite C, Hcov.
Qed.
Lemma ring_nonzero fl z : 0 < base -> asc (base + 15) fl -> z ∈ ring fl -> z <> 0.
Proof.
  intros Hb Ha [->|Hz]%elem_of_cons; [lia|]. apply list_elem_of_fmap in Hz as (b & -> & Hb'). destruct (asc_lower _ _ _ Ha Hb'). lia.
Qed.
Lemma keeps_blocks_trans al s1 s2 s3 : keeps_blocks al s1 s2 -> keeps_blocks al s2 s3 -> keeps_blocks al s1 s3.
Proof. intros H1 H2 x Hx. by rewrite H2, H1. Qed.
Lemma gives_keeps lo brk al nbytes s1 s2 r : keeps_blocks al s1 s2 -> gives lo brk al nbytes s2 r -> gives lo brk al nbytes s1 r.
Proof. intros Hk (p & nu & s' & fl' & E & Hn & H & Hk'). exists p, nu, s', fl'. split; [done|]. split; [done|]. split; [done|]. by eapply keeps_blocks_trans. Qed.

(** What malloc does when no free block is large enough: it asks the kernel. *)
Definition asks (lo brk : Z) (fl al : list block) (nbytes : Z) (s : ust) (r : prog (Z * ust)) : Prop :=
  exists n k, r = Call (Sbrk n) k /\ nbytes + 16 <= n < 2 ^ 31 /\
    (exists s', k (-1) = Ret (0, s') /\ heap_upto lo brk s' fl al /\ keeps_blocks al s s') /\
    (brk + n <= top -> gives lo (brk + n) al nbytes s (k brk)).
(** With a new block of [nu'] units at the break, malloc finds one of [nu] units. *)
Lemma grown_gives lo brk s fl al nu nu' nbytes fuel : heap_upto lo brk s fl al -> um_freep s <> 0 -> lo <= brk -> 0 < nu <= nu' ->
  nbytes + 16 <= 16 * nu -> brk + 16 * nu' <= top -> (S (length fl) < fuel)%nat ->
  exists s', free fuel (hadd brk 1) (mk_ust (set_size brk nu' (um_mem s)) (um_freep s)) = Some s' /\ um_freep s' <> 0 /\
    gives lo (brk + 16 * nu') al nbytes s (malloc_loop fuel nu (um_freep s') (get_ptr (um_mem s') (um_freep s')) s').
Proof.
  intros H Hf Hlo Hnu Hnb Hmax Hfuel. pose proof (ho_base _ _ _ _ _ H) as [B1 B2].
  destruct (grow_ok lo brk s fl al nu' H Hf Hlo) as [HG HK]; [lia|lia|].
  destruct (free_ok _ _ _ _ _ _ _ fuel HG) as (s' & fl' & E & H' & HK' & Hz & Hl & Hc); [lia|].
  exists s'. unfold hadd. replace (brk + 1 * sizeof_Header) with (brk + 16) by (unfold sizeof_Header; lia).
  pose proof (ring_nonzero fl' _ B1 (ho_asc _ _ _ _ _ H') Hz) as Hnz. split; [done|]. split; [done|].
  eapply gives_keeps; [eapply keeps_blocks_trans; [exact HK|exact HK']|].
  destruct (malloc_finds lo _ s' fl' al nu fuel nbytes H' Hnz) as [HF|[Hnone _]]; [lia|lia|lia|exact HF|].
  exfalso. destruct (covered_stretch _ fl' brk (brk + 16 * nu') (ho_asc _ _ _ _ _ H')) as (b & Hb & H1 & H2); [lia|intros x Hx; apply Hc; by right|].
  specialize (Hnone b Hb). unfold bend in H2. lia.
Qed.
Lemma morecore_asks lo brk s fl al nu nbytes fuel : heap_upto lo brk s fl al -> um_freep s <> 0 -> lo <= brk -> 0 < nu < 2 ^ 27 ->
  nbytes + 16 <= 16 * nu -> (S (length fl) < fuel)%nat -> asks lo brk fl al nbytes s (after_morecore fuel nu s).
Proof.
  intros H Hf Hlo Hnu Hnb Hfuel. unfold after_morecore, morecore. set (nu' := if nu <? 4096 then 4096 else nu).
  assert (Hnu' : nu <= nu' < 2 ^ 27 /\ 0 < nu') by (unfold nu'; bdestr (nu <? 4096); lia).
  assert (Es : s32 (nu' * sizeof_Header) = 16 * nu').
  { unfold sizeof_Header, s32, swrap. change (2 ^ 32) with 4294967296. change (2 ^ (32 - 1)) with 2147483648. change (2 ^ 27) with 134217728 in *.
    rewrite Z.mod_small by lia. bdestr (nu' * 16 <? 2147483648); lia. }
  rewrite Es. eexists (16 * nu'), _. split; [reflexivity|]. split; [lia|]. pose proof (ho_base _ _ _ _ _ H) as [B1 B2]. split.
  - exists s. split; [done|]. split; [done|]. by intros x.
  - intros Hmax. cbv beta. replace (brk =? -1) with false by lia.
    destruct (grown_gives lo brk s fl al nu nu' nbytes fuel H Hf Hlo ltac:(lia) Hnb Hmax Hfuel) as (s' & E & Hnz & HG).
    cbn. rewrite E. cbn. by replace (um_freep s' =? 0) with false by lia.
Qed.
(** A block whose size does not fit an int: the kernel is asked for 2^32 bytes less. *)
Lemma morecore_wraps lo brk s fl al nu nbytes fuel : heap_upto lo brk s fl al -> um_freep s <> 0 -> lo <= brk -> 2 ^ 27 <= nu <= 2 ^ 28 + 1 ->
  nbytes + 16 <= 16 * nu -> brk + 16 * nu <= top -> (S (length fl) < fuel)%nat ->
  exists k, after_morecore fuel nu s = Call (Sbrk (16 * nu - 2 ^ 32)) k /\ k (-1) = Ret (0, s) /\ gives lo (brk + 16 * nu) al nbytes s (k brk).
Proof.
  intros H Hf Hlo Hnu Hnb Hmax Hfuel. unfold after_morecore, morecore. replace (nu <? 4096) with false by lia.
  assert (Es : s32 (nu * sizeof_Header) = 16 * nu - 2 ^ 32).
  { unfold sizeof_Header, s32, swrap. change (2 ^ 32) with 4294967296. change (2 ^ (32 - 1)) with 2147483648. change (2 ^ 27) with 134217728 in *. change (2 ^ 28) with 268435456 in *.
    destruct (decide (nu * 16 < 4294967296)); [rewrite Z.mod_small by lia; bdestr (nu * 16 <? 2147483648); lia|].
    replace (nu * 16) with (nu * 16 - 4294967296 + 1 * 4294967296) by lia. rewrite Z.mod_add, Z.mod_small by lia. bdestr (nu * 16 - 4294967296 <? 2147483648); lia. }
  rewrite Es. eexists. split; [reflexivity|]. split; [done|]. pose proof (ho_base _ _ _ _ _ H) as [B1 B2]. cbv beta. replace (brk =? -1) with false by lia.
  destruct (grown_gives lo brk s fl al nu nu nbytes fuel H Hf Hlo ltac:(lia) Hnb Hmax Hfuel) as (s' & E & Hnz & HG).
  cbn. rewrite E. cbn. by replace (um_freep s' =? 0) with false by lia.
Qed.
End Ring.
(** The heap of a process: its memory ends below 2^31. *)
Abbreviation heap_ok base := (heap_upto base (2 ^ 31)).
Lemma heap_upto_weaken base top lo brk s fl al : heap_ok base lo brk s fl al -> 2 ^ 31 <= top <= 2 ^ 35 -> heap_upto base top lo brk s fl al.
Proof. intros [B K L A S P O C] Ht. split; [exact B|lia|exact L|exact A|exact S|exact P|exact O|exact C]. Qed.

(** ** What is covered determines the list *)
Lemma asc_first lo b fl x : asc lo (b :: fl) -> covers (b :: fl) x -> b.1 <= x.
Proof.
  intros (H1 & H2 & H3) [H|(c & Hc & Hx)]%covers_cons; [lia|]. destruct (asc_lower _ _ _ H3 Hc). unfold bend in *. lia.
Qed.
Lemma asc_gap lo b fl : asc lo (b :: fl) -> ~ covers (b :: fl) (bend b).
Proof.
  intros (H1 & H2 & H3) [H|(c & Hc & Hx)]%covers_cons; [lia|]. destruct (asc_lower _ _ _ H3 Hc). lia.
Qed.
Lemma asc_covered_end lo lo' b c f g : asc lo (b :: f) -> asc lo' (c :: g) -> b.1 = c.1 ->
  (forall x, covers (b :: f) x -> covers (c :: g) x) -> bend b <= bend c.
Proof.
  intros Hb Hc E H. destruct (decide (bend b <= bend c)) as [|Hn]; [done|exfalso]. apply (asc_gap _ _ _ Hc), H, covers_cons. left.
  destruct Hc as (_ & Hp & _). unfold bend in *. lia.
Qed.
Lemma asc_unique f : forall g lo lo', asc lo f -> asc lo' g -> (forall x, covers f x <-> covers g x) -> f = g.
Proof.
  induction f as [|b f IH]; intros [|c g] lo lo' Hf Hg H.
  - done.
  - exfalso. apply (covers_nil c.1), H, covers_cons. left. destruct Hg as (_ & ? & _). unfold bend. lia.
  - exfalso. apply (covers_nil b.1), H, covers_cons. left. destruct Hf as (_ & ? & _). unfold bend. lia.
  - assert (Hb : covers (b :: f) b.1) by (apply covers_cons; left; destruct Hf as (_ & ? & _); unfold bend; lia).
    assert (Hc : covers (c :: g) c.1) by (apply covers_cons; left; destruct Hg as (_ & ? & _); unfold bend; lia).
    assert (E1 : b.1 = c.1) by (pose proof (asc_first _ _ _ _ Hg (proj1 (H _) Hb)); pose proof (asc_first _ _ _ _ Hf (proj2 (H _) Hc)); lia).
    assert (E2 : bend b = bend c).
    { pose proof (asc_covered_end _ _ _ _ _ _ Hf Hg E1 (fun x => proj1 (H x))). pose proof (asc_covered_end _ _ _ _ _ _ Hg Hf (eq_sym E1) (fun x => proj2 (H x))). lia. }
    assert (b = c) as <- by (destruct b, c; unfold bend in E2; cbn in *; f_equal; lia).
    destruct Hf as (F1 & F2 & F3), Hg as (G1 & G2 & G3). f_equal. apply (IH g _ _ F3 G3). intros x. specialize (H x). rewrite !covers_cons in H. split; intros Hx.
    + assert (bend b < x) by (destruct Hx as (d & Hd & Hx); destruct (asc_lower _ _ _ F3 Hd); lia). destruct (proj1 H ltac:(by right)); [lia|done].
    + assert (bend b < x) by (destruct Hx as (d & Hd & Hx); destruct (asc_lower _ _ _ G3 Hd); lia). destruct (proj2 H ltac:(by right)); [lia|done].
Qed.
Lemma heap_ok_unique base lo brk s s' fl fl' al : heap_ok base lo brk s fl al -> heap_ok base lo brk s' fl' al -> fl = fl'.
Proof.
  intros H H'. apply (asc_unique _ _ _ _ (ho_asc _ _ _ _ _ _ _ H) (ho_asc _ _ _ _ _ _ _ H')). intros x.
  assert (Hno : forall s0 f, heap_ok base lo brk s0 f al -> covers f x -> ~ covers al x).
  { intros s0 f H0 (b & Hb & Hx) (c & Hc & Hx'). destruct (ho_apart _ _ _ _ _ _ _ H0 b c Hb Hc); lia. }
  pose proof (Hno _ _ H). pose proof (Hno _ _ H'). pose proof (ho_cover _ _ _ _ _ _ _ H x). pose proof (ho_cover _ _ _ _ _ _ _ H' x). tauto.
Qed.

(** ** malloc and free *)
Lemma units_enough nbytes : 0 <= nbytes < 2 ^ 31 - 32 -> 0 < units nbytes < 2 ^ 27 /\ nbytes + 16 <= 16 * units nbytes.
Proof.
  intros H. unfold units, sizeof_Header, u32. change (2 ^ 31) with 2147483648 in *. change (2 ^ 32) with 4294967296. change (2 ^ 27) with 134217728.
  rewrite Z.mod_small by lia. lia.
Qed.
(** malloc sets up the ring if there is none. *)
Lemma malloc_start base lo brk s fl al nbytes fuel : heap_ok base lo brk s fl al -> lo <= brk ->
  exists s0, heap_ok base lo brk s0 fl al /\ um_freep s0 <> 0 /\ keeps_blocks al s s0 /\
    malloc base fuel nbytes s = malloc_loop fuel (units nbytes) (um_freep s0) (get_ptr (um_mem s0) (um_freep s0)) s0.
Proof.
  intros H Hlo. pose proof (ho_base _ _ _ _ _ _ _ H) as [B1 B2]. unfold malloc. bdestr (um_freep s =? 0); [|exists s; split_and!; [done|done|by intros x|done]].
  exists (mk_ust (set_size base 0 (set_ptr base base (um_mem s))) base).
  destruct H as [B K L A S P O C]. destruct L as [(L1 & -> & ->)|[_ L]]; [|by destruct (ring_nonzero base fl _ B1 A L)].
  split; [|split; [cbn; lia|split; [by intros x ?%covers_nil|done]]].
  split; [done|done| |done|by intros b ?%elem_of_nil|done|done|done]. right. split; [|by left]. assert (lo <= 2 ^ 31) by lia. split; [|split].
  - apply seg_nil. cbn. rewrite get_ptr_set_size by (by left). apply get_ptr_set. lia.
  - cbn. by apply get_size_set.
  - by intros b ?%elem_of_nil.
Qed.
Lemma malloc_spec base lo brk s fl al nbytes fuel : heap_ok base lo brk s fl al -> lo <= brk -> 0 <= nbytes < 2 ^ 31 - 32 -> (2 * length fl + 2 < fuel)%nat ->
  gives base (2 ^ 31) lo brk al nbytes s (malloc base fuel nbytes s) \/
  (forall b, b ∈ fl -> b.2 < units nbytes) /\ asks base (2 ^ 31) lo brk fl al nbytes s (malloc base fuel nbytes s).
Proof.
  intros H Hlo Hn Hfuel. destruct (units_enough nbytes Hn) as [Hu Hnb].
  destruct (malloc_start base lo brk s fl al nbytes fuel H Hlo) as (s0 & H0 & Hf & Hk & ->).
  destruct (malloc_finds base _ lo brk s0 fl al (units nbytes) fuel nbytes H0 Hf) as [HG|[Hno (fuel' & Hf' & Er)]]; [lia|done|lia|left; by eapply gives_keeps|].
  right. split; [done|]. rewrite Er. destruct (morecore_asks base (2 ^ 31) lo brk s0 fl al (units nbytes) nbytes fuel') as (n & k & Ek & Hn' & (s' & E1 & E2 & E3) & E4); try done; [lia|].
  exists n, k. split; [done|]. split; [done|]. split; [exists s'; split; [done|]; split; [done|]; by eapply keeps_blocks_trans|].
  intros Hmax. eapply gives_keeps; [exact Hk|]. by apply E4.
Qed.

(** C26. malloc allocates: for a request of less than 2^31 - 32 bytes it terminates;
    if some free block is large enough it returns the address of a block, with at
    least [nbytes] bytes after its header, that overlaps no block in use; if none
    is, it asks the kernel for more memory, returns such a block when it gets it,
    and 0 with the heap as it was when it does not.  The blocks in use keep their
    contents, and free blocks and blocks in use still make up the heap exactly. *)
Theorem malloc_allocates base lo brk s fl al nbytes fuel :
  heap_ok base lo brk s fl al -> lo <= brk -> 0 <= nbytes < 2 ^ 31 - 32 -> (2 * length fl + 2 < fuel)%nat ->
  gives base (2 ^ 31) lo brk al nbytes s (malloc base fuel nbytes s) \/
  (forall b, b ∈ fl -> b.2 < units nbytes) /\ asks base (2 ^ 31) lo brk fl al nbytes s (malloc base fuel nbytes s).
Proof. apply malloc_spec. Qed.

(** C27. free gives a block back: for a block in use it terminates, afterwards the
    block is free and merged with the free blocks next to it, and the other
    blocks in use keep their contents. *)
Theorem free_gives_back base lo brk s fl al i a n fuel :
  heap_ok base lo brk s fl al -> al !! i = Some (a, n) -> (length fl < fuel)%nat ->
  exists s' fl', free fuel (a + 16) s = Some s' /\ heap_ok base lo brk s' fl' (delete i al) /\ keeps_blocks (delete i al) s s' /\
    forall x, covers fl' x <-> covers fl x \/ a <= x < a + 16 * n.
Proof.
  intros H Hi Hfuel. destruct (free_ok base (2 ^ 31) lo brk s fl a n (delete i al) fuel) as (s' & fl' & E & H' & HK & _ & _ & Hc); [by apply heap_ok_front|done|].
  by exists s', fl'.
Qed.

(** C28. Freeing what malloc returned restores the free list: if malloc finds a block
    without asking the kernel, free of that block leaves the same list of free
    blocks as before, so that nothing is fragmented. *)
Theorem malloc_free_restores base lo brk s fl al nbytes fuel p s1 :
  heap_ok base lo brk s fl al -> lo <= brk -> 0 <= nbytes < 2 ^ 31 - 32 -> (2 * length fl + 2 < fuel)%nat ->
  malloc base fuel nbytes s = Ret (p, s1) ->
  exists n, forall fuel', (n < fuel')%nat -> exists s2, free fuel' p s1 = Some s2 /\ heap_ok base lo brk s2 fl al.
Proof.
  intros H Hlo Hn Hfuel Em. destruct (malloc_spec base lo brk s fl al nbytes fuel H Hlo Hn Hfuel) as [HG|[_ HA]]; rewrite Em in *.
  2:{ destruct HA as (n & k & ? & _). done. }
  destruct HG as (a & nu & s' & fl' & E & _ & H' & _). injection E as -> ->. exists (length fl'). intros fuel' Hf.
  destruct (free_ok _ _ _ _ _ _ _ _ _ fuel' H' Hf) as (s2 & fl2 & E2 & H2 & _). exists s2. split; [done|].
  by rewrite (heap_ok_unique _ _ _ _ _ _ _ _ H H2).
Qed.

(** C29. A request of 2^31 - 31 bytes or more wraps: the number of bytes is passed to
    sbrk as an int, so that on any heap malloc asks for 2^32 bytes less than the
    size of the block it needs, which is at most 16 bytes and mostly negative.
    For more than 2^32 - 16 bytes, as malloc(2^32 - 1) asks for, it is 16; when
    the kernel gives these, malloc returns a block that it records as large
    enough, and that reaches past the end of the process's memory.  When the
    kernel gives none, malloc returns 0 with the heap as it was. *)
Theorem malloc_wraps base lo brk s fl al nbytes fuel :
  heap_ok base lo brk s fl al -> lo <= brk -> 2 ^ 31 - 31 <= nbytes < 2 ^ 32 -> (2 * length fl + 2 < fuel)%nat ->
  exists k, malloc base fuel nbytes s = Call (Sbrk (16 * units nbytes - 2 ^ 32)) k /\ 16 * units nbytes - 2 ^ 32 <= 16 /\
    (exists s', k (-1) = Ret (0, s') /\ heap_ok base lo brk s' fl al /\ keeps_blocks al s s') /\
    (2 ^ 32 - 16 < nbytes -> 16 * units nbytes - 2 ^ 32 = 16 /\
       exists p nu s', k brk = Ret (p + 16, s') /\ get_size (um_mem s') p = nu /\ nbytes + 16 <= 16 * nu /\ lo <= p /\ brk + 16 < p + 16 * nu).
Proof.
  intros H Hlo Hn Hfuel. pose proof (ho_base _ _ _ _ _ _ _ H) as [B1 B2]. pose proof (ho_brk _ _ _ _ _ _ _ H) as [K1 _].
  assert (Hu : 2 ^ 27 <= units nbytes <= 2 ^ 28 + 1 /\ nbytes + 16 <= 16 * units nbytes /\ (2 ^ 32 - 16 < nbytes -> units nbytes = 2 ^ 28 + 1)).
  { clear - Hn. unfold units, sizeof_Header, u32. change (2 ^ 31) with 2147483648 in *. change (2 ^ 32) with 4294967296 in *. change (2 ^ 27) with 134217728.
    change (2 ^ 28) with 268435456. rewrite Z.mod_small by lia. lia. }
  destruct Hu as (Hu & Hnb & Hmost). destruct (malloc_start base lo brk s fl al nbytes fuel H Hlo) as (s0 & H0 & Hf & Hk & ->).
  destruct (malloc_finds base _ lo brk s0 fl al (units nbytes) fuel nbytes H0 Hf) as [HG|[_ (fuel' & Hf' & ->)]]; [lia|done|lia|..].
  { exfalso. destruct HG as (p & nu & s' & fl' & _ & Hnu & H' & _). destruct (ho_range _ _ _ _ _ _ _ (p, nu) H' ltac:(right; by left)) as (R1 & R2 & _).
    unfold bend in R2. cbn in R1, R2. lia. }
  destruct (morecore_wraps base (2 ^ 35) lo brk s0 fl al (units nbytes) nbytes fuel') as (k & Ek & E1 & p & nu & s' & fl' & E2 & Hnu & H' & _);
    [apply heap_upto_weaken; [exact H0|lia]|done|done|done|done|lia|lia|].
  exists k. split; [exact Ek|]. split; [lia|]. split; [exists s0; split; [exact E1|split; [exact H0|exact Hk]]|]. intros Hbig.
  destruct (ho_range _ _ _ _ _ _ _ (p, nu) H' ltac:(right; by left)) as (R1 & _). destruct (ho_size _ _ _ _ _ _ _ H' (p, nu) ltac:(by left)) as [Hsz _].
  cbn in R1, Hsz. split; [rewrite (Hmost Hbig); lia|]. exists p, nu, s'. split; [exact E2|]. split; [exact Hsz|]. split; [exact Hnu|]. split; [exact R1|]. lia.
Qed.

(** ** A heap with one free block and one in use *)
Definition wheap : ust :=
  mk_ust (set_size 0x2020 3 (set_size 0x2000 2 (set_ptr 0x2000 0x1000 (set_size 0x1000 0 (set_ptr 0x1000 0x2000 ∅))))) 0x1000.
Lemma wheap_ok : heap_ok 0x1000 0x2000 0x2050 wheap [(0x2000, 2)] [(0x2020, 3)].
Proof.
  assert (Hone : forall (x b : block), x ∈ [b] -> x = b) by (intros x b; by rewrite list_elem_of_singleton).
  split.
  - lia.
  - lia.
  - right. split; [split; [|split]|by left]; [vm_compute; reflexivity..|]. intros b ->%Hone. vm_compute. reflexivity.
  - cbn. lia.
  - intros b ->%Hone. split; [vm_compute; reflexivity|cbn; lia].
  - intros b c ->%Hone ->%Hone. left. vm_compute. discriminate.
  - intros [|i] [|j] b c Hb Hc Hij; cbn in Hb, Hc; done.
  - intros x. rewrite !covers_cons, !covers_nil. unfold bend. cbn. lia.
Qed.
Lemma malloc_allocates_witness : gives 0x1000 (2 ^ 31) 0x2000 0x2050 [(0x2020, 3)] 16 wheap (malloc 0x1000 5 16 wheap).
Proof.
  destruct (malloc_allocates 0x1000 0x2000 0x2050 wheap [(0x2000, 2)] [(0x2020, 3)] 16 5) as [H|[H _]].
  - exact wheap_ok.
  - lia.
  - lia.
  - cbn. lia.
  - exact H.
  - exfalso. specialize (H (0x2000, 2) ltac:(by left)). vm_compute in H. discriminate.
Defined.
Lemma malloc_wraps_witness : exists k p nu s', malloc 0x1000 5 (2 ^ 32 - 1) wheap = Call (Sbrk 16) k /\
  k 0x2050 = Ret (p + 16, s') /\ get_size (um_mem s') p = nu /\ 2 ^ 32 + 15 <= 16 * nu.
Proof.
  destruct (malloc_wraps 0x1000 0x2000 0x2050 wheap [(0x2000, 2)] [(0x2020, 3)] (2 ^ 32 - 1) 5) as (k & E & _ & _ & Hb).
  - exact wheap_ok.
  - lia.
  - lia.
  - cbn. lia.
  - destruct (Hb ltac:(lia)) as (_ & p & nu & s' & H1 & H2 & H3 & _). exists k, p, nu, s'. split; [exact E|]. split; [exact H1|]. split; [exact H2|lia].
Defined.
Lemma free_gives_back_witness : exists s' fl', free 3 0x2030 wheap = Some s' /\ heap_ok 0x1000 0x2000 0x2050 s' fl' [].
Proof.
  destruct (free_gives_back 0x1000 0x2000 0x2050 wheap [(0x2000, 2)] [(0x2020, 3)] 0 0x2020 3 3) as (s' & fl' & E & H & _).
  - exact wheap_ok.
  - reflexivity.
  - cbn. lia.
  - exists s', fl'. split; [exact E|exact H].
Defined.
Lemma malloc_free_restores_witness : exists p s1 n, malloc 0x1000 5 16 wheap = Ret (p, s1) /\
  forall fuel, (n < fuel)%nat -> exists s2, free fuel p s1 = Some s2 /\ heap_ok 0x1000 0x2000 0x2050 s2 [(0x2000, 2)] [(0x2020, 3)].
Proof.
  assert (Hm : exists p s1, malloc 0x1000 5 16 wheap = Ret (p + 16, s1)).
  { destruct (malloc_spec 0x1000 0x2000 0x2050 wheap [(0x2000, 2)] [(0x2020, 3)] 16 5 wheap_ok) as [(p & nu & s1 & fl' & E & _)|[H _]];
      [lia|lia|cbn; lia|by exists p, s1|]. exfalso. specialize (H (0x2000, 2) ltac:(by left)). vm_compute in H. discriminate. }
  destruct Hm as (p & s1 & E).
  destruct (malloc_free_restores 0x1000 0x2000 0x2050 wheap [(0x2000, 2)] [(0x2020, 3)] 16 5 (p + 16) s1) as [n Hn].
  - exact wheap_ok.
  - lia.
  - lia.
  - cbn. lia.
  - exact E.
  - exists (p + 16), s1, n. split; [exact E|exact Hn].
Defined.
